(* ===== verification/_CoqProject ===== *)
-Q . S2P
Prelude.v
Memory.v
Pmm.v
Vmm.v
Heap.v
SchedState.v
Process.v
Thread.v
Scheduler.v
Idt.v
Interrupt.v
Device.v
Fs.v
Mounts.v
FsFiles.v
Pci.v
PciBars.v
PciScan.v
PciSample.v
Hal.v
Kernel.v
