(* ===== verification/Prelude.v ===== *)
(** * FG-OS kernel: a verification library

    FG-OS is a monolithic x86_64 kernel written in C.  This library models its
    memory management, its processes, threads and scheduler, its interrupt
    handling, its device framework, its file systems, its PCI bus driver, its
    hardware abstraction layer and the boot that puts them together as executable
    definitions, and proves what those parts do.

    ** The program and its parts

    The physical memory manager (kernel/mm/pmm.c) owns a bitmap of page frames
    that lives in the memory it hands out.  The virtual memory manager
    (kernel/mm/vmm.c) takes frames from it for four-level page tables.  The heap
    (kernel/mm/heap.c) carves a fixed region into blocks with headers in that
    region.  Processes (kernel/sched/process.c) and threads
    (kernel/sched/thread.c) are control blocks allocated from the heap and kept
    on linked lists; the scheduler (kernel/sched/scheduler.c) queues the same
    thread blocks through the same link field as the global thread list.  The
    interrupt manager (kernel/interrupt/idt.c, interrupt.c) fills the descriptor
    table, dispatches every interrupt, counts it, and drives the scheduler from
    the timer.  The device framework (kernel/drivers/device.c) keeps lists of
    drivers and devices, calls the drivers' entry points, and queues I/O requests
    allocated from the heap.  The virtual file system (kernel/fs/fs.c) keeps the
    mount table and passes each operation to the driver of the mount (fgfs.c,
    fat32.c, ext4.c).  The PCI driver (kernel/drivers/bus/pci.c) reads the
    configuration space through two ports and registers each function it finds
    with the device framework.  The abstraction layer (kernel/hal/) reports what
    it detects and counts its calls.  [kernel_start] (kernel/src/main.c)
    initializes all of them in order and panics (panic.c) when one fails.

    ** Files

    - [Prelude]: record updates, machine integers, bit lemmas, counted loops,
      the [prog] monad of stateful code with its weakest preconditions ([wp]: the
      program returns and its result satisfies the postcondition) and its
      invariants ([keeps]), hint databases and tactics.
    - [Memory]: the byte memory; mm/memory_utils.c and src/string_stubs.c.
    - [Pmm]: mm/pmm.c.  State [pmm] (the statics and the memory), one definition
      per function; class [PageAllocator], the interface the virtual memory
      manager is proved against.
    - [Vmm]: mm/vmm.c over any [PageAllocator]; instance [pmm_allocator].
    - [Heap]: mm/heap.c over the bytes of the heap; class [KAlloc], the interface
      of [kmalloc] and [kfree] for the components below, with the instance
      [heap_kalloc].
    - [SchedState]: the control blocks of sched/scheduler.h, the statics of the
      three files of sched/, and linked lists in a store of records.
    - [Process], [Thread], [Scheduler]: sched/process.c, sched/thread.c,
      sched/scheduler.c.
    - [Idt], [Interrupt]: interrupt/idt.c, interrupt/interrupt.c.
    - [Device]: drivers/device.c.
    - [Fs]: fs/fs.c, fgfs.c, fat32.c and ext4.c over one store of allocated
      objects; [Mounts]: the invariant of the mount table and what mounting,
      unmounting and path resolution do; [FsFiles]: positions, open files and the
      on-disk superblock.
    - [Pci]: drivers/bus/pci.c over the state of [Device], class [Ports] for the
      port instructions and class [ConfigMechanism] for the hardware behind them;
      [PciBars]: layouts of base address registers and their probe; [PciScan]:
      probing one function, the scan of all buses, shutdown; [PciSample]: a small
      machine with one network card.
    - [Hal]: hal/hal.c and x86_64_hal.c.
    - [Kernel]: src/main.c, boot.c and panic.c; state [kernel], one physical memory
      under the memory managers and one heap under the scheduler and the device
      framework; [on_vm], [on_sched], [on_dev], ... run a component's operation.

    Pure code is a function; code that follows pointers is a [prog], which ends
    in a value and a new state, in [Fault] (a NULL or dangling pointer is
    dereferenced, an index is out of bounds), in [Halted] (the processor stops)
    or in [Diverge] (a loop that does not end).  Unsigned integers are [Z] with
    their wrap-around written out ([u8] to [u64]).  Where aliasing between a data
    structure and the memory it manages matters (bitmap, page tables, heap
    headers) the model is the flat byte memory; control blocks, devices and
    requests are records in stores keyed by their address, from which freeing
    removes them.

    ** What is shown

    - [Pmm]: unless page 0 is free, no interleaving of allocations, client writes
      and frees breaks the allocator; allocation refines taking the least free page, contiguous
      allocation the first fit; initialization frees exactly the available pages.
    - [Memory]: [memory_copy] is a memmove, [memory_set] refines the bytewise
      [memset], the checksum sees every single-byte change, alignment and its
      overflow.
    - [Vmm]: mapping, unmapping and protecting a page change exactly that page's
      translation; mapping fails only when the allocator has fewer pages than
      tables are missing, and failures change no mapping; initialization maps the
      kernel.
    - [Heap]: in every state reached by requests below 2^63 bytes the blocks tile
      the heap and carry their magic; allocation is first fit with splitting,
      freeing coalesces, and [krealloc] on each branch; what a larger size, which
      overflows, does.
    - [Process], [Thread]: creation and destruction on every branch, with the
      lists, counters and exactly which blocks go back to the allocator; what
      destroying a parent does to its children.
    - [Scheduler]: [schedule] on every branch, what a yield, a tick and the
      sleep queue do, and what the link field shared with the thread list breaks.
    - [Idt], [Interrupt]: the gates after initialization, the counters in every
      run, nesting of critical sections, termination of [timer_sleep_ms].
    - [Device]: in every reachable state lists, flags and counters agree, and each
      call but a transfer or a queue pass returns and refines an operation of an
      abstract registry, which a transfer or pass that returns leaves alone;
      registration on every branch; statistics; what requests, unregistration and life-cycle cycles
      leave behind.
    - [Mounts], [FsFiles]: mounting (when it succeeds, while the table has a free
      slot) and unmounting, without a leak on any failure path, and as a round trip; resolution takes the longest
      prefix; shutdown frees everything; seeking in bounds; what an unmount does
      to open files; the counts of a fresh FGFS superblock.
    - [Pci], [PciBars], [PciScan]: a configuration access reads exactly the bytes of
      its register; the probe recovers every legal layout of base address
      registers and restores them; enumeration terminates on any hardware and
      registers only functions that are present, all of them unless an allocation
      fails; what shutdown leaves in the framework.
    - [Hal]: every sequence of calls refines a view of status, call count and clock;
      the stress test ends after exactly 500 operations per second.
    - [Kernel]: the boot sequence fails with the memory map it passes itself; the
      heap it sets up is not mapped; the main loop hangs in a critical section.

    ** Fuel

    A loop over a linked list gets one step more than there are records in its
    store (heap: than bytes in the heap), so that [Diverge] means that the walk
    revisits a record and never ends; the theorems that a function returns show
    that its walks stay within that bound.  Searches of bitmaps and arrays are
    bounded by their length, as in the code.  The busy waits of [timer_sleep_ms]
    and of synchronous transfers take the list of the interrupts that arrive.  The
    BAR probe gets 7 steps for 6 registers; the stress test and the wait for the
    keyboard controller take their fuel as an argument, and the theorem on the
    former says how much is enough.

    ** Parameters

    Code outside the repository is an argument: handlers registered by clients,
    [scheduler_is_enabled] and the addresses the linker fixes (Idt, Interrupt);
    the error numbers, the millisecond clock, the drivers' entry points and
    completion callbacks (Device); the time stamps, the contents of fresh memory
    and the cache flush (Fs); the port instructions and the hardware (Pci); the
    polls at which the timer fires and the keyboard controller (Kernel).  What a
    theorem needs of them is a named hypothesis or a class ([Polite], [ErrnoLaws],
    [FsLaws], [ConfigMechanism]), with a concrete instance in the witnesses.

    ** Not modelled

    Printing ([kprintf] and the functions that only print) has no effect on the
    state and is left out, as are the stubs with an empty body.  The tests, the
    console stub, the boot assembly and the headers without an implementation
    (ata.h, keyboard.h, syscall.h) hold no logic of the kernel's own.  In [Kernel]
    the heap's bytes are not translated through the page tables: whether they are
    mapped is a theorem of its own.  Saving and restoring registers at a context
    switch is a comment in the code, so no register moves in the model. *)
From stdpp Require Export base tactics numbers list gmap strings relations.
Local Open Scope Z_scope.

(** ** Record updates

    [r <| f := v |>] is the record [r] with field [f] set to [v], the model of
    an assignment [r->f = v].  A record opts in with an [Eta] instance. *)
Class Eta (R : Type) := eta : R → R.
Class Setter {R E : Type} (f : R → E) := fset : E → R → R.

Ltac build_setter :=
  lazymatch goal with
  | |- @Setter ?R ?E ?f =>
      let i := constr:(_ : Eta R) in
      exact (fun (v : E) (r : R) => ltac:(
        let b := eval hnf in (i r) in
        match b with
        | context C [f r] => let b' := context C [v] in exact b'
        end))
  end.
#[export] Hint Extern 1 (Setter _) => build_setter : typeclass_instances.

Declare Scope fgos_scope.
Delimit Scope fgos_scope with fgos.
Notation "r <| f := v |>" := (fset (f:=f) v r)
  (at level 1, left associativity, f at level 9, v at level 200,
   format "r <| f  :=  v |>") : fgos_scope.
#[global] Open Scope fgos_scope.

(** ** Machine integers

    A [w]-bit unsigned integer of the source is a [Z] kept in [0, 2^w) by the
    wrap-around functions below; [uint8_t], [uint16_t], [uint32_t] and
    [uint64_t] ([size_t], addresses) of include/types.h. *)
Definition u8 (x : Z) : Z := x mod 2 ^ 8.
Definition u16 (x : Z) : Z := x mod 2 ^ 16.
Definition u32 (x : Z) : Z := x mod 2 ^ 32.
Definition u64 (x : Z) : Z := x mod 2 ^ 64.

(** Two's complement reading of a 64-bit pattern ([int64_t], [ssize_t]). *)
Definition s64 (x : Z) : Z :=
  let y := u64 x in if y <? 2 ^ 63 then y else y - 2 ^ 64.

Definition PAGE_SHIFT : Z := 12.
Definition PAGE_SIZE : Z := Z.shiftl 1 PAGE_SHIFT.

(** Boolean view of a C condition [x & mask]. *)
Definition has_bits (x mask : Z) : bool := negb (Z.land x mask =? 0).

Ltac width := unfold u8, u16, u32, u64 in *.

Lemma u8_range x : 0 ≤ u8 x < 256.
Proof. unfold u8. apply Z.mod_pos_bound. lia. Qed.

Lemma u32_range x : 0 ≤ u32 x < 2 ^ 32.
Proof. unfold u32. apply Z.mod_pos_bound. lia. Qed.

Lemma u64_range x : 0 ≤ u64 x < 2 ^ 64.
Proof. unfold u64. apply Z.mod_pos_bound. lia. Qed.

Lemma u8_small x : 0 ≤ x < 256 → u8 x = x.
Proof. intros. unfold u8. apply Z.mod_small. lia. Qed.

Lemma u16_small x : 0 ≤ x < 2 ^ 16 → u16 x = x.
Proof. intros. unfold u16. by apply Z.mod_small. Qed.

Lemma u32_small x : 0 ≤ x < 2 ^ 32 → u32 x = x.
Proof. intros. unfold u32. by apply Z.mod_small. Qed.

Lemma u64_small x : 0 ≤ x < 2 ^ 64 → u64 x = x.
Proof. intros. unfold u64. by apply Z.mod_small. Qed.

Lemma u8_idemp x : u8 (u8 x) = u8 x.
Proof. apply u8_small, u8_range. Qed.

Create HintDb fgos.
#[export] Hint Resolve u8_range u32_range u64_range : fgos.

Lemma triple_eq {A B C} (a : A) (b b' : B) (c c' : C) :
  b = b' → c = c' → (a, b, c) = (a, b', c').
Proof. by intros -> ->. Qed.

(** ** Bit lemmas *)

Lemma testbit_above w x i :
  0 ≤ x < 2 ^ w → 0 ≤ w ≤ i → Z.testbit x i = false.
Proof.
  intros Hx Hi. rewrite <- (Z.mod_small x (2 ^ w)) by lia.
  by apply Z.mod_pow2_bits_high.
Qed.

Lemma mod_pow2_testbit w x i :
  0 ≤ w → 0 ≤ i → Z.testbit (x mod 2 ^ w) i = bool_decide (i < w) && Z.testbit x i.
Proof.
  intros Hw Hi. case_bool_decide.
  - rewrite Z.mod_pow2_bits_low by lia. done.
  - rewrite Z.mod_pow2_bits_high by lia. done.
Qed.

Lemma testbit_pow2 n i : 0 ≤ n → Z.testbit (Z.shiftl 1 n) i = bool_decide (i = n).
Proof.
  intros Hn. rewrite Z.shiftl_1_l. case_bool_decide; subst.
  - by apply Z.pow2_bits_true.
  - by apply Z.pow2_bits_false.
Qed.

(** A single-bit mask tests exactly that bit. *)
Lemma has_bits_single x n :
  0 ≤ n → has_bits x (Z.shiftl 1 n) = Z.testbit x n.
Proof.
  intros Hn. unfold has_bits. destruct (Z.eqb_spec (Z.land x (Z.shiftl 1 n)) 0) as [E|E].
  - apply (f_equal (λ z, Z.testbit z n)) in E.
    rewrite Z.land_spec, testbit_pow2, bool_decide_true, Z.testbit_0_l, andb_true_r in E by done.
    by rewrite E.
  - simpl. destruct (Z.testbit x n) eqn:Hb; [done|]. exfalso. apply E.
    apply Z.bits_inj'. intros i _.
    rewrite Z.land_spec, testbit_pow2, Z.testbit_0_l by done.
    case_bool_decide; subst; rewrite ?Hb; by rewrite ?andb_false_r.
Qed.

(** Masking with the complement of a low mask rounds down to a multiple. *)
Lemma land_lnot_ones x n : 0 ≤ n → Z.land x (Z.lnot (Z.ones n)) = x - x mod 2 ^ n.
Proof.
  intros Hn. rewrite <- Z.ldiff_land, Z.ldiff_ones_r by done.
  rewrite Z.shiftl_mul_pow2, Z.shiftr_div_pow2 by done.
  pose proof (Z.div_mod x (2 ^ n) ltac:(apply Z.pow_nonzero; lia)). lia.
Qed.

(** A 64-bit value only sees the low 64 bits of a mask. *)
Lemma land_u64_r x y : 0 ≤ x < 2 ^ 64 → Z.land x (u64 y) = Z.land x y.
Proof.
  intros Hx. apply Z.bits_inj'. intros i Hi. unfold u64.
  rewrite !Z.land_spec, mod_pow2_testbit by lia.
  case_bool_decide; [done|]. by rewrite (testbit_above 64 x i) by lia.
Qed.

(** [x & ~(2^n - 1)] on 64 bits. *)
Lemma land_align_mask x n :
  0 ≤ x < 2 ^ 64 → 0 ≤ n → Z.land x (u64 (Z.lnot (2 ^ n - 1))) = x - x mod 2 ^ n.
Proof.
  intros Hx Hn. rewrite land_u64_r by done.
  replace (2 ^ n - 1) with (Z.ones n) by (rewrite Z.ones_equiv; lia).
  by apply land_lnot_ones.
Qed.

(** Disjoint bit ranges: [|] of a multiple of [2^n] and a value below [2^n] is [+]. *)
Lemma lor_add_low x y n :
  0 ≤ n → x mod 2 ^ n = 0 → 0 ≤ y < 2 ^ n → Z.lor x y = x + y.
Proof.
  intros Hn Hx Hy.
  assert (Z.land x y = 0) as Hland.
  { apply Z.bits_inj'. intros i Hi. rewrite Z.land_spec, Z.testbit_0_l.
    destruct (decide (i < n)).
    - replace (Z.testbit x i) with false; [done|].
      assert (x = Z.shiftl (x / 2 ^ n) n) as ->.
      { rewrite Z.shiftl_mul_pow2 by done.
        pose proof (Z.div_mod x (2 ^ n) ltac:(apply Z.pow_nonzero; lia)). lia. }
      by rewrite Z.shiftl_spec_low.
    - by rewrite (testbit_above n y i), andb_false_r by lia. }
  pose proof (Z.add_lor_land x y) as Hadd. lia.
Qed.

Lemma lor_range x y w : 0 ≤ w → 0 ≤ x < 2 ^ w → 0 ≤ y < 2 ^ w → 0 ≤ Z.lor x y < 2 ^ w.
Proof.
  intros Hw Hx Hy.
  assert (0 ≤ Z.lor x y) by (apply Z.lor_nonneg; lia).
  assert (Z.lor x y = Z.lor x y mod 2 ^ w) as ->.
  { apply Z.bits_inj'. intros i Hi. rewrite mod_pow2_testbit by lia.
    case_bool_decide; [done|]. rewrite Z.lor_spec.
    by rewrite (testbit_above w x i), (testbit_above w y i) by lia. }
  apply Z.mod_pos_bound. lia.
Qed.

(** ** Loops

    [for_loop n i body s] is [for (j = i; j < i + n; j++) body], the state
    threaded through; [find_up n i p] is the linear search that returns the
    first index of [i, i + n) satisfying [p]. *)
Section loops.
Context {St : Type}.

Fixpoint for_loop (n : nat) (i : Z) (body : Z → St → St) (s : St) : St :=
  match n with
  | O => s
  | S n' => for_loop n' (i + 1) body (body i s)
  end.

(** Counting-up search of a boolean condition. *)
Fixpoint find_up (n : nat) (i : Z) (p : Z → bool) : option Z :=
  match n with
  | O => None
  | S n' => if p i then Some i else find_up n' (i + 1) p
  end.

(** A loop whose body returns a status: a nonzero status ends it. *)
Fixpoint for_try (n : nat) (i step : Z) (body : Z → St → Z * St) (s : St) : Z * St :=
  match n with
  | O => (0, s)
  | S n' =>
      let '(r, s') := body i s in
      if r =? 0 then for_try n' (i + step) step body s' else (r, s')
  end.

Lemma for_loop_ind (P : Z → St → Prop) n i body s :
  P i s →
  (∀ j s, i ≤ j < i + Z.of_nat n → P j s → P (j + 1) (body j s)) →
  P (i + Z.of_nat n) (for_loop n i body s).
Proof.
  revert i s. induction n as [|n IH]; intros i s Hs Hstep; simpl.
  - by rewrite Z.add_0_r.
  - replace (i + Z.of_nat (S n)) with (i + 1 + Z.of_nat n) by lia.
    apply IH; [apply Hstep; [lia|done]|].
    intros j s' Hj. apply Hstep. lia.
Qed.

(** The form used for [for (i = 0; i < n; i++)]. *)
Lemma for_loop_upto (P : Z → St → Prop) n body s :
  0 ≤ n → P 0 s → (∀ j s, 0 ≤ j < n → P j s → P (j + 1) (body j s)) →
  P n (for_loop (Z.to_nat n) 0 body s).
Proof.
  intros Hn H0 Hstep. rewrite <- (Z2Nat.id n) at 1 by done.
  apply (for_loop_ind P (Z.to_nat n) 0); [done|]. intros j s' Hj. apply Hstep. lia.
Qed.

(** A loop whose body always returns 0 runs to its end and returns 0. *)
Lemma for_try_ind (P : Z → St → Prop) n i step body s :
  P 0 s →
  (∀ k s, 0 ≤ k < Z.of_nat n → P k s →
     let '(r, s') := body (i + k * step) s in r = 0 ∧ P (k + 1) s') →
  let '(r, s') := for_try n i step body s in r = 0 ∧ P (Z.of_nat n) s'.
Proof.
  revert i s P. induction n as [|n IH]; intros i s P H0 Hstep; simpl for_try; [done|].
  pose proof (Hstep 0 s ltac:(lia) H0) as H. replace (i + 0 * step) with i in H by lia.
  destruct (body i s) as [r s']. destruct H as [-> H1]. simpl.
  specialize (IH (i + step) s' (λ k, P (k + 1)) H1).
  replace (Z.of_nat (S n)) with (Z.of_nat n + 1) by lia. apply IH.
  intros k s1 Hk HP. specialize (Hstep (k + 1) s1 ltac:(lia) HP).
  by replace (i + step + k * step) with (i + (k + 1) * step) by lia.
Qed.

Lemma for_try_upto (P : Z → St → Prop) n i step body s :
  0 ≤ n → P 0 s →
  (∀ k s, 0 ≤ k < n → P k s →
     let '(r, s') := body (i + k * step) s in r = 0 ∧ P (k + 1) s') →
  let '(r, s') := for_try (Z.to_nat n) i step body s in r = 0 ∧ P n s'.
Proof.
  intros Hn H0 Hstep. pose proof (for_try_ind P (Z.to_nat n) i step body s H0) as H.
  rewrite Z2Nat.id in H by done. by apply H.
Qed.

Lemma for_loop_app n1 n2 i body (s : St) :
  for_loop (n1 + n2) i body s =
  for_loop n2 (i + Z.of_nat n1) body (for_loop n1 i body s).
Proof.
  revert i s. induction n1 as [|n1 IH]; intros i s; simpl.
  - by rewrite Z.add_0_r.
  - rewrite IH. f_equal. lia.
Qed.

Lemma for_loop_ext n i body body' (s : St) :
  (∀ j s, i ≤ j < i + Z.of_nat n → body j s = body' j s) →
  for_loop n i body s = for_loop n i body' s.
Proof.
  revert i s. induction n as [|n IH]; intros i s Hb; simpl; [done|].
  rewrite Hb by lia. apply IH. intros. apply Hb. lia.
Qed.
End loops.

Lemma find_up_Some n i p j :
  find_up n i p = Some j →
  i ≤ j < i + Z.of_nat n ∧ p j = true ∧ ∀ k, i ≤ k < j → p k = false.
Proof.
  revert i. induction n as [|n IH]; intros i H; simplify_eq/=.
  destruct (p i) eqn:Hp; simplify_eq.
  - split_and!; [lia..|done|]. intros k Hk. lia.
  - apply IH in H as (Hj & Hpj & Hk). split_and!; [lia..|done|].
    intros k Hk'. destruct (decide (k = i)) as [->|]; [done|]. apply Hk. lia.
Qed.

Lemma find_up_None n i p :
  find_up n i p = None ↔ ∀ k, i ≤ k < i + Z.of_nat n → p k = false.
Proof.
  revert i. induction n as [|n IH]; intros i; simpl.
  - split; [intros _ k Hk; lia|done].
  - destruct (p i) eqn:Hp.
    + split; [done|]. intros H. specialize (H i ltac:(lia)). congruence.
    + rewrite IH. split; intros H k Hk.
      * destruct (decide (k = i)) as [->|]; [done|]. apply H. lia.
      * apply H. lia.
Qed.

(** The search succeeds as soon as a witness is in range. *)
Lemma find_up_complete n i p k :
  i ≤ k < i + Z.of_nat n → p k = true → is_Some (find_up n i p).
Proof.
  intros Hk Hp. destruct (find_up n i p) eqn:E; [done|].
  rewrite find_up_None in E. rewrite (E k Hk) in Hp. done.
Qed.

(** Filtering by conditions that agree on the list. *)
Lemma filter_ext_in {A} (P Q : A → Prop) `{!∀ x, Decision (P x), !∀ x, Decision (Q x)} (l : list A) :
  (∀ x, x ∈ l → P x ↔ Q x) → filter P l = filter Q l.
Proof.
  induction l as [|a l IH]; intros HPQ; [done|]. rewrite !filter_cons, IH by (intros; apply HPQ; by right).
  specialize (HPQ a ltac:(by left)). destruct (decide (P a)), (decide (Q a)); tauto.
Qed.

(** ** Effects

    Code that dereferences pointers of a typed store, walks linked lists or
    may stop the machine returns an [outcome]: a value and the new state, a
    fault (a dangling or NULL pointer is dereferenced, an array is indexed out
    of bounds), a halted CPU, or the exhaustion of the walk's fuel, which
    models a loop that does not end. *)
Inductive outcome (A : Type) : Type :=
  | Ok (a : A)
  | Fault
  | Halted
  | Diverge.
Arguments Ok {A} a.
Arguments Fault {A}.
Arguments Halted {A}.
Arguments Diverge {A}.

Definition prog (St A : Type) : Type := St → outcome (A * St).

Section prog.
Context {St : Type}.

Definition ret {A} (a : A) : prog St A := λ s, Ok (a, s).
Definition bind {A B} (m : prog St A) (k : A → prog St B) : prog St B := λ s,
  match m s with
  | Ok (a, s') => k a s'
  | Fault => Fault
  | Halted => Halted
  | Diverge => Diverge
  end.
Definition get : prog St St := λ s, Ok (s, s).
Definition modify (f : St → St) : prog St () := λ s, Ok ((), f s).
Definition gets {A} (f : St → A) : prog St A := λ s, Ok (f s, s).
Definition fault {A} : prog St A := λ _, Fault.
Definition halt {A} : prog St A := λ _, Halted.
Definition diverge {A} : prog St A := λ _, Diverge.
Definition when (b : bool) (m : prog St ()) : prog St () := if b then m else ret ().

(** [wp m Q s]: run from [s], the program [m] returns (no fault, no halt, no
    exhausted fuel) and its result and final state satisfy [Q]. *)
Definition wp {A} (m : prog St A) (Q : A → St → Prop) (s : St) : Prop :=
  match m s with Ok (a, s') => Q a s' | _ => False end.

Lemma wp_ret {A} (a : A) Q s : Q a s → wp (ret a) Q s.
Proof. done. Qed.

Lemma wp_bind {A B} (m : prog St A) (k : A → prog St B) Q s :
  wp m (λ a s', wp (k a) Q s') s → wp (bind m k) Q s.
Proof. unfold wp, bind. destruct (m s) as [[a s']| | |]; done. Qed.

Lemma wp_mono {A} (m : prog St A) (Q Q' : A → St → Prop) s :
  wp m Q s → (∀ a s', Q a s' → Q' a s') → wp m Q' s.
Proof. unfold wp. destruct (m s) as [[a s']| | |]; naive_solver. Qed.

Lemma wp_get (Q : St → St → Prop) s : Q s s → wp get Q s.
Proof. done. Qed.

Lemma wp_gets {A} (f : St → A) Q s : Q (f s) s → wp (gets f) Q s.
Proof. done. Qed.

Lemma wp_modify f Q s : Q () (f s) → wp (modify f) Q s.
Proof. done. Qed.

Lemma wp_run {A} (m : prog St A) Q s :
  wp m Q s ↔ ∃ a s', m s = Ok (a, s') ∧ Q a s'.
Proof.
  unfold wp. destruct (m s) as [[a s']| | |]; (split; [by eauto|by intros (?&?&?&?); simplify_eq]).
Qed.
End prog.

(** ** Invariants of programs

    [keeps I m]: whenever [m] returns from a state that satisfies [I], the final
    state satisfies [I]. *)
Section keeps.
Context {St : Type} (I : St → Prop).

Definition keeps {X} (m : prog St X) : Prop := ∀ s x s', I s → m s = Ok (x, s') → I s'.

Lemma keeps_bind {X Y} (m : prog St X) (k : X → prog St Y) :
  keeps m → (∀ x, keeps (k x)) → keeps (bind m k).
Proof.
  intros Hm Hk s y s' Hs. unfold bind. destruct (m s) as [[x s1]| | |] eqn:E; [|done..].
  intros Hy. apply (Hk x s1 y); [by apply (Hm s x)|done].
Qed.
Lemma keeps_ret {X} (x : X) : keeps (ret x).
Proof. by intros s ? ? Hs [= _ <-]. Qed.
Lemma keeps_get : keeps get.
Proof. by intros s ? ? Hs [= _ <-]. Qed.
Lemma keeps_gets {X} (f : St → X) : keeps (gets f).
Proof. by intros s ? ? Hs [= _ <-]. Qed.
Lemma keeps_diverge {X} : keeps (X:=X) diverge.
Proof. done. Qed.
Lemma keeps_halt {X} : keeps (X:=X) halt.
Proof. done. Qed.
Lemma keeps_fault {X} : keeps (X:=X) fault.
Proof. done. Qed.
Lemma keeps_modify f : (∀ s, I s → I (f s)) → keeps (modify f).
Proof. intros Hf s ? ? Hs [= _ <-]. by apply Hf. Qed.
Lemma keeps_if {X} (b : bool) (m1 m2 : prog St X) : keeps m1 → keeps m2 → keeps (if b then m1 else m2).
Proof. by destruct b. Qed.
Lemma keeps_when b m : keeps m → keeps (when b m).
Proof. intros Hm. by destruct b; [|apply keeps_ret]. Qed.
End keeps.

Create HintDb keeps.
#[export] Hint Resolve keeps_ret keeps_get keeps_gets keeps_diverge keeps_halt keeps_fault : keeps.

(** Walks over a straight-line program; the leaves come from the database [keeps]. *)
Ltac walk :=
  repeat lazymatch goal with
  | |- keeps _ (bind _ _) => apply keeps_bind; [|intros ?]
  | |- keeps _ (when _ _) => apply keeps_when
  | |- keeps _ (if _ then _ else _) => apply keeps_if
  | |- keeps _ (modify _) => apply keeps_modify; intros ? ?; solve [assumption | eauto 2 with keeps]
  | |- keeps _ _ => solve [auto 1 with keeps]
  end.

Notation "x <- m ;; k" := (bind m (λ x, k))
  (at level 100, m at next level, right associativity) : fgos_scope.
Notation "m ;;; k" := (bind m (λ _, k))
  (at level 100, right associativity) : fgos_scope.

#[export] Hint Resolve wp_ret wp_bind wp_get wp_gets wp_modify : fgos.

(** Case analysis on the first boolean condition of the goal. *)
Ltac case_if :=
  match goal with
  | |- context [if ?b then _ else _] => destruct b eqn:?
  end.
