(* ===== verification/Memory.v ===== *)
(** * The byte memory and the memory and string utilities

    The flat byte-addressed memory the kernel runs in, little-endian accesses
    to it, and the routines of mm/memory_utils.c and src/string_stubs.c over
    it.  Addresses are [Z]; a pointer [p + i] is the sum of the two (C leaves
    pointer arithmetic that leaves the address space undefined, so it is not
    wrapped); NULL is 0. *)
From S2P Require Import Prelude.
Local Open Scope Z_scope.

(** ** Byte store *)
Abbreviation mem := (gmap Z Z).

(** A byte load and a byte store; a byte no one wrote reads as 0. *)
Definition rd8 (m : mem) (a : Z) : Z := u8 (default 0 (m !! a)).
Definition wr8 (m : mem) (a v : Z) : mem := <[a := u8 v]> m.

(** Little-endian accesses of [n] bytes. *)
Fixpoint rd_le (n : nat) (m : mem) (a : Z) : Z :=
  match n with
  | O => 0
  | S n' => rd8 m a + 256 * rd_le n' m (a + 1)
  end.

Fixpoint wr_le (n : nat) (m : mem) (a v : Z) : mem :=
  match n with
  | O => m
  | S n' => wr_le n' (wr8 m a v) (a + 1) (v / 256)
  end.

Definition rd32 : mem → Z → Z := rd_le 4.
Definition rd64 : mem → Z → Z := rd_le 8.
Definition wr32 : mem → Z → Z → mem := wr_le 4.
Definition wr64 : mem → Z → Z → mem := wr_le 8.

Module MemoryUtils.

(** [memory_copy(dest, src, size)]: forwards when [dest] is below [src],
    backwards when it is above. *)
Definition memory_copy (m : mem) (dest src size : Z) : mem :=
  if (dest =? 0) || (src =? 0) || (size =? 0) then m
  else if dest <? src then
    for_loop (Z.to_nat size) 0 (λ i m, wr8 m (dest + i) (rd8 m (src + i))) m
  else if src <? dest then
    (* for (i = size; i > 0; i--): the k-th pass has i = size - k *)
    for_loop (Z.to_nat size) 0
      (λ k m, let i := size - k in wr8 m (dest + (i - 1)) (rd8 m (src + (i - 1)))) m
  else m.

(** [memory_set(dest, value, size)] with its 64-bit fast path. *)
Definition memory_set (m : mem) (dest value size : Z) : mem :=
  if (dest =? 0) || (size =? 0) then m
  else
    let d := dest in
    let val := u8 value in
    let '(m, d, size) :=
      if (8 <=? size) && (d mod 8 =? 0) then
        let val64 := val in
        let val64 := Z.lor val64 (u64 (Z.shiftl val64 8)) in
        let val64 := Z.lor val64 (u64 (Z.shiftl val64 16)) in
        let val64 := Z.lor val64 (u64 (Z.shiftl val64 32)) in
        let count64 := size / 8 in
        (for_loop (Z.to_nat count64) 0 (λ i m, wr64 m (d + 8 * i) val64) m,
         d + count64 * 8, size - count64 * 8)
      else (m, d, size) in
    for_loop (Z.to_nat size) 0 (λ i m, wr8 m (d + i) val) m.

(** [memory_compare(ptr1, ptr2, size)]. *)
Definition memory_compare (m : mem) (ptr1 ptr2 size : Z) : Z :=
  if (ptr1 =? 0) || (ptr2 =? 0) then
    if ptr1 =? ptr2 then 0 else if negb (ptr1 =? 0) then 1 else -1
  else
    match find_up (Z.to_nat size) 0 (λ i, negb (rd8 m (ptr1 + i) =? rd8 m (ptr2 + i))) with
    | Some i => rd8 m (ptr1 + i) - rd8 m (ptr2 + i)
    | None => 0
    end.

(** [memory_find(ptr, value, size)]: a pointer, NULL when absent. *)
Definition memory_find (m : mem) (ptr value size : Z) : Z :=
  if (ptr =? 0) || (size =? 0) then 0
  else
    let val := u8 value in
    match find_up (Z.to_nat size) 0 (λ i, rd8 m (ptr + i) =? val) with
    | Some i => ptr + i
    | None => 0
    end.

Definition memory_zero_secure (m : mem) (ptr size : Z) : mem :=
  if (ptr =? 0) || (size =? 0) then m
  else for_loop (Z.to_nat size) 0 (λ i m, wr8 m (ptr + i) 0) m.

Definition memory_is_zero (m : mem) (ptr size : Z) : bool :=
  if (ptr =? 0) || (size =? 0) then true
  else
    match find_up (Z.to_nat size) 0 (λ i, negb (rd8 m (ptr + i) =? 0)) with
    | Some _ => false
    | None => true
    end.

Definition memory_align_up (addr alignment : Z) : Z :=
  if alignment =? 0 then addr
  else Z.land (u64 (addr + alignment - 1)) (u64 (Z.lnot (alignment - 1))).

Definition memory_align_down (addr alignment : Z) : Z :=
  if alignment =? 0 then addr
  else Z.land addr (u64 (Z.lnot (alignment - 1))).

Definition memory_is_aligned (addr alignment : Z) : bool :=
  if alignment =? 0 then true
  else Z.land addr (alignment - 1) =? 0.

(** One round of [memory_checksum]: add the byte, rotate left by one. *)
Definition checksum_step (checksum byte : Z) : Z :=
  let checksum := u32 (checksum + byte) in
  Z.lor (u32 (Z.shiftl checksum 1)) (Z.shiftr checksum 31).

Definition memory_checksum (m : mem) (ptr size : Z) : Z :=
  if (ptr =? 0) || (size =? 0) then 0
  else for_loop (Z.to_nat size) 0 (λ i c, checksum_step c (rd8 m (ptr + i))) 0.

End MemoryUtils.

Module StringStubs.

(** [strncpy(dest, src, n)]: the copying loop leaves the count of bytes copied,
    the padding loop fills the rest with NUL. *)
Fixpoint strncpy_copy (n : nat) (m : mem) (dest src : Z) : mem * Z * nat :=
  match n with
  | O => (m, dest, O)
  | S n' =>
      if rd8 m src =? 0 then (m, dest, n)
      else strncpy_copy n' (wr8 m dest (rd8 m src)) (dest + 1) (src + 1)
  end.

Definition strncpy (m : mem) (dest src n : Z) : mem :=
  let '(m, dest, n) := strncpy_copy (Z.to_nat n) m dest src in
  for_loop n 0 (λ i m, wr8 m (dest + i) 0) m.

Definition memset (m : mem) (ptr value size : Z) : mem :=
  for_loop (Z.to_nat size) 0 (λ i m, wr8 m (ptr + i) (u8 value)) m.

Definition memcpy (m : mem) (dest src n : Z) : mem :=
  for_loop (Z.to_nat n) 0 (λ i m, wr8 m (dest + i) (rd8 m (src + i))) m.

Definition memcmp (m : mem) (ptr1 ptr2 num : Z) : Z :=
  match find_up (Z.to_nat num) 0 (λ i, negb (rd8 m (ptr1 + i) =? rd8 m (ptr2 + i))) with
  | Some i => rd8 m (ptr1 + i) - rd8 m (ptr2 + i)
  | None => 0
  end.

End StringStubs.

(** ** Lemmas on the byte store *)

(** Two memories no load can tell apart. *)
Definition mem_equiv (m1 m2 : mem) : Prop := ∀ a, rd8 m1 a = rd8 m2 a.

#[export] Instance mem_equiv_equivalence : Equivalence mem_equiv.
Proof.
  split; unfold mem_equiv.
  - done.
  - intros m1 m2 H a. by rewrite H.
  - intros m1 m2 m3 H1 H2 a. by rewrite H1.
Qed.

#[export] Instance rd8_proper : Proper (mem_equiv ==> eq ==> eq) rd8.
Proof. intros m1 m2 Hm a ? <-. apply Hm. Qed.

#[export] Instance rd_le_proper n : Proper (mem_equiv ==> eq ==> eq) (rd_le n).
Proof.
  induction n as [|n IH]; intros m1 m2 Hm a ? <-; simpl; [done|].
  by rewrite (Hm a), (IH m1 m2 Hm (a + 1) (a + 1) eq_refl).
Qed.

Lemma rd8_range m a : 0 ≤ rd8 m a < 256.
Proof. apply u8_range. Qed.

Lemma u8_rd8 m a : u8 (rd8 m a) = rd8 m a.
Proof. apply u8_idemp. Qed.

Lemma rd8_wr8 m a v b : rd8 (wr8 m a v) b = if decide (a = b) then u8 v else rd8 m b.
Proof.
  unfold rd8, wr8. case_decide; subst.
  - rewrite lookup_insert_eq. apply u8_idemp.
  - by rewrite lookup_insert_ne.
Qed.

Lemma rd8_wr8_eq m a v : rd8 (wr8 m a v) a = u8 v.
Proof. by rewrite rd8_wr8, decide_True. Qed.

Lemma rd8_wr8_ne m a v b : a ≠ b → rd8 (wr8 m a v) b = rd8 m b.
Proof. intros. by rewrite rd8_wr8, decide_False. Qed.

#[export] Hint Resolve rd8_range : fgos.

Lemma rd_le_range n m a : 0 ≤ rd_le n m a < 256 ^ Z.of_nat n.
Proof.
  revert a. induction n as [|n IH]; intros a; simpl rd_le; [simpl; lia|].
  pose proof (rd8_range m a). specialize (IH (a + 1)).
  replace (Z.of_nat (S n)) with (Z.of_nat n + 1) by lia.
  rewrite Z.pow_add_r by lia. lia.
Qed.

Lemma rd_le_ext n m m' a :
  (∀ b, a ≤ b < a + Z.of_nat n → rd8 m b = rd8 m' b) → rd_le n m a = rd_le n m' a.
Proof.
  revert a. induction n as [|n IH]; intros a H; simpl; [done|].
  rewrite (H a) by lia. f_equal. f_equal. apply IH. intros. apply H. lia.
Qed.

(** The bytes after an [n]-byte store. *)
Lemma rd8_wr_le_out n m a v b :
  b < a ∨ a + Z.of_nat n ≤ b → rd8 (wr_le n m a v) b = rd8 m b.
Proof.
  revert m a v. induction n as [|n IH]; intros m a v H; simpl; [done|].
  rewrite IH by lia. apply rd8_wr8_ne. lia.
Qed.

Lemma rd_le_wr_le_same n m a v : rd_le n (wr_le n m a v) a = v mod 256 ^ Z.of_nat n.
Proof.
  revert m a v. induction n as [|n IH]; intros m a v; simpl rd_le; simpl wr_le.
  - rewrite Z.mod_1_r. done.
  - rewrite IH, rd8_wr_le_out, rd8_wr8_eq by lia. unfold u8.
    replace (Z.of_nat (S n)) with (1 + Z.of_nat n) by lia.
    rewrite Z.pow_add_r, Z.pow_1_r by lia.
    rewrite Z.rem_mul_r by lia. done.
Qed.

Lemma rd_le_wr_le_out n k m a v b :
  b + Z.of_nat n ≤ a ∨ a + Z.of_nat k ≤ b → rd_le n (wr_le k m a v) b = rd_le n m b.
Proof. intros H. apply rd_le_ext. intros c Hc. apply rd8_wr_le_out. lia. Qed.

Lemma rd64_range m a : 0 ≤ rd64 m a < 2 ^ 64.
Proof. pose proof (rd_le_range 8 m a) as H. change (256 ^ Z.of_nat 8) with (2 ^ 64) in H. done. Qed.

Lemma rd64_wr64_same m a v : 0 ≤ v < 2 ^ 64 → rd64 (wr64 m a v) a = v.
Proof.
  intros Hv. unfold rd64, wr64. rewrite rd_le_wr_le_same.
  change (256 ^ Z.of_nat 8) with (2 ^ 64). by apply Z.mod_small.
Qed.

Lemma rd64_wr64_out m a v b : b + 8 ≤ a ∨ a + 8 ≤ b → rd64 (wr64 m a v) b = rd64 m b.
Proof. intros. by apply rd_le_wr_le_out. Qed.

(** Filling a range byte by byte with values that do not depend on memory. *)
Lemma rd8_fill n d f m a :
  rd8 (for_loop n 0 (λ i m, wr8 m (d + i) (f i)) m) a =
  if decide (d ≤ a < d + Z.of_nat n) then u8 (f (a - d)) else rd8 m a.
Proof.
  set (P j m' := rd8 m' a = if decide (d ≤ a < d + j) then u8 (f (a - d)) else rd8 m a).
  change (P (0 + Z.of_nat n) (for_loop n 0 (λ i m, wr8 m (d + i) (f i)) m)).
  apply for_loop_ind; unfold P.
  - by rewrite decide_False by lia.
  - intros j m' Hj IH. rewrite rd8_wr8, IH.
    repeat case_decide; try lia; try done. do 2 f_equal. lia.
Qed.

(** *** Specifications of the utilities *)
Import MemoryUtils StringStubs.

Lemma rd8_memory_set_bytes n m d v a :
  rd8 (for_loop n 0 (λ i m, wr8 m (d + i) (u8 v)) m) a =
  if decide (d ≤ a < d + Z.of_nat n) then u8 v else rd8 m a.
Proof. rewrite (rd8_fill n d (λ _, u8 v)). by rewrite u8_idemp. Qed.

(** The 64-bit pattern the fast path stores repeats the byte eight times. *)
Lemma splat64_bytes v :
  0 ≤ v < 256 →
  let w := Z.lor v (u64 (Z.shiftl v 8)) in
  let w := Z.lor w (u64 (Z.shiftl w 16)) in
  let w := Z.lor w (u64 (Z.shiftl w 32)) in
  w = v * 0x0101010101010101.
Proof.
  intros Hv w1 w2 w3. subst w3 w2 w1.
  assert (∀ x y n, 0 ≤ x < 2 ^ n → 0 ≤ n → 0 ≤ y → y * 2 ^ n < 2 ^ 64 →
    Z.lor x (u64 (Z.shiftl y n)) = x + y * 2 ^ n) as Hor.
  { intros x y n Hx Hn Hy Hlt. rewrite Z.shiftl_mul_pow2 by done.
    rewrite u64_small by nia. rewrite Z.lor_comm, (lor_add_low _ _ n); try lia.
    by apply Z.mod_mul, Z.pow_nonzero. }
  rewrite (Hor v v 8) by lia.
  rewrite (Hor _ _ 16) by lia.
  rewrite (Hor _ _ 32) by lia. lia.
Qed.

Lemma rd8_wr_le_in n m a v b :
  a ≤ b < a + Z.of_nat n → rd8 (wr_le n m a v) b = u8 (v / 256 ^ (b - a)).
Proof.
  revert m a v. induction n as [|n IH]; intros m a v H; [lia|]. simpl.
  destruct (decide (a = b)) as [->|Hne].
  - rewrite rd8_wr_le_out, rd8_wr8_eq by lia. by rewrite Z.sub_diag, Z.div_1_r.
  - rewrite IH by lia. replace (b - a) with (1 + (b - (a + 1))) by lia.
    rewrite Z.pow_add_r, Z.pow_1_r by lia. rewrite Z.div_div by lia. done.
Qed.

Lemma splat_byte v k : 0 ≤ v < 256 → 0 ≤ k < 8 → u8 (v * 0x0101010101010101 / 256 ^ k) = v.
Proof.
  intros Hv Hk. unfold u8.
  assert (k = 0 ∨ k = 1 ∨ k = 2 ∨ k = 3 ∨ k = 4 ∨ k = 5 ∨ k = 6 ∨ k = 7) as Hcases by lia.
  destruct Hcases as [->|[->|[->|[->|[->|[->|[->| ->]]]]]]]; simpl; Z.to_euclidean_division_equations; lia.
Qed.

Lemma rd8_memory_set_words n m d v a :
  0 ≤ v < 256 →
  rd8 (for_loop n 0 (λ i m, wr64 m (d + 8 * i) (v * 0x0101010101010101)) m) a =
  if decide (d ≤ a < d + 8 * Z.of_nat n) then v else rd8 m a.
Proof.
  intros Hv.
  set (body := λ i m, wr64 m (d + 8 * i) (v * 0x0101010101010101)).
  set (P j m' := rd8 m' a = if decide (d ≤ a < d + 8 * j) then v else rd8 m a).
  change (P (0 + Z.of_nat n) (for_loop n 0 body m)).
  apply for_loop_ind; unfold P.
  - by rewrite decide_False by lia.
  - intros j m' Hj IH. unfold body, wr64.
    destruct (decide (d + 8 * j ≤ a < d + 8 * j + 8)).
    + rewrite rd8_wr_le_in, splat_byte by lia. by rewrite decide_True by lia.
    + rewrite rd8_wr_le_out, IH by lia. repeat case_decide; done || lia.
Qed.

(** Every byte after [memory_set]: the range is filled, the rest untouched. *)
Lemma rd8_memory_set m d v n a :
  0 ≤ n →
  rd8 (memory_set m d v n) a =
  if decide (d ≠ 0 ∧ d ≤ a < d + n) then u8 v else rd8 m a.
Proof.
  intros Hn. unfold memory_set.
  destruct (Z.eqb_spec d 0) as [->|Hd]; cbn [orb].
  { by rewrite decide_False by lia. }
  destruct (Z.eqb_spec n 0) as [->|Hn0].
  { by rewrite decide_False by lia. }
  destruct ((8 <=? n) && (d mod 8 =? 0)) eqn:Hfast; cbv zeta.
  - apply andb_true_iff in Hfast as [H8 _]. apply Z.leb_le in H8.
    pose proof (u8_range v). rewrite splat64_bytes by done.
    rewrite rd8_memory_set_bytes, rd8_memory_set_words by done.
    rewrite !Z2Nat.id by (Z.to_euclidean_division_equations; lia).
    pose proof (Z.div_mod n 8 ltac:(done)). pose proof (Z.mod_pos_bound n 8 ltac:(done)).
    repeat case_decide; done || lia.
  - rewrite rd8_memory_set_bytes, Z2Nat.id by lia. repeat case_decide; done || lia.
Qed.

(** Copying upwards is right whenever the destination does not start inside
    the source. *)
Lemma rd8_copy_up n m d s a :
  d ≤ s ∨ s + Z.of_nat n ≤ d →
  rd8 (for_loop n 0 (λ i m, wr8 m (d + i) (rd8 m (s + i))) m) a =
  if decide (d ≤ a < d + Z.of_nat n) then rd8 m (s + (a - d)) else rd8 m a.
Proof.
  intros Hds. revert a.
  set (body := λ i m, wr8 m (d + i) (rd8 m (s + i))).
  set (P j m' := ∀ a, rd8 m' a =
    if decide (d ≤ a < d + j) then rd8 m (s + (a - d)) else rd8 m a).
  change (P (0 + Z.of_nat n) (for_loop n 0 body m)).
  apply for_loop_ind; unfold P.
  - intros a. by rewrite decide_False by lia.
  - intros j m' Hj IH a. unfold body. rewrite rd8_wr8, !IH, (decide_False (P:=d ≤ s + j < d + j)) by lia.
    rewrite u8_rd8. repeat case_decide; try lia; try done. f_equal. lia.
Qed.

(** Copying downwards is right whenever the source does not start inside the
    destination's tail. *)
Lemma rd8_copy_down n m d s a :
  s ≤ d →
  let size := Z.of_nat n in
  rd8 (for_loop n 0 (λ k m, let i := size - k in
         wr8 m (d + (i - 1)) (rd8 m (s + (i - 1)))) m) a =
  if decide (d ≤ a < d + size) then rd8 m (s + (a - d)) else rd8 m a.
Proof.
  intros Hds size.
  set (body := λ k m, let i := size - k in wr8 m (d + (i - 1)) (rd8 m (s + (i - 1)))).
  set (P j m' := ∀ a, rd8 m' a =
    if decide (d + size - j ≤ a < d + size) then rd8 m (s + (a - d)) else rd8 m a).
  assert (P (0 + Z.of_nat n) (for_loop n 0 body m)) as HP.
  { apply for_loop_ind; unfold P.
    - intros b. by rewrite decide_False by lia.
    - intros j m' Hj IH b. unfold body. cbv zeta. rewrite rd8_wr8, !IH.
      rewrite (decide_False (P:=d + size - j ≤ s + (size - j - 1) < d + size)) by lia.
      rewrite u8_rd8. repeat case_decide; try lia; try done. f_equal. lia. }
  unfold P in HP. rewrite HP. fold size.
  repeat case_decide; done || lia.
Qed.

Lemma rd8_memory_copy m d s n a :
  0 ≤ n →
  rd8 (memory_copy m d s n) a =
  if decide (d ≠ 0 ∧ s ≠ 0 ∧ d ≤ a < d + n) then rd8 m (s + (a - d)) else rd8 m a.
Proof.
  intros Hn. unfold memory_copy.
  destruct (Z.eqb_spec d 0) as [->|Hd]; cbn [orb].
  { by rewrite decide_False by lia. }
  destruct (Z.eqb_spec s 0) as [->|Hs]; cbn [orb].
  { by rewrite decide_False by lia. }
  destruct (Z.eqb_spec n 0) as [->|Hn0].
  { by rewrite decide_False by lia. }
  destruct (Z.ltb_spec d s).
  - rewrite rd8_copy_up, Z2Nat.id by lia. repeat case_decide; done || lia.
  - destruct (Z.ltb_spec s d).
    + pose proof (rd8_copy_down (Z.to_nat n) m d s a ltac:(lia)) as Hdown.
      cbv zeta in Hdown. rewrite Z2Nat.id in Hdown by lia. rewrite Hdown.
      repeat case_decide; done || lia.
    + case_decide; [|done]. f_equal. lia.
Qed.

(** The bytes of a region, as a list. *)
Definition bytes_at (m : mem) (a : Z) (n : nat) : list Z :=
  (λ i, rd8 m (a + Z.of_nat i)) <$> seq 0 n.

(** Sign of the lexicographic comparison of two byte strings of equal length. *)
Fixpoint lex_compare (l1 l2 : list Z) : Z :=
  match l1, l2 with
  | x :: l1, y :: l2 => if x =? y then lex_compare l1 l2 else x - y
  | _, _ => 0
  end.

Lemma bytes_at_S m a n : bytes_at m a (S n) = rd8 m a :: bytes_at m (a + 1) n.
Proof.
  unfold bytes_at. simpl. f_equal; [f_equal; lia|].
  rewrite <- fmap_S_seq, <- list_fmap_compose. apply list_fmap_ext.
  intros i x Hx. simpl. f_equal. lia.
Qed.

Lemma bytes_at_eq m a b n :
  bytes_at m a n = bytes_at m b n ↔ ∀ i, 0 ≤ i < Z.of_nat n → rd8 m (a + i) = rd8 m (b + i).
Proof.
  revert a b. induction n as [|n IH]; intros a b.
  { split; [intros _ i Hi; lia|done]. }
  rewrite !bytes_at_S. split.
  - intros [= H0 H]. rewrite IH in H. intros i Hi.
    destruct (decide (i = 0)) as [->|]; [by rewrite !Z.add_0_r|].
    specialize (H (i - 1) ltac:(lia)).
    by replace (a + i) with (a + 1 + (i - 1)) by lia; replace (b + i) with (b + 1 + (i - 1)) by lia.
  - intros H. f_equal.
    + specialize (H 0 ltac:(lia)). by rewrite !Z.add_0_r in H.
    + rewrite IH. intros i Hi. specialize (H (i + 1) ltac:(lia)).
      by replace (a + 1 + i) with (a + (i + 1)) by lia; replace (b + 1 + i) with (b + (i + 1)) by lia.
Qed.

Lemma find_up_shift n i k p : find_up n (i + k) p = (λ j, j + k) <$> find_up n i (λ j, p (j + k)).
Proof.
  revert i. induction n as [|n IH]; intros i; simpl; [done|].
  destruct (p (i + k)); [done|].
  replace (i + k + 1) with (i + 1 + k) by lia. apply IH.
Qed.

Lemma find_up_ext n i p q : (∀ j, i ≤ j < i + Z.of_nat n → p j = q j) → find_up n i p = find_up n i q.
Proof.
  revert i. induction n as [|n IH]; intros i H; simpl; [done|].
  rewrite (H i) by lia. destruct (q i); [done|]. apply IH. intros. apply H. lia.
Qed.

(** The comparison loop shared by [memory_compare] and [memcmp] is the
    lexicographic comparison of the two byte strings. *)
Lemma compare_loop_lex n m p1 p2 :
  match find_up n 0 (λ i, negb (rd8 m (p1 + i) =? rd8 m (p2 + i))) with
  | Some i => rd8 m (p1 + i) - rd8 m (p2 + i)
  | None => 0
  end = lex_compare (bytes_at m p1 n) (bytes_at m p2 n).
Proof.
  revert p1 p2. induction n as [|n IH]; intros p1 p2; [done|].
  rewrite !bytes_at_S. simpl. rewrite !Z.add_0_r.
  destruct (rd8 m p1 =? rd8 m p2) eqn:E; simpl; [|by rewrite !Z.add_0_r].
  rewrite <- IH. pose proof (find_up_shift n 0 1) as Hsh. simpl in Hsh.
  rewrite Hsh. rewrite (find_up_ext n 0 _ (λ i, negb (rd8 m (p1 + 1 + i) =? rd8 m (p2 + 1 + i)))).
  - destruct (find_up n 0 _) as [i|]; simpl; [|done]. f_equal; f_equal; lia.
  - intros j Hj. do 2 f_equal; f_equal; lia.
Qed.

Lemma lex_compare_zero l1 l2 : length l1 = length l2 → lex_compare l1 l2 = 0 ↔ l1 = l2.
Proof.
  revert l2. induction l1 as [|x l1 IH]; intros [|y l2] Hlen; simplify_eq/=; [done|].
  destruct (Z.eqb_spec x y) as [->|Hne].
  - rewrite IH by lia. split; [by intros ->|by intros [= ->]].
  - split; [lia|congruence].
Qed.

(** *** Checksum *)

Lemma rotl1_arith x :
  0 ≤ x < 2 ^ 32 →
  Z.lor (u32 (Z.shiftl x 1)) (Z.shiftr x 31) = (2 * x) mod 2 ^ 32 + x / 2 ^ 31.
Proof.
  intros Hx. rewrite Z.shiftl_mul_pow2, Z.shiftr_div_pow2 by lia.
  unfold u32. rewrite (Z.mul_comm x). change (2 ^ 1) with 2.
  rewrite (lor_add_low _ _ 1); [done|lia| |].
  - change (2 ^ 1) with 2. Z.to_euclidean_division_equations; lia.
  - change (2 ^ 1) with 2. split; [apply Z.div_pos; lia|].
    apply Z.div_lt_upper_bound; lia.
Qed.

Lemma checksum_step_range c b : 0 ≤ checksum_step c b < 2 ^ 32.
Proof.
  unfold checksum_step. apply lor_range; [lia|apply u32_range|].
  pose proof (u32_range (c + b)). rewrite Z.shiftr_div_pow2 by lia.
  Z.to_euclidean_division_equations; lia.
Qed.

(** A round is injective in the running checksum and in the byte. *)
Lemma checksum_step_inj c c' b b' :
  0 ≤ c < 2 ^ 32 → 0 ≤ c' < 2 ^ 32 → 0 ≤ b < 256 → 0 ≤ b' < 256 →
  checksum_step c b = checksum_step c' b' → c = c' ∨ b = b' → c = c' ∧ b = b'.
Proof.
  intros Hc Hc' Hb Hb' Heq Hor. unfold checksum_step in Heq.
  rewrite !rotl1_arith in Heq by apply u32_range.
  assert (u32 (c + b) = u32 (c' + b')) as Hu.
  { pose proof (u32_range (c + b)). pose proof (u32_range (c' + b')).
    Z.to_euclidean_division_equations; lia. }
  unfold u32 in Hu. Z.to_euclidean_division_equations; lia.
Qed.

Lemma checksum_loop_range n i f c :
  0 ≤ c < 2 ^ 32 → 0 ≤ for_loop n i (λ i c, checksum_step c (f i)) c < 2 ^ 32.
Proof.
  intros Hc. apply (for_loop_ind (λ _ c, 0 ≤ c < 2 ^ 32)); [done|].
  intros. apply checksum_step_range.
Qed.

(** Running the same bytes from different checksums keeps them different. *)
Lemma checksum_loop_inj n i f c c' :
  (∀ j, 0 ≤ f j < 256) → 0 ≤ c < 2 ^ 32 → 0 ≤ c' < 2 ^ 32 → c ≠ c' →
  for_loop n i (λ i c, checksum_step c (f i)) c ≠ for_loop n i (λ i c, checksum_step c (f i)) c'.
Proof.
  intros Hf. revert i c c'. induction n as [|n IH]; intros i c c' Hc Hc' Hne; simpl; [done|].
  apply IH; [apply checksum_step_range..|].
  intros Heq. destruct (checksum_step_inj _ _ _ _ Hc Hc' (Hf i) (Hf i) Heq); [by right|done].
Qed.

(** Alignment to a power of two. *)
Lemma memory_align_down_pow2 a k :
  0 ≤ a < 2 ^ 64 → 0 ≤ k → memory_align_down a (2 ^ k) = a - a mod 2 ^ k.
Proof.
  intros Ha Hk. unfold memory_align_down.
  destruct (Z.eqb_spec (2 ^ k) 0); [lia|]. by apply land_align_mask.
Qed.

Lemma memory_align_up_pow2 a k :
  0 ≤ k → memory_align_up a (2 ^ k) = u64 (a + 2 ^ k - 1) - u64 (a + 2 ^ k - 1) mod 2 ^ k.
Proof.
  intros Hk. unfold memory_align_up.
  destruct (Z.eqb_spec (2 ^ k) 0); [lia|].
  apply land_align_mask; [apply u64_range|done].
Qed.

(** *** strncpy *)

(** [k] is the length of the NUL-terminated string at [s]. *)
Definition cstrlen (m : mem) (s k : Z) : Prop :=
  0 ≤ k ∧ rd8 m (s + k) = 0 ∧ ∀ i, 0 ≤ i < k → rd8 m (s + i) ≠ 0.

Lemma strncpy_copy_spec n m d s k :
  cstrlen m s k → d + Z.of_nat n ≤ s ∨ s + k < d →
  let c := Z.min k (Z.of_nat n) in
  ∃ m', strncpy_copy n m d s = (m', d + c, (n - Z.to_nat c)%nat) ∧
    ∀ a, rd8 m' a = if decide (d ≤ a < d + c) then rd8 m (s + (a - d)) else rd8 m a.
Proof.
  revert m d s k. induction n as [|n IH]; intros m d s k (Hk & Hnul & Hnz) Hdisj c.
  - exists m. assert (c = 0) as -> by lia. simpl. split; [apply triple_eq; lia|].
    intros a. by rewrite decide_False by lia.
  - simpl. destruct (Z.eqb_spec (rd8 m s) 0) as [H0|H0].
    + assert (k = 0) as ->.
      { destruct (decide (k = 0)); [done|]. exfalso. apply (Hnz 0); [lia|]. by rewrite Z.add_0_r. }
      exists m. assert (c = 0) as -> by lia. split; [apply triple_eq; lia|].
      intros a. by rewrite decide_False by lia.
    + assert (k ≠ 0) by (intros ->; rewrite Z.add_0_r in Hnul; done).
      set (m1 := wr8 m d (rd8 m s)).
      assert (∀ a, a ≠ d → rd8 m1 a = rd8 m a) as Hm1.
      { intros a Ha. apply rd8_wr8_ne. done. }
      destruct (IH m1 (d + 1) (s + 1) (k - 1)) as (m' & Hrun & Hm').
      { split_and!; [lia| |].
        - rewrite Hm1 by lia. rewrite <- Hnul. f_equal. lia.
        - intros i Hi. rewrite Hm1 by lia.
          replace (s + 1 + i) with (s + (i + 1)) by lia. apply Hnz. lia. }
      { lia. }
      exists m'. rewrite Hrun. split; [apply triple_eq; lia|].
      intros a. rewrite Hm'. destruct (decide (a = d)) as [->|Had].
      * rewrite decide_False by lia. rewrite decide_True by lia. unfold m1.
        rewrite rd8_wr8_eq, u8_rd8. f_equal. lia.
      * destruct (decide (d + 1 ≤ a < d + c)).
        -- rewrite !decide_True by lia. rewrite Hm1 by lia. f_equal. lia.
        -- rewrite !decide_False by lia. by apply Hm1.
Qed.

(** ** Theorems *)

(** C36: [memory_copy] is a memmove: however the two regions overlap, the
    destination ends up with the bytes the source held before the call, and no
    byte outside the destination changes; a NULL pointer makes it a no-op. *)
Theorem memory_copy_correct m d s n :
  0 ≤ n →
  (d ≠ 0 → s ≠ 0 → ∀ i, 0 ≤ i < n → rd8 (memory_copy m d s n) (d + i) = rd8 m (s + i)) ∧
  (∀ a, a < d ∨ d + n ≤ a → rd8 (memory_copy m d s n) a = rd8 m a) ∧
  (d = 0 ∨ s = 0 → memory_copy m d s n = m).
Proof.
  intros Hn. split_and!.
  - intros Hd Hs i Hi. rewrite rd8_memory_copy, decide_True by lia. f_equal. lia.
  - intros a Ha. by rewrite rd8_memory_copy, decide_False by lia.
  - intros [->| ->]; unfold memory_copy; rewrite Z.eqb_refl, ?orb_true_r; done.
Qed.

Definition sample_mem : mem := <[10:=1]> (<[11:=2]> (<[12:=3]> (<[13:=4]> ∅))).

Lemma memory_copy_correct_witness :
  rd8 (memory_copy sample_mem 11 10 3) (11 + 2) = 3.
Proof.
  pose proof (memory_copy_correct sample_mem 11 10 3) as H.
  destruct H as (Hin & _); [lia|].
  rewrite (Hin ltac:(lia) ltac:(lia) 2 ltac:(lia)). reflexivity.
Defined.

(** C37: the 64-bit fast path of [memory_set] is unobservable: it leaves exactly
    the memory of the byte-at-a-time [memset] of src/string_stubs.c. *)
Theorem memory_set_refines_memset m d v n :
  d ≠ 0 → 0 ≤ n → mem_equiv (memory_set m d v n) (memset m d v n).
Proof.
  intros Hd Hn a. unfold memset. rewrite rd8_memory_set, rd8_memory_set_bytes, Z2Nat.id by done.
  repeat case_decide; done || lia.
Qed.

Lemma memory_set_refines_memset_witness :
  rd8 (memory_set sample_mem 16 255 17) 32 = rd8 (memset sample_mem 16 255 17) 32.
Proof. apply (memory_set_refines_memset sample_mem 16 255 17); lia. Defined.

(** on two non-NULL regions [memory_compare] is the lexicographic byte
    comparison, agrees with [memcmp], and is zero exactly when the regions are
    equal; on NULL arguments it orders NULL below every other pointer. *)
Theorem memory_compare_correct m p1 p2 n :
  0 ≤ n →
  (p1 ≠ 0 → p2 ≠ 0 →
    memory_compare m p1 p2 n = lex_compare (bytes_at m p1 (Z.to_nat n)) (bytes_at m p2 (Z.to_nat n)) ∧
    memory_compare m p1 p2 n = memcmp m p1 p2 n ∧
    (memory_compare m p1 p2 n = 0 ↔ ∀ i, 0 ≤ i < n → rd8 m (p1 + i) = rd8 m (p2 + i))) ∧
  (p1 = 0 ∨ p2 = 0 →
    memory_compare m p1 p2 n = if p1 =? p2 then 0 else if p1 =? 0 then -1 else 1).
Proof.
  intros Hn. unfold memory_compare, memcmp. split.
  - intros H1 H2. rewrite (proj2 (Z.eqb_neq p1 0) H1), (proj2 (Z.eqb_neq p2 0) H2). cbn [orb].
    rewrite compare_loop_lex. split_and!; [done..|].
    rewrite lex_compare_zero by (unfold bytes_at; by rewrite !length_fmap, !length_seq).
    by rewrite bytes_at_eq, Z2Nat.id.
  - intros [->| ->]; simpl; [by destruct p2|]. rewrite orb_true_r. by destruct (p1 =? 0).
Qed.

Lemma memory_compare_correct_witness : memory_compare sample_mem 10 20 0 = 0 ∧
  memory_compare sample_mem 0 10 1 = -1.
Proof.
  split.
  - apply (proj1 (memory_compare_correct sample_mem 10 20 0 ltac:(lia)) ltac:(lia) ltac:(lia)). lia.
  - rewrite (proj2 (memory_compare_correct sample_mem 0 10 1 ltac:(lia)) (or_introl eq_refl)). done.
Defined.

(** [memory_checksum] detects every single-byte error: two regions that
    differ in exactly one byte have different checksums. *)
Theorem memory_checksum_single_byte m m' p n i :
  p ≠ 0 → 0 ≤ i < n → rd8 m (p + i) ≠ rd8 m' (p + i) →
  (∀ j, 0 ≤ j < n → j ≠ i → rd8 m (p + j) = rd8 m' (p + j)) →
  memory_checksum m p n ≠ memory_checksum m' p n.
Proof.
  intros Hp Hi Hdiff Hsame. unfold memory_checksum.
  rewrite (proj2 (Z.eqb_neq p 0) Hp), (proj2 (Z.eqb_neq n 0)) by lia. cbn [orb].
  replace (Z.to_nat n) with (Z.to_nat i + (1 + Z.to_nat (n - i - 1)))%nat by lia.
  rewrite !for_loop_app. simpl for_loop at 2 5.
  rewrite (for_loop_ext (Z.to_nat i) 0 (λ i c, checksum_step c (rd8 m' (p + i)))
    (λ i c, checksum_step c (rd8 m (p + i)))) by (intros; rewrite Hsame; [done|lia..]).
  rewrite (for_loop_ext _ _ (λ i c, checksum_step c (rd8 m' (p + i)))
    (λ i c, checksum_step c (rd8 m (p + i)))) by (intros; rewrite Hsame; [done|lia..]).
  apply (checksum_loop_inj _ _ (λ i, rd8 m (p + i))); [intros; apply rd8_range|apply checksum_step_range..|].
  rewrite Z2Nat.id, Z.add_0_l by lia. intros Heq. apply Hdiff.
  apply checksum_step_inj in Heq as [_ ?]; try apply rd8_range; [done| | |by left];
    apply (checksum_loop_range _ _ (λ i, rd8 m (p + i))); lia.
Qed.

Lemma memory_checksum_single_byte_witness :
  memory_checksum sample_mem 10 4 ≠ memory_checksum (<[12:=9]> sample_mem) 10 4.
Proof.
  apply (memory_checksum_single_byte _ _ 10 4 2); [lia..|vm_compute; lia|].
  intros j Hj Hne. unfold rd8. rewrite lookup_insert_ne by lia. done.
Defined.

(** Aligning up to a power of two gives the least multiple not below the
    address; when that multiple would not fit in 64 bits the result wraps to 0. *)
Theorem memory_align_up_correct a k :
  0 ≤ a < 2 ^ 64 → 0 ≤ k < 64 →
  let r := memory_align_up a (2 ^ k) in
  (a + 2 ^ k - 1 < 2 ^ 64 → r mod 2 ^ k = 0 ∧ a ≤ r ∧ ∀ q, a ≤ q * 2 ^ k → r ≤ q * 2 ^ k) ∧
  (2 ^ 64 ≤ a + 2 ^ k - 1 → r = 0).
Proof.
  intros Ha Hk r. subst r. rewrite memory_align_up_pow2 by lia.
  assert (0 < 2 ^ k) by lia. assert (2 ^ k < 2 ^ 64) by (apply Z.pow_lt_mono_r; lia).
  set (A := 2 ^ k) in *. split.
  - intros Hlt. rewrite u64_small by lia.
    pose proof (Z.mod_pos_bound (a + A - 1) A ltac:(lia)).
    pose proof (Z.div_mod (a + A - 1) A ltac:(lia)).
    split_and!; [|lia|].
    + replace (a + A - 1 - (a + A - 1) mod A) with ((a + A - 1) / A * A) by lia.
      apply Z.mod_mul. lia.
    + intros q Hq. assert ((a + A - 1) / A < q + 1) by (apply Z.div_lt_upper_bound; lia). nia.
  - intros Hge. replace (u64 (a + A - 1)) with (a + A - 1 - 2 ^ 64).
    + rewrite Z.mod_small; lia.
    + unfold u64. Z.to_euclidean_division_equations; lia.
Qed.

Lemma memory_align_up_correct_witness :
  memory_align_up 0x1001 (2 ^ 12) ≤ 0x2000 ∧ memory_align_up (2 ^ 64 - 1) (2 ^ 12) = 0.
Proof.
  split.
  - apply (proj1 (memory_align_up_correct 0x1001 12 ltac:(lia) ltac:(lia)) ltac:(lia)) with (q := 2). lia.
  - apply (memory_align_up_correct (2 ^ 64 - 1) 12); lia.
Defined.

(** [strncpy] copies the string and pads with NUL up to [n] bytes; a string
    of [n] bytes or more is cut off without a terminating NUL. *)
Theorem strncpy_correct m d s n k :
  cstrlen m s k → 0 ≤ n → d + n ≤ s ∨ s + k < d →
  ∀ a, rd8 (strncpy m d s n) a =
    if decide (d ≤ a < d + n) then
      if decide (a - d < k) then rd8 m (s + (a - d)) else 0
    else rd8 m a.
Proof.
  intros Hk Hn Hdisj a. unfold strncpy.
  destruct (strncpy_copy_spec (Z.to_nat n) m d s k Hk ltac:(lia)) as (m' & -> & Hm').
  rewrite (rd8_fill _ _ (λ _, 0)), Hm'.
  destruct Hk as (Hk & _). change (u8 0) with 0. repeat case_decide; done || lia.
Qed.

Lemma strncpy_correct_witness : rd8 (strncpy sample_mem 20 12 8) 21 = 4.
Proof.
  rewrite (strncpy_correct sample_mem 20 12 8 2); [reflexivity| |lia..].
  split_and!; [lia|reflexivity|]. intros i Hi.
  assert (i = 0 ∨ i = 1) as [->| ->] by lia; vm_compute; lia.
Defined.
