(* ===== verification/Pmm.v ===== *)
(** * Physical memory manager (mm/pmm.c)

    The page-frame allocator: a bitmap with one bit per page (set = used) that
    lives in the same memory it hands out, and the counters beside it.  The
    file defines the allocator's state and operations, its invariant, the
    refinement to a set of free pages, and the class [PageAllocator] that
    states what the allocator promises to the virtual memory manager. *)
From S2P Require Import Prelude.
From S2P Require Import Memory.
Import MemoryUtils.
Local Open Scope Z_scope.

(** ** Data of mm/memory.h and include/types.h *)
Definition MEMORY_TYPE_AVAILABLE : Z := 1.
Definition MEMORY_TYPE_RESERVED : Z := 2.

Record memory_region := mk_region {
  mr_start : Z; mr_end : Z; mr_size : Z; mr_type : Z; mr_flags : Z; mr_name : Z
}.
Definition zero_region : memory_region := mk_region 0 0 0 0 0 0.

Record memory_stats := mk_stats {
  total_physical : Z; available_physical : Z; used_physical : Z;
  total_virtual : Z; used_virtual : Z; page_faults : Z; allocations : Z
}.
#[export] Instance eta_stats : Eta memory_stats := λ r,
  {| total_physical := total_physical r; available_physical := available_physical r;
     used_physical := used_physical r; total_virtual := total_virtual r;
     used_virtual := used_virtual r; page_faults := page_faults r;
     allocations := allocations r |}.

(** The static variables of pmm.c together with the memory they live beside. *)
Record pmm := mk_pmm {
  pmm_mem : mem;
  pmm_stats : memory_stats;
  page_bitmap : Z;
  total_pages : Z;
  free_pages : Z;
  bitmap_size : Z;
  memory_regions : list memory_region;
  region_count : Z
}.
#[export] Instance eta_pmm : Eta pmm := λ r,
  {| pmm_mem := pmm_mem r; pmm_stats := pmm_stats r; page_bitmap := page_bitmap r;
     total_pages := total_pages r; free_pages := free_pages r;
     bitmap_size := bitmap_size r; memory_regions := memory_regions r;
     region_count := region_count r |}.

Definition zero_stats : memory_stats := mk_stats 0 0 0 0 0 0 0.

(** The statics before [pmm_init]. *)
Definition pmm_boot (m : mem) : pmm :=
  mk_pmm m zero_stats 0 0 0 0 (replicate 32 zero_region) 0.

(** ** Operations *)
Definition pmm_is_page_free (s : pmm) (page_number : Z) : bool :=
  if total_pages s <=? page_number then false
  else
    let byte_index := page_number / 8 in
    let bit_index := page_number mod 8 in
    negb (has_bits (rd8 (pmm_mem s) (page_bitmap s + byte_index)) (Z.shiftl 1 bit_index)).

Definition pmm_mark_page_used (s : pmm) (page_number : Z) : pmm :=
  if total_pages s <=? page_number then s
  else
    let byte_index := page_number / 8 in
    let bit_index := page_number mod 8 in
    let cell := page_bitmap s + byte_index in
    let byte := rd8 (pmm_mem s) cell in
    if negb (has_bits byte (Z.shiftl 1 bit_index)) then
      let st := pmm_stats s in
      s <| pmm_mem := wr8 (pmm_mem s) cell (Z.lor byte (Z.shiftl 1 bit_index)) |>
        <| free_pages := u64 (free_pages s - 1) |>
        <| pmm_stats := st <| used_physical := u64 (used_physical st + PAGE_SIZE) |>
                           <| available_physical := u64 (available_physical st - PAGE_SIZE) |> |>
    else s.

Definition pmm_mark_page_free (s : pmm) (page_number : Z) : pmm :=
  if total_pages s <=? page_number then s
  else
    let byte_index := page_number / 8 in
    let bit_index := page_number mod 8 in
    let cell := page_bitmap s + byte_index in
    let byte := rd8 (pmm_mem s) cell in
    if has_bits byte (Z.shiftl 1 bit_index) then
      let st := pmm_stats s in
      s <| pmm_mem := wr8 (pmm_mem s) cell (Z.land byte (Z.lnot (Z.shiftl 1 bit_index))) |>
        <| free_pages := u64 (free_pages s + 1) |>
        <| pmm_stats := st <| used_physical := u64 (used_physical st - PAGE_SIZE) |>
                           <| available_physical := u64 (available_physical st + PAGE_SIZE) |> |>
    else s.

(** Total size of the available regions among the first [n]. *)
Definition pmm_total_memory (rs : list memory_region) (n : nat) : Z :=
  for_loop n 0 (λ i total,
    let r := nth (Z.to_nat i) rs zero_region in
    if mr_type r =? MEMORY_TYPE_AVAILABLE then u64 (total + mr_size r) else total) 0.

(** The loop that frees the pages of one region. *)
Definition pmm_free_region (s : pmm) (r : memory_region) : pmm :=
  if mr_type r =? MEMORY_TYPE_AVAILABLE then
    let start_page := mr_start r / PAGE_SIZE in
    let page_count := mr_size r / PAGE_SIZE in
    for_loop (Z.to_nat page_count) start_page (λ page s, pmm_mark_page_free s page) s
  else s.

(** The middle part of [pmm_init]: size the bitmap for [total_memory] bytes,
    place it at the 1 MB mark and mark every page used. *)
Definition pmm_setup_bitmap (s : pmm) (total_memory : Z) : pmm :=
  let s := s <| total_pages := total_memory / PAGE_SIZE |> in
  let s := s <| bitmap_size := u64 (total_pages s + 7) / 8 |> <| free_pages := 0 |> in
  let s := s <| page_bitmap := 0x100000 |> in
  s <| pmm_mem := memory_set (pmm_mem s) (page_bitmap s) 0xFF (bitmap_size s) |>.

(** [pmm_init(regions, count)]; [None] is a NULL [regions]. *)
Definition pmm_init (s : pmm) (regions : option (list memory_region)) (count : Z) : Z * pmm :=
  match regions with
  | None => (-1, s)
  | Some regions =>
    if count =? 0 then (-1, s)
    else
      let n := if 32 <? count then 32 else count in
      let s := s <| region_count := n |> in
      let s := for_loop (Z.to_nat n) 0 (λ i s,
        s <| memory_regions :=
               <[Z.to_nat i := nth (Z.to_nat i) regions zero_region]> (memory_regions s) |>) s in
      let total_memory := pmm_total_memory (memory_regions s) (Z.to_nat n) in
      let s := pmm_setup_bitmap s total_memory in
      let s := for_loop (Z.to_nat n) 0 (λ i s,
        pmm_free_region s (nth (Z.to_nat i) (memory_regions s) zero_region)) s in
      let s := s <| pmm_stats := (pmm_stats s)
        <| total_physical := total_memory |>
        <| available_physical := u64 (free_pages s * PAGE_SIZE) |>
        <| used_physical := u64 (u64 (total_pages s - free_pages s) * PAGE_SIZE) |> |> in
      (0, s)
  end.

Definition count_allocation (s : pmm) : pmm :=
  s <| pmm_stats := (pmm_stats s) <| allocations := u32 (allocations (pmm_stats s) + 1) |> |>.

Definition pmm_alloc_page (s : pmm) : Z * pmm :=
  if free_pages s =? 0 then (0, s)
  else
    match find_up (Z.to_nat (total_pages s)) 0 (pmm_is_page_free s) with
    | Some page =>
        let s := count_allocation (pmm_mark_page_used s page) in
        let physical_addr := u64 (page * PAGE_SIZE) in
        (physical_addr, s <| pmm_mem := memory_set (pmm_mem s) physical_addr 0 PAGE_SIZE |>)
    | None => (0, s)
    end.

Definition pmm_free_page (s : pmm) (page : Z) : pmm :=
  if (page =? 0) || negb (page mod PAGE_SIZE =? 0) then s
  else
    let page_number := page / PAGE_SIZE in
    if pmm_is_page_free s page_number then s
    else pmm_mark_page_free s page_number.

(** The inner loop of [pmm_alloc_pages]: [found_block]. *)
Definition pmm_block_free (s : pmm) (count start_page : Z) : bool :=
  match find_up (Z.to_nat count) 0 (λ i, negb (pmm_is_page_free s (u64 (start_page + i)))) with
  | Some _ => false
  | None => true
  end.

Definition pmm_alloc_pages (s : pmm) (count : Z) : Z * pmm :=
  if count =? 0 then (0, s)
  else if count =? 1 then pmm_alloc_page s
  else if free_pages s <? count then (0, s)
  else
    match find_up (Z.to_nat (u64 (total_pages s - count) + 1)) 0 (pmm_block_free s count) with
    | Some start_page =>
        let s := for_loop (Z.to_nat count) 0
                   (λ i s, pmm_mark_page_used s (u64 (start_page + i))) s in
        let s := count_allocation s in
        let physical_addr := u64 (start_page * PAGE_SIZE) in
        (physical_addr,
         s <| pmm_mem := memory_set (pmm_mem s) physical_addr 0 (u64 (count * PAGE_SIZE)) |>)
    | None => (0, s)
    end.

Definition pmm_free_pages (s : pmm) (start count : Z) : pmm :=
  if (start =? 0) || negb (start mod PAGE_SIZE =? 0) || (count =? 0) then s
  else for_loop (Z.to_nat count) 0 (λ i s, pmm_free_page s (u64 (start + u64 (i * PAGE_SIZE)))) s.

Definition get_memory_stats (s : pmm) : memory_stats * pmm :=
  let s := s <| pmm_stats := (pmm_stats s)
    <| available_physical := u64 (free_pages s * PAGE_SIZE) |>
    <| used_physical := u64 (u64 (total_pages s - free_pages s) * PAGE_SIZE) |> |> in
  (pmm_stats s, s).

(** ** The bitmap *)

Definition page_bit (m : mem) (bm p : Z) : bool := Z.testbit (rd8 m (bm + p / 8)) (p mod 8).

Lemma pmm_is_page_free_bit s p :
  pmm_is_page_free s p = bool_decide (p < total_pages s) && negb (page_bit (pmm_mem s) (page_bitmap s) p).
Proof.
  unfold pmm_is_page_free, page_bit. destruct (Z.leb_spec (total_pages s) p).
  - by rewrite bool_decide_false by lia.
  - rewrite bool_decide_true by lia. rewrite has_bits_single; [done|].
    apply Z.mod_pos_bound. lia.
Qed.

Lemma page_index_inj p q : p / 8 = q / 8 → p mod 8 = q mod 8 → p = q.
Proof. intros. rewrite (Z.div_mod p 8), (Z.div_mod q 8) by done. congruence. Qed.

Lemma testbit_u8 x i : 0 ≤ i < 8 → Z.testbit (u8 x) i = Z.testbit x i.
Proof. intros. unfold u8. rewrite mod_pow2_testbit by lia. by rewrite bool_decide_true by lia. Qed.

(** Changing one bit of the byte of page [p] changes the bit of page [p] only. *)
Lemma page_bit_update m bm p q x b :
  (∀ i, 0 ≤ i < 8 → Z.testbit x i = if decide (i = p mod 8) then b
                                      else Z.testbit (rd8 m (bm + p / 8)) i) →
  page_bit (wr8 m (bm + p / 8) x) bm q = if decide (p = q) then b else page_bit m bm q.
Proof.
  intros Hx. unfold page_bit. rewrite rd8_wr8.
  pose proof (Z.mod_pos_bound q 8 ltac:(lia)).
  destruct (decide (bm + p / 8 = bm + q / 8)) as [E|E].
  - rewrite testbit_u8, Hx by lia.
    destruct (decide (q mod 8 = p mod 8)) as [E'|E'].
    + rewrite decide_True; [done|]. apply page_index_inj; [lia|done].
    + rewrite decide_False by (intros ->; done). by rewrite E.
  - rewrite decide_False; [done|]. intros ->. done.
Qed.

Lemma testbit_or_bit x k i :
  0 ≤ k → Z.testbit (Z.lor x (Z.shiftl 1 k)) i = if decide (i = k) then true else Z.testbit x i.
Proof.
  intros. rewrite Z.lor_spec, testbit_pow2 by done. case_bool_decide; case_decide; try done.
  - by rewrite orb_true_r.
  - by rewrite orb_false_r.
Qed.

Lemma testbit_clear_bit x k i :
  0 ≤ k → 0 ≤ i →
  Z.testbit (Z.land x (Z.lnot (Z.shiftl 1 k))) i = if decide (i = k) then false else Z.testbit x i.
Proof.
  intros. rewrite Z.land_spec, Z.lnot_spec, testbit_pow2 by done.
  case_bool_decide; case_decide; try done.
  - by rewrite andb_false_r.
  - by rewrite andb_true_r.
Qed.

(** ** The set of free pages *)

(** The abstract state of the allocator: the numbers of the free pages. *)
Definition free_set (s : pmm) : gset Z :=
  list_to_set (filter (λ p, pmm_is_page_free s p = true) (seqZ 0 (total_pages s))).

Lemma elem_of_free_set s p :
  p ∈ free_set s ↔ 0 ≤ p < total_pages s ∧ pmm_is_page_free s p = true.
Proof.
  unfold free_set. rewrite elem_of_list_to_set, list_elem_of_filter, elem_of_seqZ.
  split; [intros (?&?); split; [lia|done]|intros (?&?); split; [done|lia]].
Qed.

Lemma elem_of_free_set_bit s p :
  p ∈ free_set s ↔ 0 ≤ p < total_pages s ∧ page_bit (pmm_mem s) (page_bitmap s) p = false.
Proof.
  rewrite elem_of_free_set, pmm_is_page_free_bit. split.
  - intros [? H]. rewrite bool_decide_true in H by lia. split; [done|].
    by destruct (page_bit _ _ _).
  - intros [? ->]. by rewrite bool_decide_true by lia.
Qed.

(** Only the bitmap bytes, its address and the page count determine the set. *)
Lemma free_set_ext s s' :
  total_pages s' = total_pages s →
  (∀ p, 0 ≤ p < total_pages s →
     page_bit (pmm_mem s') (page_bitmap s') p = page_bit (pmm_mem s) (page_bitmap s) p) →
  free_set s' = free_set s.
Proof.
  intros Ht Hb. apply set_eq. intros p. rewrite !elem_of_free_set_bit, Ht.
  split; intros [Hp H]; (split; [done|]); [by rewrite <- Hb|by rewrite Hb].
Qed.

(** The bytes of page number [p], and of the bitmap. *)
Definition in_page (p a : Z) : Prop := p * PAGE_SIZE ≤ a < p * PAGE_SIZE + PAGE_SIZE.
Definition in_bitmap (s : pmm) (a : Z) : Prop :=
  page_bitmap s ≤ a < page_bitmap s + (total_pages s + 7) / 8.

Definition page_avoids_bitmap (s : pmm) (p : Z) : Prop := ∀ a, in_page p a → ¬ in_bitmap s a.

(** The invariant of the allocator.  The counters agree with the bitmap, and no
    free page overlaps the bitmap: [pmm_alloc_page] zeroes what it hands out. *)
Record pmm_ok (s : pmm) : Prop := {
  ok_total : 0 ≤ total_pages s < 2 ^ 52;
  ok_bitmap_size : bitmap_size s = (total_pages s + 7) / 8;
  ok_free : free_pages s = Z.of_nat (size (free_set s));
  ok_available : available_physical (pmm_stats s) = u64 (free_pages s * PAGE_SIZE);
  ok_used : used_physical (pmm_stats s) = u64 ((total_pages s - free_pages s) * PAGE_SIZE);
  ok_safe : ∀ p, p ∈ free_set s → page_avoids_bitmap s p
}.

Lemma free_set_subseteq s : free_set s ⊆ list_to_set (seqZ 0 (total_pages s)).
Proof. intros p. rewrite elem_of_free_set, elem_of_list_to_set, elem_of_seqZ. lia. Qed.

Lemma size_free_set_le s : 0 ≤ total_pages s → Z.of_nat (size (free_set s)) ≤ total_pages s.
Proof.
  intros. pose proof (subseteq_size _ _ (free_set_subseteq s)) as Hle.
  rewrite size_list_to_set, length_seqZ in Hle by apply NoDup_seqZ. lia.
Qed.

Lemma size_free_set_lt s p :
  0 ≤ p < total_pages s → p ∉ free_set s → Z.of_nat (size (free_set s)) < total_pages s.
Proof.
  intros Hp Hnot.
  assert (free_set s ⊂ list_to_set (seqZ 0 (total_pages s))) as Hsub.
  { split; [apply free_set_subseteq|]. intros Hsub. apply Hnot, Hsub.
    rewrite elem_of_list_to_set, elem_of_seqZ. lia. }
  apply subset_size in Hsub.
  rewrite size_list_to_set, length_seqZ in Hsub by apply NoDup_seqZ. lia.
Qed.

Lemma in_bitmap_cell s p : 0 ≤ p < total_pages s → in_bitmap s (page_bitmap s + p / 8).
Proof. intros. unfold in_bitmap. Z.to_euclidean_division_equations; lia. Qed.

(** A memory that agrees on the bitmap has the same free pages. *)
Lemma page_bit_agree s m' p :
  (∀ a, in_bitmap s a → rd8 m' a = rd8 (pmm_mem s) a) → 0 ≤ p < total_pages s →
  page_bit m' (page_bitmap s) p = page_bit (pmm_mem s) (page_bitmap s) p.
Proof. intros H Hp. unfold page_bit. by rewrite H by by apply in_bitmap_cell. Qed.

Lemma free_set_set_mem s m' :
  (∀ a, in_bitmap s a → rd8 m' a = rd8 (pmm_mem s) a) →
  free_set (s <| pmm_mem := m' |>) = free_set s.
Proof. intros. apply free_set_ext; [done|]. intros p Hp. by apply (page_bit_agree s). Qed.

(** Clients may write anywhere outside the bitmap. *)
Lemma pmm_ok_set_mem s m' :
  pmm_ok s → (∀ a, in_bitmap s a → rd8 m' a = rd8 (pmm_mem s) a) →
  pmm_ok (s <| pmm_mem := m' |>).
Proof.
  intros [] Hm. split; rewrite ?free_set_set_mem by done; done.
Qed.

(** *** Marking a page *)

(** What [pmm_mark_page_used] and [pmm_mark_page_free] leave alone. *)
Record same_geometry (s s' : pmm) : Prop := {
  sg_total : total_pages s' = total_pages s;
  sg_bitmap : page_bitmap s' = page_bitmap s;
  sg_size : bitmap_size s' = bitmap_size s;
  sg_regions : memory_regions s' = memory_regions s;
  sg_count : region_count s' = region_count s;
  sg_mem : ∀ a, ¬ in_bitmap s a → rd8 (pmm_mem s') a = rd8 (pmm_mem s) a
}.

#[export] Instance same_geometry_refl : Reflexive same_geometry.
Proof. by split. Qed.

Lemma in_bitmap_geometry s s' a : same_geometry s s' → in_bitmap s' a ↔ in_bitmap s a.
Proof. intros []. unfold in_bitmap. by rewrite sg_total0, sg_bitmap0. Qed.

#[export] Instance same_geometry_trans : Transitive same_geometry.
Proof.
  intros s1 s2 s3 H12 H23. pose proof (in_bitmap_geometry s1 s2) as Hbm.
  destruct H12 eqn:E12, H23. split; [congruence..|].
  intros a Ha. rewrite sg_mem1, sg_mem0; [done..|]. by rewrite (Hbm a H12).
Qed.

Lemma pmm_mark_geometry_used s p : 0 ≤ p → same_geometry s (pmm_mark_page_used s p).
Proof.
  intros Hp. unfold pmm_mark_page_used. destruct (Z.leb_spec (total_pages s) p); [done|].
  case_if; [|done]. split; try done. intros a Ha. apply rd8_wr8_ne. intros <-.
  apply Ha, in_bitmap_cell. lia.
Qed.

Lemma pmm_mark_geometry_free s p : 0 ≤ p → same_geometry s (pmm_mark_page_free s p).
Proof.
  intros Hp. unfold pmm_mark_page_free. destruct (Z.leb_spec (total_pages s) p); [done|].
  case_if; [|done]. split; try done. intros a Ha. apply rd8_wr8_ne. intros <-.
  apply Ha, in_bitmap_cell. lia.
Qed.

Lemma free_set_mark_used s p : 0 ≤ p → free_set (pmm_mark_page_used s p) = free_set s ∖ {[p]}.
Proof.
  intros Hp. apply set_eq. intros q. rewrite elem_of_difference, elem_of_singleton.
  rewrite !elem_of_free_set_bit. unfold pmm_mark_page_used.
  destruct (Z.leb_spec (total_pages s) p) as [Hge|Hlt].
  { split; [intros [??]; split; [done|lia]|by intros [??]]. }
  pose proof (Z.mod_pos_bound p 8 ltac:(lia)). rewrite has_bits_single by lia.
  change (Z.testbit (rd8 (pmm_mem s) (page_bitmap s + p / 8)) (p mod 8)) with
    (page_bit (pmm_mem s) (page_bitmap s) p).
  destruct (page_bit (pmm_mem s) (page_bitmap s) p) eqn:Eb; cbn [negb].
  - split; [|by intros [??]]. intros [Hq Hb]. split; [done|]. intros ->. congruence.
  - cbn. rewrite (page_bit_update _ _ _ _ _ true) by (intros; apply testbit_or_bit; lia).
    case_decide; split; [by intros [??]|intros [[??]?]; congruence|
      intros [??]; split; [done|congruence]|by intros [??]].
Qed.

Lemma free_set_mark_free s p :
  0 ≤ p < total_pages s → free_set (pmm_mark_page_free s p) = {[p]} ∪ free_set s.
Proof.
  intros Hp. apply set_eq. intros q. rewrite elem_of_union, elem_of_singleton.
  rewrite !elem_of_free_set_bit. unfold pmm_mark_page_free.
  destruct (Z.leb_spec (total_pages s) p) as [Hge|Hlt]; [lia|].
  pose proof (Z.mod_pos_bound p 8 ltac:(lia)). rewrite has_bits_single by lia.
  change (Z.testbit (rd8 (pmm_mem s) (page_bitmap s + p / 8)) (p mod 8)) with
    (page_bit (pmm_mem s) (page_bitmap s) p).
  destruct (page_bit (pmm_mem s) (page_bitmap s) p) eqn:Eb.
  - cbn. rewrite (page_bit_update _ _ _ _ _ false) by (intros; apply testbit_clear_bit; lia).
    case_decide; split; [by left|intros _; subst; done|by right|intros [?|?]; [congruence|done]].
  - split; [by right|]. intros [->|?]; [done|done].
Qed.

Lemma pmm_mark_page_free_out s p : total_pages s ≤ p → pmm_mark_page_free s p = s.
Proof. intros. unfold pmm_mark_page_free. destruct (Z.leb_spec (total_pages s) p); [done|lia]. Qed.

Lemma u64_add_u64_l x y : u64 (u64 x + y) = u64 (x + y).
Proof. unfold u64. by rewrite Zplus_mod_idemp_l. Qed.

(** The counters after a mark, when the page changes state. *)
Lemma pmm_mark_used_counters s p :
  p ∈ free_set s →
  let s' := pmm_mark_page_used s p in
  free_pages s' = u64 (free_pages s - 1) ∧
  pmm_stats s' = (pmm_stats s)
    <| used_physical := u64 (used_physical (pmm_stats s) + PAGE_SIZE) |>
    <| available_physical := u64 (available_physical (pmm_stats s) - PAGE_SIZE) |>.
Proof.
  intros [Hp Hf]%elem_of_free_set. unfold pmm_is_page_free in Hf. unfold pmm_mark_page_used.
  destruct (Z.leb_spec (total_pages s) p); [lia|]. by rewrite Hf.
Qed.

Lemma pmm_mark_free_counters s p :
  0 ≤ p < total_pages s → p ∉ free_set s →
  let s' := pmm_mark_page_free s p in
  free_pages s' = u64 (free_pages s + 1) ∧
  pmm_stats s' = (pmm_stats s)
    <| used_physical := u64 (used_physical (pmm_stats s) - PAGE_SIZE) |>
    <| available_physical := u64 (available_physical (pmm_stats s) + PAGE_SIZE) |>.
Proof.
  intros Hp Hf. rewrite elem_of_free_set in Hf. unfold pmm_is_page_free in Hf.
  unfold pmm_mark_page_free. destruct (Z.leb_spec (total_pages s) p); [lia|].
  case_if; [done|]. exfalso. apply Hf. split; [lia|done].
Qed.

Lemma pmm_mark_page_free_noop s p : p ∈ free_set s → pmm_mark_page_free s p = s.
Proof.
  intros [Hp Hf]%elem_of_free_set. unfold pmm_is_page_free in Hf. unfold pmm_mark_page_free.
  destruct (Z.leb_spec (total_pages s) p); [lia|]. by case_if.
Qed.

Lemma page_avoids_geometry s s' p :
  same_geometry s s' → page_avoids_bitmap s p → page_avoids_bitmap s' p.
Proof. intros Hg H a Ha. rewrite (in_bitmap_geometry s s') by done. by apply H. Qed.

Lemma pmm_mark_page_used_ok s p :
  pmm_ok s → p ∈ free_set s → pmm_ok (pmm_mark_page_used s p).
Proof.
  intros Hok Hp. pose proof Hp as [Hp' _]%elem_of_free_set.
  destruct (pmm_mark_used_counters s p Hp) as [Hfree Hstats].
  pose proof (pmm_mark_geometry_used s p ltac:(lia)) as Hg.
  pose proof (free_set_mark_used s p ltac:(lia)) as Hset.
  destruct Hok. pose proof (size_free_set_le s ltac:(lia)) as Hle.
  assert (size (free_set s) ≠ 0%nat) as Hpos by (apply size_non_empty_iff; set_solver).
  assert (size (free_set s ∖ {[p]}) = (size (free_set s) - 1)%nat) as Hsize.
  { rewrite size_difference by set_solver. by rewrite size_singleton. }
  assert (free_pages (pmm_mark_page_used s p) = free_pages s - 1) as Hfp.
  { rewrite Hfree. apply u64_small. lia. }
  split; rewrite ?Hset, ?(sg_total _ _ Hg), ?(sg_size _ _ Hg), ?Hfp, ?Hstats; try done.
  - rewrite Hsize. lia.
  - cbn. rewrite ok_available0. unfold Z.sub. rewrite u64_add_u64_l. f_equal. lia.
  - cbn. rewrite ok_used0, u64_add_u64_l. f_equal. lia.
  - intros q Hq. apply (page_avoids_geometry s); [done|]. apply ok_safe0. set_solver.
Qed.

Lemma pmm_mark_page_free_ok s p :
  pmm_ok s → 0 ≤ p < total_pages s → page_avoids_bitmap s p → pmm_ok (pmm_mark_page_free s p).
Proof.
  intros Hok Hp Hsafe. destruct (decide (p ∈ free_set s)) as [Hin|Hin].
  { by rewrite pmm_mark_page_free_noop. }
  destruct (pmm_mark_free_counters s p Hp Hin) as [Hfree Hstats].
  pose proof (pmm_mark_geometry_free s p ltac:(lia)) as Hg.
  pose proof (free_set_mark_free s p Hp) as Hset.
  destruct Hok. pose proof (size_free_set_lt s p Hp Hin) as Hlt.
  assert (free_pages (pmm_mark_page_free s p) = free_pages s + 1) as Hfp.
  { rewrite Hfree. apply u64_small. lia. }
  split; rewrite ?Hset, ?(sg_total _ _ Hg), ?(sg_size _ _ Hg), ?Hfp, ?Hstats; try done.
  - rewrite size_union by set_solver. rewrite size_singleton. lia.
  - cbn. rewrite ok_available0, u64_add_u64_l. f_equal. lia.
  - cbn. rewrite ok_used0. unfold Z.sub. rewrite u64_add_u64_l. f_equal. lia.
  - intros q Hq. apply (page_avoids_geometry s); [done|].
    apply elem_of_union in Hq as [->%elem_of_singleton|Hq]; [done|]. by apply ok_safe0.
Qed.

(** *** Allocating and freeing *)

Lemma PAGE_SIZE_eq : PAGE_SIZE = 4096.
Proof. done. Qed.

Lemma page_addr_small p : 0 ≤ p < 2 ^ 52 → u64 (p * PAGE_SIZE) = p * PAGE_SIZE.
Proof. intros. apply u64_small. rewrite PAGE_SIZE_eq. lia. Qed.

Lemma count_allocation_ok s : pmm_ok s → pmm_ok (count_allocation s).
Proof. by intros []; split. Qed.

(** Zeroing pages that avoid the bitmap keeps the allocator consistent. *)
Lemma pmm_ok_zero_pages s a n :
  pmm_ok s → 0 ≤ n → (∀ b, a ≤ b < a + n → ¬ in_bitmap s b) →
  let s' := s <| pmm_mem := memory_set (pmm_mem s) a 0 n |> in
  pmm_ok s' ∧ free_set s' = free_set s ∧
  ∀ b, rd8 (pmm_mem s') b = if decide (a ≠ 0 ∧ a ≤ b < a + n) then 0 else rd8 (pmm_mem s) b.
Proof.
  intros Hok Hn Hav s'. subst s'.
  assert (∀ b, in_bitmap s b → rd8 (memory_set (pmm_mem s) a 0 n) b = rd8 (pmm_mem s) b) as Hbm.
  { intros b Hb. rewrite rd8_memory_set by done. case_decide as Hd; [|done].
    exfalso. apply (Hav b); [lia|done]. }
  split_and!; [by apply pmm_ok_set_mem|by apply free_set_set_mem|].
  intros b. cbn. by rewrite rd8_memory_set.
Qed.

(** What the first-fit search of [pmm_alloc_page] finds. *)
Lemma find_free_page s :
  match find_up (Z.to_nat (total_pages s)) 0 (pmm_is_page_free s) with
  | Some p => p ∈ free_set s ∧ ∀ q, q ∈ free_set s → p ≤ q
  | None => free_set s = ∅
  end.
Proof.
  destruct (find_up _ _ _) as [p|] eqn:E.
  - apply find_up_Some in E as (Hp & Hfree & Hmin). split.
    + apply elem_of_free_set. split; [lia|done].
    + intros q [Hq Hqf]%elem_of_free_set. destruct (decide (p ≤ q)); [done|].
      rewrite Hmin in Hqf by lia. done.
  - rewrite find_up_None in E. apply set_eq. intros q. rewrite elem_of_free_set.
    split; [|set_solver]. intros [Hq Hf]. rewrite E in Hf by lia. done.
Qed.

Lemma pmm_alloc_page_spec s :
  pmm_ok s →
  let '(r, s') := pmm_alloc_page s in
  pmm_ok s' ∧ total_pages s' = total_pages s ∧ page_bitmap s' = page_bitmap s ∧
  ((free_set s = ∅ ∧ r = 0 ∧ s' = s) ∨
   ∃ p, p ∈ free_set s ∧ (∀ q, q ∈ free_set s → p ≤ q) ∧ r = p * PAGE_SIZE ∧
     free_set s' = free_set s ∖ {[p]} ∧
     ∀ a, ¬ in_bitmap s a →
       rd8 (pmm_mem s') a = if decide (p ≠ 0 ∧ in_page p a) then 0 else rd8 (pmm_mem s) a).
Proof.
  intros Hok. unfold pmm_alloc_page. pose proof (ok_free _ Hok) as Hfp.
  destruct (Z.eqb_spec (free_pages s) 0) as [H0|H0].
  { assert (free_set s = ∅) by (apply leibniz_equiv, size_empty_inv; lia). auto 10. }
  pose proof (find_free_page s) as Hfind.
  destruct (find_up _ _ _) as [p|]; [|auto 10].
  destruct Hfind as [Hin Hmin]. pose proof Hin as [Hp _]%elem_of_free_set.
  pose proof (ok_total _ Hok). rewrite page_addr_small by lia. cbv zeta.
  set (s1 := pmm_mark_page_used s p).
  pose proof (pmm_mark_geometry_used s p ltac:(lia)) as Hg. fold s1 in Hg.
  assert (page_avoids_bitmap s1 p) as Hav
    by (apply (page_avoids_geometry s); [done|by apply (ok_safe _ Hok)]).
  destruct (pmm_ok_zero_pages (count_allocation s1) (p * PAGE_SIZE) PAGE_SIZE) as (Hok' & Hset & Hmem).
  { by apply count_allocation_ok, pmm_mark_page_used_ok. }
  { done. }
  { intros b Hb. by apply Hav. }
  split_and!; [done|apply Hg|apply Hg|]. right. exists p. split_and!; [done..| |].
  - rewrite Hset. by apply free_set_mark_used; lia.
  - intros a Ha. rewrite Hmem. change (pmm_mem (count_allocation s1)) with (pmm_mem s1).
    rewrite (sg_mem _ _ Hg) by done. unfold in_page. rewrite PAGE_SIZE_eq.
    repeat case_decide; done || lia.
Qed.

(** The block of [n] pages starting at page [p]. *)
Definition block (p n : Z) : gset Z := list_to_set (seqZ p n).

Lemma elem_of_block p n q : q ∈ block p n ↔ p ≤ q < p + n.
Proof. unfold block. by rewrite elem_of_list_to_set, elem_of_seqZ. Qed.

Lemma size_block p n : 0 ≤ n → Z.of_nat (size (block p n)) = n.
Proof. intros. unfold block. rewrite size_list_to_set, length_seqZ by apply NoDup_seqZ. lia. Qed.

Lemma block_free_bounds s p n :
  0 < n → block p n ⊆ free_set s → 0 ≤ p ∧ p + n ≤ total_pages s.
Proof.
  intros Hn Hsub. assert (p ∈ free_set s) as H1 by (apply Hsub, elem_of_block; lia).
  assert (p + n - 1 ∈ free_set s) as H2 by (apply Hsub, elem_of_block; lia).
  apply elem_of_free_set in H1, H2. lia.
Qed.

Lemma pmm_block_free_spec s n p :
  pmm_ok s → 0 < n → 0 ≤ p → p + n ≤ total_pages s →
  pmm_block_free s n p = true ↔ block p n ⊆ free_set s.
Proof.
  intros Hok Hn Hp Hle. pose proof (ok_total _ Hok). unfold pmm_block_free.
  trans (find_up (Z.to_nat n) 0 (λ i, negb (pmm_is_page_free s (u64 (p + i)))) = None).
  { by destruct (find_up _ _ _). }
  rewrite find_up_None. split.
  - intros Hall q. rewrite elem_of_block. intros Hq. apply elem_of_free_set. split; [lia|].
    specialize (Hall (q - p) ltac:(lia)). apply negb_false_iff in Hall.
    rewrite u64_small in Hall by lia. by replace (p + (q - p)) with q in Hall by lia.
  - intros Hsub i Hi. rewrite u64_small by lia. apply negb_false_iff.
    apply elem_of_free_set, Hsub, elem_of_block. lia.
Qed.

Lemma find_free_block s n :
  pmm_ok s → 0 < n → n ≤ free_pages s →
  match find_up (Z.to_nat (u64 (total_pages s - n) + 1)) 0 (pmm_block_free s n) with
  | Some p => 0 ≤ p ∧ block p n ⊆ free_set s ∧ ∀ q, block q n ⊆ free_set s → p ≤ q
  | None => ∀ q, ¬ block q n ⊆ free_set s
  end.
Proof.
  intros Hok Hn Hle. pose proof (ok_total _ Hok). pose proof (size_free_set_le s ltac:(lia)).
  rewrite (ok_free _ Hok) in Hle. rewrite u64_small by lia.
  destruct (find_up _ _ _) as [p|] eqn:E.
  - apply find_up_Some in E as (Hp & Hfree & Hmin).
    apply pmm_block_free_spec in Hfree; [|done|lia..]. split_and!; [lia|done|].
    intros q Hq. destruct (decide (p ≤ q)); [done|].
    pose proof (block_free_bounds _ _ _ Hn Hq).
    apply pmm_block_free_spec in Hq; [|done|lia..]. rewrite Hmin in Hq by lia. done.
  - rewrite find_up_None in E. intros q Hq. pose proof (block_free_bounds _ _ _ Hn Hq).
    apply pmm_block_free_spec in Hq; [|done|lia..]. rewrite E in Hq by lia. done.
Qed.

(** Marking a block of free pages used. *)
Lemma mark_block_used s p n :
  pmm_ok s → 0 ≤ p → 0 ≤ n → block p n ⊆ free_set s →
  let s' := for_loop (Z.to_nat n) 0 (λ i s, pmm_mark_page_used s (u64 (p + i))) s in
  pmm_ok s' ∧ same_geometry s s' ∧ free_set s' = free_set s ∖ block p n.
Proof.
  intros Hok Hp Hn Hsub s'. subst s'.
  set (P i s' := pmm_ok s' ∧ same_geometry s s' ∧ free_set s' = free_set s ∖ block p i).
  apply (for_loop_upto P n); unfold P; [done| |].
  - split_and!; [done..|]. unfold block. simpl. set_solver.
  - intros i s1 Hi (Hok1 & Hg1 & Hset1).
    assert (p + i ∈ free_set s) as Hin by (apply Hsub, elem_of_block; lia).
    pose proof Hin as [Hb _]%elem_of_free_set. pose proof (ok_total _ Hok).
    rewrite u64_small by lia.
    assert (p + i ∈ free_set s1).
    { rewrite Hset1, elem_of_difference, elem_of_block. split; [done|lia]. }
    split_and!.
    + by apply pmm_mark_page_used_ok.
    + trans s1; [done|]. apply pmm_mark_geometry_used. lia.
    + rewrite free_set_mark_used, Hset1 by lia. apply set_eq. intros q.
      rewrite !elem_of_difference, !elem_of_block, elem_of_singleton. split.
      * intros [[??]?]. split; [done|lia].
      * intros [??]. split_and!; [done|lia..].
Qed.

Lemma pmm_alloc_pages_spec s n :
  pmm_ok s → 2 ≤ n →
  let '(r, s') := pmm_alloc_pages s n in
  pmm_ok s' ∧ total_pages s' = total_pages s ∧ page_bitmap s' = page_bitmap s ∧
  (((∀ q, ¬ block q n ⊆ free_set s) ∧ r = 0 ∧ s' = s) ∨
   ∃ p, block p n ⊆ free_set s ∧ (∀ q, block q n ⊆ free_set s → p ≤ q) ∧ r = p * PAGE_SIZE ∧
     free_set s' = free_set s ∖ block p n ∧
     ∀ a, ¬ in_bitmap s a →
       rd8 (pmm_mem s') a =
       if decide (p ≠ 0 ∧ p * PAGE_SIZE ≤ a < (p + n) * PAGE_SIZE) then 0 else rd8 (pmm_mem s) a).
Proof.
  intros Hok Hn. unfold pmm_alloc_pages.
  rewrite (proj2 (Z.eqb_neq n 0)), (proj2 (Z.eqb_neq n 1)) by lia.
  destruct (Z.ltb_spec (free_pages s) n) as [Hlt|Hle].
  { split_and!; [done..|]. left. split_and!; [|done..]. intros q Hq.
    apply subseteq_size in Hq. pose proof (size_block q n ltac:(lia)).
    rewrite (ok_free _ Hok) in Hlt. lia. }
  pose proof (find_free_block s n Hok ltac:(lia) Hle) as Hfind.
  destruct (find_up _ _ _) as [p|]; [|by auto 10].
  destruct Hfind as (Hp & Hsub & Hmin). pose proof (ok_total _ Hok).
  pose proof (block_free_bounds s p n ltac:(lia) Hsub) as [_ Hpn].
  destruct (mark_block_used s p n Hok ltac:(lia) ltac:(lia) Hsub) as (Hok1 & Hg1 & Hset1).
  set (s1 := for_loop _ _ _ s) in *. cbv zeta.
  rewrite page_addr_small by lia.
  rewrite (u64_small (n * PAGE_SIZE)) by (rewrite PAGE_SIZE_eq; lia).
  destruct (pmm_ok_zero_pages (count_allocation s1) (p * PAGE_SIZE) (n * PAGE_SIZE)) as (Hok' & Hset & Hmem).
  { by apply count_allocation_ok. }
  { rewrite PAGE_SIZE_eq. lia. }
  { intros b Hb. change (¬ in_bitmap s1 b). rewrite (in_bitmap_geometry s s1) by done.
    rewrite PAGE_SIZE_eq in Hb.
    apply (ok_safe _ Hok (b / 4096)).
    - apply Hsub, elem_of_block. Z.to_euclidean_division_equations; lia.
    - unfold in_page. rewrite PAGE_SIZE_eq. Z.to_euclidean_division_equations; lia. }
  split_and!; [done|apply Hg1..|]. right. exists p. split_and!; [done..|by rewrite Hset|].
  intros a Ha. rewrite Hmem. change (pmm_mem (count_allocation s1)) with (pmm_mem s1).
  rewrite (sg_mem _ _ Hg1) by done. rewrite PAGE_SIZE_eq. repeat case_decide; done || lia.
Qed.

(** Freeing: invalid addresses, pages outside the bitmap and free pages are
    ignored; a used page joins the free set. *)
Lemma pmm_free_page_spec s a :
  0 ≤ a →
  (a = 0 ∨ a mod PAGE_SIZE ≠ 0 ∨ total_pages s ≤ a / PAGE_SIZE ∨ a / PAGE_SIZE ∈ free_set s →
     pmm_free_page s a = s) ∧
  (a ≠ 0 → a mod PAGE_SIZE = 0 → a / PAGE_SIZE < total_pages s → a / PAGE_SIZE ∉ free_set s →
     pmm_free_page s a = pmm_mark_page_free s (a / PAGE_SIZE)).
Proof.
  intros Ha. unfold pmm_free_page.
  destruct (Z.eqb_spec a 0) as [->|Ha0]; cbn [orb]; [by split|].
  destruct (Z.eqb_spec (a mod PAGE_SIZE) 0) as [Hm|Hm]; cbn [negb]; [|by split].
  assert (0 ≤ a / PAGE_SIZE) by (apply Z.div_pos; [done|by rewrite PAGE_SIZE_eq]).
  split.
  - intros [?|[?|[Hge|Hin]]]; [done..| |].
    + case_if; [done|]. by apply pmm_mark_page_free_out.
    + apply elem_of_free_set in Hin as [_ ->]. done.
  - intros _ _ Hlt Hnot. destruct (pmm_is_page_free s (a / PAGE_SIZE)) eqn:E; [|done].
    exfalso. apply Hnot, elem_of_free_set. split; [lia|done].
Qed.

(** *** Initialization *)

(** The region covers page [p]. *)
Definition region_has (r : memory_region) (p : Z) : Prop :=
  mr_type r = MEMORY_TYPE_AVAILABLE ∧
  mr_start r / PAGE_SIZE ≤ p < mr_start r / PAGE_SIZE + mr_size r / PAGE_SIZE.

Definition region_valid (r : memory_region) : Prop :=
  0 ≤ mr_start r < 2 ^ 64 ∧ 0 ≤ mr_size r < 2 ^ 64.

(** Unbounded sum of the sizes of the available regions. *)
Fixpoint avail_total (rs : list memory_region) : Z :=
  match rs with
  | [] => 0
  | r :: rs => (if mr_type r =? MEMORY_TYPE_AVAILABLE then mr_size r else 0) + avail_total rs
  end.

Lemma avail_total_nonneg rs : Forall region_valid rs → 0 ≤ avail_total rs.
Proof. induction 1 as [|r rs [_ Hs] _ IH]; simpl; [done|]. case_if; lia. Qed.

Lemma avail_total_snoc rs r :
  avail_total (rs ++ [r]) =
  avail_total rs + (if mr_type r =? MEMORY_TYPE_AVAILABLE then mr_size r else 0).
Proof. induction rs as [|r' rs IH]; simpl; [|rewrite IH]; repeat case_if; lia. Qed.

Lemma take_nth_snoc {A} (l : list A) n d : (n < length l)%nat → take (S n) l = take n l ++ [nth n l d].
Proof.
  intros. rewrite take_S_r with (x := nth n l d); [done|].
  destruct (lookup_lt_is_Some_2 l n) as [x Hx]; [done|].
  rewrite Hx. f_equal. symmetry. by apply nth_lookup_Some.
Qed.

Lemma avail_total_app rs rs' : avail_total (rs ++ rs') = avail_total rs + avail_total rs'.
Proof. induction rs as [|r rs IH]; simpl; [|rewrite IH]; lia. Qed.

Lemma avail_total_take_le rs n : Forall region_valid rs → avail_total (take n rs) ≤ avail_total rs.
Proof.
  intros H. rewrite <- (take_drop n rs) at 2. rewrite avail_total_app.
  pose proof (avail_total_nonneg (drop n rs) (Forall_drop _ _ _ H)). lia.
Qed.

Lemma pmm_total_memory_spec arr rs :
  Forall region_valid rs → avail_total rs < 2 ^ 64 →
  (∀ i, (i < length rs)%nat → nth i arr zero_region = nth i rs zero_region) →
  pmm_total_memory arr (length rs) = avail_total rs.
Proof.
  intros Hv Hlt Hnth. unfold pmm_total_memory.
  set (P i total := total = avail_total (take (Z.to_nat i) rs)).
  replace (length rs) with (Z.to_nat (Z.of_nat (length rs))) by lia.
  replace (avail_total rs) with (avail_total (take (Z.to_nat (Z.of_nat (length rs))) rs))
    by (by rewrite Nat2Z.id, firstn_all).
  apply (for_loop_upto P); unfold P; [lia|done|]. intros j total Hj ->.
  replace (Z.to_nat (j + 1)) with (S (Z.to_nat j)) by lia.
  rewrite Hnth, (take_nth_snoc rs _ zero_region), avail_total_snoc by lia.
  pose proof (avail_total_take_le rs (S (Z.to_nat j)) Hv) as Hle.
  rewrite (take_nth_snoc rs _ zero_region), avail_total_snoc in Hle by lia.
  pose proof (avail_total_nonneg _ (Forall_take _ (Z.to_nat j) _ Hv)).
  destruct (mr_type (nth (Z.to_nat j) rs zero_region) =? MEMORY_TYPE_AVAILABLE); [|lia].
  rewrite u64_small; [done|]. destruct (proj1 (Forall_nth _ zero_region _) Hv (Z.to_nat j)); lia.
Qed.

(** The bookkeeping that holds while [pmm_init] frees pages. *)
Definition counted (s : pmm) : Prop :=
  0 ≤ total_pages s < 2 ^ 52 ∧ free_pages s = Z.of_nat (size (free_set s)).

Lemma pmm_mark_page_free_counted s p :
  counted s → 0 ≤ p →
  let s' := pmm_mark_page_free s p in
  counted s' ∧ same_geometry s s' ∧
  ∀ q, q ∈ free_set s' ↔ q ∈ free_set s ∨ (q = p ∧ p < total_pages s).
Proof.
  intros [Ht Hf] Hp s'. subst s'. pose proof (pmm_mark_geometry_free s p Hp) as Hg.
  destruct (decide (p < total_pages s)) as [Hlt|Hge].
  - pose proof (free_set_mark_free s p ltac:(lia)) as Hset. split_and!; [|done|].
    + split; [by rewrite (sg_total _ _ Hg)|]. destruct (decide (p ∈ free_set s)) as [Hin|Hin].
      * by rewrite pmm_mark_page_free_noop.
      * destruct (pmm_mark_free_counters s p ltac:(lia) Hin) as [-> _].
        rewrite Hset, size_union, size_singleton by set_solver.
        pose proof (size_free_set_lt s p ltac:(lia) Hin). rewrite u64_small; lia.
    + intros q. rewrite Hset. set_solver.
  - rewrite pmm_mark_page_free_out by lia. split_and!; [done..|]. intros q.
    split; [by left|]. intros [?|[_ ?]]; [done|lia].
Qed.

Lemma pmm_free_region_spec s r :
  counted s → region_valid r →
  let s' := pmm_free_region s r in
  counted s' ∧ same_geometry s s' ∧
  ∀ q, q ∈ free_set s' ↔ q ∈ free_set s ∨ (region_has r q ∧ q < total_pages s).
Proof.
  intros Hc [Hst Hsz] s'. subst s'. unfold pmm_free_region, region_has.
  destruct (Z.eqb_spec (mr_type r) MEMORY_TYPE_AVAILABLE) as [Ht|Ht]; cbv zeta.
  2:{ split_and!; [done..|]. intros q. split; [by left|]. intros [?|[[??]?]]; done. }
  assert (0 ≤ mr_start r / PAGE_SIZE ∧ 0 ≤ mr_size r / PAGE_SIZE) as [H1 H2]
    by (rewrite PAGE_SIZE_eq; split; apply Z.div_pos; lia).
  set (st := mr_start r / PAGE_SIZE) in *. set (n := mr_size r / PAGE_SIZE) in *.
  set (P i s' := counted s' ∧ same_geometry s s' ∧
    ∀ q, q ∈ free_set s' ↔ q ∈ free_set s ∨ (st ≤ q < i ∧ q < total_pages s)).
  assert (P (st + Z.of_nat (Z.to_nat n))
    (for_loop (Z.to_nat n) st (λ page s, pmm_mark_page_free s page) s)) as (?&?&Hset).
  { apply for_loop_ind; unfold P.
    - split_and!; [done..|]. intros q. split; [by left|]. intros [?|?]; [done|lia].
    - intros j s1 Hj (Hc1 & Hg1 & Hset1).
      destruct (pmm_mark_page_free_counted s1 j Hc1 ltac:(lia)) as (Hc2 & Hg2 & Hset2).
      split_and!; [done|by trans s1|]. intros q. rewrite Hset2, Hset1, (sg_total _ _ Hg1).
      split; [intros [[?|?]|?]; [by left|right; lia..]|].
      intros [?|?]; [by left; left|]. destruct (decide (q = j)); [right; lia|left; right; lia]. }
  split_and!; [done..|]. intros q. rewrite Hset, Z2Nat.id by done.
  split; (intros [?|?]; [by left|right]); [split; [split; [done|lia]|lia]|lia].
Qed.

(** Copying the boot regions into the static array. *)
Lemma copy_regions_spec s regs n :
  (n ≤ length (memory_regions s))%nat →
  let s' := for_loop n 0 (λ i s, s <| memory_regions :=
               <[Z.to_nat i := nth (Z.to_nat i) regs zero_region]> (memory_regions s) |>) s in
  s' = s <| memory_regions := memory_regions s' |> ∧
  ∀ i, (i < n)%nat → nth i (memory_regions s') zero_region = nth i regs zero_region.
Proof.
  intros Hlen s'. subst s'.
  set (P j s' := s' = s <| memory_regions := memory_regions s' |> ∧
    length (memory_regions s') = length (memory_regions s) ∧
    ∀ i, Z.of_nat i < j → nth i (memory_regions s') zero_region = nth i regs zero_region).
  assert (P (Z.of_nat n) (for_loop (Z.to_nat (Z.of_nat n)) 0 (λ i s, s <| memory_regions :=
     <[Z.to_nat i := nth (Z.to_nat i) regs zero_region]> (memory_regions s) |>) s)) as (Hs&_&Hnth).
  { apply for_loop_upto; [lia|split_and!; [by destruct s|done|lia]|].
    intros j s1 Hj (Heq & Hl & Hi). split_and!.
    - rewrite Heq. done.
    - cbn. by rewrite length_insert.
    - intros i Hij. cbn. destruct (decide (i = Z.to_nat j)) as [->|Hne].
      + apply nth_lookup_Some. apply list_lookup_insert_eq. lia.
      + rewrite !nth_lookup, list_lookup_insert_ne by done.
        rewrite <- !nth_lookup. apply Hi. lia. }
  rewrite Nat2Z.id in Hs, Hnth. split; [done|]. intros i Hi. apply Hnth. lia.
Qed.

(** A bitmap filled with 0xFF has no free page. *)
Lemma free_set_all_used s :
  (∀ a, in_bitmap s a → rd8 (pmm_mem s) a = 0xFF) → free_set s = ∅.
Proof.
  intros Hff. apply set_eq. intros p. rewrite elem_of_free_set_bit. split; [|set_solver].
  intros [Hp Hb]. exfalso. unfold page_bit in Hb. rewrite Hff in Hb by by apply in_bitmap_cell.
  change 0xFF with (Z.ones 8) in Hb.
  rewrite Z.ones_spec_low in Hb by (apply Z.mod_pos_bound; lia). done.
Qed.

(** Freeing every region in turn. *)
Lemma free_regions_spec s rs :
  counted s → Forall region_valid rs →
  (∀ i, (i < length rs)%nat → nth i (memory_regions s) zero_region = nth i rs zero_region) →
  let s' := for_loop (length rs) 0 (λ i s,
        pmm_free_region s (nth (Z.to_nat i) (memory_regions s) zero_region)) s in
  counted s' ∧ same_geometry s s' ∧
  ∀ q, q ∈ free_set s' ↔ q ∈ free_set s ∨ (q < total_pages s ∧ Exists (λ r, region_has r q) rs).
Proof.
  intros Hc Hv Hnth s'. subst s'.
  set (P j s' := counted s' ∧ same_geometry s s' ∧ ∀ q, q ∈ free_set s' ↔ q ∈ free_set s ∨
    (q < total_pages s ∧ Exists (λ r, region_has r q) (take (Z.to_nat j) rs))).
  assert (P (Z.of_nat (length rs)) (for_loop (Z.to_nat (Z.of_nat (length rs))) 0 (λ i s,
    pmm_free_region s (nth (Z.to_nat i) (memory_regions s) zero_region)) s)) as HP.
  2:{ unfold P in HP. by rewrite !Nat2Z.id, firstn_all in HP. }
  apply for_loop_upto; unfold P; [lia| |].
  - split_and!; [done..|]. intros q. rewrite Z2Nat.inj_0, take_0.
    split; [by left|]. intros [?|[_ ?%Exists_nil]]; done.
  - intros j s1 Hj (Hc1 & Hg1 & Hset1).
    rewrite (sg_regions _ _ Hg1), Hnth by lia.
    replace (Z.to_nat (j + 1)) with (S (Z.to_nat j)) by lia.
    rewrite (take_nth_snoc rs _ zero_region) by lia.
    destruct (pmm_free_region_spec s1 (nth (Z.to_nat j) rs zero_region)) as (Hc2 & Hg2 & Hset2);
      [done|apply (proj1 (Forall_nth _ _ _) Hv); lia|].
    split_and!; [done|by trans s1|]. intros q.
    rewrite Hset2, Hset1, (sg_total _ _ Hg1), Exists_app, Exists_cons, Exists_nil. tauto.
Qed.

Lemma nth_take_lt {A} (l : list A) n i d : (i < n)%nat → nth i (take n l) d = nth i l d.
Proof. intros. rewrite !nth_lookup, lookup_take_lt by done. done. Qed.

Lemma pmm_setup_bitmap_spec s total :
  0 ≤ total < 2 ^ 64 →
  let s' := pmm_setup_bitmap s total in
  counted s' ∧ free_set s' = ∅ ∧ bitmap_size s' = (total_pages s' + 7) / 8 ∧
  ∀ a, ¬ in_bitmap s' a → rd8 (pmm_mem s') a = rd8 (pmm_mem s) a.
Proof.
  intros Ht s'. set (t := total / PAGE_SIZE).
  assert (0 ≤ t < 2 ^ 52) as Ht'.
  { subst t. rewrite PAGE_SIZE_eq. Z.to_euclidean_division_equations; lia. }
  assert (bitmap_size s' = (t + 7) / 8) as Hbs by (cbn; by rewrite u64_small by lia).
  assert (∀ a, rd8 (pmm_mem s') a =
    if decide (in_bitmap s' a) then 0xFF else rd8 (pmm_mem s) a) as Hmem.
  { intros a. change (rd8 (memory_set (pmm_mem s) 0x100000 0xFF (bitmap_size s')) a =
      if decide (in_bitmap s' a) then 0xFF else rd8 (pmm_mem s) a).
    rewrite Hbs, rd8_memory_set by (apply Z.div_pos; lia).
    unfold in_bitmap. cbn. change (u8 255) with 255. fold t. repeat case_decide; done || lia. }
  assert (free_set s' = ∅) as Hempty.
  { apply free_set_all_used. intros a Ha. by rewrite Hmem, decide_True. }
  split_and!; [|done..|].
  - split; [done|]. by rewrite Hempty, size_empty.
  - intros a Ha. by rewrite Hmem, decide_False.
Qed.

Lemma pmm_init_counts s regs :
  (32 ≤ length (memory_regions s))%nat → regs ≠ [] →
  let rs := take 32 regs in
  Forall region_valid rs → avail_total rs < 2 ^ 64 →
  let '(r, s') := pmm_init s (Some regs) (Z.of_nat (length regs)) in
  r = 0 ∧ page_bitmap s' = 0x100000 ∧ total_pages s' = avail_total rs / PAGE_SIZE ∧
  (∀ p, p ∈ free_set s' ↔ 0 ≤ p < total_pages s' ∧ Exists (λ r, region_has r p) rs) ∧
  (∀ a, ¬ in_bitmap s' a → rd8 (pmm_mem s') a = rd8 (pmm_mem s) a) ∧
  ((∀ p, p ∈ free_set s' → page_avoids_bitmap s' p) → pmm_ok s') ∧ counted s'.
Proof.
  intros Hlen Hne rs Hv Hlt. unfold pmm_init.
  assert (length regs ≠ 0%nat) by (by destruct regs).
  rewrite (proj2 (Z.eqb_neq (Z.of_nat (length regs)) 0)) by lia. cbv zeta.
  replace (Z.to_nat (if 32 <? Z.of_nat (length regs) then 32 else Z.of_nat (length regs)))
    with (length rs).
  2:{ subst rs. rewrite length_take. destruct (Z.ltb_spec 32 (Z.of_nat (length regs))); lia. }
  assert (length rs ≤ 32)%nat as Hrs by (subst rs; rewrite length_take; lia).
  set (n := if 32 <? Z.of_nat (length regs) then 32 else Z.of_nat (length regs)).
  destruct (copy_regions_spec (s <| region_count := n |>) regs (length rs)) as [Heq Hnth]; [cbn; lia|].
  set (s1 := for_loop (length rs) 0 _ (s <| region_count := n |>)) in *.
  assert (∀ i, (i < length rs)%nat →
    nth i (memory_regions s1) zero_region = nth i rs zero_region) as Hnth'.
  { intros i Hi. rewrite Hnth by done. symmetry. apply nth_take_lt. lia. }
  rewrite (pmm_total_memory_spec _ rs) by done.
  pose proof (avail_total_nonneg rs Hv) as Hpos.
  destruct (pmm_setup_bitmap_spec s1 (avail_total rs)) as (Hc2 & Hempty & Hbs & Hmem2); [lia|].
  set (s2 := pmm_setup_bitmap s1 (avail_total rs)) in *.
  destruct (free_regions_spec s2 rs Hc2 Hv Hnth') as (Hc3 & Hg3 & Hset3).
  set (s3 := for_loop (length rs) 0 _ s2) in *. cbn. destruct Hc3 as [Ht3 Hfree3].
  pose proof (size_free_set_le s3 ltac:(lia)).
  split_and!; [done|apply (sg_bitmap _ _ Hg3)|apply (sg_total _ _ Hg3)| | | |done].
  - intros p. change (free_set (s3 <| pmm_stats := _ |>)) with (free_set s3). split.
    + intros Hp. pose proof Hp as [? _]%elem_of_free_set. rewrite Hset3, Hempty in Hp.
      destruct Hp as [?|[??]]; [set_solver|]. by split.
    + intros [Hp ?]. rewrite (sg_total _ _ Hg3) in Hp. apply Hset3. right. split; [lia|done].
  - intros a Ha. change (¬ in_bitmap s3 a) in Ha.
    rewrite (in_bitmap_geometry s2 s3) in Ha by done.
    rewrite (sg_mem _ _ Hg3), Hmem2 by done. by rewrite Heq.
  - intros Hsafe. split; cbn; try done.
    + by rewrite (sg_size _ _ Hg3), (sg_total _ _ Hg3).
    + by rewrite (u64_small (total_pages s3 - free_pages s3)) by lia.
Qed.

Lemma pmm_init_spec s regs :
  (32 ≤ length (memory_regions s))%nat → regs ≠ [] →
  let rs := take 32 regs in
  Forall region_valid rs → avail_total rs < 2 ^ 64 →
  let '(r, s') := pmm_init s (Some regs) (Z.of_nat (length regs)) in
  r = 0 ∧ page_bitmap s' = 0x100000 ∧ total_pages s' = avail_total rs / PAGE_SIZE ∧
  (∀ p, p ∈ free_set s' ↔ 0 ≤ p < total_pages s' ∧ Exists (λ r, region_has r p) rs) ∧
  (∀ a, ¬ in_bitmap s' a → rd8 (pmm_mem s') a = rd8 (pmm_mem s) a) ∧
  ((∀ p, p ∈ free_set s' → page_avoids_bitmap s' p) → pmm_ok s').
Proof.
  intros Hlen Hne rs Hv Hlt. pose proof (pmm_init_counts s regs Hlen Hne Hv Hlt) as H.
  destruct (pmm_init _ _ _) as [r s']. tauto.
Qed.

(** ** The interface to the virtual memory manager

    The bytes of a set of page addresses. *)
Definition owned_bytes (O : gset Z) (a : Z) : Prop := ∃ r, r ∈ O ∧ r ≤ a < r + PAGE_SIZE.

(** What a page allocator promises.  [pa_inv O a]: the allocator is consistent
    and its clients hold the pages whose addresses are in [O].  [pa_avail a] is a
    number of allocations that are sure to succeed. *)
Class PageAllocator (A : Type) := {
  pa_mem : A → mem;
  pa_set_mem : mem → A → A;
  pa_alloc : A → Z * A;
  pa_inv : gset Z → A → Prop;
  pa_avail : A → nat;
  pa_mem_set m a : pa_mem (pa_set_mem m a) = m;
  pa_page O a r : pa_inv O a → r ∈ O → 0 < r ∧ r mod PAGE_SIZE = 0 ∧ r + PAGE_SIZE ≤ 2 ^ 64;
  pa_write O a m :
    pa_inv O a → (∀ b, ¬ owned_bytes O b → rd8 m b = rd8 (pa_mem a) b) →
    pa_inv O (pa_set_mem m a) ∧ pa_avail (pa_set_mem m a) = pa_avail a;
  pa_alloc_keeps O a b :
    pa_inv O a → owned_bytes O b → rd8 (pa_mem (pa_alloc a).2) b = rd8 (pa_mem a) b;
  pa_alloc_result O a :
    pa_inv O a →
    let '(r, a') := pa_alloc a in
    (r = 0 ∧ pa_inv O a') ∨
    ((r ∉ O) ∧ pa_inv ({[r]} ∪ O) a' ∧ ∀ b, r ≤ b < r + PAGE_SIZE → rd8 (pa_mem a') b = 0);
  pa_alloc_avail O a n :
    pa_inv O a → pa_avail a = S n → (pa_alloc a).1 ≠ 0 ∧ pa_avail (pa_alloc a).2 = n
}.

(** The pages [O] are in use, inside the managed range and clear of the bitmap. *)
Definition pages_held (O : gset Z) (s : pmm) : Prop :=
  ∀ r, r ∈ O → 0 < r ∧ r mod PAGE_SIZE = 0 ∧ r / PAGE_SIZE < total_pages s ∧
    (r / PAGE_SIZE ∉ free_set s) ∧ page_avoids_bitmap s (r / PAGE_SIZE).

Definition pmm_inv (O : gset Z) (s : pmm) : Prop := pmm_ok s ∧ pages_held O s.

(** Page 0 is handed out as address 0, which reads as a failure. *)
Definition pmm_avail (s : pmm) : nat := if decide (0 ∈ free_set s) then 0%nat else size (free_set s).

Lemma page_of_addr r a :
  r mod PAGE_SIZE = 0 → (r ≤ a < r + PAGE_SIZE ↔ in_page (r / PAGE_SIZE) a).
Proof. unfold in_page. rewrite PAGE_SIZE_eq. intros. Z.to_euclidean_division_equations; lia. Qed.

Lemma in_page_inj p q a : in_page p a → in_page q a → p = q.
Proof. unfold in_page. rewrite PAGE_SIZE_eq. lia. Qed.

Lemma page_addr_div p : p * PAGE_SIZE / PAGE_SIZE = p.
Proof. apply Z.div_mul. done. Qed.

Lemma page_addr_mod p : p * PAGE_SIZE mod PAGE_SIZE = 0.
Proof. apply Z.mod_mul. done. Qed.

Lemma aligned_page_addr r : r mod PAGE_SIZE = 0 → r = r / PAGE_SIZE * PAGE_SIZE.
Proof. rewrite PAGE_SIZE_eq. intros. Z.to_euclidean_division_equations; lia. Qed.

Lemma owned_not_bitmap O s a : pages_held O s → owned_bytes O a → ¬ in_bitmap s a.
Proof.
  intros Hh (r & Hr & Ha). destruct (Hh r Hr) as (_ & Hm & _ & _ & Hav).
  by apply Hav, (proj1 (page_of_addr r a Hm)).
Qed.

Lemma pages_held_mono O s s' :
  total_pages s' = total_pages s → page_bitmap s' = page_bitmap s → free_set s' ⊆ free_set s →
  pages_held O s → pages_held O s'.
Proof.
  intros Ht Hb Hsub Hh r Hr. destruct (Hh r Hr) as (?&?&?&Hnot&Hav).
  rewrite Ht. split_and!; [done..|set_solver|].
  intros a Ha. unfold in_bitmap. rewrite Hb, Ht. by apply Hav.
Qed.

Lemma pmm_write_inv O s m :
  pmm_inv O s → (∀ b, ¬ owned_bytes O b → rd8 m b = rd8 (pmm_mem s) b) →
  pmm_inv O (s <| pmm_mem := m |>) ∧ free_set (s <| pmm_mem := m |>) = free_set s.
Proof.
  intros [Hok Hh] Hm.
  assert (∀ a, in_bitmap s a → rd8 m a = rd8 (pmm_mem s) a) as Hbm.
  { intros a Ha. apply Hm. intros Ho. by apply (owned_not_bitmap O s a). }
  pose proof (free_set_set_mem s m Hbm) as Hset. split; [|done]. split.
  - by apply pmm_ok_set_mem.
  - apply (pages_held_mono O s); try done. by rewrite Hset.
Qed.

(** The addresses of a set of page numbers. *)
Definition addrs (B : gset Z) : gset Z := set_map (λ p, p * PAGE_SIZE) B.

Lemma elem_of_addrs B r : r ∈ addrs B ↔ ∃ p, r = p * PAGE_SIZE ∧ p ∈ B.
Proof. unfold addrs. by rewrite elem_of_map. Qed.

Lemma addrs_singleton p : addrs {[p]} = {[p * PAGE_SIZE]}.
Proof. unfold addrs. by rewrite set_map_singleton_L. Qed.

Lemma size_addrs B : size (addrs B) = size B.
Proof.
  induction B as [|p B Hp IH] using set_ind_L; [done|].
  unfold addrs in *. rewrite set_map_union_L, set_map_singleton_L.
  rewrite !size_union, !size_singleton, IH; [done|set_solver|].
  intros r ->%elem_of_singleton (q & Hq & Hin)%elem_of_map.
  rewrite PAGE_SIZE_eq in Hq. replace p with q in Hp by lia. done.
Qed.

(** Freshly allocated pages join the pages in use. *)
Lemma pages_held_alloc O s s' B :
  pmm_ok s → total_pages s' = total_pages s → page_bitmap s' = page_bitmap s →
  B ⊆ free_set s → 0 ∉ B → free_set s' = free_set s ∖ B → pages_held O s →
  addrs B ## O ∧ pages_held (addrs B ∪ O) s'.
Proof.
  intros Hok Ht Hb HB H0 Hset Hh. split.
  - intros r (p & -> & Hp)%elem_of_addrs Hin. destruct (Hh _ Hin) as (_&_&_&Hnot&_).
    rewrite page_addr_div in Hnot. set_solver.
  - intros r [(p & -> & Hp)%elem_of_addrs|Hr']%elem_of_union.
    + pose proof (HB p Hp) as [Hr _]%elem_of_free_set.
      rewrite page_addr_div, page_addr_mod, Hset, Ht. split_and!; [|done|lia|set_solver|].
      * assert (p ≠ 0) by (intros ->; done). rewrite PAGE_SIZE_eq. lia.
      * intros a Ha. unfold in_bitmap. rewrite Hb, Ht. apply (ok_safe _ Hok p); [set_solver|done].
    + apply (pages_held_mono O s s'); [done|done|set_solver|done|done].
Qed.

Lemma pmm_alloc_inv O s :
  pmm_inv O s →
  let '(r, s') := pmm_alloc_page s in
  (∀ b, owned_bytes O b → rd8 (pmm_mem s') b = rd8 (pmm_mem s) b) ∧
  ((r = 0 ∧ pmm_inv O s') ∨
   ((r ∉ O) ∧ pmm_inv ({[r]} ∪ O) s' ∧ ∀ b, r ≤ b < r + PAGE_SIZE → rd8 (pmm_mem s') b = 0)).
Proof.
  intros [Hok Hh]. pose proof (pmm_alloc_page_spec s Hok) as Hspec.
  destruct (pmm_alloc_page s) as [r s'].
  destruct Hspec as (Hok' & Ht & Hb & [(_ & -> & ->)|(p & Hp & _ & -> & Hset & Hmem)]).
  { split; [done|]. left. by split. }
  split.
  - intros b Ho. rewrite Hmem by by apply (owned_not_bitmap O). destruct (decide _) as [Hd|Hd]; [|done].
    destruct Ho as (r & Hr & Hb'), Hd as [_ Hd]. destruct (Hh r Hr) as (_&Hm&_&Hnot&_).
    exfalso. apply Hnot. apply (page_of_addr r b Hm) in Hb'.
    by rewrite (in_page_inj _ p b Hb' Hd).
  - destruct (decide (p = 0)) as [->|Hp0].
    + left. split; [done|]. split; [done|]. apply (pages_held_mono O s); [done|done|set_solver|done].
    + right. destruct (pages_held_alloc O s s' {[p]}) as [Hnew Hheld]; [set_solver..|].
      rewrite addrs_singleton in Hnew, Hheld. split_and!; [set_solver|by split|]. intros b Hb'.
      assert (in_page p b) as Hin by (unfold in_page; lia).
      rewrite Hmem by by apply (ok_safe _ Hok p). by rewrite decide_True.
Qed.

Lemma pmm_alloc_avail s n :
  pmm_ok s → pmm_avail s = S n → (pmm_alloc_page s).1 ≠ 0 ∧ pmm_avail (pmm_alloc_page s).2 = n.
Proof.
  intros Hok Hav. unfold pmm_avail in *. case_decide as H0; [done|].
  pose proof (pmm_alloc_page_spec s Hok) as Hspec. destruct (pmm_alloc_page s) as [r s']. cbn.
  destruct Hspec as (_ & _ & _ & [(He & _)|(p & Hp & _ & -> & Hset & _)]).
  { by rewrite He, size_empty in Hav. }
  assert (p ≠ 0) by (intros ->; done). split; [rewrite PAGE_SIZE_eq; lia|].
  rewrite Hset, decide_False by set_solver.
  rewrite size_difference, size_singleton by set_solver. lia.
Qed.

#[export] Program Instance pmm_allocator : PageAllocator pmm := {|
  pa_mem := pmm_mem;
  pa_set_mem m s := s <| pmm_mem := m |>;
  pa_alloc := pmm_alloc_page;
  pa_inv := pmm_inv;
  pa_avail := pmm_avail
|}.
Next Obligation. done. Qed.
Next Obligation.
  intros O s r [Hok Hh] Hr. destruct (Hh r Hr) as (?&Hm&Hlt&_). split_and!; [done..|].
  pose proof (ok_total _ Hok). rewrite PAGE_SIZE_eq in *. Z.to_euclidean_division_equations; lia.
Qed.
Next Obligation.
  intros O s m Hinv Hm. destruct (pmm_write_inv O s m Hinv Hm) as [? Hset]. split; [done|].
  unfold pmm_avail. by rewrite Hset.
Qed.
Next Obligation.
  intros O s b Hinv Ho. pose proof (pmm_alloc_inv O s Hinv) as H.
  destruct (pmm_alloc_page s). by apply H.
Qed.
Next Obligation.
  intros O s Hinv. pose proof (pmm_alloc_inv O s Hinv) as H. destruct (pmm_alloc_page s). apply H.
Qed.
Next Obligation. intros O s n [Hok _]. by apply pmm_alloc_avail. Qed.

(** ** Clients of the allocator

    A step of the machine as the allocator sees it: a client allocates, writes
    into pages it holds, frees a page it holds, or passes an address that
    [pmm_free_page] must ignore.  The second component is the set of page
    addresses the clients hold. *)
Inductive pmm_step : pmm * gset Z → pmm * gset Z → Prop :=
  | step_alloc s O r s' :
      pmm_alloc_page s = (r, s') → r ≠ 0 → pmm_step (s, O) (s', {[r]} ∪ O)
  | step_alloc_fail s O s' :
      pmm_alloc_page s = (0, s') → pmm_step (s, O) (s', O)
  | step_alloc_pages s O n r s' :
      2 ≤ n → pmm_alloc_pages s n = (r, s') → r ≠ 0 →
      pmm_step (s, O) (s', addrs (block (r / PAGE_SIZE) n) ∪ O)
  | step_alloc_pages_fail s O n s' :
      2 ≤ n → pmm_alloc_pages s n = (0, s') → pmm_step (s, O) (s', O)
  | step_write s O m :
      (∀ b, ¬ owned_bytes O b → rd8 m b = rd8 (pmm_mem s) b) →
      pmm_step (s, O) (s <| pmm_mem := m |>, O)
  | step_free s O r :
      r ∈ O → pmm_step (s, O) (pmm_free_page s r, O ∖ {[r]})
  | step_free_ignored s O r :
      0 ≤ r → r = 0 ∨ r mod PAGE_SIZE ≠ 0 ∨ total_pages s ≤ r / PAGE_SIZE ∨
              r / PAGE_SIZE ∈ free_set s →
      pmm_step (s, O) (pmm_free_page s r, O)
  | step_stats s O :
      pmm_step (s, O) ((get_memory_stats s).2, O).

(** What every reachable state satisfies: [n] pages are accounted for. *)
Definition clients_ok (n : Z) (st : pmm * gset Z) : Prop :=
  pmm_inv st.2 st.1 ∧ (0 ∉ free_set st.1) ∧ free_pages st.1 + Z.of_nat (size st.2) = n.

Lemma clients_ok_take n s O s' B :
  clients_ok n (s, O) → pmm_ok s' → total_pages s' = total_pages s → page_bitmap s' = page_bitmap s →
  B ⊆ free_set s → free_set s' = free_set s ∖ B →
  clients_ok n (s', addrs B ∪ O).
Proof.
  intros ([Hok Hh] & H0 & Hn) Hok' Ht Hb HB Hset.
  destruct (pages_held_alloc O s s' B) as [Hdisj Hheld]; [done..|set_solver|done|done|].
  split_and!; [by split|cbn; set_solver|]. cbn in *.
  pose proof (subseteq_size _ _ HB).
  rewrite (ok_free _ Hok'), Hset, size_difference, size_union, size_addrs by done.
  rewrite (ok_free _ Hok) in Hn. lia.
Qed.

Lemma clients_ok_free n s O r :
  clients_ok n (s, O) → r ∈ O → clients_ok n (pmm_free_page s r, O ∖ {[r]}).
Proof.
  intros ([Hok Hh] & H0 & Hn) Hr. destruct (Hh r Hr) as (Hpos & Hm & Hlt & Hnot & Hav). cbn in *.
  assert (0 ≤ r / PAGE_SIZE) by (apply Z.div_pos; [lia|done]).
  rewrite (proj2 (pmm_free_page_spec s r ltac:(lia))) by (done || lia).
  set (p := r / PAGE_SIZE) in *.
  pose proof (free_set_mark_free s p ltac:(lia)) as Hset.
  pose proof (pmm_mark_geometry_free s p ltac:(lia)) as Hg.
  pose proof (pmm_mark_page_free_ok s p Hok ltac:(lia) Hav) as Hok'.
  assert (r = p * PAGE_SIZE) as Hrp by (by apply aligned_page_addr).
  assert (p ≠ 0) by (intros E; rewrite E in Hrp; lia).
  split_and!; cbn.
  - split; [done|]. intros q Hq. apply elem_of_difference in Hq as [HqO Hqr].
    destruct (Hh q HqO) as (?&Hqm&?&Hqn&Hqa).
    rewrite Hset, (sg_total _ _ Hg). split_and!; [done..| |by apply (page_avoids_geometry s)].
    rewrite elem_of_union, elem_of_singleton. intros [Heq|?]; [|done]. apply Hqr.
    apply elem_of_singleton. rewrite (aligned_page_addr q Hqm), Heq. done.
  - rewrite Hset. set_solver.
  - rewrite (ok_free _ Hok'), Hset, size_union, size_singleton by set_solver.
    rewrite size_difference, size_singleton by set_solver.
    rewrite (ok_free _ Hok) in Hn.
    assert (size O ≠ 0%nat) by (apply size_non_empty_iff; set_solver). lia.
Qed.

Lemma get_memory_stats_ok s : pmm_ok s → (get_memory_stats s).2 = s.
Proof.
  intros Hok. pose proof (size_free_set_le s ltac:(apply ok_total; done)).
  pose proof (ok_total _ Hok). pose proof (ok_free _ Hok).
  unfold get_memory_stats. cbn. rewrite (u64_small (total_pages s - free_pages s)) by lia.
  rewrite <- (ok_available _ Hok), <- (ok_used _ Hok).
  by destruct s as [? []].
Qed.

Lemma pmm_step_ok n st st' : clients_ok n st → pmm_step st st' → clients_ok n st'.
Proof.
  intros Hc Hstep. pose proof Hc as ([Hok Hh] & H0 & Hn).
  inversion Hstep as [s O r s' Ha Hr|s O s' Ha|s O k r s' Hk Ha Hr|s O k s' Hk Ha|s O m Hm
    |s O r Hr|s O r Hr Hbad|s O]; subst; cbn in *.
  - pose proof (pmm_alloc_page_spec s Hok) as Hspec. rewrite Ha in Hspec.
    destruct Hspec as (Hok' & Ht & Hb & [(_&?&_)|(p & Hp & _ & -> & Hset & _)]); [done|].
    rewrite <- addrs_singleton. eapply (clients_ok_take _ s); try done. set_solver.
  - pose proof (pmm_alloc_page_spec s Hok) as Hspec. rewrite Ha in Hspec.
    destruct Hspec as (_ & _ & _ & [(_&_& ->)|(p & Hp & _ & Hp0 & _)]); [done|].
    rewrite PAGE_SIZE_eq in Hp0. by replace p with 0 in Hp by lia.
  - pose proof (pmm_alloc_pages_spec s k Hok Hk) as Hspec. rewrite Ha in Hspec.
    destruct Hspec as (Hok' & Ht & Hb & [(_&?&_)|(p & Hp & _ & -> & Hset & _)]); [done|].
    rewrite page_addr_div. by apply (clients_ok_take _ s).
  - pose proof (pmm_alloc_pages_spec s k Hok Hk) as Hspec. rewrite Ha in Hspec.
    destruct Hspec as (_ & _ & _ & [(_&_& ->)|(p & Hp & _ & Hp0 & _)]); [done|].
    rewrite PAGE_SIZE_eq in Hp0. replace p with 0 in Hp by lia.
    exfalso. apply H0, Hp, elem_of_block. lia.
  - destruct (pmm_write_inv O s m) as [? Hset]; [by split|done|].
    split_and!; [done|cbn; by rewrite Hset|done].
  - by apply clients_ok_free.
  - by rewrite (proj1 (pmm_free_page_spec s r Hr)).
  - change (clients_ok (free_pages s + Z.of_nat (size O)) ((get_memory_stats s).2, O)).
    by rewrite get_memory_stats_ok.
Qed.

(** A small machine: one available region of 16 pages above page 0. *)
Definition sample_regions : list memory_region := [mk_region 0x1000 0x11000 0x10000 1 0 0].
Definition sample_pmm : pmm := (pmm_init (pmm_boot ∅) (Some sample_regions) 1).2.

Lemma sample_regions_valid : Forall region_valid (take 32 sample_regions).
Proof. repeat constructor; unfold region_valid; cbn; lia. Qed.

Lemma sample_pmm_free : free_set sample_pmm = block 1 15.
Proof. vm_compute. reflexivity. Qed.

Lemma sample_pmm_safe p : p ∈ free_set sample_pmm → page_avoids_bitmap sample_pmm p.
Proof.
  rewrite sample_pmm_free, elem_of_block. intros Hp a. unfold in_page, in_bitmap.
  rewrite PAGE_SIZE_eq. change (page_bitmap sample_pmm) with 0x100000. lia.
Qed.

Lemma sample_pmm_ok : pmm_ok sample_pmm.
Proof.
  pose proof (pmm_init_spec (pmm_boot ∅) sample_regions ltac:(cbn; lia) ltac:(done)
    sample_regions_valid ltac:(done)) as H.
  change (Z.of_nat (length sample_regions)) with 1 in H.
  destruct (pmm_init (pmm_boot ∅) (Some sample_regions) 1) as [r s] eqn:E.
  assert (s = sample_pmm) as -> by (unfold sample_pmm; by rewrite E).
  apply H. apply sample_pmm_safe.
Qed.

(** ** Theorems *)

(** C32: [pmm_init] rejects a NULL or empty region table and otherwise succeeds:
    of a table whose available sizes add up to less than 2^64 (entries after the
    32nd are dropped) exactly the pages of available regions whose number is
    below the page count become free, nothing outside the bitmap is written, and
    if no such page overlaps the bitmap at 1 MB the invariant [pmm_ok] holds. *)
Theorem pmm_init_correct s regs :
  (∀ n, pmm_init s None n = (-1, s)) ∧ pmm_init s (Some regs) 0 = (-1, s) ∧
  ((32 ≤ length (memory_regions s))%nat → regs ≠ [] →
   Forall region_valid (take 32 regs) → avail_total (take 32 regs) < 2 ^ 64 →
   let '(r, s') := pmm_init s (Some regs) (Z.of_nat (length regs)) in
   let managed p := 0 ≤ p < total_pages s' ∧ Exists (λ r, region_has r p) (take 32 regs) in
   r = 0 ∧ total_pages s' = avail_total (take 32 regs) / PAGE_SIZE ∧
   (∀ p, p ∈ free_set s' ↔ managed p) ∧
   (∀ a, ¬ in_bitmap s' a → rd8 (pmm_mem s') a = rd8 (pmm_mem s) a) ∧
   ((∀ p, managed p → page_avoids_bitmap s' p) → pmm_ok s')).
Proof.
  split_and!; [done..|]. intros Hlen Hne Hv Hlt.
  pose proof (pmm_init_spec s regs Hlen Hne Hv Hlt) as Hspec.
  destruct (pmm_init s (Some regs) _) as [r s'].
  destruct Hspec as (?&_&?&Hset&?&Hok). split_and!; [done..|].
  intros Hav. apply Hok. intros p Hp. by apply Hav, Hset.
Qed.

Lemma pmm_init_correct_witness : 3 ∈ free_set sample_pmm ∧ pmm_ok sample_pmm.
Proof.
  pose proof (pmm_init_correct (pmm_boot ∅) sample_regions) as (_ & _ & H).
  specialize (H ltac:(cbn; lia) ltac:(done) sample_regions_valid ltac:(done)).
  change (pmm_init (pmm_boot ∅) (Some sample_regions) (Z.of_nat (length sample_regions)))
    with (pmm_init (pmm_boot ∅) (Some sample_regions) 1) in H.
  destruct (pmm_init (pmm_boot ∅) (Some sample_regions) 1) as [r s] eqn:E.
  assert (s = sample_pmm) as -> by (unfold sample_pmm; by rewrite E).
  destruct H as (_ & _ & Hset & _ & Hok). split.
  - rewrite sample_pmm_free. apply elem_of_block. lia.
  - apply Hok. intros p Hp. by apply sample_pmm_safe, Hset.
Defined.

(** C14: [pmm_alloc_page] implements the abstract allocator: it removes the
    least page from the free set and returns its address, the page zeroed (page
    0 excepted, whose address is NULL to [memory_set]) and every other byte
    outside the bitmap unchanged; with no free page it returns 0 and changes
    nothing.  The invariant is preserved. *)
Theorem pmm_alloc_page_refines s :
  pmm_ok s →
  let '(r, s') := pmm_alloc_page s in
  pmm_ok s' ∧
  ((free_set s = ∅ ∧ r = 0 ∧ s' = s) ∨
   ∃ p, p ∈ free_set s ∧ (∀ q, q ∈ free_set s → p ≤ q) ∧ r = p * PAGE_SIZE ∧
     free_set s' = free_set s ∖ {[p]} ∧ free_pages s' = free_pages s - 1 ∧
     ∀ a, ¬ in_bitmap s a →
       rd8 (pmm_mem s') a = if decide (p ≠ 0 ∧ in_page p a) then 0 else rd8 (pmm_mem s) a).
Proof.
  intros Hok. pose proof (pmm_alloc_page_spec s Hok) as Hspec.
  destruct (pmm_alloc_page s) as [r s'].
  destruct Hspec as (Hok' & _ & _ & [Hl|(p & Hp & Hmin & Hr & Hset & Hmem)]); [by auto|].
  split; [done|]. right. exists p. split_and!; [done..| |done].
  rewrite (ok_free _ Hok'), (ok_free _ Hok), Hset, size_difference, size_singleton by set_solver.
  assert (size (free_set s) ≠ 0%nat) by (apply size_non_empty_iff; set_solver). lia.
Qed.

Lemma pmm_alloc_page_refines_witness : pmm_ok (pmm_alloc_page sample_pmm).2.
Proof.
  pose proof (pmm_alloc_page_refines sample_pmm sample_pmm_ok) as H.
  destruct (pmm_alloc_page sample_pmm) as [r s']. apply H.
Defined.

(** C33: [pmm_alloc_pages] with [n >= 2] is a first-fit search: it takes the
    lowest run of [n] contiguous free pages, exactly those pages leave the free
    set, their bytes are zeroed and nothing else outside the bitmap changes; it
    returns 0, changing nothing, exactly when no such run exists. *)
Theorem pmm_alloc_pages_first_fit s n :
  pmm_ok s → 2 ≤ n →
  let '(r, s') := pmm_alloc_pages s n in
  pmm_ok s' ∧
  (((∀ q, ¬ block q n ⊆ free_set s) ∧ r = 0 ∧ s' = s) ∨
   ∃ p, block p n ⊆ free_set s ∧ (∀ q, block q n ⊆ free_set s → p ≤ q) ∧ r = p * PAGE_SIZE ∧
     free_set s' = free_set s ∖ block p n ∧
     ∀ a, ¬ in_bitmap s a →
       rd8 (pmm_mem s') a =
       if decide (p ≠ 0 ∧ p * PAGE_SIZE ≤ a < (p + n) * PAGE_SIZE) then 0 else rd8 (pmm_mem s) a).
Proof.
  intros Hok Hn. pose proof (pmm_alloc_pages_spec s n Hok Hn) as Hspec.
  destruct (pmm_alloc_pages s n) as [r s']. destruct Hspec as (?&_&_&?). by split.
Qed.

Lemma pmm_alloc_pages_first_fit_witness : (pmm_alloc_pages sample_pmm 20).1 = 0.
Proof.
  pose proof (pmm_alloc_pages_first_fit sample_pmm 20 sample_pmm_ok ltac:(lia)) as H.
  destruct (pmm_alloc_pages sample_pmm 20) as [r s'].
  destruct H as (_ & [(_ & -> & _)|(p & Hp & _)]); [done|].
  apply subseteq_size in Hp. rewrite sample_pmm_free in Hp.
  pose proof (size_block p 20 ltac:(lia)). pose proof (size_block 1 15 ltac:(lia)). lia.
Defined.

(** Freeing a page that was just allocated restores the free set and the
    counters, and freeing it a second time is ignored. *)
Theorem pmm_alloc_free_roundtrip s r s' :
  pmm_ok s → pmm_alloc_page s = (r, s') → r ≠ 0 →
  let s'' := pmm_free_page s' r in
  free_set s'' = free_set s ∧ free_pages s'' = free_pages s ∧
  available_physical (pmm_stats s'') = available_physical (pmm_stats s) ∧
  used_physical (pmm_stats s'') = used_physical (pmm_stats s) ∧
  pmm_ok s'' ∧ pmm_free_page s'' r = s''.
Proof.
  intros Hok Ha Hr. pose proof (pmm_alloc_page_spec s Hok) as Hspec. rewrite Ha in Hspec.
  destruct Hspec as (Hok' & Ht & Hb & [(_&?&_)|(p & Hp & _ & -> & Hset & _)]); [done|].
  pose proof Hp as [Hp' _]%elem_of_free_set.
  assert (0 ≤ p * PAGE_SIZE) by (rewrite PAGE_SIZE_eq; lia).
  assert (page_avoids_bitmap s' p) as Hav.
  { intros a Ha'. unfold in_bitmap. rewrite Hb, Ht. by apply (ok_safe _ Hok p). }
  cbv zeta. rewrite (proj2 (pmm_free_page_spec s' (p * PAGE_SIZE) ltac:(done)));
    rewrite ?page_addr_div, ?page_addr_mod, ?Hset; [|done|done|lia|set_solver].
  pose proof (pmm_mark_page_free_ok s' p Hok' ltac:(lia) Hav) as Hok2.
  assert (free_set (pmm_mark_page_free s' p) = free_set s) as Hset2.
  { rewrite free_set_mark_free, Hset by lia. apply set_eq. intros q.
    rewrite elem_of_union, elem_of_difference, elem_of_singleton.
    destruct (decide (q = p)); naive_solver. }
  pose proof (pmm_mark_geometry_free s' p ltac:(lia)) as Hg.
  assert (free_pages (pmm_mark_page_free s' p) = free_pages s) as Hfp
    by by rewrite (ok_free _ Hok2), (ok_free _ Hok), Hset2.
  split_and!; [done..| | |done|].
  - by rewrite (ok_available _ Hok2), (ok_available _ Hok), Hfp.
  - by rewrite (ok_used _ Hok2), (ok_used _ Hok), Hfp, (sg_total _ _ Hg), Ht.
  - apply pmm_free_page_spec; [done|]. right; right; right. by rewrite page_addr_div, Hset2.
Qed.

Lemma pmm_alloc_free_roundtrip_witness :
  free_set (pmm_free_page (pmm_alloc_page sample_pmm).2 0x1000) = free_set sample_pmm.
Proof.
  destruct (pmm_alloc_page sample_pmm) as [r s'] eqn:E.
  assert (r = 0x1000) as -> by (apply (f_equal fst) in E; vm_compute in E; done).
  apply (pmm_alloc_free_roundtrip sample_pmm 0x1000 s' sample_pmm_ok E). done.
Defined.

(** C1: no sequence of client steps breaks the allocator: from a consistent
    state in which page 0 is not free, every reachable state is consistent, the
    free pages and the pages held by clients always add up to the initial free
    count (nothing leaks, nothing is counted twice), and the next page handed out
    is one no client holds and leaves every held page's bytes alone. *)
Theorem pmm_clients_safe s0 s O :
  pmm_ok s0 → 0 ∉ free_set s0 → rtc pmm_step (s0, ∅) (s, O) →
  pmm_inv O s ∧ free_pages s + Z.of_nat (size O) = free_pages s0 ∧
  ((pmm_alloc_page s).1 ≠ 0 → (pmm_alloc_page s).1 ∉ O) ∧
  (∀ b, owned_bytes O b → rd8 (pmm_mem (pmm_alloc_page s).2) b = rd8 (pmm_mem s) b).
Proof.
  intros Hok H0 Htrace.
  assert (clients_ok (free_pages s0) (s, O)) as (Hinv & _ & Hn).
  { revert Htrace. apply rtc_ind_r.
    - split_and!; cbn; [split; [done|set_solver]|done|rewrite size_empty; lia].
    - intros st st' _ Hstep IH. by apply (pmm_step_ok _ st). }
  split_and!; [done..| |]; pose proof (pmm_alloc_inv O s Hinv) as Hal;
    destruct (pmm_alloc_page s) as [r s']; cbn.
  - intros Hr. destruct Hal as (_ & [[? _]|[? _]]); done.
  - apply Hal.
Qed.

Lemma pmm_clients_safe_witness :
  pmm_inv {[0x1000]} (pmm_alloc_page sample_pmm).2 ∧ 0x1000 ∉ (∅ : gset Z).
Proof.
  split; [|set_solver].
  apply (pmm_clients_safe sample_pmm); [apply sample_pmm_ok| |].
  - rewrite sample_pmm_free, elem_of_block. lia.
  - destruct (pmm_alloc_page sample_pmm) as [r s'] eqn:E.
    assert (r = 0x1000) as -> by (apply (f_equal fst) in E; vm_compute in E; done).
    replace ({[0x1000]} : gset Z) with ({[0x1000]} ∪ ∅ : gset Z) by set_solver.
    apply rtc_once. apply (step_alloc sample_pmm ∅ 0x1000); done.
Defined.
