(* ===== verification/Vmm.v ===== *)
(** * Virtual memory manager (mm/vmm.c, arch/x86_64/arch.h)

    Four-level page tables stored in the pages of a page allocator.  The manager
    is written and proved against the interface [PageAllocator] of the physical
    memory manager; [pmm_allocator] instantiates it.  The invariant relates the
    memory to a ghost tree of tables; the abstract state is the function from
    virtual pages to page-table entries. *)
From S2P Require Import Prelude.
From S2P Require Import Memory.
From S2P Require Import Pmm.
Import MemoryUtils.
Local Open Scope Z_scope.

(** ** Constants of arch.h *)
Definition KERNEL_BASE : Z := 0xFFFFFFFF80000000.
Definition PTE_PRESENT : Z := Z.shiftl 1 0.
Definition PTE_WRITABLE : Z := Z.shiftl 1 1.

(** The static variables of vmm.c beside the allocator they draw pages from. *)
Record vmm (A : Type) := mk_vmm {
  kernel_pml4 : Z;
  kernel_cr3 : Z;
  vm_areas : Z;
  vm_area_count : Z;
  vm_pa : A
}.
Arguments mk_vmm {A}.
Arguments kernel_pml4 {A}.
Arguments kernel_cr3 {A}.
Arguments vm_areas {A}.
Arguments vm_area_count {A}.
Arguments vm_pa {A}.
#[export] Instance eta_vmm {A} : Eta (vmm A) := λ r,
  {| kernel_pml4 := kernel_pml4 r; kernel_cr3 := kernel_cr3 r; vm_areas := vm_areas r;
     vm_area_count := vm_area_count r; vm_pa := vm_pa r |}.

(** Index of [va] at the level whose entries span [2^sh] bytes. *)
Definition pt_index (sh va : Z) : Z := Z.land (Z.shiftr va sh) 0x1FF.

(** [e & ~0xFFFUL]. *)
Definition frame_of (e : Z) : Z := Z.land e (u64 (Z.lnot 0xFFF)).

(** [arch_invlpg] is an empty stub. *)
Definition arch_invlpg {A} (s : vmm A) (addr : Z) : vmm A := s.

Section vmm.
Context {A : Type} `{PA : PageAllocator A}.
Implicit Types s : vmm A.

Definition vm_mem s : mem := pa_mem (vm_pa s).
Definition vm_set_mem s (m : mem) : vmm A := s <| vm_pa := pa_set_mem m (vm_pa s) |>.

(** One of the three "allocate the next table if it is absent" blocks of
    [vmm_map_page], for the entry at address [entry]; false when the allocation
    fails. *)
Definition ensure_table s (entry : Z) : bool * vmm A :=
  if negb (has_bits (rd64 (vm_mem s) entry) PTE_PRESENT) then
    let '(phys, a) := pa_alloc (vm_pa s) in
    let s := s <| vm_pa := a |> in
    if phys =? 0 then (false, s)
    else
      let s := vm_set_mem s (wr64 (vm_mem s) entry (Z.lor (Z.lor phys PTE_PRESENT) PTE_WRITABLE)) in
      let s := vm_set_mem s (memory_set (vm_mem s) phys 0 PAGE_SIZE) in
      (true, s)
  else (true, s).

Definition vmm_map_page s (virtual_addr physical_addr flags : Z) : Z * vmm A :=
  let pml4_index := pt_index 39 virtual_addr in
  let pdp_index := pt_index 30 virtual_addr in
  let pd_index := pt_index 21 virtual_addr in
  let pt_idx := pt_index 12 virtual_addr in
  let pml4 := kernel_pml4 s in
  let '(ok, s) := ensure_table s (pml4 + 8 * pml4_index) in
  if negb ok then (-1, s)
  else
    let pdp := frame_of (rd64 (vm_mem s) (pml4 + 8 * pml4_index)) in
    let '(ok, s) := ensure_table s (pdp + 8 * pdp_index) in
    if negb ok then (-1, s)
    else
      let pd := frame_of (rd64 (vm_mem s) (pdp + 8 * pdp_index)) in
      let '(ok, s) := ensure_table s (pd + 8 * pd_index) in
      if negb ok then (-1, s)
      else
        let pt := frame_of (rd64 (vm_mem s) (pd + 8 * pd_index)) in
        let s := vm_set_mem s (wr64 (vm_mem s) (pt + 8 * pt_idx)
                                 (Z.lor (frame_of physical_addr) flags)) in
        (0, arch_invlpg s virtual_addr).

(** The walk shared by [vmm_unmap_page] and [vmm_get_physical]: the address of
    the page table that covers [virtual_addr], if every level is present. *)
Definition walk_to_pt s (virtual_addr : Z) : option Z :=
  let m := vm_mem s in
  let pml4 := kernel_pml4 s in
  let e4 := rd64 m (pml4 + 8 * pt_index 39 virtual_addr) in
  if negb (has_bits e4 PTE_PRESENT) then None
  else
    let pdp := frame_of e4 in
    let e3 := rd64 m (pdp + 8 * pt_index 30 virtual_addr) in
    if negb (has_bits e3 PTE_PRESENT) then None
    else
      let pd := frame_of e3 in
      let e2 := rd64 m (pd + 8 * pt_index 21 virtual_addr) in
      if negb (has_bits e2 PTE_PRESENT) then None
      else Some (frame_of e2).

Definition vmm_unmap_page s (virtual_addr : Z) : vmm A :=
  match walk_to_pt s virtual_addr with
  | None => s
  | Some pt =>
      let s := vm_set_mem s (wr64 (vm_mem s) (pt + 8 * pt_index 12 virtual_addr) 0) in
      arch_invlpg s virtual_addr
  end.

Definition vmm_get_physical s (virtual_addr : Z) : Z :=
  let offset := Z.land virtual_addr 0xFFF in
  match walk_to_pt s virtual_addr with
  | None => 0
  | Some pt =>
      let e := rd64 (vm_mem s) (pt + 8 * pt_index 12 virtual_addr) in
      if negb (has_bits e PTE_PRESENT) then 0
      else Z.lor (frame_of e) offset
  end.

(** [vmm_protect]; the loop bound is the number of pages from the aligned start
    to the aligned end, none when the end does not lie above the start. *)
Definition vmm_protect s (start size flags : Z) : Z * vmm A :=
  let end_ := u64 (start + size) in
  let start := frame_of start in
  let end_ := frame_of (u64 (end_ + 0xFFF)) in
  for_try (Z.to_nat ((end_ - start) / PAGE_SIZE)) start PAGE_SIZE (λ addr s,
    let phys := vmm_get_physical s addr in
    if negb (phys =? 0) then
      let s := vmm_unmap_page s addr in
      let '(result, s) := vmm_map_page s addr phys flags in
      if negb (result =? 0) then (-1, s) else (0, s)
    else (0, s)) s.

Definition vmm_init s : Z * vmm A :=
  let '(pml4_phys, a) := pa_alloc (vm_pa s) in
  let s := s <| vm_pa := a |> in
  if pml4_phys =? 0 then (-1, s)
  else
    let s := s <| kernel_pml4 := pml4_phys |> <| kernel_cr3 := pml4_phys |> in
    let s := vm_set_mem s (memory_set (vm_mem s) (kernel_pml4 s) 0 PAGE_SIZE) in
    let '(r, s) :=
      for_try (Z.to_nat (0x100000000 / PAGE_SIZE)) 0 PAGE_SIZE (λ addr s,
        let '(result, s) := vmm_map_page s addr addr (Z.lor PTE_PRESENT PTE_WRITABLE) in
        if negb (result =? 0) then (-1, s) else (0, s)) s in
    if negb (r =? 0) then (r, s)
    else
      for_try (Z.to_nat (0x10000000 / PAGE_SIZE)) 0 PAGE_SIZE (λ phys s,
        let virt := u64 (KERNEL_BASE + phys) in
        let '(result, s) := vmm_map_page s virt phys (Z.lor PTE_PRESENT PTE_WRITABLE) in
        if negb (result =? 0) then (-1, s) else (0, s)) s.

(** The VMA functions are placeholders in the source: they return NULL and do
    nothing. *)
Definition vmm_create_area s (start size flags type : Z) : Z * vmm A := (0, s).
Definition vmm_destroy_area s (area : Z) : vmm A := s.

End vmm.

(** ** The tree of tables *)

Lemma pt_index_range sh va : 0 ≤ pt_index sh va < 512.
Proof.
  unfold pt_index. change 0x1FF with (Z.ones 9). rewrite Z.land_ones by lia.
  apply Z.mod_pos_bound. lia.
Qed.
#[export] Hint Resolve pt_index_range : fgos.

Lemma frame_of_arith e : 0 ≤ e < 2 ^ 64 → frame_of e = e - e mod 4096.
Proof. intros. unfold frame_of. by apply (land_align_mask e 12). Qed.

(** An entry made of an aligned address and flag bits. *)
Lemma entry_parts r f :
  0 ≤ r < 2 ^ 64 → r mod 4096 = 0 → 0 ≤ f < 4096 →
  Z.lor r f = r + f ∧ 0 ≤ r + f < 2 ^ 64 ∧ frame_of (Z.lor r f) = r.
Proof.
  intros Hr Hm Hf. assert (Z.lor r f = r + f) as Hor by (by apply (lor_add_low r f 12)).
  rewrite Hor. split; [done|].
  assert (r + f < 2 ^ 64) by (Z.to_euclidean_division_equations; lia).
  split; [lia|]. rewrite frame_of_arith by lia. Z.to_euclidean_division_equations; lia.
Qed.

Lemma has_present e : has_bits e PTE_PRESENT = Z.odd e.
Proof. unfold PTE_PRESENT. rewrite has_bits_single by lia. apply Z.bit0_odd. Qed.

Lemma table_entry r :
  0 ≤ r → r + 4096 ≤ 2 ^ 64 → r mod 4096 = 0 →
  let e := Z.lor (Z.lor r PTE_PRESENT) PTE_WRITABLE in
  0 ≤ e < 2 ^ 64 ∧ has_bits e PTE_PRESENT = true ∧ frame_of e = r.
Proof.
  intros H0 Hr Hm e. subst e. rewrite <- Z.lor_assoc.
  change (Z.lor PTE_PRESENT PTE_WRITABLE) with 3.
  destruct (entry_parts r 3) as (-> & ? & Hf); [lia..|].
  split_and!; [lia|lia| |done].
  rewrite has_present, Z.odd_add. change (Z.odd 3) with true.
  rewrite (Z.div_mod r 4096), Hm, Z.add_0_r by done. by rewrite Z.odd_mul.
Qed.

(** The tree of page tables: the path of indices from the root to a table
    determines the table's address. *)
Abbreviation tree := (gmap (list Z) Z).

Definition tables (T : tree) : gset Z := map_img T.

(** [tree_ok T root m]: the memory [m] holds the tables [T]; an upper-level entry
    is present exactly when the child table exists, and then points to it. *)
Record tree_ok (T : tree) (root : Z) (m : mem) : Prop := {
  to_root : T !! [] = Some root;
  to_parent : ∀ p i, is_Some (T !! (p ++ [i])) → is_Some (T !! p);
  to_inj : ∀ p q a, T !! p = Some a → T !! q = Some a → p = q;
  to_entry : ∀ p a i, T !! p = Some a → (length p < 3)%nat → 0 ≤ i < 512 →
    let e := rd64 m (a + 8 * i) in
    T !! (p ++ [i]) = if has_bits e PTE_PRESENT then Some (frame_of e) else None
}.

(** The entry [i] of the last-level table at path [q]; 0 where there is none. *)
Definition leaf (T : tree) (m : mem) (q : list Z) (i : Z) : Z :=
  match T !! q with Some a => rd64 m (a + 8 * i) | None => 0 end.

(** The path of [va] and the number of its virtual page within the 2^36 pages
    the four indices can tell apart. *)
Definition path (va : Z) : list Z := [pt_index 39 va; pt_index 30 va; pt_index 21 va].
Definition vpn (va : Z) : Z := (va / PAGE_SIZE) mod 2 ^ 36.

Lemma pt_index_arith sh va : 0 ≤ sh → pt_index sh va = (va / 2 ^ sh) mod 512.
Proof.
  intros. unfold pt_index. change 0x1FF with (Z.ones 9).
  rewrite Z.land_ones, Z.shiftr_div_pow2 by lia. done.
Qed.

Lemma vpn_indices va :
  vpn va = ((pt_index 39 va * 512 + pt_index 30 va) * 512 + pt_index 21 va) * 512 + pt_index 12 va.
Proof.
  rewrite !pt_index_arith by lia. unfold vpn. rewrite PAGE_SIZE_eq.
  change (2 ^ 39) with (4096 * (512 * (512 * 512))). change (2 ^ 30) with (4096 * (512 * 512)).
  change (2 ^ 21) with (4096 * 512). change (2 ^ 12) with 4096.
  change (2 ^ 36) with (512 * (512 * (512 * 512))).
  rewrite <- !(Z.div_div va 4096) by lia. set (x := va / 4096).
  rewrite <- !Z.div_div by lia. rewrite !Z.rem_mul_r by lia.
  lia.
Qed.

Lemma vpn_inj va vb : vpn va = vpn vb ↔ path va = path vb ∧ pt_index 12 va = pt_index 12 vb.
Proof.
  rewrite !vpn_indices. unfold path.
  pose proof (pt_index_range 39 va). pose proof (pt_index_range 30 va).
  pose proof (pt_index_range 21 va). pose proof (pt_index_range 12 va).
  pose proof (pt_index_range 39 vb). pose proof (pt_index_range 30 vb).
  pose proof (pt_index_range 21 vb). pose proof (pt_index_range 12 vb).
  split; [|by intros [[= -> -> ->] ->]].
  intros Heq. assert (pt_index 12 va = pt_index 12 vb) by lia.
  assert (pt_index 21 va = pt_index 21 vb) by lia.
  assert (pt_index 30 va = pt_index 30 vb) by lia.
  assert (pt_index 39 va = pt_index 39 vb) by lia. split; [congruence|done].
Qed.

Section vmm_proofs.
Context {A : Type} `{PA : PageAllocator A}.
Implicit Types s : vmm A.

(** The tables and the data pages [D] are held from the allocator, disjointly. *)
Record vmm_inv (T : tree) (D : gset Z) s : Prop := {
  vi_pa : pa_inv (tables T ∪ D) (vm_pa s);
  vi_disj : tables T ## D;
  vi_tree : tree_ok T (kernel_pml4 s) (vm_mem s)
}.

Lemma elem_of_tables T a : a ∈ tables T ↔ ∃ p, T !! p = Some a.
Proof. unfold tables. by rewrite elem_of_map_img. Qed.

Lemma table_page T D s p a :
  vmm_inv T D s → T !! p = Some a → 0 < a ∧ a mod 4096 = 0 ∧ a + 4096 ≤ 2 ^ 64.
Proof.
  intros [Hpa _ _] Hp. apply (pa_page _ _ a Hpa). apply elem_of_union_l, elem_of_tables. eauto.
Qed.

Lemma aligned_disjoint a b : a mod 4096 = 0 → b mod 4096 = 0 → a ≠ b → a + 4096 ≤ b ∨ b + 4096 ≤ a.
Proof. intros. Z.to_euclidean_division_equations; lia. Qed.

Lemma tables_disjoint T D s p q a b :
  vmm_inv T D s → T !! p = Some a → T !! q = Some b → p ≠ q → a + 4096 ≤ b ∨ b + 4096 ≤ a.
Proof.
  intros Hi Hp Hq Hne. destruct (table_page T D s p a Hi Hp) as (_&?&_).
  destruct (table_page T D s q b Hi Hq) as (_&?&_).
  apply aligned_disjoint; [done..|]. intros ->. apply Hne. by apply (to_inj _ _ _ (vi_tree _ _ _ Hi) _ _ b).
Qed.

Lemma rd64_ext m m' a : (∀ b, a ≤ b < a + 8 → rd8 m' b = rd8 m b) → rd64 m' a = rd64 m a.
Proof. intros H. apply rd_le_ext. intros b Hb. apply H. lia. Qed.

(** The bytes of a table. *)
Definition in_table (a b : Z) : Prop := a ≤ b < a + 4096.

Lemma entry_in_table a i b : 0 ≤ i < 512 → a + 8 * i ≤ b < a + 8 * i + 8 → in_table a b.
Proof. unfold in_table. lia. Qed.

(** Replacing the memory by one that differs only inside held pages. *)
Lemma vm_set_mem_inv O s m :
  pa_inv O (vm_pa s) → (∀ b, ¬ owned_bytes O b → rd8 m b = rd8 (vm_mem s) b) →
  pa_inv O (vm_pa (vm_set_mem s m)) ∧ pa_avail (vm_pa (vm_set_mem s m)) = pa_avail (vm_pa s) ∧
  vm_mem (vm_set_mem s m) = m.
Proof.
  intros Hpa Hm. destruct (pa_write O (vm_pa s) m Hpa Hm). split_and!; [done..|].
  unfold vm_mem, vm_set_mem. cbn. apply pa_mem_set.
Qed.

Lemma tree_ok_ext T root m m' :
  tree_ok T root m →
  (∀ p a b, T !! p = Some a → (length p < 3)%nat → in_table a b → rd8 m' b = rd8 m b) →
  tree_ok T root m'.
Proof.
  intros [Hr Hp Hi He] Hm. split; [done..|]. intros p a i Ha Hl Hr'. cbv zeta.
  rewrite (rd64_ext m m'); [by apply He|]. intros b Hb.
  apply (Hm p a); [done..|]. by apply (entry_in_table a i).
Qed.

(** The walk of the code finds the table of the tree. *)
Lemma walk_to_pt_spec T D s va : vmm_inv T D s → walk_to_pt s va = T !! path va.
Proof.
  intros [_ _ [Hr Hp _ He]]. unfold walk_to_pt, path. cbv zeta.
  pose proof (pt_index_range 39 va) as H4. pose proof (pt_index_range 30 va) as H3.
  pose proof (pt_index_range 21 va) as H2.
  pose proof (He [] _ _ Hr ltac:(simpl; lia) H4) as E4. simpl in E4.
  set (e4 := rd64 (vm_mem s) _) in *. clearbody e4.
  destruct (has_bits e4 PTE_PRESENT); simpl.
  2:{ symmetry. apply eq_None_not_Some. intros H.
      apply (Hp [_; _]) in H. apply (Hp [_]) in H. rewrite E4 in H. by destruct H. }
  pose proof (He [_] _ _ E4 ltac:(simpl; lia) H3) as E3. simpl in E3.
  set (e3 := rd64 (vm_mem s) _) in *. clearbody e3.
  destruct (has_bits e3 PTE_PRESENT); simpl.
  2:{ symmetry. apply eq_None_not_Some. intros H.
      apply (Hp [_; _]) in H. rewrite E3 in H. by destruct H. }
  pose proof (He [_; _] _ _ E3 ltac:(simpl; lia) H2) as E2. simpl in E2.
  set (e2 := rd64 (vm_mem s) _) in *. rewrite E2. by destruct (has_bits e2 PTE_PRESENT).
Qed.

(** The entry of the page of [va], as the walk reads it; 0 where a table is missing. *)
Definition pte s (va : Z) : Z :=
  match walk_to_pt s va with
  | Some pt => rd64 (vm_mem s) (pt + 8 * pt_index 12 va)
  | None => 0
  end.

Lemma pte_leaf T D s va : vmm_inv T D s → pte s va = leaf T (vm_mem s) (path va) (pt_index 12 va).
Proof. intros Hi. unfold pte, leaf. by rewrite (walk_to_pt_spec T D s va Hi). Qed.

Lemma vmm_get_physical_pte s va :
  vmm_get_physical s va =
  if has_bits (pte s va) PTE_PRESENT then Z.lor (frame_of (pte s va)) (Z.land va 0xFFF) else 0.
Proof. unfold vmm_get_physical, pte. destruct (walk_to_pt s va); [|done]. by destruct (has_bits _ _). Qed.

Lemma pte_range s va : 0 ≤ pte s va < 2 ^ 64.
Proof. unfold pte. destruct (walk_to_pt s va); [apply rd64_range|lia]. Qed.

(** Writing a fresh table [r] into the absent entry [i] of the table at path [p]. *)
Lemma tree_ok_insert T root m m' p a i r :
  tree_ok T root m → T !! p = Some a → (length p < 3)%nat → 0 ≤ i < 512 →
  T !! (p ++ [i]) = None → (r ∉ tables T) →
  (∀ q b x, T !! q = Some b → in_table b x → x < a + 8 * i ∨ a + 8 * i + 8 ≤ x → rd8 m' x = rd8 m x) →
  (∀ q b, T !! q = Some b → q ≠ p → b + 4096 ≤ a ∨ a + 4096 ≤ b) →
  (∀ x, in_table r x → rd8 m' x = 0) →
  has_bits (rd64 m' (a + 8 * i)) PTE_PRESENT = true → frame_of (rd64 m' (a + 8 * i)) = r →
  tree_ok (<[p ++ [i] := r]> T) root m'.
Proof.
  intros [Hr Hp Hinj He] Ha Hl Hi Hnone Hfresh Hm Hdisj Hz Hpres Hframe.
  assert (∀ q b, T !! q = Some b → q ≠ p ++ [i]) as Hneq by (intros q b Hq ->; congruence).
  split.
  - rewrite lookup_insert_ne; [done|]. by destruct p.
  - intros q j [b Hq]. destruct (decide (p ++ [i] = q ++ [j])) as [E|E].
    + apply app_inj_tail in E as [-> ->]. rewrite lookup_insert_ne by (by apply not_eq_sym, (Hneq q a)). eauto.
    + rewrite lookup_insert_ne in Hq by done. destruct (Hp q j ltac:(eauto)) as [c Hc].
      destruct (decide (p ++ [i] = q)) as [->|]; [by rewrite lookup_insert_eq|].
      rewrite lookup_insert_ne by done. eauto.
  - intros q q' b Hq Hq'. apply lookup_insert_Some in Hq, Hq'.
    destruct Hq as [[<- <-]|[Hn Hq]], Hq' as [[<- ?]|[Hn' Hq']]; [done|..].
    + exfalso. apply Hfresh, elem_of_tables. eauto.
    + subst b. exfalso. apply Hfresh, elem_of_tables. eauto.
    + by apply (Hinj _ _ b).
  - intros q b j Hq Hlq Hj. cbv zeta. apply lookup_insert_Some in Hq as [[<- <-]|[Hn Hq]].
    + (* the fresh table has no entries *)
      rewrite lookup_insert_ne by (intros E; apply (f_equal length) in E; rewrite !length_app in E; simpl in E; lia).
      assert (rd64 m' (r + 8 * j) = 0) as ->.
      { rewrite (rd64_ext ∅ m') by (intros x Hx; rewrite Hz; [done|by apply (entry_in_table r j)]). done. }
      apply eq_None_not_Some. intros Hs. apply Hp in Hs. rewrite Hnone in Hs. by destruct Hs.
    + destruct (decide (p ++ [i] = q ++ [j])) as [E|E].
      * apply app_inj_tail in E as [-> ->]. rewrite lookup_insert_eq.
        assert (b = a) as -> by congruence. by rewrite Hpres, Hframe.
      * rewrite lookup_insert_ne by done. rewrite (rd64_ext m m'); [by apply He|].
        intros x Hx. apply (Hm q b); [done|by apply (entry_in_table b j)|].
        destruct (decide (q = p)) as [->|Hqp].
        -- assert (b = a) as -> by congruence. assert (i ≠ j) by (intros ->; done). lia.
        -- destruct (Hdisj q b Hq Hqp); lia.
Qed.

(** What an operation on the tables leaves alone: the root, the data pages and
    every last-level entry. *)
Record vmm_frame (T T' : tree) (D : gset Z) s s' : Prop := {
  vf_root : kernel_pml4 s' = kernel_pml4 s;
  vf_data : ∀ b, owned_bytes D b → rd8 (vm_mem s') b = rd8 (vm_mem s) b;
  vf_leaf : ∀ q j, length q = 3%nat → 0 ≤ j < 512 → leaf T' (vm_mem s') q j = leaf T (vm_mem s) q j
}.

Lemma vmm_frame_refl T D s : vmm_frame T T D s s.
Proof. by split. Qed.

Lemma vmm_frame_trans T1 T2 T3 D s1 s2 s3 :
  vmm_frame T1 T2 D s1 s2 → vmm_frame T2 T3 D s2 s3 → vmm_frame T1 T3 D s1 s3.
Proof.
  intros [] []. split; [congruence| |].
  - intros b Hb. rewrite vf_data1, vf_data0; done.
  - intros q j Hq Hj. rewrite vf_leaf1, vf_leaf0; done.
Qed.

Lemma tables_insert T p r : T !! p = None → tables (<[p := r]> T) = {[r]} ∪ tables T.
Proof. intros. unfold tables. by rewrite map_img_insert_notin_L. Qed.

Lemma owned_bytes_mono O O' b : O ⊆ O' → owned_bytes O b → owned_bytes O' b.
Proof. intros Hsub (r & Hr & Hb). exists r. split; [by apply Hsub|done]. Qed.

Lemma owned_table O a b : a ∈ O → in_table a b → owned_bytes O b.
Proof. intros Ha Hb. exists a. split; [done|]. rewrite PAGE_SIZE_eq. done. Qed.

(** The state in which [ensure_table] has linked the fresh table [r]. *)
Definition link_table s (a1 : A) (entry r : Z) : vmm A :=
  let s1 := s <| vm_pa := a1 |> in
  let s2 := vm_set_mem s1 (wr64 (vm_mem s1) entry (Z.lor (Z.lor r PTE_PRESENT) PTE_WRITABLE)) in
  vm_set_mem s2 (memory_set (vm_mem s2) r 0 PAGE_SIZE).

(** Its bytes: the fresh table is empty, the entry points to it, and every other
    held byte is as before. *)
Lemma link_table_bytes O s a i r a1 :
  pa_inv O (vm_pa s) → a ∈ O → 0 ≤ i < 512 → pa_alloc (vm_pa s) = (r, a1) → r ≠ 0 →
  let s' := link_table s a1 (a + 8 * i) r in
  (r ∉ O) ∧ pa_inv ({[r]} ∪ O) (vm_pa s') ∧ pa_avail (vm_pa s') = pa_avail a1 ∧
  (∀ b, in_table r b → rd8 (vm_mem s') b = 0) ∧
  has_bits (rd64 (vm_mem s') (a + 8 * i)) PTE_PRESENT = true ∧
  frame_of (rd64 (vm_mem s') (a + 8 * i)) = r ∧
  (∀ b, owned_bytes O b → b < a + 8 * i ∨ a + 8 * i + 8 ≤ b → rd8 (vm_mem s') b = rd8 (vm_mem s) b).
Proof.
  intros Hpa HaO Hi Hal Hr0 s'. subst s'. unfold link_table. cbv zeta. set (s1 := s <| vm_pa := a1 |>).
  pose proof (pa_alloc_result O _ Hpa) as Hres. pose proof (λ b, pa_alloc_keeps O _ b Hpa) as Hkeep.
  rewrite Hal in Hres, Hkeep. cbn in Hkeep. destruct Hres as [[? _]|(Hfresh & Hpa1 & _)]; [done|].
  set (e := Z.lor (Z.lor r PTE_PRESENT) PTE_WRITABLE).
  destruct (pa_page _ _ r Hpa1) as (Hrpos & Hrm & Hrhi); [set_solver|].
  destruct (pa_page _ _ a Hpa HaO) as (Hapos & Ham & Hahi).
  destruct (table_entry r) as (He & Hpres & Hframe); [lia|done..|]. fold e in He, Hpres, Hframe.
  assert (r + 4096 ≤ a ∨ a + 4096 ≤ r) as Hra by (apply aligned_disjoint; set_solver).
  destruct (vm_set_mem_inv ({[r]} ∪ O) s1 (wr64 (vm_mem s1) (a + 8 * i) e)) as (Hpa2 & Hav2 & Hm2); [done| |].
  { intros b Hb. apply rd8_wr_le_out. destruct (decide (a + 8 * i ≤ b < a + 8 * i + 8)); [|lia].
    exfalso. apply Hb. apply (owned_table _ a); [set_solver|by apply (entry_in_table a i)]. }
  set (s2 := vm_set_mem s1 _) in *.
  assert (∀ b, rd8 (memory_set (vm_mem s2) r 0 PAGE_SIZE) b =
    if decide (in_table r b) then 0 else rd8 (vm_mem s2) b) as Hset.
  { intros b. rewrite rd8_memory_set by done. rewrite PAGE_SIZE_eq. unfold in_table.
    repeat case_decide; done || lia. }
  destruct (vm_set_mem_inv ({[r]} ∪ O) s2 (memory_set (vm_mem s2) r 0 PAGE_SIZE)) as (Hpa3 & Hav3 & Hm3); [done| |].
  { intros b Hb. rewrite Hset, decide_False; [done|]. intros Hb'.
    apply Hb, (owned_table _ r); [set_solver|done]. }
  rewrite Hm3.
  assert (rd64 (memory_set (vm_mem s2) r 0 PAGE_SIZE) (a + 8 * i) = e) as ->.
  { rewrite (rd64_ext (vm_mem s2)) by (intros b Hb; rewrite Hset, decide_False; [done|unfold in_table; lia]).
    rewrite Hm2. by apply rd64_wr64_same. }
  split_and!; [done..|by rewrite Hav3, Hav2| |done|done|].
  - intros b Hb. by rewrite Hset, decide_True.
  - intros b Hb Hout. rewrite Hset, decide_False.
    + rewrite Hm2. unfold wr64. rewrite rd8_wr_le_out by lia. by apply Hkeep.
    + intros Hrb. destruct Hb as (c & Hc & Hbc). rewrite PAGE_SIZE_eq in Hbc.
      destruct (pa_page _ _ c Hpa Hc) as (_ & Hcm & _). unfold in_table in Hrb.
      assert (r ≠ c) by (intros ->; done). destruct (aligned_disjoint r c); [done..|lia|lia].
Qed.

(** The allocating branch of [ensure_table]. *)
Lemma ensure_table_fresh T D s p a i r a1 :
  vmm_inv T D s → T !! p = Some a → (length p < 3)%nat → 0 ≤ i < 512 → T !! (p ++ [i]) = None →
  pa_alloc (vm_pa s) = (r, a1) → r ≠ 0 →
  let s' := link_table s a1 (a + 8 * i) r in
  vmm_inv (<[p ++ [i] := r]> T) D s' ∧ vmm_frame T (<[p ++ [i] := r]> T) D s s' ∧
  frame_of (rd64 (vm_mem s') (a + 8 * i)) = r ∧ pa_avail (vm_pa s') = pa_avail a1.
Proof.
  intros Hinv Hp Hl Hi Hnone Hal Hr0 s'. pose proof Hinv as [Hpa Hdisj Htree].
  assert (a ∈ tables T) as HaT by (apply elem_of_tables; eauto).
  destruct (link_table_bytes (tables T ∪ D) s a i r a1) as (Hfresh & Hpa' & Hav & Hz & Hpres & Hframe & Hkeep);
    [done|set_solver|done..|]. fold s' in Hpa', Hav, Hz, Hpres, Hframe, Hkeep.
  assert (tables (<[p ++ [i] := r]> T) = {[r]} ∪ tables T) as Htab by by apply tables_insert.
  assert (∀ q b, T !! q = Some b → q ≠ p → b + 4096 ≤ a ∨ a + 4096 ≤ b) as Hdis
    by (intros q b Hq Hqp; by apply (tables_disjoint T D s q p)).
  assert (∀ q b x, T !! q = Some b → in_table b x → owned_bytes (tables T ∪ D) x) as Hown
    by (intros q b x Hq Hx; apply (owned_table _ b); [apply elem_of_union_l, elem_of_tables; eauto|done]).
  split_and!; [| |done|done].
  - split; [by rewrite Htab, <- (assoc_L (∪))|rewrite Htab; set_solver|].
    apply (tree_ok_insert T (kernel_pml4 s) (vm_mem s) _ p a); try done; [set_solver|].
    intros q b x Hq Hx Hout. apply Hkeep; [by apply (Hown q b)|done].
  - split; [done| |].
    + intros b Hb. apply Hkeep; [apply (owned_bytes_mono D); [set_solver|done]|].
      destruct Hb as (c & Hc & Hbc). rewrite PAGE_SIZE_eq in Hbc.
      destruct (pa_page _ _ c Hpa) as (_ & Hcm & _); [set_solver|].
      destruct (table_page T D s p a Hinv Hp) as (_ & Ham & _).
      destruct (aligned_disjoint a c); [done|done|set_solver|lia|lia].
    + intros q j Hq Hj. unfold leaf. destruct (decide (p ++ [i] = q)) as [<-|Hne].
      * rewrite lookup_insert_eq, Hnone.
        rewrite (rd64_ext ∅) by (intros x Hx; rewrite Hz; [done|by apply (entry_in_table r j)]). done.
      * rewrite lookup_insert_ne by done. destruct (T !! q) as [b|] eqn:Hqb; [|done].
        apply rd64_ext. intros x Hx.
        assert (in_table b x) as Hbx by by apply (entry_in_table b j).
        apply Hkeep; [by apply (Hown q b)|].
        destruct (Hdis q b Hqb); [intros ->; lia|..]; unfold in_table in Hbx; lia.
Qed.

(** [enough U T s]: the allocator can still supply every table of the set of
    paths [U] that is not in [T]. *)
Definition enough (U : gset (list Z)) (T : tree) s : Prop :=
  dom T ⊆ U ∧ (size U ≤ pa_avail (vm_pa s) + size T)%nat.

Lemma enough_self T s : enough (dom T) T s.
Proof. split; [done|]. rewrite size_dom. lia. Qed.

Lemma enough_avail U T s p : enough U T s → p ∈ U → T !! p = None → pa_avail (vm_pa s) ≠ 0%nat.
Proof.
  intros [Hsub Hsize] Hp Hnone Hav.
  assert ({[p]} ∪ dom T ⊆ U) as Hsub' by set_solver.
  apply subseteq_size in Hsub'. rewrite size_union, size_singleton, size_dom in Hsub'; [lia|].
  apply not_elem_of_dom in Hnone. set_solver.
Qed.

Lemma enough_missing (P : gset (list Z)) T s :
  (size (P ∖ dom T) ≤ pa_avail (vm_pa s))%nat → enough (P ∪ dom T) T s.
Proof.
  intros Hle. split; [set_solver|]. replace (P ∪ dom T) with ((P ∖ dom T) ∪ dom T) by
    (apply set_eq; intros x; destruct (decide (x ∈ dom T)); set_solver).
  rewrite size_union, size_dom by set_solver. lia.
Qed.

(** Swapping in an allocator state whose memory agrees on the held pages. *)
Lemma vmm_inv_keep T D s s' :
  vmm_inv T D s → kernel_pml4 s' = kernel_pml4 s → pa_inv (tables T ∪ D) (vm_pa s') →
  (∀ b, owned_bytes (tables T ∪ D) b → rd8 (vm_mem s') b = rd8 (vm_mem s) b) →
  vmm_inv T D s' ∧ vmm_frame T T D s s'.
Proof.
  intros [Hpa Hdisj Htree] Hroot Hpa' Hm.
  assert (∀ p a b, T !! p = Some a → in_table a b → rd8 (vm_mem s') b = rd8 (vm_mem s) b) as Hm'.
  { intros p a b Hp Hb. apply Hm, (owned_table _ a); [|done]. apply elem_of_union_l, elem_of_tables. eauto. }
  split; split; try done.
  - rewrite Hroot. apply (tree_ok_ext T _ (vm_mem s)); [done|]. intros p a b Hp _. by apply (Hm' p a).
  - intros b Hb. apply Hm. apply (owned_bytes_mono D); [set_solver|done].
  - intros q j _ Hj. unfold leaf. destruct (T !! q) as [a|] eqn:Hq; [|done].
    apply rd64_ext. intros b Hb. apply (Hm' q a); [done|by apply (entry_in_table a j)].
Qed.

Lemma ensure_table_spec T D s p a i :
  vmm_inv T D s → T !! p = Some a → (length p < 3)%nat → 0 ≤ i < 512 →
  let '(ok, s') := ensure_table s (a + 8 * i) in
  ∃ T', vmm_inv T' D s' ∧ vmm_frame T T' D s s' ∧ T ⊆ T' ∧ dom T' ⊆ {[p ++ [i]]} ∪ dom T ∧
    (ok = true → T' !! (p ++ [i]) = Some (frame_of (rd64 (vm_mem s') (a + 8 * i)))) ∧
    (∀ U, p ++ [i] ∈ U → enough U T s → ok = true ∧ enough U T' s').
Proof.
  intros Hinv Hp Hl Hi. pose proof Hinv as [Hpa Hdisj Htree].
  pose proof (to_entry _ _ _ Htree p a i Hp Hl Hi) as Hent. cbv zeta in Hent. unfold ensure_table.
  destruct (has_bits (rd64 (vm_mem s) (a + 8 * i)) PTE_PRESENT) eqn:Hpres; cbn [negb].
  { exists T. split_and!; [done|apply vmm_frame_refl|done|set_solver|done|done]. }
  destruct (pa_alloc (vm_pa s)) as [r a1] eqn:Hal. cbv zeta.
  destruct (Z.eqb_spec r 0) as [->|Hr].
  - exists T. pose proof (pa_alloc_result _ _ Hpa) as Hres. rewrite Hal in Hres.
    assert (pa_inv (tables T ∪ D) a1) as Hpa1.
    { destruct Hres as [[_ ?]|(_ & Hbad & _)]; [done|].
      destruct (pa_page _ _ 0 Hbad) as [? _]; [set_solver|lia]. }
    destruct (vmm_inv_keep T D s (s <| vm_pa := a1 |>)) as [Hinv' Hframe]; [done..| |].
    { intros b Hb. pose proof (pa_alloc_keeps _ _ b Hpa Hb) as Hk. by rewrite Hal in Hk. }
    split_and!; [done..|set_solver|done|].
    intros U HU Hen. pose proof (enough_avail U T s _ Hen HU Hent) as Hav.
    destruct (pa_avail (vm_pa s)) as [|n] eqn:En; [done|].
    destruct (pa_alloc_avail _ _ n Hpa En) as [Hne _]. by rewrite Hal in Hne.
  - destruct (ensure_table_fresh T D s p a i r a1) as (Hinv' & Hframe & Hf & Hav'); [done..|].
    fold (link_table s a1 (a + 8 * i) r). set (s' := link_table s a1 (a + 8 * i) r) in *.
    exists (<[p ++ [i] := r]> T). split_and!; [done|done|by apply insert_subseteq| | |].
    + rewrite dom_insert. done.
    + intros _. by rewrite lookup_insert_eq, Hf.
    + intros U HU Hen. pose proof (enough_avail U T s _ Hen HU Hent) as Hav. split; [done|].
      destruct (pa_avail (vm_pa s)) as [|n] eqn:En; [done|].
      destruct (pa_alloc_avail _ _ n Hpa En) as [_ Han]. rewrite Hal in Han. cbn in Han.
      destruct Hen as [Hsub Hsize]. split; [rewrite dom_insert; set_solver|].
      rewrite map_size_insert_None by done. rewrite Hav', Han. lia.
Qed.

(** Writing an entry of a last-level table. *)
Lemma leaf_write_spec T D s q a i v :
  vmm_inv T D s → T !! q = Some a → length q = 3%nat → 0 ≤ i < 512 → 0 ≤ v < 2 ^ 64 →
  let s' := vm_set_mem s (wr64 (vm_mem s) (a + 8 * i) v) in
  vmm_inv T D s' ∧ pa_avail (vm_pa s') = pa_avail (vm_pa s) ∧
  (∀ b, owned_bytes D b → rd8 (vm_mem s') b = rd8 (vm_mem s) b) ∧
  leaf T (vm_mem s') q i = v ∧
  (∀ q' j, 0 ≤ j < 512 → (q', j) ≠ (q, i) → leaf T (vm_mem s') q' j = leaf T (vm_mem s) q' j).
Proof.
  intros Hinv Hq Hl Hi Hv s'. pose proof Hinv as [Hpa Hdisj Htree].
  assert (a ∈ tables T) as Ha by (apply elem_of_tables; eauto).
  assert (∀ b, ¬ in_table a b → rd8 (wr64 (vm_mem s) (a + 8 * i) v) b = rd8 (vm_mem s) b) as Hout.
  { intros b Hb. apply rd8_wr_le_out. unfold in_table in Hb. lia. }
  destruct (vm_set_mem_inv (tables T ∪ D) s (wr64 (vm_mem s) (a + 8 * i) v)) as (Hpa' & Hav & Hm); [done| |].
  { intros b Hb. apply Hout. intros Hb'. apply Hb, (owned_table _ a); [set_solver|done]. }
  fold s' in Hpa', Hav, Hm.
  assert (∀ p b x, T !! p = Some b → p ≠ q → in_table b x → ¬ in_table a x) as Hdis.
  { intros p b x Hp Hpq Hb Ha'. unfold in_table in *.
    destruct (tables_disjoint T D s p q b a); [done..|lia|lia]. }
  split_and!; [|done| | |].
  - split; [done..|]. rewrite Hm. apply (tree_ok_ext T _ (vm_mem s)); [done|].
    intros p b x Hp Hlp Hb. apply Hout. apply (Hdis p b); [done| |done]. intros ->. lia.
  - intros b (c & Hc & Hbc). rewrite Hm. apply Hout. intros Hb. rewrite PAGE_SIZE_eq in Hbc.
    destruct (table_page T D s q a Hinv Hq) as (_ & Ham & _).
    destruct (pa_page _ _ c Hpa) as (_ & Hcm & _); [set_solver|]. unfold in_table in Hb.
    destruct (aligned_disjoint a c); [done|done|set_solver|lia|lia].
  - unfold leaf. rewrite Hq, Hm. by apply rd64_wr64_same.
  - intros q' j Hj Hne. unfold leaf. rewrite Hm. destruct (T !! q') as [b|] eqn:Hq'; [|done].
    destruct (decide (q' = q)) as [->|Hqq].
    + assert (b = a) as -> by congruence. apply rd64_wr64_out.
      assert (i ≠ j) by (intros ->; done). lia.
    + apply rd64_ext. intros x Hx. apply Hout, (Hdis q' b); [done..|by apply (entry_in_table b j)].
Qed.

(** The paths of the three tables that serve [va]. *)
Definition prefixes (va : Z) : gset (list Z) :=
  {[ [pt_index 39 va]; [pt_index 39 va; pt_index 30 va]; path va ]}.

(** What [vmm_map_page] and the operations built on it keep. *)
Record vmm_step (T T' : tree) (D : gset Z) s s' : Prop := {
  vs_inv : vmm_inv T' D s';
  vs_sub : T ⊆ T';
  vs_root : kernel_pml4 s' = kernel_pml4 s;
  vs_data : ∀ b, owned_bytes D b → rd8 (vm_mem s') b = rd8 (vm_mem s) b
}.

Lemma vmm_step_refl T D s : vmm_inv T D s → vmm_step T T D s s.
Proof. by split. Qed.

Lemma vmm_step_trans T1 T2 T3 D s1 s2 s3 :
  vmm_step T1 T2 D s1 s2 → vmm_step T2 T3 D s2 s3 → vmm_step T1 T3 D s1 s3.
Proof.
  intros [] []. split; [done|by trans T2|congruence|].
  intros b Hb. rewrite vs_data1, vs_data0; done.
Qed.

Lemma vmm_frame_step T T' D s s' :
  vmm_inv T' D s' → T ⊆ T' → vmm_frame T T' D s s' → vmm_step T T' D s s'.
Proof. intros ? ? []. by split. Qed.

Lemma vmm_frame_pte T T' D s s' va :
  vmm_inv T D s → vmm_inv T' D s' → vmm_frame T T' D s s' → pte s' va = pte s va.
Proof.
  intros Hi Hi' Hf. rewrite (pte_leaf T D s), (pte_leaf T' D s') by done.
  apply Hf; [done|apply pt_index_range].
Qed.

Lemma lor_flags_range pa flags :
  0 ≤ pa < 2 ^ 64 → 0 ≤ flags < 2 ^ 32 → 0 ≤ Z.lor (frame_of pa) flags < 2 ^ 64.
Proof.
  intros. apply lor_range; [lia| |lia]. rewrite frame_of_arith by done.
  Z.to_euclidean_division_equations; lia.
Qed.

(** The final store of [vmm_map_page], once the page table is there. *)
Lemma set_pte_spec T D s va pt v :
  vmm_inv T D s → T !! path va = Some pt → 0 ≤ v < 2 ^ 64 →
  let s' := vm_set_mem s (wr64 (vm_mem s) (pt + 8 * pt_index 12 va) v) in
  vmm_step T T D s s' ∧ pa_avail (vm_pa s') = pa_avail (vm_pa s) ∧ pte s' va = v ∧
  ∀ vb, vpn vb ≠ vpn va → pte s' vb = pte s vb.
Proof.
  intros Hinv Hpt Hv s'.
  destruct (leaf_write_spec T D s (path va) pt (pt_index 12 va) v) as (Hinv' & Hav & Hd & Hleaf & Hother);
    [done..|apply pt_index_range|done|]. fold s' in Hinv', Hav, Hd, Hleaf, Hother.
  split_and!; [done..| |].
  - by rewrite (pte_leaf T D s').
  - intros vb Hvb. rewrite (pte_leaf T D s'), (pte_leaf T D s) by done.
    apply Hother; [apply pt_index_range|]. intros [= E1 E2 E3 E4]. apply Hvb, vpn_inj.
    unfold path. split; congruence.
Qed.

Lemma prefix_pml4 va : [pt_index 39 va] ∈ prefixes va.
Proof. unfold prefixes. set_solver. Qed.
Lemma prefix_pdp va : [pt_index 39 va; pt_index 30 va] ∈ prefixes va.
Proof. unfold prefixes. set_solver. Qed.
Lemma prefix_pd va : path va ∈ prefixes va.
Proof. unfold prefixes. set_solver. Qed.

(** Growing the tree one table at a time within a set [P] of paths. *)
Record grow (P : gset (list Z)) (T T' : tree) (D : gset Z) s s' : Prop := {
  gr_inv : vmm_inv T' D s';
  gr_frame : vmm_frame T T' D s s';
  gr_sub : T ⊆ T';
  gr_dom : dom T' ⊆ P ∪ dom T
}.

Lemma grow_refl P T D s : vmm_inv T D s → grow P T T D s s.
Proof. split; [done|apply vmm_frame_refl|done|set_solver]. Qed.

Lemma grow_ensure P T0 T D s0 s p a i :
  grow P T0 T D s0 s → T !! p = Some a → (length p < 3)%nat → 0 ≤ i < 512 → p ++ [i] ∈ P →
  let '(ok, s') := ensure_table s (a + 8 * i) in
  ∃ T', grow P T0 T' D s0 s' ∧
    (ok = true → T' !! (p ++ [i]) = Some (frame_of (rd64 (vm_mem s') (a + 8 * i)))) ∧
    (∀ U, P ⊆ U → enough U T s → ok = true ∧ enough U T' s').
Proof.
  intros [Hi Hf Hs Hd] Hp Hl Hr HP. pose proof (ensure_table_spec T D s p a i Hi Hp Hl Hr) as H.
  destruct (ensure_table s _) as [ok s']. destruct H as (T' & Hi' & Hf' & Hs' & Hd' & Hok & Hen).
  exists T'. split_and!; [|done|intros U HU; apply Hen; by apply HU].
  split; [done|by apply (vmm_frame_trans T0 T T' D s0 s)|by trans T|]. clear -Hd Hd' HP. set_solver.
Qed.

Lemma grow_step P T T' D s s' : grow P T T' D s s' → vmm_step T T' D s s'.
Proof. intros []. by apply vmm_frame_step. Qed.

Lemma grow_pte P T T' D s s' va : vmm_inv T D s → grow P T T' D s s' → pte s' va = pte s va.
Proof. intros Hi []. by apply (vmm_frame_pte T T' D). Qed.

(** The outcome of mapping the page of [va] to the entry [e]: the entry is set
    and every other page keeps its own, or nothing is mapped; with enough pages
    the mapping succeeds. *)
Definition map_post (T : tree) (D : gset Z) s (va e r : Z) s' : Prop :=
  ∃ T', vmm_step T T' D s s' ∧ dom T' ⊆ prefixes va ∪ dom T ∧
    ((r = 0 ∧ pte s' va = e ∧ (∀ vb, vpn vb ≠ vpn va → pte s' vb = pte s vb) ∧ is_Some (T' !! path va)) ∨
     (r = -1 ∧ ∀ vb, pte s' vb = pte s vb)) ∧
    (∀ U, prefixes va ⊆ U → enough U T s → r = 0 ∧ enough U T' s').

Lemma map_post_fail T T' D s s' va e :
  vmm_inv T D s → grow (prefixes va) T T' D s s' →
  (∀ U, prefixes va ⊆ U → ¬ enough U T s) → map_post T D s va e (-1) s'.
Proof.
  intros Hi Hg Hno. exists T'. split_and!; [by apply (grow_step (prefixes va))|apply Hg| |].
  - right. split; [done|]. intros vb. by apply (grow_pte (prefixes va) T T' D).
  - intros U HU He. by destruct (Hno U HU).
Qed.

Lemma vmm_map_page_spec T D s va pa flags :
  vmm_inv T D s → 0 ≤ pa < 2 ^ 64 → 0 ≤ flags < 2 ^ 32 →
  let '(r, s') := vmm_map_page s va pa flags in
  map_post T D s va (Z.lor (frame_of pa) flags) r s'.
Proof.
  intros Hinv Hpa Hfl. unfold vmm_map_page. cbv zeta.
  pose proof (to_root _ _ _ (vi_tree _ _ _ Hinv)) as Hroot.
  pose proof (grow_ensure (prefixes va) T T D s s [] _ (pt_index 39 va)
    (grow_refl _ T D s Hinv) Hroot ltac:(simpl; lia) (pt_index_range _ _) (prefix_pml4 va)) as E1.
  destruct (ensure_table s _) as [ok1 s1]. destruct E1 as (T1 & G1 & Hok1 & Hen1).
  destruct ok1; cbn [negb].
  2:{ apply (map_post_fail T T1); [done..|]. intros U HU He. by destruct (Hen1 U HU He). }
  pose proof (grow_ensure _ T T1 D s s1 _ _ (pt_index 30 va)
    G1 (Hok1 eq_refl) ltac:(simpl; lia) (pt_index_range _ _) (prefix_pdp va)) as E2.
  destruct (ensure_table s1 _) as [ok2 s2]. destruct E2 as (T2 & G2 & Hok2 & Hen2).
  destruct ok2; cbn [negb].
  2:{ apply (map_post_fail T T2); [done..|]. intros U HU He.
      destruct (Hen1 U HU He) as [_ He1]. by destruct (Hen2 U HU He1). }
  pose proof (grow_ensure _ T T2 D s s2 _ _ (pt_index 21 va)
    G2 (Hok2 eq_refl) ltac:(simpl; lia) (pt_index_range _ _) (prefix_pd va)) as E3.
  destruct (ensure_table s2 _) as [ok3 s3]. destruct E3 as (T3 & G3 & Hok3 & Hen3).
  assert (∀ U, prefixes va ⊆ U → enough U T s → ok3 = true ∧ enough U T3 s3) as Hen.
  { intros U HU He. destruct (Hen1 U HU He) as [_ He1]. destruct (Hen2 U HU He1) as [_ He2]. by apply Hen3. }
  destruct ok3; cbn [negb].
  2:{ apply (map_post_fail T T3); [done..|]. intros U HU He. by destruct (Hen U HU He). }
  destruct (set_pte_spec T3 D s3 va _ (Z.lor (frame_of pa) flags) (gr_inv _ _ _ _ _ _ G3) (Hok3 eq_refl))
    as (St4 & Hav & Hnew & Hold); [by apply lor_flags_range|].
  exists T3. split_and!; [apply (vmm_step_trans T T3 T3 D s s3); [by apply (grow_step (prefixes va))|done]|apply G3| |].
  - left. split_and!; [done|done| |by eexists; apply (Hok3 eq_refl)].
    intros vb Hvb. etrans; [by apply Hold|]. by apply (grow_pte (prefixes va) T T3 D).
  - intros U HU He. destruct (Hen U HU He) as [_ [??]]. split; [done|]. split; [done|].
    unfold arch_invlpg. by rewrite Hav.
Qed.

(** Entries depend on the virtual page only. *)
Lemma pte_vpn s va vb : vpn va = vpn vb → pte s va = pte s vb.
Proof.
  intros [[= E4 E3 E2] E1]%vpn_inj. unfold pte, walk_to_pt. by rewrite E4, E3, E2, E1.
Qed.

Lemma vmm_unmap_page_spec T D s va :
  vmm_inv T D s →
  let s' := vmm_unmap_page s va in
  vmm_step T T D s s' ∧ pa_avail (vm_pa s') = pa_avail (vm_pa s) ∧ pte s' va = 0 ∧
  ∀ vb, vpn vb ≠ vpn va → pte s' vb = pte s vb.
Proof.
  intros Hinv. unfold vmm_unmap_page, arch_invlpg.
  destruct (walk_to_pt s va) as [pt|] eqn:Hw.
  - apply set_pte_spec; [done| |lia]. by rewrite <- (walk_to_pt_spec T D s).
  - split_and!; [by apply vmm_step_refl|done| |done]. unfold pte. by rewrite Hw.
Qed.

(** A page that has a page table can be remapped without allocating. *)
Lemma prefixes_dom T D s va : vmm_inv T D s → is_Some (T !! path va) → prefixes va ⊆ dom T.
Proof.
  intros Hi H3. pose proof (to_parent _ _ _ (vi_tree _ _ _ Hi)) as Hp.
  pose proof (Hp [_; _] _ H3) as H2. pose proof (Hp [_] _ H2) as H1.
  unfold prefixes. apply elem_of_dom in H1, H2, H3. set_solver.
Qed.

Lemma tree_grown_back (T T' : tree) : T ⊆ T' → dom T' ⊆ dom T → T' = T.
Proof.
  intros Hsub Hdom. apply map_eq. intros p. destruct (T !! p) as [a|] eqn:E.
  - by apply (lookup_weaken T).
  - apply not_elem_of_dom in E. apply not_elem_of_dom. set_solver.
Qed.

(** One round of the loop of [vmm_protect]. *)
Lemma protect_page T D s va flags :
  vmm_inv T D s → 0 ≤ va < 2 ^ 64 → va mod 4096 = 0 → 0 ≤ flags < 2 ^ 32 →
  vmm_get_physical s va ≠ 0 →
  let '(r, s') := vmm_map_page (vmm_unmap_page s va) va (vmm_get_physical s va) flags in
  r = 0 ∧ vmm_step T T D s s' ∧ pte s' va = Z.lor (frame_of (pte s va)) flags ∧
  ∀ vb, vpn vb ≠ vpn va → pte s' vb = pte s vb.
Proof.
  intros Hinv Hva Hal Hfl Hphys. rewrite vmm_get_physical_pte in Hphys |- *.
  destruct (has_bits (pte s va) PTE_PRESENT) eqn:Hpres; [|done].
  change 0xFFF with (Z.ones 12). rewrite Z.land_ones by lia.
  change (2 ^ 12) with 4096. rewrite Hal, Z.lor_0_r.
  pose proof (pte_range s va) as Hr. pose proof (frame_of_arith _ Hr) as Hfr.
  assert (0 ≤ frame_of (pte s va) < 2 ^ 64) by (rewrite Hfr; Z.to_euclidean_division_equations; lia).
  assert (frame_of (frame_of (pte s va)) = frame_of (pte s va)) as Hff.
  { rewrite frame_of_arith, Hfr by done. Z.to_euclidean_division_equations; lia. }
  destruct (vmm_unmap_page_spec T D s va Hinv) as (St1 & Hav1 & _ & Hold1).
  set (s1 := vmm_unmap_page s va) in *.
  pose proof (vmm_map_page_spec T D s1 va (frame_of (pte s va)) flags (vs_inv _ _ _ _ _ St1)) as Hmap.
  destruct (vmm_map_page s1 va _ flags) as [r s'].
  destruct Hmap as (T' & St2 & Hdom & Hres & Hen); [done..|].
  assert (is_Some (T !! path va)) as Hsome.
  { rewrite <- (walk_to_pt_spec T D s va Hinv). unfold pte in Hpres.
    by destruct (walk_to_pt s va). }
  pose proof (prefixes_dom T D s va Hinv Hsome) as Hpre.
  destruct (Hen (dom T) Hpre (enough_self T s1)) as [-> [Hdom' _]].
  assert (T' = T) as -> by (apply tree_grown_back; [apply St2|done]).
  destruct Hres as [(_ & Hnew & Hold2 & _)|[? _]]; [|done].
  split_and!; [done|by apply (vmm_step_trans T T T D s s1)|by rewrite Hnew, Hff|].
  intros vb Hvb. by rewrite Hold2, Hold1.
Qed.

Lemma vpn_page va k : vpn (va + k * PAGE_SIZE) = (va / PAGE_SIZE + k) mod 2 ^ 36.
Proof. unfold vpn. by rewrite Z.div_add. Qed.

(** Pages of a run of at most 2^36 pages have distinct numbers. *)
Lemma vpn_run_inj va j k :
  0 ≤ j < 2 ^ 36 → 0 ≤ k < 2 ^ 36 → vpn (va + j * PAGE_SIZE) = vpn (va + k * PAGE_SIZE) → j = k.
Proof. rewrite !vpn_page. intros. Z.to_euclidean_division_equations; lia. Qed.

(** [run_mapped s s' va e k]: the first [k] pages of the run starting at [va] have
    got the entries [e], every other page is as in [s]. *)
Definition run_mapped s s' (va : Z → Z) (e : Z → Z) (k : Z) : Prop :=
  (∀ j, 0 ≤ j < k → pte s' (va j) = e j) ∧
  (∀ vb, (∀ j, 0 ≤ j < k → vpn vb ≠ vpn (va j)) → pte s' vb = pte s vb).

Lemma run_mapped_0 s va e : run_mapped s s va e 0.
Proof. split; [lia|done]. Qed.

Lemma run_mapped_next s s1 s2 va e k :
  0 ≤ k → run_mapped s s1 va e k → (∀ j, 0 ≤ j < k → vpn (va j) ≠ vpn (va k)) →
  pte s2 (va k) = e k → (∀ vb, vpn vb ≠ vpn (va k) → pte s2 vb = pte s1 vb) →
  run_mapped s s2 va e (k + 1).
Proof.
  intros Hk [Hin Hout] Hdist Hnew Hold. split.
  - intros j Hj. destruct (decide (j = k)) as [->|]; [done|].
    rewrite Hold by (apply Hdist; lia). apply Hin. lia.
  - intros vb Hvb. rewrite Hold by (apply Hvb; lia). apply Hout. intros j Hj. apply Hvb. lia.
Qed.

(** The loops of [vmm_init]: map [n] pages to consecutive frames. *)
Lemma map_run_spec T D s (virt : Z → Z) n flags U :
  vmm_inv T D s → 0 ≤ n → n * 4096 ≤ 2 ^ 64 → 0 ≤ flags < 2 ^ 32 → enough U T s →
  (∀ k, 0 ≤ k < n → prefixes (virt (k * PAGE_SIZE)) ⊆ U) →
  (∀ j k, 0 ≤ j < k → k < n → vpn (virt (j * PAGE_SIZE)) ≠ vpn (virt (k * PAGE_SIZE))) →
  let '(r, s') := for_try (Z.to_nat n) 0 PAGE_SIZE (λ addr s,
    let '(result, s) := vmm_map_page s (virt addr) addr flags in
    if negb (result =? 0) then (-1, s) else (0, s)) s in
  r = 0 ∧ ∃ T', vmm_step T T' D s s' ∧ enough U T' s' ∧
    run_mapped s s' (λ k, virt (k * PAGE_SIZE)) (λ k, Z.lor (k * PAGE_SIZE) flags) n.
Proof.
  intros Hinv Hn Hhi Hfl Hen HU Hdist.
  set (P k s' := ∃ T', vmm_step T T' D s s' ∧ enough U T' s' ∧
    run_mapped s s' (λ k, virt (k * PAGE_SIZE)) (λ k, Z.lor (k * PAGE_SIZE) flags) k).
  apply (for_try_upto P); [done|..].
  { exists T. split_and!; [by apply vmm_step_refl|done|apply run_mapped_0]. }
  intros k s1 Hk (T1 & St1 & Hen1 & Hrun). rewrite Z.add_0_l.
  pose proof (vmm_map_page_spec T1 D s1 (virt (k * PAGE_SIZE)) (k * PAGE_SIZE) flags
    (vs_inv _ _ _ _ _ St1)) as Hmap.
  destruct (vmm_map_page s1 _ _ _) as [r s2].
  destruct Hmap as (T2 & St2 & _ & Hres & Hen2); [rewrite PAGE_SIZE_eq; lia|done|].
  destruct (Hen2 U (HU k Hk) Hen1) as [-> Hen2']. cbn [negb Z.eqb].
  destruct Hres as [(_ & Hnew & Hold & _)|[? _]]; [|done]. split; [done|].
  exists T2. split_and!; [by apply (vmm_step_trans T T1 T2 D s s1)|done|].
  apply (run_mapped_next s s1 s2); [lia|done|by intros j Hj; apply Hdist; lia| |done].
  rewrite Hnew. f_equal. rewrite frame_of_arith by (rewrite PAGE_SIZE_eq; lia).
  change 4096 with PAGE_SIZE. rewrite page_addr_mod. lia.
Qed.

(** [vmm_protect] on an aligned run of pages that does not wrap. *)
Lemma protect_run_spec T D s start n flags :
  vmm_inv T D s → 0 ≤ start → start mod 4096 = 0 → 0 ≤ n ≤ 2 ^ 36 → start + n * 4096 ≤ 2 ^ 64 →
  0 ≤ flags < 2 ^ 32 →
  let '(r, s') := for_try (Z.to_nat n) start PAGE_SIZE (λ addr s,
    let phys := vmm_get_physical s addr in
    if negb (phys =? 0) then
      let s := vmm_unmap_page s addr in
      let '(result, s) := vmm_map_page s addr phys flags in
      if negb (result =? 0) then (-1, s) else (0, s)
    else (0, s)) s in
  r = 0 ∧ vmm_step T T D s s' ∧
  run_mapped s s' (λ k, start + k * PAGE_SIZE) (λ k,
    let va := start + k * PAGE_SIZE in
    if vmm_get_physical s va =? 0 then pte s va else Z.lor (frame_of (pte s va)) flags) n.
Proof.
  intros Hinv Hs Hal Hn Hhi Hfl.
  set (e := λ k, let va := start + k * PAGE_SIZE in
    if vmm_get_physical s va =? 0 then pte s va else Z.lor (frame_of (pte s va)) flags).
  set (P k s' := vmm_step T T D s s' ∧ run_mapped s s' (λ k, start + k * PAGE_SIZE) e k).
  apply (for_try_upto P); [lia|..].
  { split; [by apply vmm_step_refl|apply run_mapped_0]. }
  intros k s1 Hk (St1 & Hrun). cbv zeta. set (va := start + k * PAGE_SIZE).
  assert (∀ j, 0 ≤ j < k → vpn (start + j * PAGE_SIZE) ≠ vpn va) as Hdist.
  { intros j Hj Heq. apply vpn_run_inj in Heq; lia. }
  assert (pte s1 va = pte s va) as Hsame.
  { apply (proj2 Hrun). intros j Hj. by apply not_eq_sym, Hdist. }
  assert (vmm_get_physical s1 va = vmm_get_physical s va) as Hphys by by rewrite !vmm_get_physical_pte, Hsame.
  destruct (Z.eqb_spec (vmm_get_physical s1 va) 0) as [H0|H0]; cbn [negb].
  - split; [done|]. split; [done|]. apply (run_mapped_next s s1 s1); [lia|done|done| |done].
    unfold e. fold va. rewrite <- Hphys, H0. done.
  - assert (0 ≤ va < 2 ^ 64) by (subst va; rewrite PAGE_SIZE_eq; lia).
    assert (va mod 4096 = 0) by (subst va; rewrite PAGE_SIZE_eq, Z.mod_add by lia; done).
    pose proof (protect_page T D s1 va flags (vs_inv _ _ _ _ _ St1)) as Hpp.
    destruct (vmm_map_page (vmm_unmap_page s1 va) va _ flags) as [r s2].
    destruct Hpp as (-> & St2 & Hnew & Hold); [done..|]. cbn [negb Z.eqb]. split; [done|].
    split; [by apply (vmm_step_trans T T T D s s1)|].
    apply (run_mapped_next s s1 s2); [lia|done|done| |done].
    unfold e. fold va. rewrite <- Hphys, (proj2 (Z.eqb_neq _ _) H0), <- Hsame. done.
Qed.

(** The state of [vmm_init] once the root table is in place. *)
Lemma init_root_spec D s r a1 :
  pa_inv D (vm_pa s) → pa_alloc (vm_pa s) = (r, a1) → r ≠ 0 →
  let s1 := s <| vm_pa := a1 |> <| kernel_pml4 := r |> <| kernel_cr3 := r |> in
  let s2 := vm_set_mem s1 (memory_set (vm_mem s1) r 0 PAGE_SIZE) in
  vmm_inv {[ [] := r ]} D s2 ∧ pa_avail (vm_pa s2) = pa_avail a1 ∧ (∀ va, pte s2 va = 0) ∧
  ∀ b, owned_bytes D b → rd8 (vm_mem s2) b = rd8 (vm_mem s) b.
Proof.
  intros Hpa Hal Hr s1 s2. pose proof (pa_alloc_result D _ Hpa) as Hres.
  pose proof (λ b, pa_alloc_keeps D _ b Hpa) as Hkeep.
  rewrite Hal in Hres, Hkeep. destruct Hres as [[? _]|(Hfresh & Hpa1 & _)]; [done|].
  assert (∀ b, rd8 (memory_set (vm_mem s1) r 0 PAGE_SIZE) b =
    if decide (in_table r b) then 0 else rd8 (vm_mem s1) b) as Hset.
  { intros b. rewrite rd8_memory_set by done. rewrite PAGE_SIZE_eq. unfold in_table.
    repeat case_decide; done || lia. }
  destruct (vm_set_mem_inv ({[r]} ∪ D) s1 (memory_set (vm_mem s1) r 0 PAGE_SIZE)) as (Hpa2 & Hav & Hm); [done| |].
  { intros b Hb. rewrite Hset, decide_False; [done|]. intros Hb'.
    apply Hb, (owned_table _ r); [set_solver|done]. }
  fold s2 in Hpa2, Hav, Hm.
  assert (∀ i, 0 ≤ i < 512 → rd64 (vm_mem s2) (r + 8 * i) = 0) as Hz.
  { intros i Hi. rewrite (rd64_ext ∅); [done|]. intros b Hb.
    rewrite Hm, Hset, decide_True; [done|by apply (entry_in_table r i)]. }
  assert (tables {[ [] := r ]} = {[r]}) as Htab by (unfold tables; by rewrite map_img_singleton_L).
  assert (vmm_inv {[ [] := r ]} D s2) as Hinv.
  { split; [by rewrite Htab|rewrite Htab; set_solver|]. split.
    - by rewrite lookup_singleton_eq.
    - intros p i [a Ha]. apply lookup_singleton_Some in Ha as [Ha _]. by destruct p.
    - intros p q a Hp Hq. apply lookup_singleton_Some in Hp as [<- _], Hq as [<- _]. done.
    - intros p a i Hp _ Hi. apply lookup_singleton_Some in Hp as [<- <-]. cbv zeta.
      rewrite Hz by done. by rewrite lookup_singleton_ne. }
  split_and!; [done|by rewrite Hav| |].
  - intros va. rewrite (pte_leaf _ D s2) by done. unfold leaf. by rewrite lookup_singleton_ne.
  - intros b (c & Hc & Hb). rewrite Hm, Hset, decide_False; [apply Hkeep; by exists c|].
    intros Hrb. rewrite PAGE_SIZE_eq in Hb. unfold in_table in Hrb.
    destruct (pa_page _ _ c Hpa Hc) as (_ & Hcm & _). destruct (pa_page _ _ r Hpa1) as (_ & Hrm & _); [set_solver|].
    destruct (aligned_disjoint r c); [done..|set_solver|lia|lia].
Qed.

(** The tables [vmm_init] builds: the root, one directory chain for the first
    4 GB and one for the 256 MB at [KERNEL_BASE]. *)
Definition init_paths : list (list Z) :=
  [[]; [0]; [511]; [511; 510]] ++ ((λ j, [0; j]) <$> seqZ 0 4) ++
  ((λ x, [0; x / 512; x mod 512]) <$> seqZ 0 2048) ++ ((λ k, [511; 510; k]) <$> seqZ 0 128).

Lemma size_list_to_set_le (l : list (list Z)) : (size (list_to_set l : gset (list Z)) ≤ length l)%nat.
Proof.
  induction l as [|x l IH]; [done|]. simpl list_to_set. simpl length.
  rewrite size_union_alt, size_singleton.
  pose proof (subseteq_size (list_to_set l ∖ {[x]}) (list_to_set l : gset (list Z)) ltac:(set_solver)). lia.
Qed.

Lemma init_paths_size : (size (list_to_set init_paths : gset (list Z)) ≤ 2184)%nat.
Proof.
  etrans; [apply size_list_to_set_le|]. unfold init_paths.
  rewrite !length_app, !length_fmap, !length_seqZ. simpl length.
  change (Z.to_nat 2048) with (Z.to_nat 2048). lia.
Qed.

Lemma elem_of_init_paths p :
  p ∈ init_paths ↔
  p ∈ [[]; [0]; [511]; [511; 510]] ∨ (∃ j, p = [0; j] ∧ 0 ≤ j < 4) ∨
  (∃ x, p = [0; x / 512; x mod 512] ∧ 0 ≤ x < 2048) ∨ (∃ k, p = [511; 510; k] ∧ 0 ≤ k < 128).
Proof.
  unfold init_paths. rewrite !elem_of_app, !list_elem_of_fmap.
  setoid_rewrite elem_of_seqZ. done.
Qed.

Lemma identity_prefixes va :
  0 ≤ va < 2 ^ 32 → prefixes va ⊆ list_to_set init_paths.
Proof.
  intros Hva. unfold prefixes, path. rewrite !pt_index_arith by lia.
  assert (va / 2 ^ 39 mod 512 = 0) as -> by (Z.to_euclidean_division_equations; lia).
  assert (0 ≤ va / 2 ^ 30 mod 512 < 4) as Hj by (Z.to_euclidean_division_equations; lia).
  assert (va / 2 ^ 30 mod 512 = va / 2 ^ 21 / 512 ∧ 0 ≤ va / 2 ^ 21 < 2048) as [E Hx]
    by (Z.to_euclidean_division_equations; lia).
  assert (∀ p, p = [0] ∨ p = [0; va / 2 ^ 30 mod 512] ∨
    p = [0; va / 2 ^ 30 mod 512; va / 2 ^ 21 mod 512] → p ∈ (list_to_set init_paths : gset (list Z))) as H.
  { intros p Hp. apply elem_of_list_to_set, elem_of_init_paths. destruct Hp as [->|[->| ->]].
    - left. set_solver.
    - right; left. eauto.
    - right; right; left. exists (va / 2 ^ 21). by rewrite E. }
  intros p. rewrite !elem_of_union, !elem_of_singleton. intros [[?|?]|?]; apply H; auto.
Qed.

Lemma kernel_prefixes pa :
  0 ≤ pa < 2 ^ 28 → prefixes (u64 (KERNEL_BASE + pa)) ⊆ list_to_set init_paths.
Proof.
  intros Hpa. unfold prefixes, path. rewrite u64_small by (unfold KERNEL_BASE; lia).
  rewrite !pt_index_arith by lia. unfold KERNEL_BASE.
  assert ((0xFFFFFFFF80000000 + pa) / 2 ^ 39 mod 512 = 511) as ->
    by (Z.to_euclidean_division_equations; lia).
  assert ((0xFFFFFFFF80000000 + pa) / 2 ^ 30 mod 512 = 510) as ->
    by (Z.to_euclidean_division_equations; lia).
  assert (0 ≤ (0xFFFFFFFF80000000 + pa) / 2 ^ 21 mod 512 < 128) as Hk
    by (Z.to_euclidean_division_equations; lia).
  intros p. rewrite !elem_of_union, !elem_of_singleton, elem_of_list_to_set, elem_of_init_paths.
  intros [[->| ->]| ->]; [left; set_solver..|]. right; right; right. eauto.
Qed.

Lemma identity_vpn k : 0 ≤ k < 2 ^ 20 → vpn (k * PAGE_SIZE) = k.
Proof. intros. unfold vpn. rewrite page_addr_div. apply Z.mod_small. lia. Qed.

Lemma kernel_vpn k :
  0 ≤ k < 2 ^ 16 → vpn (u64 (KERNEL_BASE + k * PAGE_SIZE)) = 0xFFFF80000 + k.
Proof.
  intros. rewrite u64_small by (rewrite PAGE_SIZE_eq; unfold KERNEL_BASE; lia).
  rewrite vpn_page. change (KERNEL_BASE / PAGE_SIZE) with 0xFFFFFFFF80000.
  change 0xFFFFFFFF80000 with (0xFFFF80000 + 0xFFFF * 2 ^ 36).
  replace (0xFFFF80000 + 0xFFFF * 2 ^ 36 + k) with (0xFFFF80000 + k + 0xFFFF * 2 ^ 36) by lia.
  rewrite Z.mod_add by lia. apply Z.mod_small. lia.
Qed.

(** The entries [vmm_init] leaves, by virtual page number. *)
Definition init_entry (v : Z) : Z :=
  if decide (v < 2 ^ 20) then Z.lor (v * PAGE_SIZE) 3
  else if decide (0xFFFF80000 ≤ v < 0xFFFF80000 + 2 ^ 16) then Z.lor ((v - 0xFFFF80000) * PAGE_SIZE) 3
  else 0.

Lemma vpn_range va : 0 ≤ vpn va < 2 ^ 36.
Proof. unfold vpn. apply Z.mod_pos_bound. lia. Qed.

(** The two runs of [vmm_init] together, over an empty root table. *)
Lemma init_runs_entry s2 s3 s4 va :
  (∀ va, pte s2 va = 0) →
  run_mapped s2 s3 (λ k, k * PAGE_SIZE) (λ k, Z.lor (k * PAGE_SIZE) 3) (2 ^ 20) →
  run_mapped s3 s4 (λ k, u64 (KERNEL_BASE + k * PAGE_SIZE)) (λ k, Z.lor (k * PAGE_SIZE) 3) (2 ^ 16) →
  pte s4 va = init_entry (vpn va).
Proof.
  intros Hzero [Hin1 Hout1] [Hin2 Hout2]. pose proof (vpn_range va). unfold init_entry.
  destruct (decide (vpn va < 2 ^ 20)) as [Hlo|Hlo].
  - rewrite Hout2 by (intros j Hj; rewrite kernel_vpn by lia; lia).
    rewrite (pte_vpn s3 va (vpn va * PAGE_SIZE)) by (rewrite identity_vpn; lia). apply Hin1. lia.
  - destruct (decide _) as [Hk|Hk].
    + set (k := vpn va - 0xFFFF80000).
      rewrite (pte_vpn s4 va (u64 (KERNEL_BASE + k * PAGE_SIZE))) by (rewrite kernel_vpn; lia).
      apply Hin2. lia.
    + rewrite Hout2 by (intros j Hj; rewrite kernel_vpn by lia; lia).
      rewrite Hout1 by (intros j Hj; rewrite identity_vpn by lia; lia). apply Hzero.
Qed.

Lemma vmm_init_spec D s :
  pa_inv D (vm_pa s) → (2184 ≤ pa_avail (vm_pa s))%nat →
  let '(r, s') := vmm_init s in
  r = 0 ∧ ∃ T, vmm_inv T D s' ∧ (∀ b, owned_bytes D b → rd8 (vm_mem s') b = rd8 (vm_mem s) b) ∧
  ∀ va, pte s' va = init_entry (vpn va).
Proof.
  intros Hpa Hav. unfold vmm_init. destruct (pa_avail (vm_pa s)) as [|n] eqn:En; [lia|].
  destruct (pa_alloc_avail _ _ n Hpa En) as [Hne Hn].
  destruct (pa_alloc (vm_pa s)) as [root a1] eqn:Hal. cbn in Hne, Hn.
  rewrite (proj2 (Z.eqb_neq root 0) Hne). cbv zeta.
  destruct (init_root_spec D s root a1 Hpa Hal Hne) as (Hinv & Hav2 & Hzero & Hdata).
  set (s2 := vm_set_mem _ _) in *. set (T := {[ [] := root ]}) in *.
  assert (enough (list_to_set init_paths) T s2) as Hen.
  { split; [unfold T; rewrite dom_singleton; apply singleton_subseteq_l, elem_of_list_to_set, elem_of_init_paths;
      left; constructor|].
    pose proof init_paths_size. rewrite Hav2, Hn. unfold T. rewrite map_size_singleton. lia. }
  change (Z.lor PTE_PRESENT PTE_WRITABLE) with 3.
  pose proof (map_run_spec T D s2 (λ va, va) (2 ^ 20) 3 _ Hinv ltac:(lia) ltac:(lia) ltac:(lia) Hen) as H1.
  change (0x100000000 / PAGE_SIZE) with (2 ^ 20).
  destruct (for_try (Z.to_nat (2 ^ 20)) 0 PAGE_SIZE _ s2) as [r1 s3].
  destruct H1 as (-> & T1 & St1 & Hen1 & Hrun1).
  { intros k Hk. apply identity_prefixes. rewrite PAGE_SIZE_eq. lia. }
  { intros j k Hj Hk. rewrite !identity_vpn by lia. lia. }
  cbn [negb Z.eqb].
  pose proof (map_run_spec T1 D s3 (λ phys, u64 (KERNEL_BASE + phys)) (2 ^ 16) 3 _
    (vs_inv _ _ _ _ _ St1) ltac:(lia) ltac:(lia) ltac:(lia) Hen1) as H2.
  change (0x10000000 / PAGE_SIZE) with (2 ^ 16).
  destruct (for_try (Z.to_nat (2 ^ 16)) 0 PAGE_SIZE _ s3) as [r2 s4].
  destruct H2 as (-> & T2 & St2 & _ & Hrun2).
  { intros k Hk. apply kernel_prefixes. rewrite PAGE_SIZE_eq. lia. }
  { intros j k Hj Hk. rewrite !kernel_vpn by lia. lia. }
  split; [done|]. exists T2. split_and!; [apply St2| |].
  { intros b Hb. rewrite (vs_data _ _ _ _ _ St2), (vs_data _ _ _ _ _ St1); [by apply Hdata|done..]. }
  intros va. by apply (init_runs_entry s2 s3 s4).
Qed.

(** Reading back an entry made of an aligned frame and flags. *)
Lemma translate_entry s va f flags :
  pte s va = Z.lor f flags → 0 ≤ f < 2 ^ 64 → f mod 4096 = 0 → 0 ≤ flags < 4096 →
  vmm_get_physical s va = if Z.odd flags then f + va mod 4096 else 0.
Proof.
  intros Hp Hf Hm Hfl. rewrite vmm_get_physical_pte, Hp, has_present.
  destruct (entry_parts f flags) as (Hor & _ & Hfr); [done..|].
  rewrite Hfr, Hor, Z.odd_add.
  assert (Z.odd f = false) as ->.
  { rewrite (Z.div_mod f 4096), Hm, Z.add_0_r by done. by rewrite Z.odd_mul. }
  rewrite xorb_false_l. destruct (Z.odd flags); [|done].
  change 0xFFF with (Z.ones 12). rewrite Z.land_ones by lia.
  apply (lor_add_low f _ 12); [lia|done|]. apply Z.mod_pos_bound. lia.
Qed.
End vmm_proofs.

(** A machine with enough pages for the tables of [vmm_init]: 2455 pages, the
    bitmap's own page left out of the available regions. *)
Definition sample_big_regions : list memory_region :=
  [mk_region 0x1000 0x100000 0xFF000 1 0 0; mk_region 0x101000 0x999000 0x898000 1 0 0].
Definition sample_big : pmm := (pmm_init (pmm_boot ∅) (Some sample_big_regions) 2).2.
Definition sample_vmm : vmm pmm := mk_vmm 0 0 0 0 sample_big.

Lemma sample_big_has p :
  Exists (λ r, region_has r p) (take 32 sample_big_regions) ↔ 1 ≤ p < 256 ∨ 257 ≤ p < 2457.
Proof.
  unfold sample_big_regions. simpl take. rewrite !Exists_cons, Exists_nil. split.
  - intros [[_ H]|[[_ H]|[]]]; [left; change (1 ≤ p < 1 + 255) in H|right; change (257 ≤ p < 257 + 2200) in H]; lia.
  - intros [H|H]; [left|right; left]; (split; [done|]);
      [change (1 ≤ p < 1 + 255)|change (257 ≤ p < 257 + 2200)]; lia.
Qed.

Lemma sample_big_init r s :
  pmm_init (pmm_boot ∅) (Some sample_big_regions) 2 = (r, s) →
  pmm_ok s ∧ (0 ∉ free_set s) ∧ (2184 ≤ size (free_set s))%nat.
Proof.
  intros E. assert (Forall region_valid (take 32 sample_big_regions)) as Hv
    by (repeat constructor; unfold region_valid; cbn; lia).
  pose proof (pmm_init_spec (pmm_boot ∅) sample_big_regions ltac:(cbn; lia) ltac:(done) Hv ltac:(done)) as H.
  change (Z.of_nat (length sample_big_regions)) with 2 in H. rewrite E in H.
  destruct H as (_ & Hb & Ht & Hset & _ & Hok).
  change (avail_total (take 32 sample_big_regions) / PAGE_SIZE) with 2455 in Ht.
  assert (∀ p, p ∈ free_set s ↔ 0 ≤ p < 2455 ∧ (1 ≤ p < 256 ∨ 257 ≤ p < 2457)) as Hset'.
  { intros p. by rewrite Hset, Ht, sample_big_has. }
  split_and!.
  - apply Hok. intros p Hp a. apply Hset' in Hp. unfold in_page, in_bitmap. rewrite Hb, Ht, PAGE_SIZE_eq.
    change ((2455 + 7) / 8) with 307. lia.
  - intros H0. apply Hset' in H0. lia.
  - assert (block 257 2198 ⊆ free_set s) as Hblock.
    { intros p. rewrite elem_of_block, Hset'. lia. }
    apply subseteq_size in Hblock. clear -Hblock.
    pose proof (size_block 257 2198 ltac:(done)) as Hsz. revert Hblock Hsz.
    generalize (size (block 257 2198)) (size (free_set s)). lia.
Qed.

Lemma sample_big_ok : pmm_ok sample_big ∧ (0 ∉ free_set sample_big) ∧
  (2184 ≤ size (free_set sample_big))%nat.
Proof.
  unfold sample_big. destruct (pmm_init (pmm_boot ∅) (Some sample_big_regions) 2) as [r s] eqn:E.
  by apply (sample_big_init r).
Qed.

(** A consistent allocator in which page 0 is taken, as a page allocator. *)
Lemma pmm_start_avail s n :
  pmm_ok s ∧ (0 ∉ free_set s) ∧ (n ≤ size (free_set s))%nat → pa_inv ∅ s ∧ (n ≤ pa_avail s)%nat.
Proof.
  intros (Hok & H0 & Hsz). split; [split; [done|]|].
  - intros r Hr. set_solver.
  - cbn. unfold pmm_avail. by rewrite decide_False.
Qed.

Lemma sample_vmm_avail : pa_inv ∅ (vm_pa sample_vmm) ∧ (2184 ≤ pa_avail (vm_pa sample_vmm))%nat.
Proof. exact (pmm_start_avail sample_big 2184 sample_big_ok). Qed.

Lemma sample_vmm_inv : ∃ T, vmm_inv T ∅ (vmm_init sample_vmm).2 ∧
  ∀ va, pte (vmm_init sample_vmm).2 va = init_entry (vpn va).
Proof.
  destruct sample_vmm_avail as [Hpa Hav]. pose proof (vmm_init_spec ∅ sample_vmm Hpa Hav) as H.
  destruct (vmm_init sample_vmm) as [r s]. destruct H as (_ & T & Hinv & _ & Hpte). eauto.
Qed.

(** ** Theorems *)
Section vmm_theorems.
Context {A : Type} `{PA : PageAllocator A}.
Implicit Types s : vmm A.

(** C30: with 2184 pages to draw from, [vmm_init] succeeds and the page tables it
    builds translate every address below 4 GB to itself and the 256 MB at
    [KERNEL_BASE] to physical memory from 0; no other page is mapped, and the pages
    clients hold keep their bytes. *)
Theorem vmm_init_maps_kernel (D : gset Z) s :
  pa_inv D (vm_pa s) → (2184 ≤ pa_avail (vm_pa s))%nat →
  let '(r, s') := vmm_init s in
  r = 0 ∧ (∃ T, vmm_inv T D s') ∧
  (∀ va, 0 ≤ va < 2 ^ 32 → vmm_get_physical s' va = va) ∧
  (∀ pa, 0 ≤ pa < 2 ^ 28 → vmm_get_physical s' (KERNEL_BASE + pa) = pa) ∧
  (∀ va, 2 ^ 20 ≤ vpn va < 0xFFFF80000 ∨ 0xFFFF90000 ≤ vpn va → vmm_get_physical s' va = 0) ∧
  (∀ b, owned_bytes D b → rd8 (vm_mem s') b = rd8 (vm_mem s) b).
Proof.
  intros Hpa Hav. pose proof (vmm_init_spec D s Hpa Hav) as H. destruct (vmm_init s) as [r s'].
  destruct H as (-> & T & Hinv & Hdata & Hpte).
  split_and!; [done|by eauto| | | |done].
  - intros va Hva. pose proof (Hpte va) as Hp. unfold init_entry in Hp.
    assert (vpn va = va / 4096) as Hv by (unfold vpn; rewrite PAGE_SIZE_eq; apply Z.mod_small;
      Z.to_euclidean_division_equations; lia).
    rewrite decide_True in Hp by (rewrite Hv; Z.to_euclidean_division_equations; lia).
    rewrite Hv, PAGE_SIZE_eq in Hp. rewrite (translate_entry s' va (va / 4096 * 4096) 3 Hp);
      [simpl; Z.to_euclidean_division_equations; lia|Z.to_euclidean_division_equations; lia|by apply Z.mod_mul|lia].
  - intros pa Hpa'. pose proof (Hpte (KERNEL_BASE + pa)) as Hp. unfold init_entry in Hp.
    assert (vpn (KERNEL_BASE + pa) = 0xFFFF80000 + pa / 4096) as Hv.
    { unfold vpn. rewrite PAGE_SIZE_eq. unfold KERNEL_BASE. Z.to_euclidean_division_equations; lia. }
    assert (0 ≤ pa / 4096 < 2 ^ 16) by (Z.to_euclidean_division_equations; lia).
    rewrite Hv in Hp. rewrite decide_False, decide_True in Hp by lia.
    replace (0xFFFF80000 + pa / 4096 - 0xFFFF80000) with (pa / 4096) in Hp by lia.
    rewrite PAGE_SIZE_eq in Hp. rewrite (translate_entry s' _ (pa / 4096 * 4096) 3 Hp);
      [|lia|by apply Z.mod_mul|lia].
    simpl. unfold KERNEL_BASE. Z.to_euclidean_division_equations; lia.
  - intros va Hva. rewrite vmm_get_physical_pte, Hpte. unfold init_entry.
    pose proof (vpn_range va). by rewrite !decide_False by lia.
Qed.

(** C9: [vmm_map_page] succeeds whenever the allocator can supply the tables on the
    page's path that do not exist yet (at most three): it returns 0, the tree has
    exactly those tables added, every address of the page translates to the frame
    plus its offset, and every other translation is unchanged.  It returns -1 only when
    fewer pages than missing tables are available, and then no translation changes.
    Either way the tables stay well formed, none is lost, and the data pages of
    clients keep their bytes. *)
Theorem vmm_map_page_correct (T : tree) (D : gset Z) s va pa flags :
  vmm_inv T D s → 0 ≤ pa < 2 ^ 64 → 0 ≤ flags < 4096 → Z.odd flags = true →
  let '(r, s') := vmm_map_page s va pa flags in
  ∃ T', vmm_inv T' D s' ∧ T ⊆ T' ∧ dom T' ⊆ prefixes va ∪ dom T ∧
  (∀ b, owned_bytes D b → rd8 (vm_mem s') b = rd8 (vm_mem s) b) ∧
  ((size (prefixes va ∖ dom T) ≤ pa_avail (vm_pa s))%nat → r = 0) ∧
  ((r = 0 ∧ dom T' = prefixes va ∪ dom T ∧ ∀ vb, vmm_get_physical s' vb =
      if decide (vpn vb = vpn va) then pa - pa mod 4096 + vb mod 4096 else vmm_get_physical s vb) ∨
   (r = -1 ∧ (pa_avail (vm_pa s) < size (prefixes va ∖ dom T))%nat ∧
    ∀ vb, vmm_get_physical s' vb = vmm_get_physical s vb)).
Proof.
  intros Hinv Hpa Hfl Hodd. pose proof (vmm_map_page_spec T D s va pa flags Hinv Hpa ltac:(lia)) as H.
  destruct (vmm_map_page s va pa flags) as [r s']. destruct H as (T' & [Hinv' Hsub ? ?] & Hdom & Hres & Hen).
  assert ((size (prefixes va ∖ dom T) ≤ pa_avail (vm_pa s))%nat → r = 0) as Hok.
  { intros Hav. apply (Hen (prefixes va ∪ dom T)); [set_solver|]. by apply enough_missing. }
  exists T'. split_and!; [done..|]. destruct Hres as [(-> & Hnew & Hold & Hpath)|[-> Hold]].
  - left. split_and!; [done| |].
    { apply (anti_symm (⊆)); [done|]. apply union_subseteq. split; [by apply (prefixes_dom T' D s')|by apply subseteq_dom]. }
    intros vb. case_decide as Hv.
    + rewrite (translate_entry s' vb (frame_of pa) flags); rewrite ?frame_of_arith by done.
      * by rewrite Hodd.
      * rewrite (pte_vpn s' vb va Hv), Hnew. by rewrite frame_of_arith.
      * Z.to_euclidean_division_equations; lia.
      * Z.to_euclidean_division_equations; lia.
      * lia.
    + by rewrite !vmm_get_physical_pte, Hold.
  - right. split_and!; [done| |intros vb; by rewrite !vmm_get_physical_pte, Hold].
    destruct (decide (size (prefixes va ∖ dom T) ≤ pa_avail (vm_pa s))%nat); [by specialize (Hok ltac:(done))|lia].
Qed.

(** C31: after [vmm_unmap_page] the page translates to nothing, every other
    translation and the clients' data are unchanged, and no table is freed. *)
Theorem vmm_unmap_page_correct (T : tree) (D : gset Z) s va :
  vmm_inv T D s →
  let s' := vmm_unmap_page s va in
  vmm_inv T D s' ∧ (∀ b, owned_bytes D b → rd8 (vm_mem s') b = rd8 (vm_mem s) b) ∧
  pa_avail (vm_pa s') = pa_avail (vm_pa s) ∧
  ∀ vb, vmm_get_physical s' vb = if decide (vpn vb = vpn va) then 0 else vmm_get_physical s vb.
Proof.
  intros Hinv s'. destruct (vmm_unmap_page_spec T D s va Hinv) as ([? ? ? ?] & ? & Hnew & Hold).
  split_and!; [done..|]. intros vb. rewrite !vmm_get_physical_pte. case_decide as Hv.
  - unfold s'. by rewrite (pte_vpn _ vb va Hv), Hnew.
  - unfold s'. by rewrite Hold.
Qed.

(** [vmm_protect] over a range that does not wrap and spans at most 2^36
    pages succeeds without allocating: every page of the range that translates to
    a nonzero physical address keeps its frame and gets the new flags; unmapped
    pages, pages mapped to frame 0 and pages outside the range keep their entry. *)
Theorem vmm_protect_correct (T : tree) (D : gset Z) s start size flags :
  vmm_inv T D s → 0 ≤ start → 0 ≤ size ≤ 2 ^ 47 → start + size + 4095 < 2 ^ 64 → 0 ≤ flags < 2 ^ 32 →
  let first := start / 4096 in
  let last := (start + size + 4095) / 4096 in
  let '(r, s') := vmm_protect s start size flags in
  r = 0 ∧ vmm_inv T D s' ∧
  (∀ p, first ≤ p < last →
     pte s' (p * PAGE_SIZE) =
     if vmm_get_physical s (p * PAGE_SIZE) =? 0 then pte s (p * PAGE_SIZE)
     else Z.lor (frame_of (pte s (p * PAGE_SIZE))) flags) ∧
  (∀ vb, (∀ p, first ≤ p < last → vpn vb ≠ vpn (p * PAGE_SIZE)) → pte s' vb = pte s vb).
Proof.
  intros Hinv Hs Hsz Hhi Hfl first last. unfold vmm_protect.
  rewrite (u64_small (start + size)), u64_small by lia.
  rewrite !frame_of_arith by lia.
  assert (start - start mod 4096 = first * PAGE_SIZE) as ->
    by (subst first; rewrite PAGE_SIZE_eq; Z.to_euclidean_division_equations; lia).
  assert (start + size + 4095 - (start + size + 4095) mod 4096 = last * PAGE_SIZE) as ->
    by (subst last; rewrite PAGE_SIZE_eq; Z.to_euclidean_division_equations; lia).
  replace ((last * PAGE_SIZE - first * PAGE_SIZE) / PAGE_SIZE) with (last - first)
    by (rewrite <- Z.mul_sub_distr_r; symmetry; apply page_addr_div).
  assert (0 ≤ first ∧ first ≤ last ≤ first + 2 ^ 36 ∧ last * 4096 ≤ 2 ^ 64)
    by (subst first last; Z.to_euclidean_division_equations; lia).
  pose proof (protect_run_spec T D s (first * PAGE_SIZE) (last - first) flags Hinv) as H'.
  destruct (for_try _ _ _ _ s) as [r s'].
  destruct H' as (-> & St & Hin & Hout);
    [rewrite PAGE_SIZE_eq; lia|apply page_addr_mod|lia|rewrite PAGE_SIZE_eq; lia|done|].
  split_and!; [done|apply St| |].
  - intros p Hp. specialize (Hin (p - first) ltac:(lia)). cbv zeta in Hin.
    by replace (first * PAGE_SIZE + (p - first) * PAGE_SIZE) with (p * PAGE_SIZE) in Hin by lia.
  - intros vb Hvb. apply Hout. intros j Hj.
    replace (first * PAGE_SIZE + j * PAGE_SIZE) with ((first + j) * PAGE_SIZE) by lia.
    apply Hvb. lia.
Qed.
End vmm_theorems.

Lemma vmm_init_maps_kernel_witness :
  vmm_get_physical (vmm_init sample_vmm).2 (KERNEL_BASE + 0x1234) = 0x1234.
Proof.
  pose proof (vmm_init_maps_kernel ∅ sample_vmm (proj1 sample_vmm_avail) (proj2 sample_vmm_avail)) as H.
  destruct (vmm_init sample_vmm) as [r s']. destruct H as (_ & _ & _ & H & _). apply H. lia.
Defined.

(** Remapping a page of the identity mapping. *)
Lemma vmm_map_page_correct_witness :
  ∃ T', vmm_inv T' ∅ (vmm_map_page (vmm_init sample_vmm).2 0x400000 0x7000 3).2.
Proof.
  destruct sample_vmm_inv as (T & Hinv & _).
  pose proof (vmm_map_page_correct T ∅ _ 0x400000 0x7000 3 Hinv ltac:(lia) ltac:(lia) eq_refl) as H.
  destruct (vmm_map_page _ _ _ _) as [r s']. destruct H as (T' & ? & _). by exists T'.
Defined.

Lemma vmm_unmap_page_correct_witness :
  vmm_get_physical (vmm_unmap_page (vmm_init sample_vmm).2 0x400000) 0x400123 = 0.
Proof.
  destruct sample_vmm_inv as (T & Hinv & _).
  rewrite (proj2 (proj2 (proj2 (vmm_unmap_page_correct T ∅ _ 0x400000 Hinv)))). reflexivity.
Defined.

Lemma vmm_protect_correct_witness :
  (vmm_protect (vmm_init sample_vmm).2 0x400010 0x2000 1).1 = 0.
Proof.
  destruct sample_vmm_inv as (T & Hinv & _).
  pose proof (vmm_protect_correct T ∅ _ 0x400010 0x2000 1 Hinv
    ltac:(lia) ltac:(lia) ltac:(lia) ltac:(lia)) as H.
  destruct (vmm_protect _ _ _ _) as [r s']. apply H.
Defined.
