(* ===== verification/Heap.v ===== *)
(** * Kernel heap (mm/heap.c)

    The first-fit heap: a doubly linked list of blocks that tile the heap
    region, each with a 40-byte header stored in the memory it manages.  The
    detailed operations work on the bytes; the abstract state is the list of
    blocks with their sizes and allocation flags, and every operation is shown
    to implement the corresponding function on such lists. *)
From S2P Require Import Prelude.
From S2P Require Import Memory.
Import MemoryUtils.
Local Open Scope Z_scope.

Definition HEAP_MAGIC : Z := 0xDEADBEEF.
(** [sizeof(struct heap_block)]: size at 0 (8 bytes), allocated at 8 (the enum
    [bool] of types.h, 4 bytes), next at 16, prev at 24, magic at 32 (4 bytes),
    padded to 40. *)
Definition HEAP_BLOCK_HEADER_SIZE : Z := 40.
Definition HEAP_MIN_BLOCK_SIZE : Z := 64.
Definition HEAP_ALIGNMENT : Z := 16.

(** [heap_info] beside the memory. *)
Record heap := mk_heap {
  h_mem : mem;
  h_start : Z;
  h_end : Z;
  h_size : Z;
  h_used : Z;
  h_free : Z;
  h_first : Z;
  h_allocations : Z;
  h_frees : Z
}.
#[export] Instance eta_heap : Eta heap := λ r,
  {| h_mem := h_mem r; h_start := h_start r; h_end := h_end r; h_size := h_size r;
     h_used := h_used r; h_free := h_free r; h_first := h_first r;
     h_allocations := h_allocations r; h_frees := h_frees r |}.

Definition heap_boot (m : mem) : heap := mk_heap m 0 0 0 0 0 0 0 0.

(** ** Fields of [struct heap_block] at address [b] *)
Definition blk_size (m : mem) (b : Z) : Z := rd64 m b.
Definition blk_allocated (m : mem) (b : Z) : bool := negb (rd32 m (b + 8) =? 0).
Definition blk_next (m : mem) (b : Z) : Z := rd64 m (b + 16).
Definition blk_prev (m : mem) (b : Z) : Z := rd64 m (b + 24).
Definition blk_magic (m : mem) (b : Z) : Z := rd32 m (b + 32).
Definition set_size (m : mem) (b v : Z) : mem := wr64 m b v.
Definition set_allocated (m : mem) (b : Z) (v : bool) : mem := wr32 m (b + 8) (Z.b2z v).
Definition set_next (m : mem) (b v : Z) : mem := wr64 m (b + 16) v.
Definition set_prev (m : mem) (b v : Z) : mem := wr64 m (b + 24) v.
Definition set_magic (m : mem) (b v : Z) : mem := wr32 m (b + 32) v.

#[global] Arguments blk_size : simpl never.
#[global] Arguments blk_allocated : simpl never.
#[global] Arguments blk_next : simpl never.
#[global] Arguments blk_prev : simpl never.
#[global] Arguments blk_magic : simpl never.
#[global] Arguments set_allocated : simpl never.

(** ** Operations *)
Definition heap_init (s : heap) (start initial_size : Z) : Z * heap :=
  let initial_size := if initial_size <? PAGE_SIZE then PAGE_SIZE else initial_size in
  let initial_size := Z.land (u64 (initial_size + PAGE_SIZE - 1)) (u64 (Z.lnot (PAGE_SIZE - 1))) in
  let m := h_mem s in
  let m := set_size m start initial_size in
  let m := set_allocated m start false in
  let m := set_next m start 0 in
  let m := set_prev m start 0 in
  let m := set_magic m start HEAP_MAGIC in
  (0, mk_heap m start (u64 (start + initial_size)) initial_size 0 initial_size start 0 0).

Definition is_valid_block (s : heap) (block : Z) : bool :=
  if block =? 0 then false
  else if negb (blk_magic (h_mem s) block =? HEAP_MAGIC) then false
  else if (block <? h_start s) || (h_end s <=? block) then false
  else true.

(** [find_free_block]: the walk over the list; [fuel] bounds its length. *)
Fixpoint find_from (fuel : nat) (m : mem) (size block : Z) : outcome Z :=
  match fuel with
  | O => Diverge
  | S fuel =>
      if block =? 0 then Ok 0
      else if negb (blk_allocated m block) && (size <=? blk_size m block) then Ok block
      else find_from fuel m size (blk_next m block)
  end.

(** More steps than the heap has blocks: every block spans at least a header. *)
Definition heap_fuel (s : heap) : nat := S (Z.to_nat (h_size s)).

Definition find_free_block (size : Z) : prog heap Z := λ s,
  match find_from (heap_fuel s) (h_mem s) size (h_first s) with
  | Ok block => Ok (block, s)
  | Fault => Fault
  | Halted => Halted
  | Diverge => Diverge
  end.

Definition split_block (m : mem) (block size : Z) : mem :=
  if blk_size m block <=? u64 (size + HEAP_MIN_BLOCK_SIZE) then m
  else
    let new_block := u64 (block + size) in
    let m := set_size m new_block (u64 (blk_size m block - size)) in
    let m := set_allocated m new_block false in
    let m := set_next m new_block (blk_next m block) in
    let m := set_prev m new_block block in
    let m := set_magic m new_block HEAP_MAGIC in
    let m := if negb (blk_next m block =? 0) then set_prev m (blk_next m block) new_block else m in
    let m := set_next m block new_block in
    set_size m block size.

(** The body shared by the two loops of [merge_blocks]: [left] absorbs the block
    [right] that follows it. *)
Definition absorb (m : mem) (left right : Z) : mem :=
  let m := set_size m left (u64 (blk_size m left + blk_size m right)) in
  let m := set_next m left (blk_next m right) in
  if negb (blk_next m right =? 0) then set_prev m (blk_next m right) left else m.

(** while (block->next && !block->next->allocated) *)
Fixpoint merge_next (fuel : nat) (m : mem) (block : Z) : outcome mem :=
  match fuel with
  | O => Diverge
  | S fuel =>
      let next := blk_next m block in
      if negb (next =? 0) && negb (blk_allocated m next) then
        merge_next fuel (absorb m block next) block
      else Ok m
  end.

(** while (block->prev && !block->prev->allocated) *)
Fixpoint merge_prev (fuel : nat) (m : mem) (block : Z) : outcome mem :=
  match fuel with
  | O => Diverge
  | S fuel =>
      let prev := blk_prev m block in
      if negb (prev =? 0) && negb (blk_allocated m prev) then
        merge_prev fuel (absorb m prev block) prev
      else Ok m
  end.

Definition merge_blocks (block : Z) : prog heap () := λ s,
  match merge_next (heap_fuel s) (h_mem s) block with
  | Ok m =>
      match merge_prev (heap_fuel s) m block with
      | Ok m => Ok ((), s <| h_mem := m |>)
      | _ => Diverge
      end
  | _ => Diverge
  end.

Definition kmalloc (size : Z) : prog heap Z :=
  if size =? 0 then ret 0
  else
    let size := Z.land (u64 (size + HEAP_ALIGNMENT - 1)) (u64 (Z.lnot (HEAP_ALIGNMENT - 1))) in
    let total_size := u64 (size + HEAP_BLOCK_HEADER_SIZE) in
    block <- find_free_block total_size ;;
    if block =? 0 then ret 0
    else
      s <- get ;;
      when (u64 (total_size + HEAP_MIN_BLOCK_SIZE) <? blk_size (h_mem s) block)
        (modify (λ s, s <| h_mem := split_block (h_mem s) block total_size |>)) ;;;
      modify (λ s, s <| h_mem := set_allocated (h_mem s) block true |>) ;;;
      modify (λ s, s <| h_used := u64 (h_used s + blk_size (h_mem s) block) |>
                     <| h_free := u64 (h_free s - blk_size (h_mem s) block) |>
                     <| h_allocations := u32 (h_allocations s + 1) |>) ;;;
      ret (u64 (block + HEAP_BLOCK_HEADER_SIZE)).

Definition kcalloc (count size : Z) : prog heap Z :=
  let total_size := u64 (count * size) in
  ptr <- kmalloc total_size ;;
  when (negb (ptr =? 0)) (modify (λ s, s <| h_mem := memory_set (h_mem s) ptr 0 total_size |>)) ;;;
  ret ptr.

Definition kfree (ptr : Z) : prog heap () :=
  if ptr =? 0 then ret ()
  else
    let block := u64 (ptr - HEAP_BLOCK_HEADER_SIZE) in
    s <- get ;;
    if negb (is_valid_block s block) then ret ()
    else if negb (blk_allocated (h_mem s) block) then ret ()
    else
      modify (λ s, s <| h_mem := set_allocated (h_mem s) block false |>) ;;;
      modify (λ s, s <| h_used := u64 (h_used s - blk_size (h_mem s) block) |>
                     <| h_free := u64 (h_free s + blk_size (h_mem s) block) |>
                     <| h_frees := u32 (h_frees s + 1) |>) ;;;
      merge_blocks block.

Definition krealloc (ptr size : Z) : prog heap Z :=
  if ptr =? 0 then kmalloc size
  else if size =? 0 then kfree ptr ;;; ret 0
  else
    let block := u64 (ptr - HEAP_BLOCK_HEADER_SIZE) in
    s <- get ;;
    if negb (is_valid_block s block) then ret 0
    else
      let old_size := u64 (blk_size (h_mem s) block - HEAP_BLOCK_HEADER_SIZE) in
      if size <=? old_size then ret ptr
      else
        new_ptr <- kmalloc size ;;
        if new_ptr =? 0 then ret 0
        else
          modify (λ s, s <| h_mem := memory_copy (h_mem s) new_ptr ptr old_size |>) ;;;
          kfree ptr ;;;
          ret new_ptr.

(** ** Abstract heaps: lists of blocks *)
Record blk := mk_blk { b_size : Z; b_alloc : bool }.

Fixpoint total (bs : list blk) : Z :=
  match bs with [] => 0 | b :: bs => b_size b + total bs end.

(** Bytes of the blocks whose allocation flag is [al]. *)
Fixpoint total_if (al : bool) (bs : list blk) : Z :=
  match bs with
  | [] => 0
  | b :: bs => (if Bool.eqb (b_alloc b) al then b_size b else 0) + total_if al bs
  end.

(** No two neighbouring blocks are both free. *)
Fixpoint coalesced (bs : list blk) : Prop :=
  match bs with
  | b :: (c :: _) as r => b_alloc b || b_alloc c = true ∧ coalesced r
  | _ => True
  end.

(** Bytes of block headers, and of the payloads of allocated blocks, in the tiling
    that starts at [a]. *)
Fixpoint in_header (a : Z) (bs : list blk) (x : Z) : Prop :=
  match bs with [] => False | b :: r => a ≤ x < a + 40 ∨ in_header (a + b_size b) r x end.

Fixpoint in_payload (a : Z) (bs : list blk) (x : Z) : Prop :=
  match bs with
  | [] => False
  | b :: r => (b_alloc b = true ∧ a + 40 ≤ x < a + b_size b) ∨ in_payload (a + b_size b) r x
  end.

(** Taking [need] bytes from a free block: the rest is split off when it is
    larger than the minimum block. *)
Definition carve (need : Z) (b : blk) : list blk :=
  if need + HEAP_MIN_BLOCK_SIZE <? b_size b
  then [mk_blk need true; mk_blk (b_size b - need) false]
  else [mk_blk (b_size b) true].

(** The bytes of the free blocks at the front of a list, and the rest. *)
Fixpoint lead_free (bs : list blk) : Z * list blk :=
  match bs with
  | [] => (0, [])
  | b :: r => if b_alloc b then (0, bs) else let '(n, r') := lead_free r in (b_size b + n, r')
  end.

(** Freeing the block [b] between [l] and [r]: it absorbs the free blocks next to it. *)
Definition coalesce (l : list blk) (b : blk) (r : list blk) : list blk :=
  let '(n, r') := lead_free r in
  let '(k, l') := lead_free (rev l) in
  rev l' ++ mk_blk (k + b_size b + n) false :: r'.

(** The header of block [b] at address [a]. *)
Record hdr (m : mem) (a : Z) (b : blk) (prev next : Z) : Prop := {
  hdr_size : blk_size m a = b_size b;
  hdr_alloc : rd32 m (a + 8) = Z.b2z (b_alloc b);
  hdr_next : blk_next m a = next;
  hdr_prev : blk_prev m a = prev;
  hdr_magic : blk_magic m a = HEAP_MAGIC
}.

(** Address of the first block of [bs] at [a], or [nxt] when there is none. *)
Definition first_of (bs : list blk) (a nxt : Z) : Z := match bs with [] => nxt | _ => a end.

(** Address of the last block of [bs] at [a], or [prev] when there is none. *)
Fixpoint last_of (prev a : Z) (bs : list blk) : Z :=
  match bs with [] => prev | b :: r => last_of a (a + b_size b) r end.

(** [seg m prev a bs nxt]: from [a] the memory holds the linked blocks [bs], one
    after the other; [prev] and [nxt] are the links that leave the segment. *)
Fixpoint seg (m : mem) (prev a : Z) (bs : list blk) (nxt : Z) : Prop :=
  match bs with
  | [] => True
  | b :: r => hdr m a b prev (first_of r (a + b_size b) nxt) ∧ 40 ≤ b_size b ∧
              seg m a (a + b_size b) r nxt
  end.

Record heap_ok (s : heap) (bs : list blk) : Prop := {
  hk_start : 0 < h_start s;
  hk_end : h_end s = h_start s + total bs;
  hk_wrap : h_end s < 2 ^ 64;
  hk_size : h_size s = total bs;
  hk_first : h_first s = h_start s;
  hk_nonempty : bs ≠ [];
  hk_seg : seg (h_mem s) 0 (h_start s) bs 0;
  hk_used : h_used s = total_if true bs;
  hk_free : h_free s = total_if false bs;
  hk_coalesced : coalesced bs
}.

(** *** List lemmas *)
Lemma total_app l r : total (l ++ r) = total l + total r.
Proof. induction l as [|b l IH]; simpl; [done|]. rewrite IH. lia. Qed.

Lemma total_rev l : total (rev l) = total l.
Proof. induction l as [|b l IH]; simpl; [done|]. rewrite total_app, IH. simpl. lia. Qed.

Lemma total_if_app al l r : total_if al (l ++ r) = total_if al l + total_if al r.
Proof. induction l as [|b l IH]; simpl; [done|]. rewrite IH. lia. Qed.

Lemma total_if_rev al l : total_if al (rev l) = total_if al l.
Proof. induction l as [|b l IH]; simpl; [done|]. rewrite total_if_app, IH. simpl. lia. Qed.

Lemma total_split bs : total bs = total_if true bs + total_if false bs.
Proof. induction bs as [|[n []] bs IH]; simpl; lia. Qed.

Lemma total_if_range al bs :
  Forall (λ b, 40 ≤ b_size b) bs → 0 ≤ total_if al bs ≤ total bs.
Proof. induction 1 as [|b bs Hb _ IH]; simpl; [lia|]. case_if; lia. Qed.

Lemma length_le_total bs :
  Forall (λ b, 40 ≤ b_size b) bs → Z.of_nat (length bs) ≤ total bs ∧ 0 ≤ total bs.
Proof. induction 1; simpl; lia. Qed.

Lemma lead_free_total bs : (lead_free bs).1 + total (lead_free bs).2 = total bs.
Proof.
  induction bs as [|b bs IH]; simpl; [done|]. destruct (b_alloc b); simpl; [lia|].
  destruct (lead_free bs). simpl in *. lia.
Qed.

Lemma lead_free_total_if bs :
  total_if true (lead_free bs).2 = total_if true bs ∧
  total_if false (lead_free bs).2 = total_if false bs - (lead_free bs).1.
Proof.
  induction bs as [|b bs IH]; simpl; [done|]. destruct (b_alloc b) eqn:E; simpl; rewrite ?E; simpl; [lia|].
  destruct (lead_free bs). simpl in *. lia.
Qed.

Lemma lead_free_sizes bs :
  Forall (λ b, 40 ≤ b_size b) bs → 0 ≤ (lead_free bs).1 ∧ Forall (λ b, 40 ≤ b_size b) (lead_free bs).2.
Proof.
  induction 1 as [|b bs Hb Hbs IH]; simpl; [done|]. destruct (b_alloc b); simpl; [split; [lia|by constructor]|].
  destruct (lead_free bs). simpl in *. split; [lia|apply IH].
Qed.

(** What remains after the leading free blocks starts with an allocated block. *)
Lemma lead_free_head bs b r : (lead_free bs).2 = b :: r → b_alloc b = true.
Proof.
  induction bs as [|c bs IH]; simpl; [done|]. destruct (b_alloc c) eqn:E; simpl; [congruence|].
  destruct (lead_free bs). done.
Qed.

Lemma coalesced_app l r :
  coalesced (l ++ r) ↔ coalesced l ∧ coalesced r ∧
    match last l, head r with Some b, Some c => b_alloc b || b_alloc c = true | _, _ => True end.
Proof.
  induction l as [|b l IH].
  - simpl. tauto.
  - destruct l as [|c l].
    + simpl. destruct r as [|d r]; simpl; tauto.
    + change (coalesced ((b :: c :: l) ++ r)) with (b_alloc b || b_alloc c = true ∧ coalesced ((c :: l) ++ r)).
      rewrite IH. change (last (b :: c :: l)) with (last (c :: l)). simpl coalesced at 3.
      change (coalesced (b :: c :: l)) with (b_alloc b || b_alloc c = true ∧ coalesced (c :: l)). tauto.
Qed.

Lemma lead_free_coalesced bs : coalesced bs → coalesced (lead_free bs).2.
Proof.
  induction bs as [|b bs IH]; [done|]. intros Hc. simpl. destruct (b_alloc b) eqn:E; [done|].
  destruct (lead_free bs) as [n r] eqn:El. simpl in *. apply IH. destruct bs; [done|]. apply Hc.
Qed.

Lemma coalesced_rev bs : coalesced (rev bs) ↔ coalesced bs.
Proof.
  induction bs as [|b bs IH]; [done|]. simpl rev. rewrite coalesced_app, IH.
  destruct bs as [|c bs]; simpl; [tauto|]. rewrite last_snoc, orb_comm. simpl. tauto.
Qed.

Lemma coalesce_coalesced l b r : coalesced l → coalesced r → coalesced (coalesce l b r).
Proof.
  intros Hl Hr. unfold coalesce.
  pose proof (lead_free_coalesced r Hr) as Hr'. pose proof (lead_free_head r) as Hrh.
  pose proof (lead_free_coalesced (rev l) (proj2 (coalesced_rev l) Hl)) as Hl'.
  pose proof (lead_free_head (rev l)) as Hlh.
  destruct (lead_free r) as [n r'], (lead_free (rev l)) as [k l']. simpl in *.
  apply coalesced_app. split_and!.
  - by apply coalesced_rev.
  - destruct r' as [|c r']; [done|]. split; [|done]. simpl. by apply (Hrh c r').
  - destruct l' as [|c l']; [done|]. simpl rev. rewrite last_snoc. simpl. by rewrite (Hlh c l').
Qed.

(** *** Headers in memory *)

(** Evaluates loads of header fields over stores to header fields. *)
Ltac fields :=
  unfold blk_size, blk_next, blk_prev, blk_magic, set_size, set_allocated, set_next, set_prev,
    set_magic, rd64, rd32, wr64, wr32 in *;
  repeat first [rewrite rd_le_wr_le_same | rewrite rd_le_wr_le_out by lia].

Lemma hdr_ext m m' a b prev next :
  (∀ x, a ≤ x < a + 40 → rd8 m' x = rd8 m x) → hdr m a b prev next → hdr m' a b prev next.
Proof.
  intros Hm []. unfold blk_size, blk_next, blk_prev, blk_magic, rd64, rd32 in *.
  split; unfold blk_size, blk_next, blk_prev, blk_magic, rd64, rd32;
    rewrite (rd_le_ext _ m' m) by (intros; apply Hm; lia); done.
Qed.

Lemma seg_sizes m prev a bs nxt : seg m prev a bs nxt → Forall (λ b, 40 ≤ b_size b) bs.
Proof.
  revert prev a. induction bs as [|b bs IH]; intros prev a; [constructor|].
  intros (_ & Hb & Hs). constructor; [done|]. by apply (IH a (a + b_size b)).
Qed.

Lemma seg_ext m m' prev a bs nxt :
  (∀ x, a ≤ x < a + total bs → rd8 m' x = rd8 m x) → seg m prev a bs nxt → seg m' prev a bs nxt.
Proof.
  revert prev a. induction bs as [|b bs IH]; intros prev a Hm; [done|].
  intros (Hh & Hb & Hs). simpl in Hm.
  pose proof (length_le_total bs (seg_sizes _ _ _ _ _ Hs)).
  split_and!; [|done|].
  - apply (hdr_ext m); [|done]. intros. apply Hm. lia.
  - apply IH; [|done]. intros. apply Hm. lia.
Qed.

Lemma first_of_app l r a nxt : first_of (l ++ r) a nxt = first_of l a (first_of r (a + total l) nxt).
Proof. destruct l; simpl; [|done]. by rewrite Z.add_0_r. Qed.

Lemma seg_app m prev a l r nxt :
  seg m prev a (l ++ r) nxt ↔
  seg m prev a l (first_of r (a + total l) nxt) ∧ seg m (last_of prev a l) (a + total l) r nxt.
Proof.
  revert prev a. induction l as [|b l IH]; intros prev a; simpl.
  - rewrite Z.add_0_r. tauto.
  - rewrite IH, first_of_app, Z.add_assoc. tauto.
Qed.

Lemma last_of_snoc prev a l b : last_of prev a (l ++ [b]) = a + total l.
Proof.
  revert prev a. induction l as [|c l IH]; intros prev a; simpl; [lia|]. rewrite IH. lia.
Qed.

(** A memory that changes only inside [[lo, hi)]. *)
Definition changed_in (m m' : mem) (P : Z → Prop) : Prop := ∀ x, ¬ P x → rd8 m' x = rd8 m x.

Lemma changed_in_trans m1 m2 m3 (P Q R : Z → Prop) :
  changed_in m1 m2 P → changed_in m2 m3 Q → (∀ x, P x → R x) → (∀ x, Q x → R x) → changed_in m1 m3 R.
Proof. intros H1 H2 HP HQ x Hx. rewrite H2, H1; auto. Qed.

Lemma changed_in_mono m m' (P Q : Z → Prop) :
  changed_in m m' P → (∀ x, P x → Q x) → changed_in m m' Q.
Proof. intros H HPQ x Hx. apply H. auto. Qed.

Lemma changed_wr_le k m a v (P : Z → Prop) :
  (∀ x, a ≤ x < a + Z.of_nat k → P x) → changed_in m (wr_le k m a v) P.
Proof. intros HP x Hx. apply rd8_wr_le_out. destruct (decide (a ≤ x < a + Z.of_nat k)); [|lia]. naive_solver. Qed.

(** The header fields of a block after one of them is stored. *)
Lemma hdr_set_size m a b prev next v :
  0 ≤ v < 2 ^ 64 → hdr m a b prev next → hdr (set_size m a v) a (mk_blk v (b_alloc b)) prev next.
Proof.
  intros Hv []. split; simpl; fields; try done. change (256 ^ Z.of_nat 8) with (2 ^ 64). by apply Z.mod_small.
Qed.

Lemma hdr_set_next m a b prev next v :
  0 ≤ v < 2 ^ 64 → hdr m a b prev next → hdr (set_next m a v) a b prev v.
Proof.
  intros Hv []. split; fields; try done. change (256 ^ Z.of_nat 8) with (2 ^ 64). by apply Z.mod_small.
Qed.

Lemma hdr_set_prev m a b prev next v :
  0 ≤ v < 2 ^ 64 → hdr m a b prev next → hdr (set_prev m a v) a b v next.
Proof.
  intros Hv []. split; fields; try done. change (256 ^ Z.of_nat 8) with (2 ^ 64). by apply Z.mod_small.
Qed.

Lemma hdr_set_allocated m a b prev next v :
  hdr m a b prev next → hdr (set_allocated m a v) a (mk_blk (b_size b) v) prev next.
Proof. intros []. split; simpl; fields; try done. by destruct v. Qed.

(** Writing a complete header. *)
Lemma hdr_fresh m a size al next prev :
  0 ≤ size < 2 ^ 64 → 0 ≤ next < 2 ^ 64 → 0 ≤ prev < 2 ^ 64 →
  hdr (set_magic (set_prev (set_next (set_allocated (set_size m a size) a al) a next) a prev) a HEAP_MAGIC)
    a (mk_blk size al) prev next.
Proof.
  intros. split; simpl; fields; change (256 ^ Z.of_nat 8) with (2 ^ 64); try (by apply Z.mod_small).
  by destruct al.
Qed.

Lemma seg_change m m' prev a bs nxt P :
  changed_in m m' P → (∀ x, P x → x < a ∨ a + total bs ≤ x) → seg m prev a bs nxt → seg m' prev a bs nxt.
Proof. intros Hc HP. apply seg_ext. intros x Hx. apply Hc. intros Hp. apply HP in Hp. lia. Qed.

Lemma hdr_change m m' a b prev next P :
  changed_in m m' P → (∀ x, P x → x < a ∨ a + 40 ≤ x) → hdr m a b prev next → hdr m' a b prev next.
Proof. intros Hc HP. apply hdr_ext. intros x Hx. apply Hc. intros Hp. apply HP in Hp. lia. Qed.

(** Re-linking the head of a segment to a new predecessor. *)
Lemma seg_set_prev m prev a bs prev' :
  0 ≤ prev' < 2 ^ 64 → seg m prev a bs 0 → 0 < a →
  let m' := if negb (first_of bs a 0 =? 0) then set_prev m (first_of bs a 0) prev' else m in
  seg m' prev' a bs 0 ∧ changed_in m m' (λ x, bs ≠ [] ∧ a ≤ x < a + 40).
Proof.
  intros Hp Hs Ha. destruct bs as [|b bs]; simpl; [done|].
  rewrite (proj2 (Z.eqb_neq a 0)) by lia. cbn [negb]. destruct Hs as (Hh & Hb & Hs).
  split_and!; [by apply (hdr_set_prev _ _ _ prev)|done| |].
  - apply (seg_change m _ _ _ _ _ (λ x, a ≤ x < a + 40)); [|intros; lia|done].
    apply changed_wr_le. lia.
  - apply changed_wr_le. intros x Hx. split; [done|lia].
Qed.

(** *** Merging and splitting *)

Lemma absorb_spec m prev a p q r :
  seg m prev a (p :: q :: r) 0 → 0 < a → a + total (p :: q :: r) < 2 ^ 64 →
  let m' := absorb m a (a + b_size p) in
  seg m' prev a (mk_blk (b_size p + b_size q) (b_alloc p) :: r) 0 ∧
  changed_in m m' (in_header a (p :: q :: r)).
Proof.
  intros (Hp & Hsp & Hq & Hsq & Hr) Ha Hhi m'. simpl in Hhi.
  pose proof (length_le_total r (seg_sizes _ _ _ _ _ Hr)) as [_ Ht].
  set (aq := a + b_size p) in *. set (ar := aq + b_size q) in *.
  unfold m', absorb. rewrite (hdr_size _ _ _ _ _ Hp), (hdr_size _ _ _ _ _ Hq).
  rewrite u64_small by lia.
  set (m1 := set_size m a (b_size p + b_size q)).
  assert (changed_in m m1 (λ x, a ≤ x < a + 40)) as C1 by (apply changed_wr_le; lia).
  assert (blk_next m1 aq = first_of r ar 0) as Hn1.
  { apply (hdr_change m m1 _ _ _ _ _ C1) in Hq; [apply Hq|intros; lia]. }
  rewrite Hn1. set (m2 := set_next m1 a (first_of r ar 0)).
  assert (changed_in m1 m2 (λ x, a ≤ x < a + 40)) as C2 by (apply changed_wr_le; lia).
  assert (changed_in m m2 (λ x, a ≤ x < a + 40)) as C12 by (eapply changed_in_trans; eauto).
  assert (blk_next m2 aq = first_of r ar 0) as Hn2.
  { apply (hdr_change m m2 _ _ _ _ _ C12) in Hq; [apply Hq|intros; lia]. }
  rewrite Hn2.
  assert (0 ≤ first_of r ar 0 < 2 ^ 64) as Hf by (destruct r; simpl; lia).
  assert (hdr m2 a (mk_blk (b_size p + b_size q) (b_alloc p)) prev (first_of r ar 0)) as Hp2.
  { eapply hdr_set_next; [done|]. apply hdr_set_size; [lia|done]. }
  destruct (seg_set_prev m2 aq ar r a) as [Hr3 C3]; [lia| |lia|].
  { apply (seg_change m _ _ _ _ _ _ C12); [intros; lia|done]. }
  set (m3 := if negb (first_of r ar 0 =? 0) then _ else m2) in *. cbv zeta. split.
  - split_and!.
    + cbn. replace (a + (b_size p + b_size q)) with ar by lia.
      apply (hdr_change m2 m3 _ _ _ _ _ C3); [intros; lia|done].
    + simpl. lia.
    + cbn. by replace (a + (b_size p + b_size q)) with ar by lia.
  - eapply changed_in_trans; [exact C12|exact C3|simpl; tauto|].
    intros x [Hne Hx]. destruct r; [done|]. simpl. fold aq. fold ar. tauto.
Qed.

Lemma in_header_merge a p q r x n al :
  n = b_size p + b_size q → in_header a (mk_blk n al :: r) x → in_header a (p :: q :: r) x.
Proof. intros ->. simpl. rewrite Z.add_assoc. tauto. Qed.

Lemma blk_add_0 b : mk_blk (b_size b + 0) (b_alloc b) = b.
Proof. rewrite Z.add_0_r. by destruct b. Qed.

Lemma merge_next_spec fuel m prev a b r :
  (length r < fuel)%nat → seg m prev a (b :: r) 0 → 0 < a → a + total (b :: r) < 2 ^ 64 →
  ∃ m', merge_next fuel m a = Ok m' ∧
    seg m' prev a (mk_blk (b_size b + (lead_free r).1) (b_alloc b) :: (lead_free r).2) 0 ∧
    changed_in m m' (in_header a (b :: r)).
Proof.
  revert m b r. induction fuel as [|fuel IH]; intros m b r Hlen Hs Ha Hhi; [lia|].
  simpl merge_next. pose proof Hs as (Hb & Hsb & Hr).
  rewrite (hdr_next _ _ _ _ _ Hb). destruct r as [|c r].
  { simpl lead_free. cbn [fst snd]. rewrite blk_add_0. by exists m. }
  simpl first_of. rewrite (proj2 (Z.eqb_neq (a + b_size b) 0)) by lia. cbn [negb andb].
  pose proof Hr as (Hc & Hsc & _). unfold blk_allocated. rewrite (hdr_alloc _ _ _ _ _ Hc).
  simpl lead_free. destruct (b_alloc c) eqn:Ec; cbn [Z.b2z Z.eqb negb fst snd].
  { rewrite blk_add_0. by exists m. }
  destruct (absorb_spec m prev a b c r Hs Ha Hhi) as [Hs' C'].
  destruct (IH (absorb m a (a + b_size b)) (mk_blk (b_size b + b_size c) (b_alloc b)) r)
    as (m' & Hrun & Hseg & C''); simpl in *; [lia|done|done|lia|].
  destruct (lead_free r) as [n r']. simpl in *. exists m'. rewrite Hrun.
  replace (b_size b + (b_size c + n)) with (b_size b + b_size c + n) by lia.
  split_and!; [done|by apply Hseg..|].
  eapply changed_in_trans; [exact C'|exact C''|tauto|]. rewrite Z.add_assoc. tauto.
Qed.

Lemma in_header_bounds a bs x :
  Forall (λ b, 40 ≤ b_size b) bs → in_header a bs x → a ≤ x < a + total bs.
Proof.
  intros Hs. revert a. induction Hs as [|b bs Hb Hbs IH]; intros a; simpl; [done|].
  pose proof (length_le_total bs Hbs). intros [?|Hx]; [lia|]. apply IH in Hx. lia.
Qed.

Lemma in_header_app a l r x : in_header a (l ++ r) x ↔ in_header a l x ∨ in_header (a + total l) r x.
Proof.
  revert a. induction l as [|b l IH]; intros a; simpl.
  - rewrite Z.add_0_r. tauto.
  - rewrite IH, Z.add_assoc. tauto.
Qed.

(** Replacing the tail of a segment, the memory below it unchanged. *)
Lemma seg_replace m m' prev a l r r' :
  seg m prev a (l ++ r) 0 → changed_in m m' (in_header (a + total l) r) →
  first_of r (a + total l) 0 = first_of r' (a + total l) 0 →
  seg m' (last_of prev a l) (a + total l) r' 0 → seg m' prev a (l ++ r') 0.
Proof.
  intros [Hl Hr]%seg_app Hc Hf Hr'. apply seg_app. split; [|done]. rewrite <- Hf.
  apply (seg_change m _ _ _ _ _ _ Hc); [|done]. intros x Hx.
  apply in_header_bounds in Hx; [lia|]. by apply seg_sizes in Hr.
Qed.

Lemma absorb_at m a l p q r :
  seg m 0 a (l ++ p :: q :: r) 0 → 0 < a → a + total (l ++ p :: q :: r) < 2 ^ 64 →
  let m' := absorb m (a + total l) (a + total l + b_size p) in
  seg m' 0 a (l ++ mk_blk (b_size p + b_size q) (b_alloc p) :: r) 0 ∧
  changed_in m m' (in_header a (l ++ p :: q :: r)).
Proof.
  intros Hs Ha Hhi m'. pose proof Hs as [Hl Hr]%seg_app. rewrite total_app in Hhi.
  pose proof (length_le_total l (seg_sizes _ _ _ _ _ Hl)).
  destruct (absorb_spec m _ _ p q r Hr) as [Hs' C]; [lia..|]. split.
  - by apply (seg_replace m _ _ _ _ (p :: q :: r)).
  - intros x Hx. apply C. intros Hc. apply Hx, in_header_app. by right.
Qed.

Lemma blk_free_eq b : b_alloc b = false → mk_blk (0 + b_size b) false = b.
Proof. destruct b. simpl. by intros ->. Qed.

Lemma merge_prev_spec fuel m a l b r :
  (length l < fuel)%nat → seg m 0 a (l ++ b :: r) 0 → 0 < a → a + total (l ++ b :: r) < 2 ^ 64 →
  b_alloc b = false →
  let '(k, l') := lead_free (rev l) in
  ∃ m', merge_prev fuel m (a + total l) = Ok m' ∧
    seg m' 0 a (rev l' ++ mk_blk (k + b_size b) false :: r) 0 ∧
    changed_in m m' (in_header a (l ++ b :: r)).
Proof.
  revert fuel m b. induction l as [|p l IH] using rev_ind; intros fuel m b Hlen Hs Ha Hhi Hb.
  - destruct fuel as [|fuel]; [simpl in Hlen; lia|]. simpl rev. cbn [lead_free app total merge_prev rev].
    rewrite blk_free_eq, Z.add_0_r by done. exists m.
    rewrite (hdr_prev _ _ _ _ _ (proj1 Hs)). done.
  - rewrite length_app in Hlen. simpl in Hlen. destruct fuel as [|fuel]; [lia|].
    rewrite <- app_assoc in Hs, Hhi. simpl in Hs, Hhi.
    pose proof Hs as [Hl Hp]%seg_app. pose proof Hp as (Hph & Hps & Hbs).
    pose proof (length_le_total l (seg_sizes _ _ _ _ _ Hl)) as [_ Hlt].
    pose proof Hbs as (Hbh & _ & _).
    rewrite rev_unit. simpl lead_free. rewrite total_app. simpl total. rewrite Z.add_0_r, Z.add_assoc.
    simpl merge_prev. rewrite (hdr_prev _ _ _ _ _ Hbh).
    rewrite (proj2 (Z.eqb_neq (a + total l) 0)) by lia. cbn [negb andb].
    unfold blk_allocated. rewrite (hdr_alloc _ _ _ _ _ Hph).
    destruct (b_alloc p) eqn:Ep; cbn [Z.b2z Z.eqb negb].
    + exists m. simpl rev. rewrite rev_involutive, <- !app_assoc. simpl app.
      by rewrite blk_free_eq.
    + destruct (absorb_at m a l p b r Hs Ha Hhi) as [Hs' C].
      specialize (IH fuel (absorb m (a + total l) (a + total l + b_size p))
        (mk_blk (b_size p + b_size b) (b_alloc p)) ltac:(lia) Hs' Ha).
      rewrite total_app in IH, Hhi. simpl in IH, Hhi. specialize (IH ltac:(lia) Ep).
      destruct (lead_free (rev l)) as [k l']. destruct IH as (m' & Hrun & Hseg & C').
      exists m'. rewrite Hrun. replace (b_size p + k + b_size b) with (k + (b_size p + b_size b)) by lia.
      split_and!; [done..|]. rewrite <- app_assoc. simpl.
      eapply changed_in_trans; [exact C|exact C'|done|].
      intros x. rewrite !in_header_app. simpl. rewrite Z.add_assoc. tauto.
Qed.

(** *** Finding and splitting *)

(** The condition of [find_free_block]. *)
Definition fits (need : Z) (b : blk) : Prop := b_alloc b = false ∧ need ≤ b_size b.

Lemma find_from_spec fuel m prev a bs need :
  (length bs < fuel)%nat → seg m prev a bs 0 → 0 < a →
  (∃ l b r, bs = l ++ b :: r ∧ fits need b ∧ Forall (λ c, ¬ fits need c) l ∧
     find_from fuel m need (first_of bs a 0) = Ok (a + total l)) ∨
  (Forall (λ c, ¬ fits need c) bs ∧ find_from fuel m need (first_of bs a 0) = Ok 0).
Proof.
  revert prev a bs. induction fuel as [|fuel IH]; intros prev a bs Hlen Hs Ha; [lia|].
  destruct bs as [|b bs]; [right; done|]. destruct Hs as (Hh & Hsz & Hs).
  simpl first_of. simpl find_from. rewrite (proj2 (Z.eqb_neq a 0)) by lia.
  unfold blk_allocated. rewrite (hdr_alloc _ _ _ _ _ Hh), (hdr_size _ _ _ _ _ Hh), (hdr_next _ _ _ _ _ Hh).
  destruct (decide (fits need b)) as [[Hf1 Hf2]|Hnf].
  { left. exists [], b, bs. rewrite Hf1. simpl. rewrite (proj2 (Z.leb_le _ _) Hf2), Z.add_0_r.
    by split_and!; [|split| |]. }
  assert (negb (negb (Z.b2z (b_alloc b) =? 0)) && (need <=? b_size b) = false) as ->.
  { unfold fits in Hnf. destruct (b_alloc b); [done|]. simpl. apply Z.leb_gt. lia. }
  destruct (IH a (a + b_size b) bs) as [(l & c & r & -> & Hc & Hl & Hrun)|[Hall Hrun]];
    [simpl in Hlen; lia|done|lia| |].
  - left. exists (b :: l), c, r. rewrite Hrun. simpl. rewrite Z.add_assoc. by split_and!; [..|constructor|].
  - right. rewrite Hrun. split; [by constructor|done].
Qed.

Lemma split_block_spec m prev a b r need :
  seg m prev a (b :: r) 0 → 0 < a → a + total (b :: r) < 2 ^ 64 →
  40 ≤ need → need + 64 < b_size b →
  let m' := split_block m a need in
  let bs' := mk_blk need (b_alloc b) :: mk_blk (b_size b - need) false :: r in
  seg m' prev a bs' 0 ∧ changed_in m m' (in_header a bs').
Proof.
  intros (Hb & Hsb & Hr) Ha Hhi Hn1 Hn2 m' bs'. simpl in Hhi.
  pose proof (length_le_total r (seg_sizes _ _ _ _ _ Hr)) as [_ Ht].
  set (ar := a + b_size b) in *. set (nb := a + need).
  unfold m', split_block. rewrite (hdr_size _ _ _ _ _ Hb). unfold HEAP_MIN_BLOCK_SIZE.
  rewrite (u64_small (need + 64)), (u64_small (a + need)), (u64_small (b_size b - need)) by lia.
  rewrite (proj2 (Z.leb_gt _ _)) by lia. fold nb.
  assert (∀ mm, changed_in m mm (λ x, nb ≤ x < nb + 40) → blk_next mm a = first_of r ar 0) as Hnext.
  { intros mm C. apply (hdr_change m mm _ _ _ _ _ C) in Hb; [apply Hb|intros; lia]. }
  assert (0 ≤ first_of r ar 0 < 2 ^ 64) as Hf by (destruct r; simpl; lia).
  cbv zeta. rewrite (Hnext (set_allocated (set_size m nb (b_size b - need)) nb false)).
  2:{ intros x Hx. unfold set_allocated, set_size, wr32, wr64. by rewrite !rd8_wr_le_out by lia. }
  set (m5 := set_magic _ nb HEAP_MAGIC).
  assert (changed_in m m5 (λ x, nb ≤ x < nb + 40)) as C5.
  { intros x Hx. unfold m5, set_magic, set_prev, set_next, set_allocated, set_size, wr32, wr64.
    rewrite !rd8_wr_le_out by lia. done. }
  assert (hdr m5 nb (mk_blk (b_size b - need) false) a (first_of r ar 0)) as Hnb by (apply hdr_fresh; lia).
  rewrite !(Hnext m5) by done.
  destruct (seg_set_prev m5 a ar r nb) as [Hr6 C6]; [lia| |lia|].
  { apply (seg_change m _ _ _ _ _ _ C5); [intros; lia|done]. }
  set (m6 := if negb (first_of r ar 0 =? 0) then _ else m5) in *.
  assert (hdr m6 a b prev (first_of r ar 0)) as Hb6.
  { apply (hdr_change m5 m6 _ _ _ _ _ C6); [intros; lia|].
    apply (hdr_change m m5 _ _ _ _ _ C5); [intros; lia|done]. }
  set (m8 := set_size (set_next m6 a nb) a need).
  assert (changed_in m6 m8 (λ x, a ≤ x < a + 40)) as C8.
  { intros x Hx. unfold m8, set_next, set_size, wr64. rewrite !rd8_wr_le_out by lia. done. }
  split.
  - unfold bs'. simpl. fold nb. replace (nb + (b_size b - need)) with ar by lia. split_and!.
    + apply (hdr_set_size _ _ b); [lia|]. eapply hdr_set_next; [lia|done].
    + lia.
    + apply (hdr_change m6 m8 _ _ _ _ _ C8); [intros; lia|].
      apply (hdr_change m5 m6 _ _ _ _ _ C6); [intros; lia|done].
    + lia.
    + apply (seg_change m6 _ _ _ _ _ _ C8); [intros; lia|done].
  - intros x Hx. unfold bs' in Hx. simpl in Hx. fold nb in Hx.
    replace (nb + (b_size b - need)) with ar in Hx by lia.
    rewrite C8, C6, C5; [done|tauto| |tauto]. intros [Hne ?]. destruct r; [done|]. simpl in Hx. tauto.
Qed.

(** *** kmalloc and kfree *)

(** The block size [kmalloc] looks for. *)
Definition need (size : Z) : Z := (size + 15) / 16 * 16 + 40.

Lemma need_size size :
  0 < size < 2 ^ 63 →
  u64 (Z.land (u64 (size + HEAP_ALIGNMENT - 1)) (u64 (Z.lnot (HEAP_ALIGNMENT - 1))) +
       HEAP_BLOCK_HEADER_SIZE) = need size ∧ size + 40 ≤ need size < 2 ^ 63 + 64.
Proof.
  intros Hs. unfold HEAP_ALIGNMENT, HEAP_BLOCK_HEADER_SIZE, need.
  rewrite (u64_small (size + 16 - 1)) by lia. change (16 - 1) with (2 ^ 4 - 1).
  rewrite land_align_mask by lia. change (2 ^ 4) with 16. rewrite u64_small.
  - Z.to_euclidean_division_equations; lia.
  - Z.to_euclidean_division_equations; lia.
Qed.

Lemma carve_total n b : total (carve n b) = b_size b.
Proof. unfold carve. case_if; simpl; lia. Qed.

(** The memory after [kmalloc] has taken the block at [a]. *)
Lemma carve_spec m prev a b r n :
  seg m prev a (b :: r) 0 → 0 < a → a + total (b :: r) < 2 ^ 64 →
  40 ≤ n → n + 64 < 2 ^ 64 → b_alloc b = false →
  let m1 := if u64 (n + HEAP_MIN_BLOCK_SIZE) <? blk_size m a then split_block m a n else m in
  let m2 := set_allocated m1 a true in
  seg m2 prev a (carve n b ++ r) 0 ∧ changed_in m m2 (in_header a (carve n b ++ r)) ∧
  blk_size m2 a = total_if true (carve n b).
Proof.
  intros Hs Ha Hhi Hn Hn' Hfree m1 m2. pose proof Hs as (Hb & Hsb & Hr).
  unfold m2, m1, carve, HEAP_MIN_BLOCK_SIZE. rewrite (hdr_size _ _ _ _ _ Hb), u64_small by lia.
  pose proof (length_le_total r (seg_sizes _ _ _ _ _ Hr)) as [_ Ht].
  destruct (Z.ltb_spec (n + 64) (b_size b)) as [Hlt|Hge].
  - destruct (split_block_spec m prev a b r n Hs Ha Hhi Hn Hlt) as [(Hh & Hs1 & Hs2) C].
    set (ms := split_block m a n) in *.
    assert (changed_in ms (set_allocated ms a true) (λ x, a ≤ x < a + 40)) as C2.
    { intros x Hx. unfold set_allocated, wr32. by rewrite rd8_wr_le_out by lia. }
    apply (hdr_set_allocated _ _ _ _ _ true) in Hh. simpl in Hh.
    split_and!.
    + split_and!; [done|done|]. apply (seg_change ms _ _ _ _ _ _ C2); [|done].
      cbn. intros x Hx. lia.
    + eapply changed_in_trans; [exact C|exact C2|done|]. simpl. tauto.
    + rewrite (hdr_size _ _ _ _ _ Hh). simpl. lia.
  - assert (changed_in m (set_allocated m a true) (λ x, a ≤ x < a + 40)) as C2.
    { intros x Hx. unfold set_allocated, wr32. by rewrite rd8_wr_le_out by lia. }
    apply (hdr_set_allocated _ _ _ _ _ true) in Hb. split_and!.
    + split_and!; [done|done|]. apply (seg_change m _ _ _ _ _ _ C2); [|done]. intros x Hx. simpl. lia.
    + apply (changed_in_mono _ _ _ _ C2). simpl. tauto.
    + rewrite (hdr_size _ _ _ _ _ Hb). simpl. lia.
Qed.

Lemma carve_sums n b :
  40 ≤ n ≤ b_size b →
  total_if true (carve n b) + total_if false (carve n b) = b_size b ∧
  0 ≤ total_if true (carve n b) ≤ b_size b.
Proof.
  intros Hn. unfold carve, HEAP_MIN_BLOCK_SIZE.
  destruct (Z.ltb_spec (n + 64) (b_size b)); simpl; lia.
Qed.

Lemma carve_first n b r a nxt : first_of (carve n b ++ r) a nxt = a.
Proof. unfold carve. by case_if. Qed.

(** The same inside the list. *)
Lemma carve_at m a l b r n :
  seg m 0 a (l ++ b :: r) 0 → 0 < a → a + total (l ++ b :: r) < 2 ^ 64 →
  40 ≤ n → n + 64 < 2 ^ 64 → b_alloc b = false →
  let ab := a + total l in
  let m1 := if u64 (n + HEAP_MIN_BLOCK_SIZE) <? blk_size m ab then split_block m ab n else m in
  let m2 := set_allocated m1 ab true in
  seg m2 0 a (l ++ carve n b ++ r) 0 ∧ changed_in m m2 (in_header a (l ++ carve n b ++ r)) ∧
  blk_size m2 ab = total_if true (carve n b).
Proof.
  intros [Hl Hr]%seg_app Ha Hhi Hn Hn' Hb ab m1 m2. rewrite total_app in Hhi.
  pose proof (length_le_total l (seg_sizes _ _ _ _ _ Hl)).
  destruct (carve_spec m _ ab b r n Hr) as (Hseg & C & Hbs); [subst ab; lia..|done|].
  fold m1 in Hseg, C, Hbs. fold m2 in Hseg, C, Hbs. split_and!; [|..|done].
  - apply seg_app. split; [|done]. rewrite carve_first.
    apply (seg_change m _ _ _ _ _ _ C); [|done]. intros x Hx.
    apply in_header_bounds in Hx; [lia|]. by apply seg_sizes in Hseg.
  - apply (changed_in_mono _ _ _ _ C). intros x Hx. apply in_header_app. by right.
Qed.

Lemma carve_coalesced l b r n :
  coalesced (l ++ b :: r) → b_alloc b = false → coalesced (l ++ carve n b ++ r).
Proof.
  rewrite (coalesced_app l (b :: r)), (coalesced_app l (carve n b ++ r)).
  intros (Hl & Hr & Hlr) Hb. unfold carve.
  assert (coalesced r ∧ match head r with Some c => b_alloc c = true | None => True end) as [Hr' Hh].
  { destruct r as [|c r]; [done|]. simpl in Hr. rewrite Hb in Hr. by destruct Hr. }
  split_and!; [done| |].
  - case_if; (destruct r as [|c r]; [done|]); simpl in *; rewrite ?Hh in *; split_and?; done.
  - destruct (last l); [|done]. case_if; simpl; by rewrite orb_true_r.
Qed.

(** The heap after the block [b] has been replaced and the counters updated. *)
Lemma heap_ok_rebuild s bs m bs' :
  heap_ok s bs → total bs' = total bs → bs' ≠ [] → seg m 0 (h_start s) bs' 0 → coalesced bs' →
  ∀ al fr, heap_ok (mk_heap m (h_start s) (h_end s) (h_size s) (total_if true bs') (total_if false bs')
                     (h_first s) al fr) bs'.
Proof. intros [] Ht Hne Hs Hc al fr. split; simpl; try done; congruence. Qed.

Lemma heap_fuel_enough s bs : heap_ok s bs → (length bs < heap_fuel s)%nat.
Proof.
  intros Hok. pose proof (length_le_total bs (seg_sizes _ _ _ _ _ (hk_seg _ _ Hok))).
  unfold heap_fuel. rewrite (hk_size _ _ Hok). lia.
Qed.

Lemma kmalloc_spec s bs size :
  heap_ok s bs → 0 < size < 2 ^ 63 →
  (∃ l b r s', bs = l ++ b :: r ∧ fits (need size) b ∧ Forall (λ c, ¬ fits (need size) c) l ∧
     kmalloc size s = Ok (h_start s + total l + 40, s') ∧
     heap_ok s' (l ++ carve (need size) b ++ r) ∧ h_start s' = h_start s ∧
     changed_in (h_mem s) (h_mem s') (in_header (h_start s) (l ++ carve (need size) b ++ r))) ∨
  (Forall (λ c, ¬ fits (need size) c) bs ∧ kmalloc size s = Ok (0, s)).
Proof.
  intros Hok Hsize. destruct (need_size size Hsize) as [Hneed Hrange].
  unfold kmalloc. rewrite (proj2 (Z.eqb_neq size 0)) by lia. cbv zeta. rewrite Hneed.
  pose proof (heap_fuel_enough s bs Hok) as Hfuel. pose proof Hok as [].
  pose proof (find_from_spec _ (h_mem s) 0 (h_start s) bs (need size) Hfuel hk_seg0 hk_start0) as Hfind.
  assert (first_of bs (h_start s) 0 = h_first s) as Hfo by (rewrite hk_first0; by destruct bs).
  rewrite Hfo in Hfind. unfold bind, find_free_block.
  destruct Hfind as [(l & b & r & -> & Hfit & Hl & ->)|[Hall ->]]; [left|right; by split].
  pose proof (seg_sizes _ _ _ _ _ hk_seg0) as [Hzl [Hzb Hzr]%Forall_cons]%Forall_app.
  destruct Hfit as [Hfree Hle].
  pose proof (length_le_total l Hzl) as [_ Htl]. pose proof (length_le_total r Hzr) as [_ Htr].
  destruct (carve_at (h_mem s) (h_start s) l b r (need size) hk_seg0) as (Hseg & C & Hbs); [lia..|done|].
  destruct (carve_sums (need size) b) as [Hcv Hcv']; [lia|]. rewrite total_app in *. simpl total in *.
  set (a := h_start s + total l) in *. rewrite (proj2 (Z.eqb_neq a 0)) by lia.
  set (m1 := if _ <? _ then _ else h_mem s) in *. set (m2 := set_allocated m1 a true) in *.
  exists l, b, r, (mk_heap m2 (h_start s) (h_end s) (h_size s)
    (total_if true (l ++ carve (need size) b ++ r)) (total_if false (l ++ carve (need size) b ++ r))
    (h_first s) (u32 (h_allocations s + 1)) (h_frees s)).
  split_and!; [done|by split|done| | |done|done].
  - unfold get. cbv beta iota.
    assert (when (u64 (need size + HEAP_MIN_BLOCK_SIZE) <? blk_size (h_mem s) a)
      (modify (λ s, s <| h_mem := split_block (h_mem s) a (need size) |>)) s =
      Ok ((), s <| h_mem := m1 |>)) as ->.
    { unfold m1, when. destruct (_ <? blk_size _ _); [done|]. by destruct s. }
    unfold modify, ret. cbn. fold m2. rewrite (u64_small (a + _)) by (unfold HEAP_BLOCK_HEADER_SIZE; lia).
    pose proof (total_if_range true l Hzl). pose proof (total_if_range false l Hzl).
    pose proof (total_if_range true r Hzr). pose proof (total_if_range false r Hzr).
    rewrite !total_if_app in *. simpl in *. rewrite Hfree in *. simpl in *.
    rewrite Hbs, (u64_small (h_used s + _)), (u64_small (h_free s - _)) by lia.
    unfold fset. cbn. do 3 f_equal; lia.
  - apply (heap_ok_rebuild s (l ++ b :: r)); [done| | |done|by apply carve_coalesced].
    + rewrite !total_app, carve_total. done.
    + unfold carve. destruct l; [by case_if|done].
Qed.

Lemma coalesce_total l b r : total (coalesce l b r) = total (l ++ b :: r).
Proof.
  unfold coalesce. pose proof (lead_free_total r). pose proof (lead_free_total (rev l)).
  destruct (lead_free r), (lead_free (rev l)). simpl in *.
  rewrite !total_app, !total_rev in *. simpl. lia.
Qed.

Lemma coalesce_total_if l b r :
  total_if true (coalesce l b r) = total_if true l + total_if true r ∧
  total_if false (coalesce l b r) = total_if false l + b_size b + total_if false r.
Proof.
  unfold coalesce. pose proof (lead_free_total_if r). pose proof (lead_free_total_if (rev l)).
  destruct (lead_free r), (lead_free (rev l)). simpl in *.
  rewrite !total_if_app, !total_if_rev in *. simpl. lia.
Qed.

Lemma coalesce_nonempty l b r : coalesce l b r ≠ [].
Proof. unfold coalesce. destruct (lead_free r), (lead_free (rev l)). by destruct (rev _). Qed.

(** Headers of the merged list are headers of the original one. *)
Lemma in_header_lead a b r x :
  in_header a (mk_blk (b_size b + (lead_free r).1) false :: (lead_free r).2) x → in_header a (b :: r) x.
Proof.
  revert b. induction r as [|c r IH]; intros b; simpl; [tauto|].
  destruct (b_alloc c); simpl; [by rewrite Z.add_0_r|].
  specialize (IH (mk_blk (b_size b + b_size c) false)). destruct (lead_free r) as [n r']. simpl in *.
  rewrite !Z.add_assoc in *. tauto.
Qed.

(** Clearing the allocation flag and merging, on the memory. *)
Lemma merge_at fuel m a l b r :
  (length (l ++ b :: r) < fuel)%nat → seg m 0 a (l ++ b :: r) 0 → 0 < a →
  a + total (l ++ b :: r) < 2 ^ 64 →
  let m1 := set_allocated m (a + total l) false in
  ∃ m2 m3, merge_next fuel m1 (a + total l) = Ok m2 ∧ merge_prev fuel m2 (a + total l) = Ok m3 ∧
    seg m3 0 a (coalesce l b r) 0 ∧ changed_in m m3 (in_header a (l ++ b :: r)).
Proof.
  intros Hlen Hs Ha Hhi m1. pose proof Hs as [Hl Hr]%seg_app.
  rewrite length_app in Hlen. simpl in Hlen. pose proof Hhi as Hhi'. rewrite total_app in Hhi'.
  pose proof (length_le_total l (seg_sizes _ _ _ _ _ Hl)) as [_ Htl].
  set (ab := a + total l) in *. pose proof Hr as (Hb & Hsb & Hr').
  pose proof (length_le_total r (seg_sizes _ _ _ _ _ Hr')) as [_ Htr].
  assert (changed_in m m1 (λ x, ab ≤ x < ab + 40)) as C1.
  { intros x Hx. unfold m1, set_allocated, wr32. by rewrite rd8_wr_le_out by lia. }
  set (b0 := mk_blk (b_size b) false).
  assert (seg m1 (last_of 0 a l) ab (b0 :: r) 0) as Hr1.
  { split_and!; [by apply (hdr_set_allocated _ _ _ _ _ false) in Hb|done|].
    apply (seg_change m _ _ _ _ _ _ C1); [simpl; intros; lia|done]. }
  destruct (merge_next_spec fuel m1 (last_of 0 a l) ab b0 r) as (m2 & Hrun2 & Hseg2 & C2); [lia|done|lia|simpl in *; lia|].
  assert (changed_in m m2 (in_header ab (b :: r))) as C12.
  { eapply changed_in_trans; [exact C1|exact C2|simpl; tauto..]. }
  set (b1 := mk_blk (b_size b0 + (lead_free r).1) (b_alloc b0)) in *.
  assert (seg m2 0 a (l ++ b1 :: (lead_free r).2) 0) as Hs2
    by (by apply (seg_replace m m2 _ _ _ (b :: r))).
  pose proof (lead_free_total r) as Hlf.
  pose proof (merge_prev_spec fuel m2 a l b1 (lead_free r).2 ltac:(lia) Hs2 Ha) as Hprev.
  rewrite total_app in Hprev. simpl in Hprev. specialize (Hprev ltac:(simpl in *; lia) eq_refl).
  unfold coalesce. destruct (lead_free (rev l)) as [k l'], (lead_free r) as [n r'] eqn:El.
  destruct Hprev as (m3 & Hrun3 & Hseg3 & C3). exists m2, m3. split_and!; [done|done| |].
  - replace (k + b_size b + n) with (k + (b_size b + n)) by lia. done.
  - eapply changed_in_trans; [exact C12|exact C3| |].
    + intros x Hx. apply in_header_app. by right.
    + intros x. rewrite !in_header_app. intros [?|Hx]; [by left|]. right.
      apply (in_header_lead ab b r). by rewrite El.
Qed.

Lemma seg_block m a l b r :
  seg m 0 a (l ++ b :: r) 0 →
  hdr m (a + total l) b (last_of 0 a l) (first_of r (a + total l + b_size b) 0) ∧
  40 ≤ b_size b ∧ 0 ≤ total l ∧ 0 ≤ total r.
Proof.
  intros [Hl (Hb & Hsz & Hr)]%seg_app.
  pose proof (length_le_total l (seg_sizes _ _ _ _ _ Hl)).
  pose proof (length_le_total r (seg_sizes _ _ _ _ _ Hr)). split_and!; [done|lia..].
Qed.

(** The pointer to the payload of the block after [l]. *)
Definition payload_ptr (s : heap) (l : list blk) : Z := h_start s + total l + 40.

Lemma payload_block s l b r :
  heap_ok s (l ++ b :: r) → payload_ptr s l ≠ 0 ∧
  u64 (payload_ptr s l - HEAP_BLOCK_HEADER_SIZE) = h_start s + total l ∧
  is_valid_block s (h_start s + total l) = true.
Proof.
  intros []. destruct (seg_block _ _ _ _ _ hk_seg0) as (Hb & Hsb & Htl & Htr).
  rewrite total_app in *. simpl in *. unfold payload_ptr, HEAP_BLOCK_HEADER_SIZE, is_valid_block.
  rewrite u64_small, (hdr_magic _ _ _ _ _ Hb), Z.eqb_refl by lia.
  rewrite (proj2 (Z.eqb_neq _ 0)), (proj2 (Z.ltb_ge _ _)), (proj2 (Z.leb_gt _ _)) by lia.
  split_and!; [lia..|done].
Qed.

Lemma merge_blocks_run s block m2 m3 :
  merge_next (heap_fuel s) (h_mem s) block = Ok m2 →
  merge_prev (heap_fuel s) m2 block = Ok m3 →
  merge_blocks block s = Ok ((), s <| h_mem := m3 |>).
Proof. intros H2 H3. unfold merge_blocks. by rewrite H2, H3. Qed.

Lemma kfree_spec s l b r :
  heap_ok s (l ++ b :: r) → b_alloc b = true →
  ∃ s', kfree (payload_ptr s l) s = Ok ((), s') ∧ heap_ok s' (coalesce l b r) ∧
    h_start s' = h_start s ∧
    changed_in (h_mem s) (h_mem s') (in_header (h_start s) (l ++ b :: r)).
Proof.
  intros Hok Hal. destruct (payload_block s l b r Hok) as (Hnz & Hblk & Hvalid).
  pose proof (heap_fuel_enough s _ Hok) as Hfuel. pose proof Hok as [].
  destruct (seg_block _ _ _ _ _ hk_seg0) as (Hb & Hsb & Htl & Htr).
  destruct (merge_at _ _ _ l b r Hfuel hk_seg0 hk_start0) as (m2 & m3 & Hr2 & Hr3 & Hseg & C); [lia|].
  pose proof (seg_sizes _ _ _ _ _ hk_seg0) as [Hzl [_ Hzr]%Forall_cons]%Forall_app.
  pose proof (total_if_range true l Hzl). pose proof (total_if_range false l Hzl).
  pose proof (total_if_range true r Hzr). pose proof (total_if_range false r Hzr).
  destruct (coalesce_total_if l b r) as [Hu Hf].
  exists (mk_heap m3 (h_start s) (h_end s) (h_size s) (total_if true (coalesce l b r))
    (total_if false (coalesce l b r)) (h_first s) (h_allocations s) (u32 (h_frees s + 1))).
  split_and!; [|apply (heap_ok_rebuild s (l ++ b :: r)); try done|done|done].
  - unfold kfree. rewrite (proj2 (Z.eqb_neq _ 0) Hnz). cbv zeta. rewrite Hblk.
    unfold bind, get. rewrite Hvalid. cbn [negb].
    unfold blk_allocated. rewrite (hdr_alloc _ _ _ _ _ Hb), Hal. cbn [Z.b2z Z.eqb negb].
    apply (hdr_set_allocated _ _ _ _ _ false) in Hb.
    unfold modify. cbv beta iota. erewrite merge_blocks_run; [|exact Hr2|exact Hr3].
    cbn. rewrite (hdr_size _ _ _ _ _ Hb). rewrite Hu, Hf. rewrite total_if_app, total_app in *. simpl in *.
    rewrite Hal in *. simpl in *. unfold fset. cbn.
    rewrite !u64_small by lia. do 3 f_equal; lia.
  - apply coalesce_total.
  - apply coalesce_nonempty.
  - rewrite coalesced_app in hk_coalesced0. destruct hk_coalesced0 as (Hcl & Hcr & _).
    apply coalesce_coalesced; [done|]. destruct r; [done|]. apply Hcr.
Qed.

(** Payload bytes are never header bytes of the same tiling. *)
Lemma payload_not_header a bs x :
  Forall (λ b, 40 ≤ b_size b) bs → in_payload a bs x → ¬ in_header a bs x.
Proof.
  intros Hs. revert a. induction Hs as [|b bs Hb Hbs IH]; intros a; simpl; [tauto|].
  assert (∀ c, in_payload c bs x → c ≤ x) as Hlow.
  { clear -Hbs. induction Hbs as [|d bs Hd _ IH]; intros c; simpl; [done|].
    intros [?|Hx]; [lia|]. apply IH in Hx. lia. }
  assert (in_header (a + b_size b) bs x → a + b_size b ≤ x) as Hhlow
    by (intros Hx; apply in_header_bounds in Hx; [lia|done]).
  intros [[_ Hx]|Hx] [Hh|Hh]; try lia.
  - apply Hhlow in Hh. lia.
  - apply Hlow in Hx. lia.
  - by apply (IH (a + b_size b)).
Qed.

Lemma in_payload_app a l r x : in_payload a (l ++ r) x ↔ in_payload a l x ∨ in_payload (a + total l) r x.
Proof.
  revert a. induction l as [|b l IH]; intros a; simpl.
  - rewrite Z.add_0_r. tauto.
  - rewrite IH, Z.add_assoc. tauto.
Qed.

Lemma in_payload_carve a l b r n x :
  b_alloc b = false → in_payload a (l ++ b :: r) x → in_payload a (l ++ carve n b ++ r) x.
Proof.
  intros Hb. rewrite !in_payload_app, carve_total. simpl. rewrite Hb.
  intros [?|[[? _]|?]]; [by left|done|]. right. by right.
Qed.

Lemma PAGE_SIZE_val : PAGE_SIZE = 4096.
Proof. done. Qed.

(** A fresh heap. *)
Lemma heap_init_spec s start size :
  0 < start → 0 ≤ size < 2 ^ 63 → start < 2 ^ 62 →
  let n := Z.max 4096 ((size + 4095) / 4096 * 4096) in
  let '(r, s') := heap_init s start size in
  r = 0 ∧ heap_ok s' [mk_blk n false] ∧ h_start s' = start ∧
  changed_in (h_mem s) (h_mem s') (λ x, start ≤ x < start + 40).
Proof.
  intros Hst Hsz Hst' n. unfold heap_init. rewrite !PAGE_SIZE_val.
  set (size' := if size <? 4096 then 4096 else size).
  assert (4096 ≤ size' < 2 ^ 63 + 4096) by (subst size'; destruct (Z.ltb_spec size 4096); lia).
  change (4096 - 1) with (2 ^ 12 - 1). rewrite u64_small by lia. rewrite land_align_mask by lia.
  change (2 ^ 12) with 4096.
  assert (size' + 4096 - 1 - (size' + 4096 - 1) mod 4096 = n) as ->.
  { subst n size'. destruct (Z.ltb_spec size 4096); Z.to_euclidean_division_equations; lia. }
  assert (4096 ≤ n < 2 ^ 63 + 8192) by (subst n; Z.to_euclidean_division_equations; lia).
  split_and!; [done| |done|].
  - split; cbn; try done; try lia.
    + rewrite u64_small; lia.
    + rewrite u64_small; lia.
    + split_and!; [|lia|done]. apply hdr_fresh; lia.
  - intros x Hx. cbn [h_mem]. unfold set_magic, set_prev, set_next, set_allocated, set_size, wr32, wr64.
    rewrite !rd8_wr_le_out by lia. done.
Qed.

(** *** Composition *)

Lemma heap_ok_sizes s bs : heap_ok s bs → Forall (λ b, 40 ≤ b_size b) bs.
Proof. intros []. by apply seg_sizes in hk_seg0. Qed.

(** A segment depends on its header bytes only. *)
Lemma seg_ext_header m m' prev a bs nxt :
  (∀ x, in_header a bs x → rd8 m' x = rd8 m x) → seg m prev a bs nxt → seg m' prev a bs nxt.
Proof.
  revert prev a. induction bs as [|b bs IH]; intros prev a Hh; [done|]. intros (Hb & Hsb & Hs).
  simpl in Hh. split_and!; [apply (hdr_ext m); [intros; apply Hh; by left|done]|done|].
  apply IH; [|done]. intros x Hx. apply Hh. by right.
Qed.

(** Writing into payloads keeps the heap consistent. *)
Lemma heap_ok_set_mem s bs m :
  heap_ok s bs → changed_in (h_mem s) m (in_payload (h_start s) bs) → heap_ok (s <| h_mem := m |>) bs.
Proof.
  intros Hok Hm. pose proof (heap_ok_sizes s bs Hok) as Hz. destruct Hok. split; cbn; try done.
  apply (seg_ext_header (h_mem s)); [|done]. intros x Hx. apply Hm. intros Hp.
  by apply (payload_not_header (h_start s) bs x).
Qed.

(** The payload of the block after [l]. *)
Lemma in_payload_block a l b r x :
  b_alloc b = true → a + total l + 40 ≤ x < a + total l + b_size b → in_payload a (l ++ b :: r) x.
Proof. intros Hb Hx. apply in_payload_app. right. left. by split. Qed.

(** An allocated block survives taking another block. *)
Lemma survives l b r l2 b2 r2 n :
  l ++ b :: r = l2 ++ b2 :: r2 → b_alloc b = true → b_alloc b2 = false →
  ∃ l' r', l2 ++ carve n b2 ++ r2 = l' ++ b :: r' ∧ total l' = total l.
Proof.
  intros Heq Hb Hb2. revert l2 Heq. induction l as [|c l IH]; intros l2 Heq.
  - destruct l2 as [|c2 l2]; simpl in Heq; simplify_eq; [congruence|].
    by exists [], (l2 ++ carve n b2 ++ r2).
  - destruct l2 as [|c2 l2]; simpl in Heq; injection Heq as -> Heq.
    + subst r2. exists (carve n b2 ++ l), r. simpl. rewrite <- app_assoc, total_app, carve_total. done.
    + destruct (IH l2 Heq) as (l' & r' & E & Ht). exists (c2 :: l'), r'. simpl. by rewrite E, Ht.
Qed.

(** After taking a block of [n] bytes and giving it back the list is as before. *)
Lemma coalesce_carve l b r n :
  coalesced (l ++ b :: r) → b_alloc b = false →
  ∃ c r', carve n b ++ r = c :: r' ∧ b_alloc c = true ∧ coalesce l c r' = l ++ b :: r.
Proof.
  intros Hc Hb. rewrite coalesced_app in Hc. destruct Hc as (_ & Hr & Hlast).
  assert (lead_free r = (0, r)) as Hlr.
  { destruct r as [|d r]; [done|]. simpl in Hr. rewrite Hb in Hr. simpl in Hr. simpl. by destruct Hr as [-> _]. }
  assert (lead_free (rev l) = (0, rev l)) as Hll.
  { destruct l as [|d l _] using rev_ind; [done|]. rewrite last_snoc in Hlast. simpl in Hlast.
    rewrite Hb, orb_false_r in Hlast. rewrite rev_unit. simpl. by rewrite Hlast. }
  unfold carve. destruct (n + HEAP_MIN_BLOCK_SIZE <? b_size b).
  - exists (mk_blk n true), (mk_blk (b_size b - n) false :: r). split_and!; [done..|].
    unfold coalesce. simpl. rewrite Hlr, Hll, rev_involutive. do 2 f_equal.
    destruct b; simpl in *; subst. f_equal. lia.
  - exists (mk_blk (b_size b) true), r. split_and!; [done..|].
    unfold coalesce. rewrite Hlr, Hll, rev_involutive. simpl. do 2 f_equal.
    destruct b; simpl in *; subst. f_equal. lia.
Qed.

(** Coalescing moves no payload of the other allocated blocks. *)
Lemma lead_free_payload a r x : in_payload a r x → in_payload (a + (lead_free r).1) (lead_free r).2 x.
Proof.
  revert a. induction r as [|b r IH]; intros a; simpl; [done|].
  destruct (b_alloc b) eqn:E; simpl; [by rewrite E, Z.add_0_r|].
  specialize (IH (a + b_size b)). destruct (lead_free r) as [n r']. simpl in *.
  rewrite Z.add_assoc. intros [[? _]|?]; [done|auto].
Qed.

Lemma lead_free_rev_payload a l x : in_payload a l x → in_payload a (rev (lead_free (rev l)).2) x.
Proof.
  induction l as [|b l IH] using rev_ind; [done|]. rewrite rev_unit. simpl lead_free.
  destruct (b_alloc b) eqn:E; [simpl; by rewrite rev_involutive|].
  rewrite in_payload_app. simpl. rewrite E. destruct (lead_free (rev l)) as [n l']. simpl in *.
  intros [?|[[? _]|[]]]; [auto|done].
Qed.

Lemma in_payload_coalesce a l b r x :
  in_payload a (l ++ b :: r) x → x < a + total l ∨ a + total l + b_size b ≤ x →
  in_payload a (coalesce l b r) x.
Proof.
  rewrite in_payload_app. simpl. intros Hp Hx. unfold coalesce.
  pose proof (lead_free_payload (a + total l + b_size b) r x) as Hr.
  pose proof (lead_free_rev_payload a l x) as Hl. pose proof (lead_free_total (rev l)) as Ht.
  destruct (lead_free r) as [n r'], (lead_free (rev l)) as [k l']. simpl in *.
  apply in_payload_app. destruct Hp as [?|[[_ ?]|Hp]]; [left; auto|lia|]. right. right. simpl.
  rewrite total_rev in *. replace (a + total l' + (k + b_size b + n)) with (a + total l + b_size b + n) by lia.
  auto.
Qed.

(** [live s p]: [p] points to the payload of an allocated block. *)
Definition live (s : heap) (p : Z) : Prop :=
  ∃ l b r, heap_ok s (l ++ b :: r) ∧ b_alloc b = true ∧ p = payload_ptr s l.

(** ** The interface to the heap's clients

    [ka_inv L a]: the allocator is consistent and [L] is the set of pointers it
    has handed out and not taken back. *)
Class KAlloc (A : Type) := {
  ka_malloc : Z → prog A Z;
  ka_free : Z → prog A ();
  ka_inv : gset Z → A → Prop;
  ka_malloc_spec L a n :
    ka_inv L a → 0 < n < 2 ^ 63 →
    wp (ka_malloc n) (λ p a', (p = 0 ∧ ka_inv L a') ∨
                              (p ≠ 0 ∧ (p ∉ L) ∧ ka_inv ({[p]} ∪ L) a')) a;
  ka_free_spec L a p :
    ka_inv L a → p ∈ L → wp (ka_free p) (λ _ a', ka_inv (L ∖ {[p]}) a') a
}.

(** [supplies ns a]: from [a], allocations of the sizes [ns], one after the other, all
    succeed. *)
Fixpoint supplies {A} `{KAlloc A} (ns : list Z) (a : A) : bool :=
  match ns with
  | [] => true
  | n :: ns =>
      match ka_malloc n a with
      | Ok (p, a') => negb (p =? 0) && supplies ns a'
      | _ => false
      end
  end.

Lemma supplies_cons {A} `{KAlloc A} n ns (a : A) p a' :
  ka_malloc n a = Ok (p, a') → p ≠ 0 → supplies (n :: ns) a ↔ supplies ns a'.
Proof. intros Hm Hp. simpl. by rewrite Hm, (proj2 (Z.eqb_neq p 0) Hp). Qed.

Lemma supplies_fail {A} `{KAlloc A} n ns (a : A) a' : ka_malloc n a = Ok (0, a') → ¬ supplies (n :: ns) a.
Proof. intros Hm. simpl. rewrite Hm. simpl. auto. Qed.

(** The payload pointers of the allocated blocks of a tiling that starts at [a]. *)
Fixpoint live_ptrs (a : Z) (bs : list blk) : gset Z :=
  match bs with
  | [] => ∅
  | b :: r => (if b_alloc b then {[a + 40]} else ∅) ∪ live_ptrs (a + b_size b) r
  end.

Definition heap_live (L : gset Z) (s : heap) : Prop :=
  ∃ bs, heap_ok s bs ∧ L = live_ptrs (h_start s) bs.

Lemma live_ptrs_app a l r : live_ptrs a (l ++ r) = live_ptrs a l ∪ live_ptrs (a + total l) r.
Proof.
  revert a. induction l as [|b l IH]; intros a; simpl.
  - rewrite Z.add_0_r. set_solver.
  - rewrite IH, Z.add_assoc. set_solver.
Qed.

Lemma live_ptrs_bounds a bs p :
  Forall (λ b, 40 ≤ b_size b) bs → p ∈ live_ptrs a bs → a + 40 ≤ p < a + total bs + 40.
Proof.
  intros Hz. revert a. induction Hz as [|b bs Hb Hbs IH]; intros a; simpl; [set_solver|].
  pose proof (length_le_total bs Hbs). intros [Hp|Hp]%elem_of_union.
  - destruct (b_alloc b); [|set_solver]. apply elem_of_singleton in Hp. lia.
  - apply IH in Hp. lia.
Qed.

Lemma live_ptrs_elem a bs p :
  p ∈ live_ptrs a bs → ∃ l b r, bs = l ++ b :: r ∧ b_alloc b = true ∧ p = a + total l + 40.
Proof.
  revert a. induction bs as [|b bs IH]; intros a; simpl; [set_solver|].
  intros [Hp|Hp]%elem_of_union.
  - destruct (b_alloc b) eqn:E; [|set_solver]. apply elem_of_singleton in Hp as ->.
    exists [], b, bs. simpl. split_and!; [done..|lia].
  - apply IH in Hp as (l & c & r & -> & Hc & ->). exists (b :: l), c, r. simpl. split_and!; [done..|lia].
Qed.

Lemma live_ptrs_lead_free a r : live_ptrs a r = live_ptrs (a + (lead_free r).1) (lead_free r).2.
Proof.
  revert a. induction r as [|b r IH]; intros a; simpl; [done|].
  destruct (b_alloc b) eqn:E; simpl; [by rewrite E, Z.add_0_r|].
  specialize (IH (a + b_size b)). destruct (lead_free r). simpl in *. rewrite Z.add_assoc, IH. set_solver.
Qed.

Lemma live_ptrs_lead_free_rev a l : live_ptrs a l = live_ptrs a (rev (lead_free (rev l)).2).
Proof.
  induction l as [|b l IH] using rev_ind; [done|]. rewrite rev_unit. simpl lead_free.
  destruct (b_alloc b) eqn:E; [simpl; by rewrite rev_involutive|].
  rewrite live_ptrs_app. simpl. rewrite E. destruct (lead_free (rev l)). simpl in *. rewrite IH. set_solver.
Qed.

Lemma live_ptrs_coalesce a l b r :
  live_ptrs a (coalesce l b r) = live_ptrs a l ∪ live_ptrs (a + total l + b_size b) r.
Proof.
  unfold coalesce. rewrite (live_ptrs_lead_free (a + total l + b_size b) r), (live_ptrs_lead_free_rev a l).
  pose proof (lead_free_total (rev l)) as Ht.
  destruct (lead_free r) as [n r'], (lead_free (rev l)) as [k l']. simpl in *.
  rewrite live_ptrs_app. simpl. rewrite !total_rev in *.
  replace (a + total l' + (k + b_size b + n)) with (a + total l + b_size b + n) by lia. set_solver.
Qed.

Lemma live_ptrs_carve a l b r n :
  b_alloc b = false →
  live_ptrs a (l ++ carve n b ++ r) = {[a + total l + 40]} ∪ live_ptrs a (l ++ b :: r).
Proof.
  intros Hb. rewrite !live_ptrs_app, carve_total. simpl. rewrite Hb.
  unfold carve. case_if; simpl; set_solver.
Qed.

#[export] Program Instance heap_kalloc : KAlloc heap := {|
  ka_malloc := kmalloc;
  ka_free := kfree;
  ka_inv := heap_live
|}.
Next Obligation.
  intros L s n (bs & Hok & ->) Hn. unfold wp.
  destruct (kmalloc_spec s bs n Hok Hn) as [(l & b & r & s' & -> & [Hfree _] & _ & -> & Hok' & Hst & _)|[_ ->]].
  - right. pose proof (heap_ok_sizes s _ Hok) as Hz. pose proof (hk_start _ _ Hok).
    destruct (seg_block _ _ _ _ _ (hk_seg _ _ Hok)) as (_ & Hsb & Htl & _). split_and!; [lia| |].
    + rewrite live_ptrs_app. simpl. rewrite Hfree. apply Forall_app in Hz as [Hzl [_ Hzr]%Forall_cons].
      intros [Hp|[?|Hp]%elem_of_union]%elem_of_union; [|set_solver|].
      * apply live_ptrs_elem in Hp as (l1 & c & r1 & -> & _ & Hp).
        apply Forall_app in Hzl as [_ [Hzc Hzr1]%Forall_cons]. rewrite total_app in Hp. simpl in Hp.
        pose proof (length_le_total r1 Hzr1). lia.
      * apply live_ptrs_bounds in Hp; [lia|done].
    + exists (l ++ carve (need n) b ++ r). split; [done|]. rewrite Hst. by rewrite live_ptrs_carve.
  - left. split; [done|]. by exists bs.
Qed.
Next Obligation.
  intros L s p (bs & Hok & ->) Hp. apply live_ptrs_elem in Hp as (l & b & r & -> & Hb & ->).
  destruct (kfree_spec s l b r Hok Hb) as (s' & Hk & Hok' & Hst & _). unfold wp.
  unfold payload_ptr in Hk. rewrite Hk. exists (coalesce l b r). split; [done|].
  rewrite Hst, live_ptrs_coalesce, live_ptrs_app. simpl. rewrite Hb.
  pose proof (heap_ok_sizes s _ Hok) as [Hzl [Hzb Hzr]%Forall_cons]%Forall_app.
  assert (∀ q, q ∈ live_ptrs (h_start s) l → q ≠ h_start s + total l + 40) as H1.
  { intros q (l1 & c & r1 & -> & _ & ->)%live_ptrs_elem.
    apply Forall_app in Hzl as [_ [Hzc Hzr1]%Forall_cons]. rewrite total_app. simpl.
    pose proof (length_le_total r1 Hzr1). lia. }
  assert (∀ q, q ∈ live_ptrs (h_start s + total l + b_size b) r → q ≠ h_start s + total l + 40) as H2.
  { intros q Hq%live_ptrs_bounds; [lia|done]. }
  apply set_eq. intros q. rewrite elem_of_difference, !elem_of_union, elem_of_singleton.
  specialize (H1 q). specialize (H2 q). tauto.
Qed.

(** No byte of a free block is a payload byte. *)
Lemma payload_not_header_free a l b r x :
  Forall (λ b, 40 ≤ b_size b) (l ++ b :: r) → b_alloc b = false → in_payload a (l ++ b :: r) x →
  x < a + total l ∨ a + total l + b_size b ≤ x.
Proof.
  intros [Hl [_ Hr]%Forall_cons]%Forall_app Hb. rewrite in_payload_app. simpl. rewrite Hb.
  assert (∀ bs c, Forall (λ b, 40 ≤ b_size b) bs → in_payload c bs x → c ≤ x < c + total bs) as Hin.
  { clear. intros bs c Hbs. revert c. induction Hbs as [|d bs Hd Hbs IH]; intros c; simpl; [done|].
    pose proof (length_le_total bs Hbs). intros [?|Hx]; [lia|]. apply IH in Hx. lia. }
  intros [Hx|[[? _]|Hx]]; [|done|].
  - apply Hin in Hx; [lia|done].
  - apply Hin in Hx; [lia|done].
Qed.

Lemma changed_payload m m' a bs x :
  changed_in m m' (in_header a bs) → Forall (λ b, 40 ≤ b_size b) bs → in_payload a bs x →
  rd8 m' x = rd8 m x.
Proof. intros Hc Hz Hp. apply Hc. by apply payload_not_header. Qed.

(** A fresh 8 KB heap at 1 MB. *)
Definition sample_heap : heap := (heap_init (heap_boot ∅) 0x100000 8192).2.

Lemma sample_heap_ok : heap_ok sample_heap [mk_blk 8192 false].
Proof.
  pose proof (heap_init_spec (heap_boot ∅) 0x100000 8192 ltac:(lia) ltac:(lia) ltac:(lia)) as H.
  unfold sample_heap. destruct (heap_init (heap_boot ∅) 0x100000 8192) as [r s].
  destruct H as (_ & Hok & _). exact Hok.
Qed.

(** The same heap with its first block allocated. *)
Definition sample_heap1 : heap :=
  match kmalloc 100 sample_heap with Ok (_, s) => s | _ => sample_heap end.

Lemma sample_heap1_ok : heap_ok sample_heap1 [mk_blk 152 true; mk_blk 8040 false].
Proof.
  unfold sample_heap1.
  destruct (kmalloc_spec _ _ 100 sample_heap_ok ltac:(lia)) as
    [(l & b & r & s' & Heq & _ & _ & -> & Hok & _)|[Hall _]].
  - destruct l as [|? [|]]; [|done..]. injection Heq as <- <-. exact Hok.
  - apply Forall_inv in Hall. exfalso. apply Hall. split; [done|]. vm_compute. done.
Qed.

Lemma sample_heap1_live : live sample_heap1 0x100028.
Proof. exists [], (mk_blk 152 true), [mk_blk 8040 false]. split; [exact sample_heap1_ok|done]. Qed.

(** [krealloc] of a live pointer, past its checks. *)
Lemma krealloc_live s l b r size :
  heap_ok s (l ++ b :: r) → 0 < size < 2 ^ 63 →
  let p := payload_ptr s l in
  krealloc p size s =
    (if size <=? b_size b - 40 then ret p
     else new_ptr <- kmalloc size ;;
          if new_ptr =? 0 then ret 0
          else modify (λ s, s <| h_mem := memory_copy (h_mem s) new_ptr p (b_size b - 40) |>) ;;;
               kfree p ;;; ret new_ptr) s.
Proof.
  intros Hok Hsize p. destruct (payload_block s l b r Hok) as (Hnz & Hblk & Hvalid).
  destruct (seg_block _ _ _ _ _ (hk_seg _ _ Hok)) as (Hh & Hsb & Htl & Htr).
  pose proof (hk_wrap _ _ Hok). pose proof (hk_end _ _ Hok) as Hend. pose proof (hk_start _ _ Hok).
  rewrite total_app in Hend. simpl in Hend.
  unfold krealloc. fold p in Hnz, Hblk. rewrite (proj2 (Z.eqb_neq p 0) Hnz), (proj2 (Z.eqb_neq size 0)) by lia.
  cbv zeta. rewrite Hblk. unfold bind, get. rewrite Hvalid. cbn [negb].
  rewrite (hdr_size _ _ _ _ _ Hh). unfold HEAP_BLOCK_HEADER_SIZE. rewrite u64_small by lia. by case_match.
Qed.

(** The growing path of [krealloc]: [s1] is the heap after [kmalloc] has taken the
    block [b2]; the payload of [b] is copied to the new block and [b] is freed. *)
Lemma krealloc_move s l b r l2 b2 r2 s1 size :
  heap_ok s (l ++ b :: r) → b_alloc b = true → 0 < size < 2 ^ 63 → b_size b - 40 < size →
  l ++ b :: r = l2 ++ b2 :: r2 → fits (need size) b2 →
  heap_ok s1 (l2 ++ carve (need size) b2 ++ r2) → h_start s1 = h_start s →
  changed_in (h_mem s) (h_mem s1) (in_header (h_start s) (l2 ++ carve (need size) b2 ++ r2)) →
  let p := payload_ptr s l in
  let q := payload_ptr s l2 in
  q ≠ 0 ∧
  ∃ s' l' r', l2 ++ carve (need size) b2 ++ r2 = l' ++ b :: r' ∧ total l' = total l ∧
    kfree p (s1 <| h_mem := memory_copy (h_mem s1) q p (b_size b - 40) |>) = Ok ((), s') ∧
    heap_ok s' (coalesce l' b r') ∧ h_start s' = h_start s ∧
    (∀ x, q ≤ x < q + size → in_payload (h_start s) (coalesce l' b r') x) ∧
    (∀ i, 0 ≤ i < b_size b - 40 → rd8 (h_mem s') (q + i) = rd8 (h_mem s) (p + i)) ∧
    (∀ x, in_payload (h_start s) (l ++ b :: r) x → rd8 (h_mem s') x = rd8 (h_mem s) x).
Proof.
  intros Hok Hb Hsize Hgt Heq [Hfree Hfit] Hok1 Hst C p q.
  destruct (survives l b r l2 b2 r2 (need size) Heq Hb Hfree) as (l' & r' & Heq' & Htl').
  destruct (need_size size Hsize) as [_ Hn]. set (bs1 := l2 ++ carve (need size) b2 ++ r2) in *.
  pose proof (heap_ok_sizes s1 _ Hok1) as Hz1. pose proof (heap_ok_sizes s _ Hok) as Hz.
  destruct (seg_block _ _ _ _ _ (hk_seg _ _ Hok)) as (_ & Hsb & Htl & _). pose proof (hk_start _ _ Hok).
  assert (0 ≤ total l2) as Htl2.
  { rewrite Heq in Hz. apply Forall_app in Hz as [Hz _]. by apply length_le_total in Hz as [_ ?]. }
  assert (0 < p ∧ 0 < q) as [Hp0 Hq0] by (unfold p, q, payload_ptr; lia).
  assert (∀ x, q ≤ x < q + size → in_payload (h_start s) bs1 x) as Hq.
  { intros x Hx. unfold q, payload_ptr in Hx. apply in_payload_app. right. apply in_payload_app. left.
    unfold carve. case_if; simpl; left; split; [done|lia|done|lia]. }
  assert (∀ x, q ≤ x < q + size → ¬ in_payload (h_start s) (l ++ b :: r) x) as Hq'.
  { intros x Hx Hp. rewrite Heq in Hp, Hz. unfold q, payload_ptr in Hx.
    apply payload_not_header_free in Hp; [lia|done|done]. }
  assert (∀ x, p ≤ x < p + (b_size b - 40) → in_payload (h_start s) (l ++ b :: r) x) as Hp.
  { intros x Hx. apply in_payload_block; [done|]. unfold p, payload_ptr in Hx. lia. }
  set (m2 := memory_copy (h_mem s1) q p (b_size b - 40)).
  assert (heap_ok (s1 <| h_mem := m2 |>) bs1) as Hok2.
  { apply heap_ok_set_mem; [done|]. intros x Hx. unfold m2. rewrite rd8_memory_copy by lia.
    rewrite decide_False; [done|]. intros (_ & _ & Hx'). apply Hx. rewrite Hst. apply Hq. lia. }
  rewrite Heq' in Hok2. destruct (kfree_spec _ l' b r' Hok2 Hb) as (s3 & Hk & Hok3 & Hst3 & C3).
  replace (payload_ptr (s1 <| h_mem := m2 |>) l') with p in Hk
    by (unfold payload_ptr, p; cbn; by rewrite Hst, Htl').
  change (in_header (h_start (s1 <| h_mem := m2 |>))) with (in_header (h_start s1)) in C3.
  rewrite Hst, <- Heq' in C3.
  assert (∀ x, in_payload (h_start s) bs1 x → rd8 (h_mem s3) x = rd8 m2 x) as Hm3.
  { intros x Hx. by apply (changed_payload _ _ _ _ _ C3 Hz1). }
  assert (∀ x, in_payload (h_start s) (l ++ b :: r) x →
    in_payload (h_start s) bs1 x ∧ rd8 (h_mem s1) x = rd8 (h_mem s) x) as Hm1.
  { intros x Hx. assert (in_payload (h_start s) bs1 x) by (apply in_payload_carve; [done|]; by rewrite <- Heq).
    split; [done|]. by apply (changed_payload _ _ _ _ _ C Hz1). }
  split; [lia|]. exists s3, l', r'. split_and!; [done..|by rewrite Hst3| | |].
  - intros x Hx. apply in_payload_coalesce; [rewrite <- Heq'; by apply Hq|].
    rewrite Htl'. destruct (decide (h_start s + total l ≤ x < h_start s + total l + 40)) as [Hhd|].
    + exfalso. apply (payload_not_header _ _ _ Hz1 (Hq x Hx)). rewrite Heq', in_header_app, Htl'. right. by left.
    + destruct (decide (p ≤ x < p + (b_size b - 40))) as [Hx'|Hx']; [by destruct (Hq' x Hx); apply Hp|].
      unfold p, payload_ptr in Hx'. lia.
  - intros i Hi. rewrite Hm3 by (apply Hq; lia). unfold m2.
    rewrite rd8_memory_copy, decide_True by lia. replace (p + (q + i - q)) with (p + i) by lia.
    apply Hm1, Hp. lia.
  - intros x Hx. destruct (Hm1 x Hx) as [Hx1 <-]. rewrite Hm3 by done. unfold m2.
    rewrite rd8_memory_copy by lia. rewrite decide_False; [done|].
    intros (_ & _ & Hx'). apply (Hq' x); [lia|done].
Qed.

(** [krealloc] of a live pointer to a larger size, on the abstract block list. *)
Lemma krealloc_grow s l b r size :
  heap_ok s (l ++ b :: r) → b_alloc b = true → 0 < size < 2 ^ 63 → b_size b - 40 < size →
  let p := payload_ptr s l in
  (Forall (λ c, ¬ fits (need size) c) (l ++ b :: r) ∧ krealloc p size s = Ok (0, s)) ∨
  ∃ l2 b2 r2 l' r' s', l ++ b :: r = l2 ++ b2 :: r2 ∧ fits (need size) b2 ∧
    Forall (λ c, ¬ fits (need size) c) l2 ∧
    l2 ++ carve (need size) b2 ++ r2 = l' ++ b :: r' ∧ total l' = total l ∧
    let q := payload_ptr s l2 in
    q ≠ 0 ∧ krealloc p size s = Ok (q, s') ∧
    heap_ok s' (coalesce l' b r') ∧ h_start s' = h_start s ∧
    (∀ x, q ≤ x < q + size → in_payload (h_start s) (coalesce l' b r') x) ∧
    (∀ i, 0 ≤ i < b_size b - 40 → rd8 (h_mem s') (q + i) = rd8 (h_mem s) (p + i)) ∧
    (∀ x, in_payload (h_start s) (l ++ b :: r) x → rd8 (h_mem s') x = rd8 (h_mem s) x).
Proof.
  intros Hok Hb Hsize Hgt p. pose proof (krealloc_live s l b r size Hok Hsize) as Erun.
  cbv zeta in Erun. fold p in Erun. rewrite (proj2 (Z.leb_gt _ _) Hgt) in Erun. rewrite Erun. unfold bind.
  destruct (kmalloc_spec s _ size Hok Hsize) as
    [(l2 & b2 & r2 & s1 & Heq & Hfit & Hno & -> & Hok1 & Hst & C)|[Hno ->]]; [right|by left].
  destruct (krealloc_move s l b r l2 b2 r2 s1 size) as (Hq & s' & l' & r' & Heq' & Htl' & Hk & Hres); [done..|].
  exists l2, b2, r2, l', r', s'. fold (payload_ptr s l2).
  rewrite (proj2 (Z.eqb_neq _ 0) Hq). unfold modify. cbv beta iota zeta. fold p in Hk. rewrite Hk.
  by split_and!; try apply Hres.
Qed.

(** ** Sequences of heap operations

    A step is an allocation, a reallocation or the release of a live pointer, or a
    client's write inside the payloads.  Sizes are below 2^63: above that the
    rounding of [kmalloc] wraps ([heap_size_overflow]). *)
Inductive heap_step : heap → heap → Prop :=
  | step_kmalloc s size p s' :
      0 ≤ size < 2 ^ 63 → kmalloc size s = Ok (p, s') → heap_step s s'
  | step_kcalloc s count size p s' :
      0 ≤ count * size < 2 ^ 63 → kcalloc count size s = Ok (p, s') → heap_step s s'
  | step_krealloc s p size q s' :
      p = 0 ∨ live s p → 0 ≤ size < 2 ^ 63 → krealloc p size s = Ok (q, s') → heap_step s s'
  | step_kfree s p s' :
      p = 0 ∨ live s p → kfree p s = Ok ((), s') → heap_step s s'
  | step_payload s bs m :
      heap_ok s bs → changed_in (h_mem s) m (in_payload (h_start s) bs) →
      heap_step s (s <| h_mem := m |>).

(** The heap returns, consistent and over the same region. *)
Definition keeps_heap {A} (s : heap) (run : outcome (A * heap)) : Prop :=
  ∃ a s', run = Ok (a, s') ∧ h_start s' = h_start s ∧ h_size s' = h_size s ∧ ∃ bs, heap_ok s' bs.

Lemma kmalloc_keeps s bs size : heap_ok s bs → 0 ≤ size < 2 ^ 63 → keeps_heap s (kmalloc size s).
Proof.
  intros Hok Hsize. destruct (decide (size = 0)) as [->|Hnz]; [exists 0, s; by eauto|].
  destruct (kmalloc_spec s bs size Hok ltac:(lia)) as
    [(l & b & r & s1 & -> & _ & _ & Hk & Hok1 & Hst & _)|[_ Hk]]; rewrite Hk; [|by exists 0, s; eauto].
  eexists _, s1. split_and!; [done|done| |by eauto].
  rewrite (hk_size _ _ Hok1), (hk_size _ _ Hok). by rewrite !total_app, carve_total.
Qed.

Lemma kcalloc_keeps s bs count size :
  heap_ok s bs → 0 ≤ count * size < 2 ^ 63 → keeps_heap s (kcalloc count size s).
Proof.
  intros Hok Hsize. unfold kcalloc. rewrite u64_small by lia. set (n := count * size) in *. unfold bind.
  destruct (decide (n = 0)) as [->|Hnz]; [exists 0, s; by eauto|].
  destruct (kmalloc_spec s bs n Hok ltac:(lia)) as
    [(l & b & r & s1 & -> & [Hfree Hfit] & _ & -> & Hok1 & Hst & _)|[_ ->]]; [|by exists 0, s; eauto].
  destruct (need_size n ltac:(lia)) as [_ Hn]. unfold when, modify, ret.
  destruct (_ =? 0); cbn [negb]; (eexists _, _; split; [done|]); split_and!;
    [done| | |done| |]; cbn; try (rewrite (hk_size _ _ Hok1), (hk_size _ _ Hok); by rewrite !total_app, carve_total);
    [by eauto|].
  eexists. apply heap_ok_set_mem; [done|]. intros x Hx. rewrite rd8_memory_set by lia.
  rewrite decide_False; [done|]. intros (_ & Hx'). apply Hx. rewrite Hst.
  apply in_payload_app. right. apply in_payload_app. left.
  unfold carve. case_if; simpl; left; split; [done|lia|done|lia].
Qed.

Lemma kfree_keeps s bs p : heap_ok s bs → p = 0 ∨ live s p → keeps_heap s (kfree p s).
Proof.
  intros Hok0 [->|(l & b & r & Hok & Hb & ->)]; [exists (), s; by eauto|].
  destruct (kfree_spec s l b r Hok Hb) as (s1 & -> & Hok1 & Hst & _).
  exists (), s1. split_and!; [done|done| |by eauto].
  by rewrite (hk_size _ _ Hok1), (hk_size _ _ Hok), coalesce_total.
Qed.

Lemma krealloc_keeps s bs p size :
  heap_ok s bs → p = 0 ∨ live s p → 0 ≤ size < 2 ^ 63 → keeps_heap s (krealloc p size s).
Proof.
  intros Hok0 Hp Hsize. destruct (decide (p = 0)) as [->|Hnz]; [by apply (kmalloc_keeps s bs)|].
  destruct (decide (size = 0)) as [->|Hsz].
  { unfold krealloc. rewrite (proj2 (Z.eqb_neq p 0) Hnz). unfold bind. cbn [Z.eqb].
    destruct (kfree_keeps s bs p Hok0 Hp) as ([] & s1 & -> & Hs1). by exists 0, s1. }
  destruct Hp as [|(l & b & r & Hok & Hb & ->)]; [done|].
  destruct (Z.le_gt_cases size (b_size b - 40)) as [Hle|Hgt].
  { rewrite (krealloc_live s l b r) by (done || lia). rewrite (proj2 (Z.leb_le _ _) Hle). by eexists _, s; eauto. }
  destruct (krealloc_grow s l b r size Hok Hb ltac:(lia) Hgt) as
    [[_ ->]|(l2 & b2 & r2 & l' & r' & s' & Heq & _ & _ & Heq' & _ & _ & -> & Hok' & Hst & _)]; [by eexists _, s; eauto|].
  eexists _, s'. split_and!; [done|done| |by eauto].
  rewrite (hk_size _ _ Hok'), (hk_size _ _ Hok), coalesce_total, <- Heq', Heq.
  by rewrite !total_app, carve_total.
Qed.

Lemma heap_step_ok s s' :
  heap_step s s' → (∃ bs, heap_ok s bs) →
  h_start s' = h_start s ∧ h_size s' = h_size s ∧ ∃ bs, heap_ok s' bs.
Proof.
  intros Hstep [bs0 Hok0].
  destruct Hstep as [s size p s' Hsize Hrun|s c size p s' Hsize Hrun|s p size q s' Hp Hsize Hrun|s p s' Hp Hrun|s bs m Hok Hm].
  - destruct (kmalloc_keeps s bs0 size Hok0 Hsize) as (a & s1 & Hk & ?). rewrite Hk in Hrun. by simplify_eq.
  - destruct (kcalloc_keeps s bs0 c size Hok0 Hsize) as (a & s1 & Hk & ?). rewrite Hk in Hrun. by simplify_eq.
  - destruct (krealloc_keeps s bs0 p size Hok0 Hp Hsize) as (a & s1 & Hk & ?). rewrite Hk in Hrun. by simplify_eq.
  - destruct (kfree_keeps s bs0 p Hok0 Hp) as (a & s1 & Hk & ?). rewrite Hk in Hrun. by simplify_eq.
  - split_and!; [done..|]. exists bs. by apply heap_ok_set_mem.
Qed.

(** ** Theorems *)

(** C20: [kmalloc] is the first-fit allocator on the abstract block list: it takes
    the first free block large enough for the rounded size and a header, splits
    off the rest when it exceeds the minimum block, and returns NULL, changing
    nothing, exactly when no block fits.  The payload it returns holds [size] bytes,
    none of them in a payload handed out before, whose bytes it does not touch;
    the list stays consistent and fully coalesced. *)
Theorem kmalloc_first_fit s bs size :
  heap_ok s bs → 0 < size < 2 ^ 63 →
  (∃ l b r s', bs = l ++ b :: r ∧ fits (need size) b ∧ Forall (λ c, ¬ fits (need size) c) l ∧
     kmalloc size s = Ok (payload_ptr s l, s') ∧
     heap_ok s' (l ++ carve (need size) b ++ r) ∧
     (∀ x, payload_ptr s l ≤ x < payload_ptr s l + size →
        in_payload (h_start s) (l ++ carve (need size) b ++ r) x ∧ ¬ in_payload (h_start s) bs x) ∧
     (∀ x, in_payload (h_start s) bs x → rd8 (h_mem s') x = rd8 (h_mem s) x)) ∨
  (Forall (λ c, ¬ fits (need size) c) bs ∧ kmalloc size s = Ok (0, s)).
Proof.
  intros Hok Hsize.
  destruct (kmalloc_spec s bs size Hok Hsize) as [(l & b & r & s' & -> & Hfit & Hl & Hk & Hok' & Hst & C)|];
    [left|by right].
  exists l, b, r, s'. pose proof (heap_ok_sizes s' _ Hok') as Hz. destruct Hfit as [Hfree Hle].
  destruct (need_size size Hsize) as [_ Hn].
  split_and!; [done|by split|done|done|done| |].
  - intros x Hx. unfold payload_ptr in Hx. split.
    + apply in_payload_app. right. apply in_payload_app. left.
      unfold carve. case_if; simpl; left; split; [done|lia|done|lia].
    + intros Hp. apply (payload_not_header_free _ l b r x (heap_ok_sizes s _ Hok) Hfree) in Hp. lia.
  - intros x Hx. apply (changed_payload _ _ (h_start s) _ x C Hz). by apply in_payload_carve.
Qed.

Lemma kmalloc_first_fit_witness : ∃ p s', kmalloc 100 sample_heap = Ok (p, s') ∧ 0 ≤ p.
Proof.
  destruct (kmalloc_first_fit sample_heap _ 100 sample_heap_ok ltac:(lia)) as
    [(l & b & r & s' & E & _ & _ & Hk & _)|[_ Hk]]; eexists _, _; (split; [exact Hk|]); [|lia].
  destruct l as [|? [|]]; [|done..]. vm_compute. done.
Defined.

(** C21: [kfree] of a live pointer marks its block free and merges it with every
    free neighbour on both sides; the loops terminate, the list stays consistent
    with no two free neighbours, and the payload bytes of all other allocated
    blocks are unchanged. *)
Theorem kfree_coalesces s l b r :
  heap_ok s (l ++ b :: r) → b_alloc b = true →
  ∃ s', kfree (payload_ptr s l) s = Ok ((), s') ∧ heap_ok s' (coalesce l b r) ∧
    h_used s' = h_used s - b_size b ∧ h_free s' = h_free s + b_size b ∧
    ∀ x, in_payload (h_start s) (l ++ b :: r) x → rd8 (h_mem s') x = rd8 (h_mem s) x.
Proof.
  intros Hok Hb. destruct (kfree_spec s l b r Hok Hb) as (s' & Hk & Hok' & _ & C). exists s'.
  destruct (coalesce_total_if l b r) as [Hu Hf].
  split_and!; [done|done| | |].
  - rewrite (hk_used _ _ Hok'), (hk_used _ _ Hok), Hu, total_if_app. simpl. rewrite Hb. simpl. lia.
  - rewrite (hk_free _ _ Hok'), (hk_free _ _ Hok), Hf, total_if_app. simpl. rewrite Hb. simpl. lia.
  - intros x Hx. by apply (changed_payload _ _ (h_start s) _ x C (heap_ok_sizes s _ Hok)).
Qed.

Lemma kfree_coalesces_witness :
  ∃ s', kfree 0x100028 sample_heap1 = Ok ((), s') ∧ heap_ok s' [mk_blk 8192 false].
Proof.
  destruct (kfree_coalesces sample_heap1 [] (mk_blk 152 true) [mk_blk 8040 false]
    sample_heap1_ok eq_refl) as (s' & Hk & Hok & _). exists s'. split; [exact Hk|exact Hok].
Defined.

(** freeing what was just allocated restores the abstract block list and the
    byte counters. *)
Theorem kmalloc_kfree_roundtrip s bs size p s' :
  heap_ok s bs → 0 < size < 2 ^ 63 → kmalloc size s = Ok (p, s') → p ≠ 0 →
  ∃ s'', kfree p s' = Ok ((), s'') ∧ heap_ok s'' bs ∧ h_used s'' = h_used s ∧ h_free s'' = h_free s.
Proof.
  intros Hok Hsize Hrun Hp.
  destruct (kmalloc_spec s bs size Hok Hsize) as [(l & b & r & s1 & -> & Hfit & _ & Hk & Hok1 & Hst & _)|[_ Hk]];
    rewrite Hk in Hrun; simplify_eq.
  destruct Hfit as [Hfree _].
  destruct (coalesce_carve l b r (need size) (hk_coalesced _ _ Hok) Hfree) as (c & r' & Hc & Hal & Hback).
  rewrite Hc in Hok1. destruct (kfree_spec s' l c r' Hok1 Hal) as (s2 & Hk2 & Hok2 & _).
  rewrite Hback in Hok2. exists s2. unfold payload_ptr in Hk2. rewrite Hst in Hk2.
  split_and!; [done|done| |].
  - by rewrite (hk_used _ _ Hok2), (hk_used _ _ Hok).
  - by rewrite (hk_free _ _ Hok2), (hk_free _ _ Hok).
Qed.

Lemma kmalloc_kfree_roundtrip_witness :
  ∃ s'', kfree 0x100028 sample_heap1 = Ok ((), s'') ∧ h_used s'' = 0.
Proof.
  destruct (kmalloc_kfree_roundtrip sample_heap _ 100 0x100028 sample_heap1 sample_heap_ok ltac:(lia))
    as (s'' & Hk & _ & Hu & _); [vm_compute; reflexivity|lia|].
  exists s''. split; [exact Hk|]. rewrite Hu. reflexivity.
Defined.

(** C2: from any consistent heap, every sequence of [kmalloc], [kcalloc] and [krealloc]
    calls for less than 2^63 bytes (0 included), of releases of live or NULL pointers
    and of client writes into payloads keeps the heap consistent: the
    blocks tile the region, no two free blocks are adjacent, used and free bytes
    add up to the heap size, and the next such call returns.  Larger sizes wrap and are
    excluded: [heap_size_overflow] shows what they do. *)
Theorem heap_reachable_ok s s' :
  (∃ bs, heap_ok s bs) → rtc heap_step s s' →
  (∃ bs, heap_ok s' bs ∧ h_used s' + h_free s' = h_size s) ∧
  (∀ size, 0 ≤ size < 2 ^ 63 → ∃ p s'', kmalloc size s' = Ok (p, s'')) ∧
  (∀ count size, 0 ≤ count * size < 2 ^ 63 → ∃ p s'', kcalloc count size s' = Ok (p, s'')) ∧
  (∀ p size, p = 0 ∨ live s' p → 0 ≤ size < 2 ^ 63 → ∃ q s'', krealloc p size s' = Ok (q, s'')) ∧
  (∀ p, p = 0 ∨ live s' p → ∃ s'', kfree p s' = Ok ((), s'')).
Proof.
  intros Hok Htrace.
  assert (h_size s' = h_size s ∧ ∃ bs, heap_ok s' bs) as (Hsize & bs & Hok').
  { revert s' Htrace. apply (rtc_ind_r (λ s', h_size s' = h_size s ∧ ∃ bs, heap_ok s' bs)); [done|].
    intros s1 s2 _ Hstep (Hs & Hok1). destruct (heap_step_ok s1 s2 Hstep Hok1) as (_ & Hs2 & Hok2). split; [congruence|done]. }
  split_and!.
  - exists bs. split; [done|]. rewrite <- Hsize, (hk_used _ _ Hok'), (hk_free _ _ Hok'), (hk_size _ _ Hok').
    symmetry. apply total_split.
  - intros size Hs. destruct (kmalloc_keeps s' bs size Hok' Hs) as (p & s1 & Hk & _). eauto.
  - intros count size Hs. destruct (kcalloc_keeps s' bs count size Hok' Hs) as (p & s1 & Hk & _). eauto.
  - intros p size Hp Hs. destruct (krealloc_keeps s' bs p size Hok' Hp Hs) as (q & s1 & Hk & _). eauto.
  - intros p Hp. destruct (kfree_keeps s' bs p Hok' Hp) as ([] & s1 & Hk & _). eauto.
Qed.

Lemma heap_reachable_ok_witness : ∃ p s'', kmalloc 4000 sample_heap1 = Ok (p, s'').
Proof.
  apply (heap_reachable_ok sample_heap sample_heap1); [eexists; exact sample_heap_ok| |lia].
  apply rtc_once, (step_kmalloc _ 100 0x100028); [lia|]. vm_compute. reflexivity.
Defined.

(** C35: [krealloc] of a live pointer, [size] bytes below 2^63, on every path.  Size 0
    frees the block.  A size that fits the block returns the pointer and changes
    nothing.  A larger one returns NULL, changing nothing and keeping the old block,
    exactly when no free block is large enough; otherwise it takes the first one that
    is, the bytes of the old payload are the first bytes of the new one, and the old
    block is freed: the block list is the one after the allocation with the old block
    merged into its free neighbours.  No byte of another allocated block changes. *)
Theorem krealloc_correct s l b r size :
  heap_ok s (l ++ b :: r) → b_alloc b = true → 0 ≤ size < 2 ^ 63 →
  let p := payload_ptr s l in
  (size = 0 → ∃ s', krealloc p size s = Ok (0, s') ∧ kfree p s = Ok ((), s') ∧ heap_ok s' (coalesce l b r)) ∧
  (0 < size ≤ b_size b - 40 → krealloc p size s = Ok (p, s)) ∧
  (0 < size → b_size b - 40 < size → Forall (λ c, ¬ fits (need size) c) (l ++ b :: r) →
     krealloc p size s = Ok (0, s)) ∧
  (0 < size → b_size b - 40 < size → Exists (fits (need size)) (l ++ b :: r) →
     ∃ l2 b2 r2 l' r' s', l ++ b :: r = l2 ++ b2 :: r2 ∧ fits (need size) b2 ∧
       Forall (λ c, ¬ fits (need size) c) l2 ∧
       l2 ++ carve (need size) b2 ++ r2 = l' ++ b :: r' ∧ total l' = total l ∧
       let q := payload_ptr s l2 in
       q ≠ 0 ∧ krealloc p size s = Ok (q, s') ∧ heap_ok s' (coalesce l' b r') ∧
       (∀ x, q ≤ x < q + size → in_payload (h_start s) (coalesce l' b r') x) ∧
       (∀ i, 0 ≤ i < b_size b - 40 → rd8 (h_mem s') (q + i) = rd8 (h_mem s) (p + i)) ∧
       (∀ x, in_payload (h_start s) (l ++ b :: r) x → rd8 (h_mem s') x = rd8 (h_mem s) x)).
Proof.
  intros Hok Hb Hsize p. split_and!.
  - intros ->. destruct (payload_block s l b r Hok) as (Hnz & _). fold p in Hnz.
    destruct (kfree_spec s l b r Hok Hb) as (s' & Hk & Hok' & _). fold p in Hk. exists s'.
    unfold krealloc, bind. rewrite (proj2 (Z.eqb_neq p 0) Hnz). cbn [Z.eqb]. by rewrite Hk.
  - intros Hle. pose proof (krealloc_live s l b r size Hok ltac:(lia)) as E. cbv zeta in E.
    by rewrite (proj2 (Z.leb_le _ _) (proj2 Hle)) in E.
  - intros Hpos Hgt Hno. destruct (krealloc_grow s l b r size Hok Hb ltac:(lia) Hgt) as
      [[_ ?]|(l2 & b2 & r2 & _ & _ & _ & Heq & Hfit & _)]; [done|].
    rewrite Heq in Hno. apply Forall_app in Hno as [_ [? _]%Forall_cons]. done.
  - intros Hpos Hgt Hex. destruct (krealloc_grow s l b r size Hok Hb ltac:(lia) Hgt) as
      [[Hno _]|(l2 & b2 & r2 & l' & r' & s' & ? & ? & ? & ? & ? & ? & ? & ? & _ & ?)].
    + apply Exists_exists in Hex as (c & Hc & Hfit). rewrite Forall_forall in Hno. by destruct (Hno c Hc).
    + by exists l2, b2, r2, l', r', s'.
Qed.

(** The block of 100 bytes grown to 200 moves behind itself. *)
Lemma krealloc_correct_witness :
  krealloc 0x100028 112 sample_heap1 = Ok (0x100028, sample_heap1) ∧
  ∃ q s', krealloc 0x100028 200 sample_heap1 = Ok (q, s') ∧ q ≠ 0.
Proof.
  split.
  - apply (krealloc_correct sample_heap1 [] (mk_blk 152 true) [mk_blk 8040 false] 112
      sample_heap1_ok eq_refl ltac:(lia)). cbn. lia.
  - destruct (krealloc_correct sample_heap1 [] (mk_blk 152 true) [mk_blk 8040 false] 200
      sample_heap1_ok eq_refl ltac:(lia)) as (_ & _ & _ & Hgrow).
    destruct Hgrow as (l2 & _ & _ & _ & _ & s' & _ & _ & _ & _ & _ & Hq & Hk & _);
      [lia|cbn; lia| |eexists _, s'; split; [exact Hk|exact Hq]].
    right. left. split; [done|]. vm_compute. done.
Defined.

(** Size arithmetic that wraps breaks the allocator.  A request of 2^64 - 20
    bytes is rounded and given a header modulo 2^64, 24 bytes in all, less than a
    header: the split overwrites the block's own header and the pointer returned
    is not recognised by [kfree].  A request of 2^64 - 1 bytes yields a block
    without a payload byte, and [kcalloc] of 2^63 + 1 elements of 2 bytes one of
    16 bytes. *)
Theorem heap_size_overflow :
  (∃ p s', kmalloc (2 ^ 64 - 20) sample_heap = Ok (p, s') ∧ p ≠ 0 ∧
     is_valid_block s' (p - 40) = false) ∧
  (∃ p s', kmalloc (2 ^ 64 - 1) sample_heap = Ok (p, s') ∧ p ≠ 0 ∧ blk_size (h_mem s') (p - 40) = 40) ∧
  (∃ p s', kcalloc (2 ^ 63 + 1) 2 sample_heap = Ok (p, s') ∧ p ≠ 0 ∧ blk_size (h_mem s') (p - 40) = 56).
Proof. split_and!; eexists _, _; (split; [vm_compute; reflexivity|]); split; vm_compute; done. Qed.
