(* ===== verification/SchedState.v ===== *)
(** * State shared by the process, thread and scheduler components

    The control blocks of sched/scheduler.h and the static variables of
    sched/process.c, sched/thread.c and sched/scheduler.c.  Control blocks are
    records in two stores keyed by their address: a pointer whose block has been
    freed, or NULL, is not in the store, and dereferencing it is a [Fault].
    Blocks come from an allocator with the interface [KAlloc]. *)
From S2P Require Import Prelude.
From S2P Require Import Memory.
From S2P Require Import Heap.
Local Open Scope Z_scope.

(** ** Constants *)
Definition KERN_SUCCESS : Z := 0.
Definition KERN_ERROR : Z := -1.
Definition KERN_NOMEM : Z := -2.
Definition KERN_INVALID : Z := -3.
Definition KERN_NOTFOUND : Z := -4.
Definition KERN_BUSY : Z := -6.
Definition PRIORITY_NORMAL : Z := 10.
Definition PRIORITY_LEVELS : Z := 31.
Definition TIME_SLICE_DEFAULT : Z := 20.
Definition USER_BASE : Z := 0x400000.
Definition SIZEOF_PROCESS : Z := 232.
Definition SIZEOF_THREAD : Z := 256.

Inductive process_state :=
  | PROCESS_STATE_NEW | PROCESS_STATE_READY | PROCESS_STATE_RUNNING | PROCESS_STATE_WAITING
  | PROCESS_STATE_STOPPED | PROCESS_STATE_ZOMBIE | PROCESS_STATE_TERMINATED.
#[export] Instance process_state_eq_dec : EqDecision process_state.
Proof. solve_decision. Defined.

Inductive thread_state :=
  | THREAD_STATE_NEW | THREAD_STATE_READY | THREAD_STATE_RUNNING | THREAD_STATE_BLOCKED
  | THREAD_STATE_SLEEPING | THREAD_STATE_TERMINATED.
#[export] Instance thread_state_eq_dec : EqDecision thread_state.
Proof. solve_decision. Defined.

(** ** Control blocks *)
Record process := mk_process {
  p_pid : Z; p_ppid : Z; p_name : list Z; p_state : process_state;
  p_page_directory : Z; p_heap_start : Z; p_heap_end : Z; p_stack_start : Z; p_stack_end : Z;
  p_creation_time : Z; p_cpu_time : Z; p_last_scheduled : Z;
  p_priority : Z; p_nice : Z; p_time_slice : Z; p_remaining_time : Z;
  p_main_thread : Z; p_threads : Z; p_thread_count : Z;
  p_file_table : Z; p_signal_handlers : Z;
  p_parent : Z; p_children : Z; p_next : Z; p_prev : Z
}.
#[export] Instance eta_process : Eta process := λ r,
  {| p_pid := p_pid r; p_ppid := p_ppid r; p_name := p_name r; p_state := p_state r;
     p_page_directory := p_page_directory r; p_heap_start := p_heap_start r;
     p_heap_end := p_heap_end r; p_stack_start := p_stack_start r; p_stack_end := p_stack_end r;
     p_creation_time := p_creation_time r; p_cpu_time := p_cpu_time r;
     p_last_scheduled := p_last_scheduled r; p_priority := p_priority r; p_nice := p_nice r;
     p_time_slice := p_time_slice r; p_remaining_time := p_remaining_time r;
     p_main_thread := p_main_thread r; p_threads := p_threads r;
     p_thread_count := p_thread_count r; p_file_table := p_file_table r;
     p_signal_handlers := p_signal_handlers r; p_parent := p_parent r;
     p_children := p_children r; p_next := p_next r; p_prev := p_prev r |}.

(** A process block cleared by [memset]. *)
Definition zero_process : process :=
  mk_process 0 0 [] PROCESS_STATE_NEW 0 0 0 0 0 0 0 0 0 0 0 0 0 0 0 0 0 0 0 0 0.

(** [struct cpu_state] of arch.h. *)
Record cpu_state := mk_cpu {
  rax : Z; rbx : Z; rcx : Z; rdx : Z; rsi : Z; rdi : Z; rbp : Z; rsp : Z;
  r8 : Z; r9 : Z; r10 : Z; r11 : Z; r12 : Z; r13 : Z; r14 : Z; r15 : Z;
  rip : Z; rflags : Z; cs : Z; ds : Z; es : Z; fs : Z; gs : Z; ss : Z
}.
Definition zero_cpu : cpu_state := mk_cpu 0 0 0 0 0 0 0 0 0 0 0 0 0 0 0 0 0 0 0 0 0 0 0 0.

Record thread := mk_thread {
  t_tid : Z; t_pid : Z; t_state : thread_state; t_context : cpu_state;
  t_stack_pointer : Z; t_stack_base : Z; t_stack_size : Z;
  t_priority : Z; t_time_slice : Z; t_remaining_time : Z; t_sleep_until : Z;
  t_wait_queue : Z; t_mutex_list : Z;
  t_process : Z; t_next : Z; t_sched_next : Z
}.
#[export] Instance eta_thread : Eta thread := λ r,
  {| t_tid := t_tid r; t_pid := t_pid r; t_state := t_state r; t_context := t_context r;
     t_stack_pointer := t_stack_pointer r; t_stack_base := t_stack_base r;
     t_stack_size := t_stack_size r; t_priority := t_priority r; t_time_slice := t_time_slice r;
     t_remaining_time := t_remaining_time r; t_sleep_until := t_sleep_until r;
     t_wait_queue := t_wait_queue r; t_mutex_list := t_mutex_list r;
     t_process := t_process r; t_next := t_next r; t_sched_next := t_sched_next r |}.

Definition zero_thread : thread :=
  mk_thread 0 0 THREAD_STATE_NEW zero_cpu 0 0 0 0 0 0 0 0 0 0 0 0.

Record scheduler_stats := mk_sched_stats {
  ss_context_switches : Z; ss_processes_created : Z; ss_threads_created : Z;
  ss_total_cpu_time : Z; ss_active_processes : Z; ss_active_threads : Z; ss_runnable_threads : Z
}.
#[export] Instance eta_sched_stats : Eta scheduler_stats := λ r,
  {| ss_context_switches := ss_context_switches r; ss_processes_created := ss_processes_created r;
     ss_threads_created := ss_threads_created r; ss_total_cpu_time := ss_total_cpu_time r;
     ss_active_processes := ss_active_processes r; ss_active_threads := ss_active_threads r;
     ss_runnable_threads := ss_runnable_threads r |}.

(** ** The statics *)
Record ks (A : Type) := mk_ks {
  (* process.c *)
  procs : gmap Z process;
  process_list : Z; current_process : Z; next_pid : Z; process_count : Z;
  processes_created : Z; processes_destroyed : Z;
  fake_time : Z;
  (* thread.c *)
  threads : gmap Z thread;
  thread_list : Z; current_thread : Z; next_tid : Z; thread_count : Z;
  threads_created : Z; threads_destroyed : Z;
  (* scheduler.c *)
  current_policy : Z; time_quantum : Z; scheduler_enabled : bool; preemption_enabled : bool;
  ready_queue : Z; sleeping_queue : Z; sstats : scheduler_stats;
  tick_counter : Z; last_schedule_time : Z;
  (* the raw buffers (thread stacks) and the heap *)
  buffers : mem;
  alloc : A
}.
#[global] Arguments mk_ks {A}.
#[global] Arguments procs {A}.
#[global] Arguments process_list {A}.
#[global] Arguments current_process {A}.
#[global] Arguments next_pid {A}.
#[global] Arguments process_count {A}.
#[global] Arguments processes_created {A}.
#[global] Arguments processes_destroyed {A}.
#[global] Arguments fake_time {A}.
#[global] Arguments threads {A}.
#[global] Arguments thread_list {A}.
#[global] Arguments current_thread {A}.
#[global] Arguments next_tid {A}.
#[global] Arguments thread_count {A}.
#[global] Arguments threads_created {A}.
#[global] Arguments threads_destroyed {A}.
#[global] Arguments current_policy {A}.
#[global] Arguments time_quantum {A}.
#[global] Arguments scheduler_enabled {A}.
#[global] Arguments preemption_enabled {A}.
#[global] Arguments ready_queue {A}.
#[global] Arguments sleeping_queue {A}.
#[global] Arguments sstats {A}.
#[global] Arguments tick_counter {A}.
#[global] Arguments last_schedule_time {A}.
#[global] Arguments buffers {A}.
#[global] Arguments alloc {A}.

#[export] Instance eta_ks {A} : Eta (ks A) := λ r,
  {| procs := procs r; process_list := process_list r; current_process := current_process r;
     next_pid := next_pid r; process_count := process_count r;
     processes_created := processes_created r; processes_destroyed := processes_destroyed r;
     fake_time := fake_time r; threads := threads r; thread_list := thread_list r;
     current_thread := current_thread r; next_tid := next_tid r; thread_count := thread_count r;
     threads_created := threads_created r; threads_destroyed := threads_destroyed r;
     current_policy := current_policy r; time_quantum := time_quantum r;
     scheduler_enabled := scheduler_enabled r; preemption_enabled := preemption_enabled r;
     ready_queue := ready_queue r; sleeping_queue := sleeping_queue r; sstats := sstats r;
     tick_counter := tick_counter r; last_schedule_time := last_schedule_time r;
     buffers := buffers r; alloc := alloc r |}.

(** The statics as the C initializers leave them. *)
Definition ks_boot {A} (a : A) : ks A :=
  mk_ks ∅ 0 0 1 0 0 0 0 ∅ 0 0 1 0 0 0 1 20 false false 0 0 (mk_sched_stats 0 0 0 0 0 0 0) 0 0 ∅ a.

(** Flatten the nested updates of the state (of the goal's program) that a
    straight-line piece of code leaves behind; [flat_all] those of a thread block
    too. *)
Ltac on_state f :=
  cbv beta;
  lazymatch goal with
  | |- wp ?m ?Q ?st => let st' := f st in change (wp m Q st')
  | |- ?Q ?x ?st => let st' := f st in change (Q x st')
  end.
Ltac flatten_ks x :=
  eval cbv beta iota delta [fset procs process_list current_process next_pid process_count
    processes_created processes_destroyed fake_time threads thread_list current_thread next_tid
    thread_count threads_created threads_destroyed current_policy time_quantum scheduler_enabled
    preemption_enabled ready_queue sleeping_queue sstats tick_counter last_schedule_time buffers
    alloc] in x.
Ltac flatten_all x :=
  eval cbv beta iota delta [fset procs process_list current_process next_pid process_count
    processes_created processes_destroyed fake_time threads thread_list current_thread next_tid
    thread_count threads_created threads_destroyed current_policy time_quantum scheduler_enabled
    preemption_enabled ready_queue sleeping_queue sstats tick_counter last_schedule_time buffers alloc
    zero_thread t_tid t_pid t_state t_context t_stack_pointer t_stack_base
    t_stack_size t_priority t_time_slice t_remaining_time t_sleep_until t_wait_queue t_mutex_list
    t_process t_next t_sched_next] in x.
Ltac flat := on_state flatten_ks.
Ltac flat_all := on_state flatten_all.

(** ** Access to the stores *)
Section access.
Context {A : Type}.

Definition ld_proc (p : Z) : prog (ks A) process := λ s,
  match procs s !! p with Some x => Ok (x, s) | None => Fault end.
Definition st_proc (p : Z) (x : process) : prog (ks A) () := λ s,
  match procs s !! p with Some _ => Ok ((), s <| procs := <[p := x]> (procs s) |>) | None => Fault end.
Definition upd_proc (p : Z) (f : process → process) : prog (ks A) () := x <- ld_proc p ;; st_proc p (f x).

Definition ld_thr (t : Z) : prog (ks A) thread := λ s,
  match threads s !! t with Some x => Ok (x, s) | None => Fault end.
Definition st_thr (t : Z) (x : thread) : prog (ks A) () := λ s,
  match threads s !! t with Some _ => Ok ((), s <| threads := <[t := x]> (threads s) |>) | None => Fault end.
Definition upd_thr (t : Z) (f : thread → thread) : prog (ks A) () := x <- ld_thr t ;; st_thr t (f x).

(** Running an allocator operation inside the state. *)
Definition lift_alloc {X} (m : prog A X) : prog (ks A) X := λ s,
  match m (alloc s) with
  | Ok (x, a) => Ok (x, s <| alloc := a |>)
  | Fault => Fault
  | Halted => Halted
  | Diverge => Diverge
  end.

(** [get_system_time]: the fake clock of process.c. *)
Definition get_system_time : prog (ks A) Z := λ s,
  let t := u64 (fake_time s + 1) in Ok (t, s <| fake_time := t |>).

(** *** wp rules *)
Lemma wp_ld_proc p x Q s : procs s !! p = Some x → Q x s → wp (ld_proc p) Q s.
Proof. intros H HQ. unfold wp, ld_proc. by rewrite H. Qed.

Lemma wp_upd_proc p x f Q s :
  procs s !! p = Some x → Q () (s <| procs := <[p := f x]> (procs s) |>) → wp (upd_proc p f) Q s.
Proof. intros H HQ. unfold wp, upd_proc, bind, ld_proc, st_proc. by rewrite H, H. Qed.

Lemma wp_ld_thr t x Q s : threads s !! t = Some x → Q x s → wp (ld_thr t) Q s.
Proof. intros H HQ. unfold wp, ld_thr. by rewrite H. Qed.

Lemma wp_upd_thr t x f Q s :
  threads s !! t = Some x → Q () (s <| threads := <[t := f x]> (threads s) |>) → wp (upd_thr t f) Q s.
Proof. intros H HQ. unfold wp, upd_thr, bind, ld_thr, st_thr. by rewrite H, H. Qed.

(** Updating a block that was just written. *)
Lemma wp_upd_thr_insert t x m f Q s :
  threads s = <[t := x]> m → Q () (s <| threads := <[t := f x]> m |>) → wp (upd_thr t f) Q s.
Proof.
  intros H HQ. apply (wp_upd_thr _ x); [by rewrite H, lookup_insert_eq|]. by rewrite H, insert_insert_eq.
Qed.

Lemma wp_lift_alloc {X} (m : prog A X) Q s :
  wp m (λ x a, Q x (s <| alloc := a |>)) (alloc s) → wp (lift_alloc m) Q s.
Proof. unfold wp, lift_alloc. destruct (m (alloc s)) as [[x a]| | |]; done. Qed.

Lemma wp_get_system_time Q s :
  Q (u64 (fake_time s + 1)) (s <| fake_time := u64 (fake_time s + 1) |>) → wp get_system_time Q s.
Proof. done. Qed.

Lemma wp_assoc {X Y Z'} (m : prog (ks A) X) (f : X → prog (ks A) Y) (g : Y → prog (ks A) Z') Q s :
  wp (bind m f) (λ y s', wp (g y) Q s') s → wp (bind m (λ x, bind (f x) g)) Q s.
Proof.
  unfold wp, bind. destruct (m s) as [[x s1]| | |]; [|done..]. by destruct (f x s1) as [[y s2]| | |].
Qed.

Lemma wp_when_true (m : prog (ks A) ()) Q s : wp m Q s → wp (when true m) Q s.
Proof. done. Qed.

Lemma wp_when_false (m : prog (ks A) ()) Q s : Q () s → wp (when false m) Q s.
Proof. done. Qed.
End access.

(** ** Linked lists in a store of records

    [lseg nxt m a l c]: starting at [a] and following the field [nxt], the chain
    visits exactly the addresses [l] and arrives at [c]; [linked] ends with NULL. *)
Fixpoint lseg {X} (nxt : X → Z) (m : gmap Z X) (a : Z) (l : list Z) (c : Z) : Prop :=
  match l with
  | [] => a = c
  | b :: l => a = b ∧ b ≠ 0 ∧ ∃ x, m !! b = Some x ∧ lseg nxt m (nxt x) l c
  end.

Definition linked {X} (nxt : X → Z) (m : gmap Z X) (a : Z) (l : list Z) : Prop := lseg nxt m a l 0.

Section linked.
Context {X : Type} (nxt : X → Z).
Implicit Types m : gmap Z X.

Lemma lseg_ext m m' a l c :
  (∀ b x, b ∈ l → m !! b = Some x → ∃ x', m' !! b = Some x' ∧ nxt x' = nxt x) →
  lseg nxt m a l c → lseg nxt m' a l c.
Proof.
  revert a. induction l as [|b l IH]; intros a Hm; [done|]. simpl. intros (-> & Hb & x & Hx & Hl).
  destruct (Hm b x) as (x' & Hx' & Hn); [left|done|]. split_and!; [done..|]. exists x'.
  split; [done|]. rewrite Hn. apply IH; [|done]. intros d y Hd. apply Hm. by right.
Qed.

(** A change outside the chain does not matter. *)
Lemma lseg_insert_other m a l c b x : lseg nxt m a l c → b ∉ l → lseg nxt (<[b := x]> m) a l c.
Proof.
  intros Hl Hb. apply (lseg_ext m); [|done]. intros d y Hd Hy. exists y.
  rewrite lookup_insert_ne; [done|]. by intros ->.
Qed.

Lemma lseg_delete_other m a l c b : lseg nxt m a l c → b ∉ l → lseg nxt (delete b m) a l c.
Proof.
  intros Hl Hb. apply (lseg_ext m); [|done]. intros d y Hd Hy. exists y.
  rewrite lookup_delete_ne; [done|]. by intros ->.
Qed.

(** Nor does a change of an element that keeps its link. *)
Lemma lseg_insert_keep m a l c b x x' :
  lseg nxt m a l c → m !! b = Some x → nxt x' = nxt x → lseg nxt (<[b := x']> m) a l c.
Proof.
  intros Hl Hx Hn. apply (lseg_ext m); [|done]. intros d y Hd Hy. destruct (decide (d = b)) as [->|].
  - exists x'. rewrite lookup_insert_eq. split; [done|]. congruence.
  - exists y. by rewrite lookup_insert_ne.
Qed.

Lemma lseg_app m a l r c : lseg nxt m a (l ++ r) c ↔ ∃ d, lseg nxt m a l d ∧ lseg nxt m d r c.
Proof.
  revert a. induction l as [|b l IH]; intros a; simpl.
  - split; [by eauto|]. by intros (d & -> & ?).
  - split.
    + intros (-> & Hb & x & Hx & (d & Hl & Hr)%IH). exists d. split; [|done]. by eauto.
    + intros (d & (-> & Hb & x & Hx & Hl) & Hr). split_and!; [done..|]. exists x.
      split; [done|]. apply IH. by eauto.
Qed.

Lemma lseg_inv m a l c b : lseg nxt m a l c → b ∈ l → b ≠ 0 ∧ is_Some (m !! b).
Proof.
  revert a. induction l as [|d l IH]; intros a; simpl; [set_solver|].
  intros (-> & Hc & x & Hx & Hl) [->|Hb]%elem_of_cons; [by eauto|]. by apply (IH (nxt x)).
Qed.

(** Unlinking [t]: its predecessor, or the head of the list, takes over its link. *)
Lemma linked_unlink m m' a l1 t l2 x :
  linked nxt m a (l1 ++ t :: l2) → NoDup (l1 ++ t :: l2) → m !! t = Some x →
  (∀ b z, b ≠ t → m !! b = Some z →
     ∃ z', m' !! b = Some z' ∧ nxt z' = if decide (last l1 = Some b) then nxt x else nxt z) →
  linked nxt m' (if decide (l1 = []) then nxt x else a) (l1 ++ l2).
Proof.
  unfold linked. intros (d & Hl1 & (-> & _ & x' & Hx' & Hl2))%lseg_app Hnd Hx Hm.
  assert (x' = x) as -> by congruence.
  apply NoDup_app in Hnd as (Hnd1 & Hdis & [Ht Hnd]%NoDup_cons).
  assert (lseg nxt m' (nxt x) l2 0) as Hr.
  { apply (lseg_ext m); [|done]. intros b z Hb Hz. destruct (Hm b z) as (z' & Hz' & Hn); [by intros ->|done|].
    exists z'. split; [done|]. rewrite Hn, decide_False; [done|]. intros Hl.
    apply last_Some in Hl as [l' ->]. apply (Hdis b); [|by right]. set_solver. }
  destruct l1 as [|q l1 _] using rev_ind; [exact Hr|].
  rewrite decide_False by (by destruct l1). rewrite last_snoc in Hm.
  apply lseg_app in Hl1 as (e & Hl1 & (-> & Hq0 & y & Hy & Hyt)). simpl in Hyt.
  assert (q ≠ t) as Hqt by (intros ->; apply (Hdis t); set_solver).
  apply NoDup_app in Hnd1 as (_ & Hdq & _).
  destruct (Hm q y Hqt Hy) as (y' & Hy' & Hn). rewrite decide_True in Hn by done.
  apply lseg_app. exists (nxt x). split; [|done]. apply lseg_app. exists q. split; [|simpl; split_and!; [done..|by exists y']].
  apply (lseg_ext m); [|done]. intros b z Hb Hz.
  assert (b ≠ q) by (intros ->; apply (Hdq q Hb); by left).
  destruct (Hm b z) as (z' & Hz' & Hnz); [intros ->; apply (Hdis t); [set_solver|by left]|done|].
  exists z'. rewrite Hnz, decide_False; [done|]. by intros [= ->].
Qed.

(** The chain from an address is determined by the store. *)
Lemma linked_det m a l l' : linked nxt m a l → linked nxt m a l' → l = l'.
Proof.
  unfold linked. revert a l'. induction l as [|b l IH]; intros a [|b' l']; simpl; try done.
  - by intros -> (-> & ? & _).
  - by intros (-> & ? & _) ->.
  - intros (-> & _ & x & Hx & Hl) (-> & _ & x' & Hx' & Hl'). simplify_eq. f_equal. by apply (IH (nxt x)).
Qed.
End linked.
