(* ===== verification/Process.v ===== *)
(** * Process management (sched/process.c)

    Creation, lookup, destruction and control of processes over the shared state
    of SchedState.v.  The abstract state is the list of processes, newest first,
    that the doubly linked list starting at [process_list] represents. *)
From S2P Require Import Prelude.
From S2P Require Import Memory.
From S2P Require Import Heap.
From S2P Require Import SchedState.
Local Open Scope Z_scope.

Section process.
Context {A : Type} `{KA : KAlloc A}.

Definition process_init : prog (ks A) Z :=
  modify (λ s, s <| process_list := 0 |> <| current_process := 0 |> <| next_pid := 1 |>
                 <| process_count := 0 |> <| processes_created := 0 |>
                 <| processes_destroyed := 0 |>) ;;;
  ret KERN_SUCCESS.

(** The walk of [get_process]; [fuel] bounds the length of the list. *)
Fixpoint find_process (fuel : nat) (pid proc : Z) : prog (ks A) Z :=
  match fuel with
  | O => diverge
  | S fuel =>
      if proc =? 0 then ret 0
      else
        x <- ld_proc proc ;;
        if p_pid x =? pid then ret proc else find_process fuel pid (p_next x)
  end.

(** One step more than there are process blocks: a longer walk goes round for ever. *)
Definition get_process (pid : Z) : prog (ks A) Z :=
  s <- get ;; find_process (S (size (procs s))) pid (process_list s).

Definition get_current_process : prog (ks A) Z := gets current_process.

Definition set_current_process (proc : Z) : prog (ks A) () :=
  modify (λ s, s <| current_process := proc |>) ;;;
  when (negb (proc =? 0))
    (t <- get_system_time ;;
     upd_proc proc (λ x, x <| p_state := PROCESS_STATE_RUNNING |> <| p_last_scheduled := t |>)).

Definition allocate_process_memory (proc : Z) : prog (ks A) Z :=
  upd_proc proc (λ x,
    let heap_start := USER_BASE + 0x400000 in
    let stack_start := USER_BASE + 0x40000000 in
    x <| p_heap_start := heap_start |> <| p_heap_end := heap_start |>
      <| p_stack_start := stack_start |> <| p_stack_end := stack_start + 0x100000 |>
      <| p_page_directory := 0 |>) ;;;
  ret KERN_SUCCESS.

Definition cleanup_process_memory (proc : Z) : prog (ks A) () :=
  upd_proc proc (λ x,
    (if negb (p_page_directory x =? 0) then x <| p_page_directory := 0 |> else x)
      <| p_heap_start := 0 |> <| p_heap_end := 0 |> <| p_stack_start := 0 |> <| p_stack_end := 0 |>).

Definition init_process_context (proc : Z) : prog (ks A) () := ret ().

(** [kfree] of a process block. *)
Definition free_proc (proc : Z) : prog (ks A) () :=
  lift_alloc (ka_free proc) ;;; modify (λ s, s <| procs := delete proc (procs s) |>).

(** "Find and set parent process". *)
Definition link_parent (proc parent_pid : Z) : prog (ks A) () :=
  when (negb (parent_pid =? 0))
    (parent <- get_process parent_pid ;;
     when (negb (parent =? 0))
       (upd_proc proc (λ x, x <| p_parent := parent |>) ;;;
        px <- ld_proc parent ;;
        when (p_children px =? 0) (upd_proc parent (λ x, x <| p_children := proc |>)))).

(** "Add to global process list". *)
Definition link_process (proc : Z) : prog (ks A) () :=
  s <- get ;;
  if process_list s =? 0 then modify (λ s, s <| process_list := proc |>)
  else
    upd_proc proc (λ x, x <| p_next := process_list s |>) ;;;
    upd_proc (process_list s) (λ x, x <| p_prev := proc |>) ;;;
    modify (λ s, s <| process_list := proc |>).

(** [create_process(name, parent_pid)]; [name] is the byte string without its
    terminator, [None] for NULL. *)
Definition create_process (name : option (list Z)) (parent_pid : Z) : prog (ks A) Z :=
  match name with
  | None => ret 0
  | Some name =>
      proc <- lift_alloc (ka_malloc SIZEOF_PROCESS) ;;
      if proc =? 0 then ret 0
      else
        modify (λ s, s <| procs := <[proc := zero_process]> (procs s) |>) ;;;
        s <- get ;;
        let pid := next_pid s in
        modify (λ s, s <| next_pid := u32 (pid + 1) |>) ;;;
        upd_proc proc (λ x, x <| p_pid := pid |> <| p_ppid := parent_pid |>
          <| p_name := take 63 name |> <| p_state := PROCESS_STATE_NEW |>
          <| p_priority := PRIORITY_NORMAL |> <| p_nice := 0 |>
          <| p_time_slice := TIME_SLICE_DEFAULT |> <| p_remaining_time := TIME_SLICE_DEFAULT |>) ;;;
        t <- get_system_time ;;
        upd_proc proc (λ x, x <| p_creation_time := t |> <| p_cpu_time := 0 |>
          <| p_last_scheduled := 0 |>) ;;;
        r <- allocate_process_memory proc ;;
        if negb (r =? KERN_SUCCESS) then free_proc proc ;;; ret 0
        else
          init_process_context proc ;;;
          upd_proc proc (λ x, x <| p_main_thread := 0 |> <| p_threads := 0 |>
            <| p_thread_count := 0 |> <| p_file_table := 0 |> <| p_signal_handlers := 0 |>
            <| p_parent := 0 |> <| p_children := 0 |> <| p_next := 0 |> <| p_prev := 0 |>) ;;;
          link_parent proc parent_pid ;;;
          link_process proc ;;;
          modify (λ s, s <| process_count := u32 (process_count s + 1) |>
                         <| processes_created := u64 (processes_created s + 1) |>) ;;;
          ret proc
  end.

(** "Remove from process list". *)
Definition unlink_process (proc : Z) : prog (ks A) () :=
  x <- ld_proc proc ;;
  (if negb (p_prev x =? 0) then upd_proc (p_prev x) (λ y, y <| p_next := p_next x |>)
   else modify (λ s, s <| process_list := p_next x |>)) ;;;
  x <- ld_proc proc ;;
  when (negb (p_next x =? 0)) (upd_proc (p_next x) (λ y, y <| p_prev := p_prev x |>)).

(** "Update parent's children list". *)
Definition unlink_parent (proc : Z) : prog (ks A) () :=
  x <- ld_proc proc ;;
  when (negb (p_parent x =? 0))
    (px <- ld_proc (p_parent x) ;;
     when (p_children px =? proc) (upd_proc (p_parent x) (λ y, y <| p_children := 0 |>))).

Definition destroy_process (pid : Z) : prog (ks A) Z :=
  proc <- get_process pid ;;
  if proc =? 0 then ret KERN_NOTFOUND
  else
    cur <- gets current_process ;;
    if proc =? cur then ret KERN_BUSY
    else
      upd_proc proc (λ x, x <| p_state := PROCESS_STATE_TERMINATED |>
        <| p_thread_count := 0 |> <| p_threads := 0 |> <| p_main_thread := 0 |>) ;;;
      cleanup_process_memory proc ;;;
      unlink_process proc ;;;
      unlink_parent proc ;;;
      free_proc proc ;;;
      modify (λ s, s <| process_count := u32 (process_count s - 1) |>
                     <| processes_destroyed := u64 (processes_destroyed s + 1) |>) ;;;
      ret KERN_SUCCESS.

Definition set_process_priority (pid priority : Z) : prog (ks A) Z :=
  if PRIORITY_LEVELS <=? priority then ret KERN_INVALID
  else
    proc <- get_process pid ;;
    if proc =? 0 then ret KERN_NOTFOUND
    else upd_proc proc (λ x, x <| p_priority := priority |>) ;;; ret KERN_SUCCESS.

Definition get_process_priority (pid : Z) : prog (ks A) Z :=
  proc <- get_process pid ;;
  if proc =? 0 then ret PRIORITY_LEVELS
  else x <- ld_proc proc ;; ret (p_priority x).

Definition suspend_process (pid : Z) : prog (ks A) Z :=
  proc <- get_process pid ;;
  if proc =? 0 then ret KERN_NOTFOUND
  else
    x <- ld_proc proc ;;
    if bool_decide (p_state x = PROCESS_STATE_RUNNING) || bool_decide (p_state x = PROCESS_STATE_READY)
    then upd_proc proc (λ x, x <| p_state := PROCESS_STATE_STOPPED |>) ;;; ret KERN_SUCCESS
    else ret KERN_ERROR.

Definition resume_process (pid : Z) : prog (ks A) Z :=
  proc <- get_process pid ;;
  if proc =? 0 then ret KERN_NOTFOUND
  else
    x <- ld_proc proc ;;
    if bool_decide (p_state x = PROCESS_STATE_STOPPED)
    then upd_proc proc (λ x, x <| p_state := PROCESS_STATE_READY |>) ;;; ret KERN_SUCCESS
    else ret KERN_ERROR.

Definition kill_process (pid signal : Z) : prog (ks A) Z :=
  proc <- get_process pid ;;
  if proc =? 0 then ret KERN_NOTFOUND
  else if signal =? 9 then destroy_process pid
  else ret KERN_SUCCESS.

(** [wait_process(pid, status)]: the result and what is stored in [*status]. *)
Definition wait_process (pid : Z) : prog (ks A) (Z * option Z) :=
  proc <- get_process pid ;;
  if proc =? 0 then ret (KERN_NOTFOUND, None)
  else
    x <- ld_proc proc ;;
    if bool_decide (p_state x = PROCESS_STATE_TERMINATED) || bool_decide (p_state x = PROCESS_STATE_ZOMBIE)
    then ret (KERN_SUCCESS, Some 0)
    else ret (KERN_BUSY, None).

(** [get_process_stats]: total, active, created, destroyed; the context-switch
    counter of process.c is never incremented. *)
Definition get_process_stats : prog (ks A) (Z * Z * Z * Z * Z) :=
  s <- get ;;
  ret (process_count s, process_count s, processes_created s, processes_destroyed s, 0).
End process.

(** ** The doubly linked process list

    [dls m prev a l nxt]: from address [a] the blocks [l] are linked forwards by
    [p_next], ending with [nxt], and backwards by [p_prev], starting with [prev]. *)
Fixpoint dls (m : gmap Z process) (prev a : Z) (l : list Z) (nxt : Z) : Prop :=
  match l with
  | [] => a = nxt
  | b :: l => a = b ∧ b ≠ 0 ∧ ∃ x, m !! b = Some x ∧ p_prev x = prev ∧ dls m b (p_next x) l nxt
  end.

Definition last_or (d : Z) (l : list Z) : Z := default d (last l).

(** Everything of a process block but its list links. *)
Definition core (x : process) : process :=
  x <| p_next := 0 |> <| p_prev := 0 |> <| p_children := 0 |>.

Lemma dls_ext m m' prev a l nxt :
  (∀ b x, b ∈ l → m !! b = Some x → ∃ x', m' !! b = Some x' ∧ p_next x' = p_next x ∧ p_prev x' = p_prev x) →
  dls m prev a l nxt → dls m' prev a l nxt.
Proof.
  revert prev a. induction l as [|b l IH]; intros prev a Hm; [done|]. simpl.
  intros (-> & Hb & x & Hx & Hp & Hl).
  destruct (Hm b x) as (x' & Hx' & Hn & Hp'); [left|done|]. split_and!; [done..|]. exists x'.
  split_and!; [done|congruence|]. rewrite Hn. apply IH; [|done]. intros c y Hc. apply Hm. by right.
Qed.

Lemma dls_app m prev a l r nxt :
  dls m prev a (l ++ r) nxt ↔ ∃ c, dls m prev a l c ∧ dls m (last_or prev l) c r nxt.
Proof.
  revert prev a. induction l as [|b l IH]; intros prev a.
  - simpl. unfold last_or. simpl. split; [eauto|]. by intros (c & -> & ?).
  - assert (last_or prev (b :: l) = last_or b l) as Hlast
      by (unfold last_or; rewrite last_cons; by destruct (last l)).
    rewrite Hlast. simpl. split.
    + intros (-> & Hb & x & Hx & Hp & (c & Hl & Hr)%IH). exists c. split; [|done]. eauto 10.
    + intros (c & (-> & Hb & x & Hx & Hp & Hl) & Hr). split_and!; [done..|]. exists x.
      split_and!; [done..|]. apply IH. eauto.
Qed.

Lemma dls_lookup m prev a l nxt b : dls m prev a l nxt → b ∈ l → b ≠ 0 ∧ is_Some (m !! b).
Proof.
  revert prev a. induction l as [|c l IH]; intros prev a; simpl; [set_solver|].
  intros (-> & Hc & x & Hx & _ & Hl) [->|Hb]%elem_of_cons; [by eauto|]. by apply (IH c (p_next x)).
Qed.

(** Redirecting the link out of a segment, and the link into it. *)
Lemma dls_set_next m prev a l q c c' x :
  dls m prev a (l ++ [q]) c → NoDup (l ++ [q]) → m !! q = Some x →
  dls (<[q := x <| p_next := c' |>]> m) prev a (l ++ [q]) c'.
Proof.
  intros (d & Hl & (-> & Hq & y & Hy & Hp & _))%dls_app Hnd Hx. assert (y = x) as -> by congruence.
  apply NoDup_app in Hnd as (_ & Hnot & _).
  apply dls_app. exists q. split.
  - apply (dls_ext m); [|done]. intros b z Hb Hz. exists z. rewrite lookup_insert_ne; [done|].
    intros ->. apply (Hnot b Hb). by left.
  - simpl. split_and!; [done..|]. exists (x <| p_next := c' |>). by rewrite lookup_insert_eq.
Qed.

Lemma dls_set_prev m prev prev' b l nxt x :
  dls m prev b (b :: l) nxt → NoDup (b :: l) → m !! b = Some x →
  dls (<[b := x <| p_prev := prev' |>]> m) prev' b (b :: l) nxt.
Proof.
  intros (_ & Hb & y & Hy & Hp & Hl) [Hnot _]%NoDup_cons Hx. assert (y = x) as -> by congruence. split_and!; [done..|].
  exists (x <| p_prev := prev' |>). rewrite lookup_insert_eq. split_and!; [done..|].
  apply (dls_ext m); [|done]. intros c z Hc Hz. exists z. rewrite lookup_insert_ne; [done|]. by intros ->.
Qed.

Section process_proofs.
Context {A : Type} `{KA : KAlloc A}.
Implicit Types s : ks A.

(** The processes [ps], newest first, are exactly the live process blocks; PIDs
    are distinct and below the next one. *)
Record proc_inv (ps : list Z) s : Prop := {
  pi_dls : dls (procs s) 0 (process_list s) ps 0;
  pi_nodup : NoDup ps;
  pi_dom : dom (procs s) = list_to_set ps;
  pi_count : process_count s = Z.of_nat (length ps);
  pi_bound : Z.of_nat (length ps) < next_pid s;
  pi_pid : ∀ a x, procs s !! a = Some x → 1 ≤ p_pid x < next_pid s;
  pi_inj : ∀ a b x y, procs s !! a = Some x → procs s !! b = Some y → p_pid x = p_pid y → a = b;
  pi_next : next_pid s < 2 ^ 32;
  pi_alloc : ∃ L, ka_inv L (alloc s) ∧ list_to_set ps ⊆ L
}.

Lemma wp_find_process fuel pid prev a l s Q :
  dls (procs s) prev a l 0 → (length l < fuel)%nat →
  (∀ r, (r = 0 ∧ ∀ b x, b ∈ l → procs s !! b = Some x → p_pid x ≠ pid) ∨
        (r ∈ l ∧ ∃ x, procs s !! r = Some x ∧ p_pid x = pid) → Q r s) →
  wp (find_process fuel pid a) Q s.
Proof.
  revert prev a l. induction fuel as [|fuel IH]; intros prev a l Hl Hlen HQ; [lia|]. simpl.
  destruct l as [|b l]; simpl in Hl.
  { subst a. apply wp_ret, HQ. left. split; [done|]. intros. set_solver. }
  destruct Hl as (-> & Hb & x & Hx & Hp & Hl). rewrite (proj2 (Z.eqb_neq b 0) Hb).
  apply wp_bind, (wp_ld_proc _ x); [done|]. destruct (Z.eqb_spec (p_pid x) pid) as [Hpid|Hpid].
  { apply wp_ret, HQ. right. split; [by left|eauto]. }
  apply (IH b (p_next x) l); [done|simpl in Hlen; lia|]. intros r [[-> Hno]|(Hr & Hx')]; apply HQ.
  - left. split; [done|]. intros c y [->|Hc]%elem_of_cons Hy; [congruence|by eauto].
  - right. split; [by right|done].
Qed.

Lemma wp_get_process pid prev l s Q :
  dls (procs s) prev (process_list s) l 0 → (length l ≤ size (procs s))%nat →
  (∀ r, (r = 0 ∧ ∀ b x, b ∈ l → procs s !! b = Some x → p_pid x ≠ pid) ∨
        (r ∈ l ∧ ∃ x, procs s !! r = Some x ∧ p_pid x = pid) → Q r s) →
  wp (get_process pid) Q s.
Proof.
  intros Hl Hlen HQ. apply wp_bind, wp_get. apply (wp_find_process _ pid prev _ l); [done|lia|done].
Qed.

Lemma proc_inv_size ps s : proc_inv ps s → size (procs s) = length ps.
Proof.
  intros []. rewrite <- size_dom, pi_dom0. by apply size_list_to_set.
Qed.

(** The blocks other than [p] keep their core, and their links. *)
Definition keeps_core (P : Z → Prop) (m m' : gmap Z process) : Prop :=
  ∀ b, P b → core <$> m' !! b = core <$> m !! b.

Lemma keeps_core_insert (P : Z → Prop) (m : gmap Z process) b x y :
  m !! b = Some x → core y = core x → keeps_core P m (<[b := y]> m).
Proof.
  intros Hx Hc c _. destruct (decide (c = b)) as [->|].
  - rewrite lookup_insert_eq, Hx. simpl. by rewrite Hc.
  - by rewrite lookup_insert_ne.
Qed.

Lemma keeps_core_trans (P : Z → Prop) m1 m2 m3 :
  keeps_core P m1 m2 → keeps_core P m2 m3 → keeps_core P m1 m3.
Proof. intros H1 H2 b Hb. by rewrite H2, H1. Qed.

Lemma keeps_core_some (P : Z → Prop) m m' b x :
  keeps_core P m m' → P b → m !! b = Some x → ∃ x', m' !! b = Some x' ∧ core x' = core x.
Proof.
  intros H Hb Hx. specialize (H b Hb). rewrite Hx in H. destruct (m' !! b) as [y|]; [|done].
  exists y. by apply (inj Some) in H.
Qed.

Lemma link_parent_spec s p x ps ppid Q :
  dls (procs s) 0 (process_list s) ps 0 → procs s !! p = Some x → p ∉ ps →
  (length ps ≤ size (procs s))%nat →
  (∀ m q, m !! p = Some (x <| p_parent := q |>) → (q = p_parent x ∨ q ∈ ps) →
     dls m 0 (process_list s) ps 0 → dom m = dom (procs s) → keeps_core (λ b, b ≠ p) (procs s) m →
     Q () (s <| procs := m |>)) →
  wp (link_parent p ppid) Q s.
Proof.
  intros Hl Hx Hp Hlen HQ. unfold link_parent.
  assert (Q () s) as HQ0.
  { replace s with (s <| procs := procs s |>) by (by destruct s). apply (HQ _ (p_parent x)).
    - rewrite Hx. by destruct x.
    - by left.
    - done.
    - done.
    - by intros b _. }
  destruct (ppid =? 0); cbn [negb]; [done|]. apply wp_when_true, wp_bind.
  apply (wp_get_process _ 0 ps); [done..|]. intros r [[-> _]|(Hr & y & Hy & _)]; [done|].
  destruct (dls_lookup _ _ _ _ _ r Hl Hr) as [Hr0 _]. rewrite (proj2 (Z.eqb_neq r 0) Hr0).
  apply wp_when_true, wp_bind, (wp_upd_proc _ x); [done|].
  assert (r ≠ p) as Hrp by (intros ->; done).
  apply wp_bind, (wp_ld_proc _ y); [cbn; by rewrite lookup_insert_ne|].
  set (m1 := <[p := x <| p_parent := r |>]> (procs s)).
  assert (dls m1 0 (process_list s) ps 0) as Hl1.
  { apply (dls_ext (procs s)); [|done]. intros b z Hb Hz. exists z. unfold m1.
    rewrite lookup_insert_ne; [done|]. by intros <-. }
  assert (keeps_core (λ b, b ≠ p) (procs s) m1) as Hc1.
  { intros b Hb. unfold m1. by rewrite lookup_insert_ne. }
  assert (m1 !! r = Some y) as Hy1 by (unfold m1; by rewrite lookup_insert_ne).
  destruct (p_children y =? 0).
  - apply wp_when_true, (wp_upd_proc _ y); [done|].
    set (m2 := <[r := y <| p_children := p |>]> m1). change (Q () (s <| procs := m2 |>)).
    apply (HQ _ r).
    + unfold m2, m1. by rewrite lookup_insert_ne, lookup_insert_eq.
    + by right.
    + apply (dls_ext m1); [|done]. intros b z Hb Hz. unfold m2. destruct (decide (b = r)) as [->|].
      * exists (y <| p_children := p |>). rewrite lookup_insert_eq. by assert (z = y) as -> by congruence.
      * exists z. by rewrite lookup_insert_ne.
    + unfold m2, m1. rewrite !dom_insert_lookup_L; [done|by eauto|]. rewrite lookup_insert_ne by done. eauto.
    + apply (keeps_core_trans _ _ m1); [done|]. by apply (keeps_core_insert _ _ _ y).
  - apply wp_when_false. apply (HQ m1 r); try done.
    + unfold m1. by rewrite lookup_insert_eq.
    + by right.
    + unfold m1. rewrite dom_insert_lookup_L; [done|eauto].
Qed.

Lemma link_process_spec s p x ps Q :
  dls (procs s) 0 (process_list s) ps 0 → NoDup (p :: ps) → p ≠ 0 → procs s !! p = Some x →
  p_next x = 0 → p_prev x = 0 →
  (∀ m, dls m 0 p (p :: ps) 0 → dom m = dom (procs s) → keeps_core (λ _, True) (procs s) m →
     Q () (s <| procs := m |> <| process_list := p |>)) →
  wp (link_process p) Q s.
Proof.
  intros Hl Hnd Hp0 Hx Hn Hpr HQ. apply wp_bind, wp_get.
  pose proof Hnd as [Hnot Hnd']%NoDup_cons. destruct ps as [|b ps].
  - simpl in Hl. rewrite Hl. apply wp_modify.
    replace (s <| process_list := p |>) with (s <| procs := procs s |> <| process_list := p |>)
      by (by destruct s).
    apply HQ; [|done|by intros b _]. split_and!; [done..|]. by exists x.
  - pose proof Hl as (Hb' & Hb & y & Hy & Hpy & Hl'). rewrite Hb' in *. rewrite (proj2 (Z.eqb_neq b 0) Hb).
    apply wp_bind, (wp_upd_proc _ x); [done|].
    assert (b ≠ p) as Hbp by (intros ->; apply Hnot; by left).
    apply wp_bind, (wp_upd_proc _ y); [cbn; by rewrite lookup_insert_ne|]. apply wp_modify.
    set (m1 := <[p := x <| p_next := b |>]> (procs s)).
    set (m2 := <[b := y <| p_prev := p |>]> m1).
    change (Q () (s <| procs := m2 |> <| process_list := p |>)).
    assert (m1 !! b = Some y) as Hy1 by (unfold m1; by rewrite lookup_insert_ne).
    apply HQ.
    + split_and!; [done..|]. exists (x <| p_next := b |>).
      split_and!; [unfold m2, m1; by rewrite lookup_insert_ne, lookup_insert_eq|done|].
      apply (dls_set_prev _ 0); [|done|done]. apply (dls_ext (procs s)); [|done].
      intros c z Hc Hz. exists z. unfold m1. rewrite lookup_insert_ne; [done|]. by intros <-.
    + unfold m2, m1. rewrite !dom_insert_lookup_L; [done|by eauto|]. rewrite lookup_insert_ne by done. eauto.
    + apply (keeps_core_trans _ _ m1); [by apply (keeps_core_insert _ _ _ x)|].
      by apply (keeps_core_insert _ _ _ y).
Qed.

(** The block [create_process] fills in before linking it. *)
Definition fresh_process (pid ppid : Z) (name : list Z) (t : Z) : process :=
  mk_process pid ppid (take 63 name) PROCESS_STATE_NEW 0 (USER_BASE + 0x400000) (USER_BASE + 0x400000)
    (USER_BASE + 0x40000000) (USER_BASE + 0x40000000 + 0x100000) t 0 0 PRIORITY_NORMAL 0
    TIME_SLICE_DEFAULT TIME_SLICE_DEFAULT 0 0 0 0 0 0 0 0 0.

Lemma insert_process_inv ps s s' p x :
  proc_inv ps s → p ∉ ps → p ≠ 0 → next_pid s + 1 < 2 ^ 32 →
  next_pid s' = next_pid s + 1 → process_count s' = u32 (process_count s + 1) →
  dls (procs s') 0 (process_list s') (p :: ps) 0 →
  dom (procs s') = {[p]} ∪ dom (procs s) → keeps_core (λ b, b ≠ p) (procs s) (procs s') →
  procs s' !! p = Some x → p_pid x = next_pid s →
  (∃ L, ka_inv L (alloc s') ∧ list_to_set (p :: ps) ⊆ L) → proc_inv (p :: ps) s'.
Proof.
  intros Hinv Hp Hp0 Hnp Hn Hc Hl Hdom Hcore Hx Hpid Hal. destruct Hinv.
  assert (∀ b y, b ≠ p → procs s' !! b = Some y → ∃ z, procs s !! b = Some z ∧ p_pid y = p_pid z) as Hold.
  { intros b y Hb Hy. specialize (Hcore b Hb). rewrite Hy in Hcore.
    destruct (procs s !! b) as [z|]; [|done]. exists z. split; [done|].
    apply (inj Some) in Hcore. by apply (f_equal p_pid) in Hcore. }
  split; try done.
  - by apply NoDup_cons.
  - rewrite Hdom, pi_dom0. done.
  - rewrite Hc, pi_count0. simpl length. rewrite u32_small; lia.
  - simpl length. lia.
  - intros a y Ha. destruct (decide (a = p)) as [->|Hne].
    + assert (y = x) as -> by congruence. lia.
    + destruct (Hold a y Hne Ha) as (z & Hz & ->). specialize (pi_pid0 a z Hz). lia.
  - intros a b y z Ha Hb Heq. destruct (decide (a = p)) as [->|Hna], (decide (b = p)) as [->|Hnb]; [done|..].
    + assert (y = x) as -> by congruence. destruct (Hold b z Hnb Hb) as (w & Hw & Hpw).
      specialize (pi_pid0 b w Hw). lia.
    + assert (z = x) as -> by congruence. destruct (Hold a y Hna Ha) as (w & Hw & Hpw).
      specialize (pi_pid0 a w Hw). lia.
    + destruct (Hold a y Hna Ha) as (w & Hw & Hpw), (Hold b z Hnb Hb) as (v & Hv & Hpv).
      apply (pi_inj0 a b w v); [done..|congruence].
  - lia.
Qed.

Lemma create_process_spec ps s name ppid (Q : Z → ks A → Prop) :
  proc_inv ps s → next_pid s + 1 < 2 ^ 32 →
  (∀ a, proc_inv ps (s <| alloc := a |>) → Q 0 (s <| alloc := a |>)) →
  (∀ p s' q, p ≠ 0 → p ∉ ps → proc_inv (p :: ps) s' → (q = 0 ∨ q ∈ ps) →
     (∃ x, procs s' !! p = Some x ∧
        core x = core ((fresh_process (next_pid s) ppid name (u64 (fake_time s + 1))) <| p_parent := q |>)) →
     keeps_core (λ b, b ≠ p) (procs s) (procs s') → threads s' = threads s →
     current_process s' = current_process s → Q p s') →
  wp (create_process (Some name) ppid) Q s.
Proof.
  intros Hinv Hnp Hfail HQ. pose proof Hinv as [Hl Hnd Hdom Hcount Hbd Hpid Hinj Hnext (L & HL & Hsub)].
  apply wp_bind, wp_lift_alloc.
  apply (wp_mono _ _ _ _ (ka_malloc_spec L (alloc s) SIZEOF_PROCESS HL ltac:(done))).
  intros p a [[-> HL']|(Hp0 & HpL & HL')].
  { apply wp_ret, Hfail. split; try done. by exists L. }
  rewrite (proj2 (Z.eqb_neq p 0) Hp0).
  assert (p ∉ ps) as Hp by set_solver.
  assert (procs s !! p = None) as Hnone by (apply not_elem_of_dom; rewrite Hdom; set_solver).
  apply wp_bind, wp_modify. apply wp_bind, wp_get. apply wp_bind, wp_modify.
  apply wp_bind, (wp_upd_proc _ zero_process); [by cbn; rewrite lookup_insert_eq|].
  apply wp_bind, wp_get_system_time.
  apply wp_bind. eapply wp_upd_proc; [by cbn; rewrite lookup_insert_eq|].
  apply wp_bind, wp_bind. eapply wp_upd_proc; [by cbn; rewrite lookup_insert_eq|].
  apply wp_ret. cbn [Z.eqb negb KERN_SUCCESS]. apply wp_bind, wp_ret.
  apply wp_bind. eapply wp_upd_proc; [by cbn; rewrite lookup_insert_eq|].
  set (x0 := fresh_process (next_pid s) ppid name (u64 (fake_time s + 1))).
  set (m0 := <[p := x0]> (procs s)).
  match goal with |- wp _ _ ?st => assert (st = s <| alloc := a |> <| procs := m0 |>
    <| next_pid := u32 (next_pid s + 1) |> <| fake_time := u64 (fake_time s + 1) |>) as -> end.
  { cbn. rewrite !insert_insert_eq. done. }
  set (s1 := s <| alloc := a |> <| procs := m0 |> <| next_pid := u32 (next_pid s + 1) |>
    <| fake_time := u64 (fake_time s + 1) |>).
  assert (dls (procs s1) 0 (process_list s1) ps 0) as Hl1.
  { apply (dls_ext (procs s)); [|done]. intros b z Hb Hz. exists z. cbn. unfold m0.
    rewrite lookup_insert_ne; [done|]. by intros <-. }
  assert (procs s1 !! p = Some x0) as Hx0 by (cbn; unfold m0; by rewrite lookup_insert_eq).
  apply wp_bind, (link_parent_spec s1 p x0 ps); [done|done|done| |].
  { pose proof (proc_inv_size ps s Hinv). cbn. unfold m0. rewrite map_size_insert_None by done. lia. }
  intros m q Hm Hq Hlm Hdm Hcm. apply wp_bind.
  apply (link_process_spec _ p (x0 <| p_parent := q |>) ps); [done|by apply NoDup_cons|done|done|done|done|].
  intros m' Hlm' Hdm' Hcm'. apply wp_bind, wp_modify, wp_ret. cbn in Hdm, Hdm', Hcm, Hcm', Hq.
  destruct (keeps_core_some _ _ _ p _ Hcm' I Hm) as (x' & Hx' & Hcx).
  assert (keeps_core (λ b, b ≠ p) (procs s) m') as Hkc.
  { intros b Hb. rewrite Hcm' by done. rewrite Hcm by done. unfold m0. by rewrite lookup_insert_ne. }
  apply (HQ p _ q); [done..| | | |done|done|done].
  - apply (insert_process_inv ps s _ p x'); try done.
    + cbn. rewrite u32_small; [done|]. lia.
    + cbn. rewrite Hdm', Hdm. unfold m0. rewrite dom_insert_L. done.
    + by apply (f_equal p_pid) in Hcx.
    + exists ({[p]} ∪ L). split; [done|]. set_solver.
  - destruct Hq as [->|Hq]; [by left|by right].
  - exists x'. split; [done|]. by rewrite Hcx.
Qed.

Lemma last_or_snoc d l q : last_or d (l ++ [q]) = q.
Proof. unfold last_or. by rewrite last_snoc. Qed.

Lemma dls_insert_other m prev a l nxt b x :
  dls m prev a l nxt → b ∉ l → dls (<[b := x]> m) prev a l nxt.
Proof.
  intros Hl Hb. apply (dls_ext m); [|done]. intros c z Hc Hz. exists z.
  rewrite lookup_insert_ne; [done|]. by intros <-.
Qed.

(** The head of the list or the predecessor's link now skips [p]. *)
Lemma unlink_next_spec s p x l1 l2 Q :
  dls (procs s) 0 (process_list s) (l1 ++ p :: l2) 0 → NoDup (l1 ++ p :: l2) → procs s !! p = Some x →
  (∀ m hd, dls m 0 hd l1 (p_next x) → dls m p (p_next x) l2 0 → m !! p = Some x →
     dom m = dom (procs s) → keeps_core (λ _, True) (procs s) m →
     Q () (s <| procs := m |> <| process_list := hd |>)) →
  wp (if negb (p_prev x =? 0) then upd_proc (p_prev x) (λ y, y <| p_next := p_next x |>)
      else modify (λ s, s <| process_list := p_next x |>)) Q s.
Proof.
  intros Hl Hnd Hx HQ. apply dls_app in Hl as (c & Hl1 & (-> & Hp0 & y & Hy & Hpy & Hl2)).
  assert (y = x) as -> by congruence. rewrite Hpy.
  apply NoDup_app in Hnd as (Hnd1 & Hdis & [Hp2 Hnd2]%NoDup_cons).
  destruct l1 as [|q l1 _] using rev_ind.
  - unfold last_or. simpl. apply wp_modify.
    replace (s <| process_list := p_next x |>)
      with (s <| procs := procs s |> <| process_list := p_next x |>) by (by destruct s).
    apply HQ; [done..|by intros b _].
  - rewrite last_or_snoc.
    destruct (dls_lookup _ _ _ _ _ q Hl1) as [Hq0 [z Hz]]; [set_solver|].
    rewrite (proj2 (Z.eqb_neq q 0) Hq0). apply (wp_upd_proc _ z); [done|].
    set (m := <[q := z <| p_next := p_next x |>]> (procs s)).
    replace (s <| procs := m |>) with (s <| procs := m |> <| process_list := process_list s |>) by (by destruct s).
    assert (q ≠ p) by (intros ->; apply (Hdis p); set_solver).
    apply HQ.
    + by apply (dls_set_next _ _ _ _ _ p).
    + apply dls_insert_other; [done|]. intros Hq. apply (Hdis q); set_solver.
    + unfold m. by rewrite lookup_insert_ne.
    + unfold m. rewrite dom_insert_lookup_L; [done|by eauto].
    + by apply (keeps_core_insert _ _ _ z).
Qed.

Lemma unlink_process_spec s p l1 l2 Q :
  dls (procs s) 0 (process_list s) (l1 ++ p :: l2) 0 → NoDup (l1 ++ p :: l2) →
  (∀ m hd, dls m 0 hd (l1 ++ l2) 0 → dom m = dom (procs s) → keeps_core (λ _, True) (procs s) m →
     Q () (s <| procs := m |> <| process_list := hd |>)) →
  wp (unlink_process p) Q s.
Proof.
  intros Hl Hnd HQ. pose proof Hl as (c & _ & (-> & Hp0 & x & Hx & Hpx & Hl2))%dls_app.
  apply wp_bind, (wp_ld_proc _ x); [done|]. apply wp_bind.
  apply (unlink_next_spec s p x l1 l2); [done..|]. intros m hd Hm1 Hm2 Hmp Hdom Hcore.
  apply wp_bind, (wp_ld_proc _ x); [done|].
  apply NoDup_app in Hnd as (Hnd1 & Hdis & [Hp2 Hnd2]%NoDup_cons).
  destruct l2 as [|b l2]; simpl in Hm2.
  - rewrite Hm2. apply wp_when_false. rewrite Hm2 in Hm1. apply HQ; [by rewrite app_nil_r|done..].
  - pose proof Hm2 as (Hb & Hb0 & y & Hy & _). rewrite Hb in *. rewrite (proj2 (Z.eqb_neq b 0) Hb0).
    apply wp_when_true, (wp_upd_proc _ y); [done|].
    set (m' := <[b := y <| p_prev := p_prev x |>]> m).
    change (Q () (s <| procs := m' |> <| process_list := hd |>)). apply HQ.
    + apply dls_app. exists b. split.
      * apply dls_insert_other; [done|]. intros Hbl. apply (Hdis b); set_solver.
      * rewrite <- Hpx. by apply (dls_set_prev _ p).
    + unfold m'. rewrite dom_insert_lookup_L; [done|by eauto].
    + apply (keeps_core_trans _ _ m); [done|]. by apply (keeps_core_insert _ _ _ y).
Qed.

Lemma unlink_parent_spec s p x a l Q :
  dls (procs s) 0 a l 0 → procs s !! p = Some x → p_parent x = 0 ∨ is_Some (procs s !! p_parent x) →
  (∀ m, dls m 0 a l 0 → dom m = dom (procs s) → keeps_core (λ _, True) (procs s) m →
     Q () (s <| procs := m |>)) →
  wp (unlink_parent p) Q s.
Proof.
  intros Hl Hx Hpar HQ. apply wp_bind, (wp_ld_proc _ x); [done|].
  assert (Q () s) as HQ0.
  { replace s with (s <| procs := procs s |>) by (by destruct s). apply HQ; [done..|by intros b _]. }
  destruct (Z.eqb_spec (p_parent x) 0) as [E|E]; cbn [negb]; [done|].
  destruct Hpar as [?|[y Hy]]; [done|]. apply wp_when_true, wp_bind, (wp_ld_proc _ y); [done|].
  destruct (p_children y =? p); [|done]. apply wp_when_true, (wp_upd_proc _ y); [done|].
  apply HQ.
  - apply (dls_ext (procs s)); [|done]. intros b z Hb Hz. destruct (decide (b = p_parent x)) as [->|].
    + exists (y <| p_children := 0 |>). rewrite lookup_insert_eq. by assert (z = y) as -> by congruence.
    + exists z. by rewrite lookup_insert_ne.
  - rewrite dom_insert_lookup_L; [done|by eauto].
  - by apply (keeps_core_insert _ _ _ y).
Qed.

Lemma delete_process_inv s l1 p l2 m hd a L :
  proc_inv (l1 ++ p :: l2) s → dls m 0 hd (l1 ++ l2) 0 → dom m = dom (procs s) →
  keeps_core (λ b, b ≠ p) (procs s) m → ka_inv (L ∖ {[p]}) a → list_to_set (l1 ++ p :: l2) ⊆ L →
  proc_inv (l1 ++ l2) (s <| procs := delete p m |> <| process_list := hd |> <| alloc := a |>
    <| process_count := u32 (process_count s - 1) |>
    <| processes_destroyed := u64 (processes_destroyed s + 1) |>).
Proof.
  intros [] Hl Hdom Hcore HL Hsub.
  assert (∀ b y, delete p m !! b = Some y → ∃ z, procs s !! b = Some z ∧ p_pid y = p_pid z) as Hold.
  { intros b y [Hb Hy]%lookup_delete_Some. specialize (Hcore b (not_eq_sym Hb)). rewrite Hy in Hcore.
    destruct (procs s !! b) as [z|]; [|done]. exists z. split; [done|].
    apply (inj Some) in Hcore. by apply (f_equal p_pid) in Hcore. }
  apply NoDup_app in pi_nodup0 as (Hnd1 & Hdis & [Hp2 Hnd2]%NoDup_cons).
  assert (p ∉ l1 ++ l2) as Hp.
  { intros [H|H]%elem_of_app; [|done]. apply (Hdis p H). by left. }
  rewrite length_app in pi_count0, pi_bound0. simpl in pi_count0, pi_bound0.
  split; cbn; try done.
  - apply (dls_ext m); [|done]. intros b z Hb Hz. exists z. rewrite lookup_delete_ne; [done|]. by intros <-.
  - apply NoDup_app. split_and!; [done| |done]. intros b Hb Hb2. apply (Hdis b Hb). by right.
  - rewrite dom_delete_L, Hdom, pi_dom0. rewrite !list_to_set_app_L. simpl. clear -Hp. set_solver.
  - rewrite pi_count0, length_app, u32_small; lia.
  - rewrite length_app. lia.
  - intros b y Hy. destruct (Hold b y Hy) as (z & Hz & ->). by apply (pi_pid0 b).
  - intros b c y z Hy Hz Heq. destruct (Hold b y Hy) as (y' & Hy' & Hpy), (Hold c z Hz) as (z' & Hz' & Hpz).
    apply (pi_inj0 b c y' z'); [done..|congruence].
  - exists (L ∖ {[p]}). split; [done|]. rewrite !list_to_set_app_L in *. simpl in Hsub. clear -Hsub Hp. set_solver.
Qed.

(** A fault after a part that returns. *)
Lemma wp_fault {X Y} (m : prog (ks A) X) (k : X → prog (ks A) Y) s :
  wp m (λ x s', k x s' = Fault) s → bind m k s = Fault.
Proof. unfold wp, bind. by destruct (m s) as [[x s']| | |]. Qed.

(** The process [p] marked and cut off from the list, before its parent is updated. *)
Lemma unlink_marked ps s p x x1 l1 l2 Q :
  proc_inv ps s → ps = l1 ++ p :: l2 → procs s !! p = Some x →
  p_next x1 = p_next x → p_prev x1 = p_prev x → p_parent x1 = p_parent x →
  (∀ m hd x2, dls m 0 hd (l1 ++ l2) 0 → dom m = dom (procs s) → keeps_core (λ b, b ≠ p) (procs s) m →
     m !! p = Some x2 → p_parent x2 = p_parent x →
     Q () (s <| procs := <[p := x1]> (procs s) |> <| procs := m |> <| process_list := hd |>)) →
  wp (unlink_process p) Q (s <| procs := <[p := x1]> (procs s) |>).
Proof.
  intros Hinv -> Hx E1 E2 E3 HQ. set (s1 := s <| procs := <[p := x1]> (procs s) |>).
  assert (dls (procs s1) 0 (process_list s1) (l1 ++ p :: l2) 0) as Hl1.
  { apply (dls_ext (procs s)); [|apply (pi_dls _ _ Hinv)]. intros b z Hb Hz. cbn. destruct (decide (b = p)) as [->|].
    - exists x1. rewrite lookup_insert_eq. assert (z = x) as -> by congruence. done.
    - exists z. by rewrite lookup_insert_ne. }
  assert (dom (procs s1) = dom (procs s)) as Hd1 by (cbn; rewrite dom_insert_lookup_L; [done|eauto]).
  apply (unlink_process_spec s1 p l1 l2); [done|apply (pi_nodup _ _ Hinv)|]. intros m hd Hlm Hdm Hcm.
  destruct (keeps_core_some _ _ _ p x1 Hcm I) as (x2 & Hx2 & Hc2); [cbn; by rewrite lookup_insert_eq|].
  apply (HQ m hd x2); [done|by rewrite Hdm| |done|rewrite <- E3; by apply (f_equal p_parent) in Hc2].
  intros b Hb. rewrite Hcm by done. cbn. by rewrite lookup_insert_ne.
Qed.

(** Destroying a process whose parent has been destroyed. *)
Lemma destroy_orphan ps s pid p x :
  proc_inv ps s → procs s !! p = Some x → p_pid x = pid → p ≠ current_process s →
  p_parent x ≠ 0 → procs s !! p_parent x = None → destroy_process pid s = Fault.
Proof.
  intros Hinv Hx Hpid Hcur Hpar Hgone. apply wp_fault.
  apply (wp_get_process _ 0 ps); [apply Hinv|by rewrite (proc_inv_size ps s)|].
  assert (p ∈ ps) as Hp by (apply elem_of_dom_2 in Hx; rewrite (pi_dom _ _ Hinv) in Hx; set_solver).
  intros r [[-> Hno]|(Hr & y & Hy & Hpy)]; [by destruct (Hno p x Hp Hx)|].
  assert (r = p) as -> by (apply (pi_inj _ _ Hinv r p y x); congruence). assert (y = x) as -> by congruence.
  destruct (dls_lookup _ _ _ _ _ p (pi_dls _ _ Hinv) Hp) as [Hp0 _]. rewrite (proj2 (Z.eqb_neq p 0) Hp0).
  apply wp_fault, wp_gets. rewrite (proj2 (Z.eqb_neq p _)) by done.
  apply wp_fault, (wp_upd_proc _ x); [done|].
  apply wp_fault. eapply wp_upd_proc; [by cbn; rewrite lookup_insert_eq|]. cbn. rewrite insert_insert_eq.
  apply list_elem_of_split in Hp as (l1 & l2 & Hps).
  match goal with |- context [<[p := ?y]> (procs s)] => set (x1 := y) end.
  apply wp_fault. eapply (unlink_marked ps s p x x1); [done|done|done|by unfold x1; destruct (p_page_directory x =? 0)..|].
  intros m hd x2 _ Hdm _ Hx2 E2. unfold bind at 1, unlink_parent at 1, bind at 1, ld_proc at 1. cbn [procs fset].
  unfold fset. cbn [procs]. rewrite Hx2. unfold when. rewrite E2, (proj2 (Z.eqb_neq _ 0) Hpar). cbn [negb].
  unfold bind at 1, ld_proc at 1. cbn [procs].
  assert (m !! p_parent x = None) as -> by (apply not_elem_of_dom; rewrite Hdm; by apply not_elem_of_dom). done.
Qed.

Lemma destroy_process_spec ps L s pid (Q : Z → ks A → Prop) :
  proc_inv ps s → ka_inv L (alloc s) → list_to_set ps ⊆ L →
  ((∀ a x, procs s !! a = Some x → p_pid x ≠ pid) → Q KERN_NOTFOUND s) →
  (∀ x, procs s !! current_process s = Some x → p_pid x = pid → Q KERN_BUSY s) →
  (∀ a x, procs s !! a = Some x → p_pid x = pid → a ≠ current_process s →
     (p_parent x = 0 ∨ is_Some (procs s !! p_parent x)) ∧
     ∀ l1 l2 s', ps = l1 ++ a :: l2 → proc_inv (l1 ++ l2) s' → procs s' !! a = None →
       keeps_core (λ b, b ≠ a) (procs s) (procs s') → ka_inv (L ∖ {[a]}) (alloc s') →
       Q KERN_SUCCESS s') →
  wp (destroy_process pid) Q s.
Proof.
  intros Hinv HL Hsub Hnf Hbusy Hok. pose proof Hinv as [Hl Hnd Hdom Hcount Hbd Hpid Hinj Hnext _].
  apply wp_bind, (wp_get_process _ 0 ps); [done|by rewrite (proc_inv_size ps s)|].
  intros p [[-> Hno]|(Hp & x & Hx & Hpx)].
  { apply wp_ret, Hnf. intros a x Ha. apply (Hno a x); [|done].
    apply elem_of_dom_2 in Ha. rewrite Hdom in Ha. set_solver. }
  destruct (dls_lookup _ _ _ _ _ p Hl Hp) as [Hp0 _]. rewrite (proj2 (Z.eqb_neq p 0) Hp0).
  apply wp_bind, wp_gets. destruct (Z.eqb_spec p (current_process s)) as [->|Hcur].
  { apply wp_ret. by apply (Hbusy x). }
  destruct (Hok p x Hx Hpx Hcur) as [Hpar HQ]. clear Hnf Hbusy Hok.
  apply wp_bind, (wp_upd_proc _ x); [done|].
  apply wp_bind. eapply wp_upd_proc; [by cbn; rewrite lookup_insert_eq|].
  cbn. rewrite insert_insert_eq. apply list_elem_of_split in Hp as (l1 & l2 & Hps).
  match goal with |- context [<[p := ?y]> (procs s)] => set (x1 := y) end.
  apply wp_bind. eapply (unlink_marked ps s p x x1); [done|done|done|by unfold x1; destruct (p_page_directory x =? 0)..|].
  intros m hd x2 Hlm Hdm Hcm Hx2 E4. subst ps.
  apply wp_bind, (unlink_parent_spec _ p x2 hd (l1 ++ l2)); [done|done| |].
  { cbn. rewrite E4. destruct Hpar as [?|Hpar]; [by left|right].
    apply elem_of_dom. rewrite Hdm. by apply elem_of_dom. }
  intros m' Hlm' Hdm' Hcm'. cbn in Hdm', Hcm'.
  assert (keeps_core (λ b, b ≠ p) (procs s) m') as Hkc.
  { intros b Hb. rewrite Hcm' by done. by apply Hcm. }
  apply wp_bind, wp_bind, wp_lift_alloc.
  apply (wp_mono _ _ _ _ (ka_free_spec L (alloc s) p HL ltac:(set_solver))). intros _ a HL'.
  apply wp_modify, wp_bind, wp_modify, wp_ret.
  apply (HQ l1 l2); [done| | | |done].
  - change (proc_inv (l1 ++ l2) (s <| procs := delete p m' |> <| process_list := hd |> <| alloc := a |>
      <| process_count := u32 (process_count s - 1) |>
      <| processes_destroyed := u64 (processes_destroyed s + 1) |>)).
    apply (delete_process_inv s l1 p l2 m' hd a L); try done. by rewrite Hdm', Hdm.
  - cbn. by rewrite lookup_delete_eq.
  - intros b Hb. cbn. rewrite lookup_delete_ne by done. by apply Hkc.
Qed.
End process_proofs.

(** ** Sample states over the kernel heap *)
Definition sample_ks : ks heap := ks_boot sample_heap.
Definition init_name : list Z := [105; 110; 105; 116].

Lemma sample_ks_inv : proc_inv [] sample_ks.
Proof.
  split; try done; try (by intros a x ?).
  - constructor.
  - exists ∅. split; [|set_solver]. exists [mk_blk 8192 false]. split; [exact sample_heap_ok|done].
Qed.

(** After creating one process. *)
Definition sample_ks1 : ks heap :=
  match create_process (Some init_name) 0 sample_ks with Ok (_, s) => s | _ => sample_ks end.
Definition sample_proc : process := fresh_process 1 0 init_name 1.

Lemma sample_ks1_run : create_process (Some init_name) 0 sample_ks = Ok (0x100028, sample_ks1).
Proof. vm_compute. reflexivity. Qed.

Lemma sample_ks1_inv : proc_inv [0x100028] sample_ks1.
Proof.
  pose proof (create_process_spec [] sample_ks init_name 0
    (λ p s', p = 0 ∨ proc_inv [p] s') sample_ks_inv ltac:(done)) as H.
  unfold wp in H. rewrite sample_ks1_run in H.
  destruct H as [H|H]; [by left|intros; by right|done|done].
Qed.

(** ** Theorems *)
Section process_theorems.
Context {A : Type} `{KA : KAlloc A}.
Implicit Types s : ks A.


(** The list after [destroy_process], and the block given back. *)
Lemma destroy_process_lists ps L s pid :
  proc_inv ps s → ka_inv L (alloc s) → list_to_set ps ⊆ L →
  (∀ a x, procs s !! a = Some x → p_pid x = pid → p_parent x = 0 ∨ is_Some (procs s !! p_parent x)) →
  wp (destroy_process pid) (λ r s',
    (r = KERN_NOTFOUND ∧ s' = s ∧ ∀ a x, procs s !! a = Some x → p_pid x ≠ pid) ∨
    (r = KERN_BUSY ∧ s' = s ∧ ∃ x, procs s !! current_process s = Some x ∧ p_pid x = pid) ∨
    (r = KERN_SUCCESS ∧ ∃ l1 a l2, ps = l1 ++ a :: l2 ∧ proc_inv (l1 ++ l2) s' ∧
       p_pid <$> procs s !! a = Some pid ∧ procs s' !! a = None ∧
       (∀ b, b ≠ a → core <$> procs s' !! b = core <$> procs s !! b) ∧ ka_inv (L ∖ {[a]}) (alloc s'))) s.
Proof.
  intros Hinv HL Hsub Hpar. apply (destroy_process_spec ps L); [done..|by left| |].
  - intros x Hx Hpid. right; left. by eauto.
  - intros a x Hx Hpid Hcur. split; [by apply (Hpar a)|].
    intros l1 l2 s' Hps Hinv' Hnone Hkeep Ha. right; right. split; [done|].
    exists l1, a, l2. split_and!; [done..| |done|done|done]. rewrite Hx. simpl. by rewrite Hpid.
Qed.

End process_theorems.

Lemma sample_ks1_root a x : procs sample_ks1 !! a = Some x → p_parent x = 0.
Proof.
  intros Hx. assert (a = 0x100028) as ->.
  { apply elem_of_dom_2 in Hx. rewrite (pi_dom _ _ sample_ks1_inv) in Hx. set_solver. }
  vm_compute in Hx. by injection Hx as <-.
Qed.



(** Destroying a process leaves its children pointing to it: destroying a
    child afterwards dereferences the freed parent block. *)
Theorem destroy_orphan_faults :
  (create_process (Some init_name) 0 ;;; create_process (Some init_name) 1 ;;;
   destroy_process 1 ;;; destroy_process 2) sample_ks = Fault.
Proof. vm_compute. reflexivity. Qed.
