(* ===== verification/Thread.v ===== *)
(** * Thread management (sched/thread.c)

    Threads are blocks of the store [threads].  Each is on the list of its
    process, linked by [t_next], and on the global list that starts at
    [thread_list], linked by [t_sched_next]; the scheduler's ready queue uses the
    same field [t_sched_next].  [sleep], which calls the scheduler, is in
    Scheduler.v. *)
From S2P Require Import Prelude.
From S2P Require Import Memory.
From S2P Require Import Heap.
From S2P Require Import SchedState.
From S2P Require Import Process.
Import StringStubs.
Local Open Scope Z_scope.

Definition STACK_SIZE : Z := 64 * 1024.
Definition STACK_CANARY : Z := 0xDEADBEEFCAFEBABE.

(** A [struct thread **]: the head of a process's list or the [next] field of a
    thread. *)
Inductive thread_link := ThreadsOf (proc : Z) | NextOf (thread : Z).

Section thread.
Context {A : Type} `{KA : KAlloc A}.

Definition thread_init : prog (ks A) Z :=
  modify (λ s, s <| thread_list := 0 |> <| current_thread := 0 |> <| next_tid := 1 |>
                 <| thread_count := 0 |> <| threads_created := 0 |>
                 <| threads_destroyed := 0 |>) ;;;
  ret KERN_SUCCESS.

(** The canary words of a new stack. *)
Definition fill_canary (m : mem) (stack : Z) : mem :=
  for_loop (Z.to_nat (STACK_SIZE / 8)) 0 (λ i m, wr64 m (stack + 8 * i) STACK_CANARY) m.

Definition allocate_thread_stack (thread : Z) : prog (ks A) Z :=
  stack <- lift_alloc (ka_malloc STACK_SIZE) ;;
  if stack =? 0 then ret KERN_NOMEM
  else
    upd_thr thread (λ x, x <| t_stack_base := stack |> <| t_stack_size := STACK_SIZE |>
      <| t_stack_pointer := u64 (stack + STACK_SIZE - 8) |>) ;;;
    modify (λ s, s <| buffers := fill_canary (buffers s) stack |>) ;;;
    ret KERN_SUCCESS.

Definition cleanup_thread_stack (thread : Z) : prog (ks A) () :=
  x <- ld_thr thread ;;
  when (negb (t_stack_base x =? 0))
    (modify (λ s, s <| buffers := memset (buffers s) (t_stack_base x) 0 (t_stack_size x) |>) ;;;
     lift_alloc (ka_free (t_stack_base x)) ;;;
     upd_thr thread (λ x, x <| t_stack_base := 0 |> <| t_stack_size := 0 |>
       <| t_stack_pointer := 0 |>)).

(** The register file of a thread that has not run: cleared, then [rip], [rsp],
    [rbp], [rdi], the kernel segments and IF. *)
Definition start_context (entry_point arg sp : Z) : cpu_state :=
  mk_cpu 0 0 0 0 0 arg sp sp 0 0 0 0 0 0 0 0 entry_point 0x202 0x08 0x10 0x10 0x10 0x10 0x10.

Definition init_thread_context (thread entry_point arg : Z) : prog (ks A) () :=
  upd_thr thread (λ x, x <| t_context := start_context entry_point arg (t_stack_pointer x) |>).

(** "Add to parent process thread list". *)
Definition link_to_process (thread parent_proc : Z) : prog (ks A) () :=
  px <- ld_proc parent_proc ;;
  (if p_threads px =? 0 then
     upd_proc parent_proc (λ x, x <| p_threads := thread |> <| p_main_thread := thread |>)
   else
     upd_thr thread (λ x, x <| t_next := p_threads px |>) ;;;
     upd_proc parent_proc (λ x, x <| p_threads := thread |>)) ;;;
  upd_proc parent_proc (λ x, x <| p_thread_count := u32 (p_thread_count x + 1) |>).

(** "Add to global thread list". *)
Definition link_thread (thread : Z) : prog (ks A) () :=
  s <- get ;;
  if thread_list s =? 0 then modify (λ s, s <| thread_list := thread |>)
  else
    upd_thr thread (λ x, x <| t_sched_next := thread_list s |>) ;;;
    modify (λ s, s <| thread_list := thread |>).

(** [kfree] of a thread block. *)
Definition free_thr (thread : Z) : prog (ks A) () :=
  lift_alloc (ka_free thread) ;;; modify (λ s, s <| threads := delete thread (threads s) |>).

Definition create_thread (pid entry_point arg : Z) : prog (ks A) Z :=
  if entry_point =? 0 then ret 0
  else
    parent_proc <- get_process pid ;;
    if parent_proc =? 0 then ret 0
    else
      thread <- lift_alloc (ka_malloc SIZEOF_THREAD) ;;
      if thread =? 0 then ret 0
      else
        modify (λ s, s <| threads := <[thread := zero_thread]> (threads s) |>) ;;;
        s <- get ;;
        let tid := next_tid s in
        modify (λ s, s <| next_tid := u32 (tid + 1) |>) ;;;
        px <- ld_proc parent_proc ;;
        upd_thr thread (λ x, x <| t_tid := tid |> <| t_pid := pid |>
          <| t_state := THREAD_STATE_NEW |> <| t_process := parent_proc |>
          <| t_priority := p_priority px |> <| t_time_slice := TIME_SLICE_DEFAULT |>
          <| t_remaining_time := TIME_SLICE_DEFAULT |> <| t_sleep_until := 0 |>) ;;;
        r <- allocate_thread_stack thread ;;
        if negb (r =? KERN_SUCCESS) then free_thr thread ;;; ret 0
        else
          init_thread_context thread entry_point arg ;;;
          upd_thr thread (λ x, x <| t_wait_queue := 0 |> <| t_mutex_list := 0 |>
            <| t_next := 0 |> <| t_sched_next := 0 |>) ;;;
          link_to_process thread parent_proc ;;;
          link_thread thread ;;;
          modify (λ s, s <| thread_count := u32 (thread_count s + 1) |>
                         <| threads_created := u64 (threads_created s + 1) |>) ;;;
          upd_thr thread (λ x, x <| t_state := THREAD_STATE_READY |>) ;;;
          ret thread.

(** The walk of [get_thread]. *)
Fixpoint find_thread (fuel : nat) (tid thread : Z) : prog (ks A) Z :=
  match fuel with
  | O => diverge
  | S fuel =>
      if thread =? 0 then ret 0
      else
        x <- ld_thr thread ;;
        if t_tid x =? tid then ret thread else find_thread fuel tid (t_sched_next x)
  end.

(** Fuel for a walk over threads: one step more than there are blocks; a longer
    walk goes round for ever. *)
Definition thread_fuel (s : ks A) : nat := S (size (threads s)).

Definition get_thread (tid : Z) : prog (ks A) Z :=
  s <- get ;; find_thread (thread_fuel s) tid (thread_list s).

Definition get_current_thread : prog (ks A) Z := gets current_thread.

Definition set_current_thread (thread : Z) : prog (ks A) () :=
  modify (λ s, s <| current_thread := thread |>) ;;;
  when (negb (thread =? 0)) (upd_thr thread (λ x, x <| t_state := THREAD_STATE_RUNNING |>)).

(** Reading and writing through a [struct thread **]. *)
Definition ld_link (l : thread_link) : prog (ks A) Z :=
  match l with
  | ThreadsOf p => x <- ld_proc p ;; ret (p_threads x)
  | NextOf t => x <- ld_thr t ;; ret (t_next x)
  end.
Definition st_link (l : thread_link) (v : Z) : prog (ks A) () :=
  match l with
  | ThreadsOf p => upd_proc p (λ x, x <| p_threads := v |>)
  | NextOf t => upd_thr t (λ x, x <| t_next := v |>)
  end.

(** "while ( *curr)": unlink [thread] from the list [curr] points into. *)
Fixpoint unlink_from (fuel : nat) (curr : thread_link) (thread : Z) : prog (ks A) () :=
  match fuel with
  | O => diverge
  | S fuel =>
      t <- ld_link curr ;;
      if t =? 0 then ret ()
      else if t =? thread then x <- ld_thr thread ;; st_link curr (t_next x)
      else unlink_from fuel (NextOf t) thread
  end.

(** "while (curr && curr->sched_next != thread)": the element before [thread]. *)
Fixpoint find_pred (fuel : nat) (curr thread : Z) : prog (ks A) Z :=
  match fuel with
  | O => diverge
  | S fuel =>
      if curr =? 0 then ret 0
      else
        x <- ld_thr curr ;;
        if t_sched_next x =? thread then ret curr else find_pred fuel (t_sched_next x) thread
  end.

(** "Remove from parent process thread list". *)
Definition unlink_from_process (thread : Z) : prog (ks A) () :=
  x <- ld_thr thread ;;
  when (negb (t_process x =? 0))
    (s <- get ;;
     unlink_from (thread_fuel s) (ThreadsOf (t_process x)) thread ;;;
     px <- ld_proc (t_process x) ;;
     when (p_main_thread px =? thread)
       (upd_proc (t_process x) (λ y, y <| p_main_thread := p_threads y |>)) ;;;
     upd_proc (t_process x) (λ y, y <| p_thread_count := u32 (p_thread_count y - 1) |>)).

(** "Remove from global thread list". *)
Definition unlink_thread (thread : Z) : prog (ks A) () :=
  s <- get ;;
  x <- ld_thr thread ;;
  if thread_list s =? thread then modify (λ s, s <| thread_list := t_sched_next x |>)
  else
    curr <- find_pred (thread_fuel s) (thread_list s) thread ;;
    when (negb (curr =? 0)) (upd_thr curr (λ y, y <| t_sched_next := t_sched_next x |>)).

Definition destroy_thread (tid : Z) : prog (ks A) Z :=
  thread <- get_thread tid ;;
  if thread =? 0 then ret KERN_NOTFOUND
  else
    cur <- gets current_thread ;;
    if thread =? cur then ret KERN_BUSY
    else
      upd_thr thread (λ x, x <| t_state := THREAD_STATE_TERMINATED |>) ;;;
      cleanup_thread_stack thread ;;;
      unlink_from_process thread ;;;
      unlink_thread thread ;;;
      free_thr thread ;;;
      modify (λ s, s <| thread_count := u32 (thread_count s - 1) |>
                     <| threads_destroyed := u64 (threads_destroyed s + 1) |>) ;;;
      ret KERN_SUCCESS.

Definition set_thread_priority (tid priority : Z) : prog (ks A) Z :=
  if PRIORITY_LEVELS <=? priority then ret KERN_INVALID
  else
    thread <- get_thread tid ;;
    if thread =? 0 then ret KERN_NOTFOUND
    else upd_thr thread (λ x, x <| t_priority := priority |>) ;;; ret KERN_SUCCESS.

Definition get_thread_priority (tid : Z) : prog (ks A) Z :=
  thread <- get_thread tid ;;
  if thread =? 0 then ret PRIORITY_LEVELS
  else x <- ld_thr thread ;; ret (t_priority x).

Definition wakeup (thread : Z) : prog (ks A) () :=
  when (negb (thread =? 0))
    (x <- ld_thr thread ;;
     when (bool_decide (t_state x = THREAD_STATE_SLEEPING))
       (upd_thr thread (λ x, x <| t_state := THREAD_STATE_READY |> <| t_sleep_until := 0 |>))).

(** The count of runnable threads in [get_thread_stats]. *)
Fixpoint count_runnable (fuel : nat) (thread n : Z) : prog (ks A) Z :=
  match fuel with
  | O => diverge
  | S fuel =>
      if thread =? 0 then ret n
      else
        x <- ld_thr thread ;;
        let r := bool_decide (t_state x = THREAD_STATE_READY)
                 || bool_decide (t_state x = THREAD_STATE_RUNNING) in
        count_runnable fuel (t_sched_next x) (if r then u32 (n + 1) else n)
  end.

(** total, active, runnable, created, destroyed; the context-switch counter of
    thread.c is never incremented. *)
Definition get_thread_stats : prog (ks A) (Z * Z * Z * Z * Z * Z) :=
  s <- get ;;
  runnable <- count_runnable (thread_fuel s) (thread_list s) 0 ;;
  ret (thread_count s, thread_count s, runnable, threads_created s, threads_destroyed s, 0).
End thread.

(** ** Invariant *)
Section thread_proofs.
Context {A : Type} `{KA : KAlloc A}.
Implicit Types s : ks A.

(** The threads of process [p], in the order of its list. *)
Definition threads_of (m : gmap Z thread) (p : Z) (x : process) (l : list Z) : Prop :=
  linked t_next m (p_threads x) l ∧ NoDup l ∧ p_thread_count x = Z.of_nat (length l) ∧
  ∀ t, t ∈ l ↔ ∃ y, m !! t = Some y ∧ t_process y = p.

(** Process blocks, thread blocks and stacks are distinct live allocations. *)
Record owned (L : gset Z) (pm : gmap Z process) (m : gmap Z thread) : Prop := {
  ow_procs : dom pm ⊆ L;
  ow_threads : dom m ⊆ L;
  ow_disj : dom pm ## dom m;
  ow_stack : ∀ t y, m !! t = Some y → t_stack_base y ∈ L ∧ (t_stack_base y ∉ dom m) ∧ t_stack_base y ∉ dom pm;
  ow_stack_inj : ∀ t t' y y', m !! t = Some y → m !! t' = Some y' → t_stack_base y = t_stack_base y' → t = t'
}.

(** The threads [ts], newest first, are exactly the live thread blocks; each is on
    the list of its process; TIDs are distinct and below the next one. *)
Record thr_inv (ts : list Z) s : Prop := {
  ti_list : linked t_sched_next (threads s) (thread_list s) ts;
  ti_nodup : NoDup ts;
  ti_dom : dom (threads s) = list_to_set ts;
  ti_count : thread_count s = Z.of_nat (length ts);
  ti_bound : Z.of_nat (length ts) < next_tid s;
  ti_next : next_tid s < 2 ^ 32;
  ti_tid : ∀ t y, threads s !! t = Some y →
    1 ≤ t_tid y < next_tid s ∧ t_stack_base y ≠ 0 ∧ t_stack_size y = STACK_SIZE ∧
    t_process y ≠ 0 ∧ is_Some (procs s !! t_process y);
  ti_inj : ∀ t t' y y', threads s !! t = Some y → threads s !! t' = Some y' → t_tid y = t_tid y' → t = t';
  ti_proc : ∀ p x, procs s !! p = Some x → ∃ l, threads_of (threads s) p x l;
  ti_alloc : ∃ L, ka_inv L (alloc s) ∧ owned L (procs s) (threads s)
}.

Lemma thr_inv_size ts s : thr_inv ts s → size (threads s) = length ts.
Proof. intros []. rewrite <- size_dom, ti_dom0. by apply size_list_to_set. Qed.

Lemma threads_of_length m p x l : threads_of m p x l → (length l ≤ size m)%nat.
Proof.
  intros (_ & Hnd & _ & Hin). rewrite <- size_dom, <- (size_list_to_set (C:=gset Z) l) by done.
  apply subseteq_size. intros t Ht. apply elem_of_list_to_set, Hin in Ht as (y & Hy & _).
  by apply elem_of_dom.
Qed.

Lemma wp_find_thread fuel tid a l s Q :
  linked t_sched_next (threads s) a l → (length l < fuel)%nat →
  (∀ r, (r = 0 ∧ ∀ b y, b ∈ l → threads s !! b = Some y → t_tid y ≠ tid) ∨
        (r ∈ l ∧ ∃ y, threads s !! r = Some y ∧ t_tid y = tid) → Q r s) →
  wp (find_thread fuel tid a) Q s.
Proof.
  revert a l. induction fuel as [|fuel IH]; intros a l Hl Hlen HQ; [lia|]. simpl.
  destruct l as [|b l].
  { rewrite Hl. apply wp_ret, HQ. left. split; [done|]. intros. set_solver. }
  destruct Hl as (-> & Hb & x & Hx & Hl). rewrite (proj2 (Z.eqb_neq b 0) Hb).
  apply wp_bind, (wp_ld_thr _ x); [done|]. destruct (Z.eqb_spec (t_tid x) tid) as [Ht|Ht].
  { apply wp_ret, HQ. right. split; [by left|eauto]. }
  apply (IH (t_sched_next x) l); [done|simpl in Hlen; lia|]. intros r [[-> Hno]|(Hr & Hx')]; apply HQ.
  - left. split; [done|]. intros c y [->|Hc]%elem_of_cons Hy; [congruence|by eauto].
  - right. split; [by right|done].
Qed.

Lemma wp_get_thread ts tid s Q :
  thr_inv ts s →
  (∀ r, (r = 0 ∧ ∀ b y, threads s !! b = Some y → t_tid y ≠ tid) ∨
        (r ∈ ts ∧ ∃ y, threads s !! r = Some y ∧ t_tid y = tid) → Q r s) →
  wp (get_thread tid) Q s.
Proof.
  intros Hinv HQ. apply wp_bind, wp_get. apply (wp_find_thread _ tid _ ts); [apply Hinv| |].
  - unfold thread_fuel. rewrite (thr_inv_size ts s Hinv). lia.
  - intros r [[-> Hno]|H]; apply HQ; [left|by right]. split; [done|]. intros b y Hy. apply (Hno b); [|done].
    apply elem_of_dom_2 in Hy. rewrite (ti_dom _ _ Hinv) in Hy. by apply elem_of_list_to_set in Hy.
Qed.

(** *** Creation *)
Lemma rd64_fill_canary m stack i :
  0 ≤ i < STACK_SIZE / 8 → rd64 (fill_canary m stack) (stack + 8 * i) = STACK_CANARY.
Proof.
  intros Hi. unfold fill_canary.
  set (P := λ n (m' : mem), ∀ i, 0 ≤ i < n → rd64 m' (stack + 8 * i) = STACK_CANARY).
  cut (P (STACK_SIZE / 8) (for_loop (Z.to_nat (STACK_SIZE / 8)) 0
         (λ i m, wr64 m (stack + 8 * i) STACK_CANARY) m)); [intros H; by apply H|].
  apply for_loop_upto; [done|intros j Hj; lia|]. intros j m' Hj HP k Hk.
  destruct (decide (k = j)) as [->|].
  - by rewrite rd64_wr64_same.
  - rewrite rd64_wr64_out by lia. apply HP. lia.
Qed.

(** The block and the process as [create_thread] leaves them. *)
Definition new_thread s (pid entry arg p : Z) (px : process) (stack : Z) : thread :=
  mk_thread (next_tid s) pid THREAD_STATE_READY
    (start_context entry arg (u64 (stack + STACK_SIZE - 8))) (u64 (stack + STACK_SIZE - 8)) stack STACK_SIZE
    (p_priority px) TIME_SLICE_DEFAULT TIME_SLICE_DEFAULT 0 0 0 p (p_threads px) (thread_list s).

Definition with_thread (px : process) (t : Z) : process :=
  (if p_threads px =? 0 then px <| p_main_thread := t |> else px)
    <| p_threads := t |> <| p_thread_count := u32 (p_thread_count px + 1) |>.

Definition after_create s (t : Z) (y : thread) (p : Z) (px : process) (a : A) : ks A :=
  s <| threads := <[t := y]> (threads s) |> <| procs := <[p := with_thread px t]> (procs s) |>
    <| thread_list := t |> <| next_tid := u32 (next_tid s + 1) |>
    <| thread_count := u32 (thread_count s + 1) |> <| threads_created := u64 (threads_created s + 1) |>
    <| buffers := fill_canary (buffers s) (t_stack_base y) |> <| alloc := a |>.

Lemma link_to_process_spec s t y p px Q :
  threads s !! t = Some y → procs s !! p = Some px → t_next y = 0 →
  Q () (s <| threads := <[t := y <| t_next := p_threads px |>]> (threads s) |>
          <| procs := <[p := with_thread px t]> (procs s) |>) →
  wp (link_to_process t p) Q s.
Proof.
  intros Hy Hp Hn HQ. apply wp_bind, (wp_ld_proc _ px); [done|]. unfold with_thread in HQ.
  destruct (Z.eqb_spec (p_threads px) 0) as [E|E].
  - apply wp_bind, (wp_upd_proc _ px); [done|].
    eapply wp_upd_proc; [cbn; by rewrite lookup_insert_eq|]. cbn. rewrite insert_insert_eq.
    replace (<[t := y <| t_next := p_threads px |>]> (threads s)) with (threads s) in HQ; [exact HQ|].
    symmetry. apply insert_id. rewrite Hy. f_equal. rewrite E, <- Hn. by destruct y.
  - apply wp_bind, wp_bind, (wp_upd_thr _ y); [done|]. apply (wp_upd_proc _ px); [done|].
    eapply wp_upd_proc; [cbn; by rewrite lookup_insert_eq|]. cbn. rewrite insert_insert_eq. exact HQ.
Qed.

Lemma link_thread_spec s t y Q :
  threads s !! t = Some y → t_sched_next y = 0 →
  Q () (s <| threads := <[t := y <| t_sched_next := thread_list s |>]> (threads s) |> <| thread_list := t |>) →
  wp (link_thread t) Q s.
Proof.
  intros Hy Hn HQ. apply wp_bind, wp_get. destruct (Z.eqb_spec (thread_list s) 0) as [E|E].
  - apply wp_modify.
    replace (<[t := y <| t_sched_next := thread_list s |>]> (threads s)) with (threads s) in HQ; [exact HQ|].
    symmetry. apply insert_id. rewrite Hy. f_equal. rewrite E, <- Hn. by destruct y.
  - apply wp_bind, (wp_upd_thr _ y); [done|]. by apply wp_modify.
Qed.

Lemma owned_insert L pm m t y p px :
  owned L pm m → t ∉ L → t_stack_base y ∉ {[t]} ∪ L → is_Some (pm !! p) →
  owned ({[t_stack_base y]} ∪ ({[t]} ∪ L)) (<[p := px]> pm) (<[t := y]> m).
Proof.
  intros [H1 H2 H3 H4 H5] Ht Hst Hp. assert (dom (<[p := px]> pm) = dom pm) as Hd by by rewrite dom_insert_lookup_L.
  assert (∀ t' y', m !! t' = Some y' → t_stack_base y' ∈ L ∧ (t_stack_base y' ∉ dom m) ∧
    (t_stack_base y' ∉ dom pm) ∧ t_stack_base y ≠ t_stack_base y') as Hold.
  { intros t' y' Hy'. destruct (H4 t' y' Hy') as (Hin & ? & ?). split_and!; [done..|].
    intros Heq. rewrite Heq in Hst. clear -Hst Hin. set_solver. }
  split; rewrite ?Hd, ?dom_insert_L; [clear -H1; set_solver|clear -H2; set_solver|clear -H1 H3 Ht; set_solver| |].
  - intros t' y' [[<- <-]|[Hne Hy']]%lookup_insert_Some; [clear -H1 H2 Hst; set_solver|].
    destruct (Hold t' y' Hy') as (Hin & Hm & Hpm & _). clear -Hin Hm Hpm Ht. split_and!; set_solver.
  - intros t1 t2 y1 y2 [[<- <-]|[Hn1 Hy1]]%lookup_insert_Some [[<- <-]|[Hn2 Hy2]]%lookup_insert_Some Heq;
      [done| | |by eapply H5].
    + by destruct (Hold t2 y2 Hy2) as (_ & _ & _ & ?).
    + by destruct (Hold t1 y1 Hy1) as (_ & _ & _ & []).
Qed.

Lemma threads_of_insert m p x l t y :
  threads_of m p x l → m !! t = None → t ≠ 0 → t_process y = p → t_next y = p_threads x →
  Z.of_nat (length l) < 2 ^ 32 - 1 → threads_of (<[t := y]> m) p (with_thread x t) (t :: l).
Proof.
  intros (Hl & Hnd & Hc & Hin) Ht Ht0 Hp Hn Hlen.
  assert (t ∉ l) as Htl by (intros (z & Hz & _)%Hin; congruence).
  assert (p_threads (with_thread x t) = t ∧ p_thread_count (with_thread x t) = u32 (p_thread_count x + 1))
    as [E1 E2] by (unfold with_thread; by destruct (p_threads x =? 0)).
  split_and!.
  - rewrite E1. split_and!; [done..|]. exists y. rewrite lookup_insert_eq. split; [done|].
    rewrite Hn. by apply lseg_insert_other.
  - by apply NoDup_cons.
  - rewrite E2, Hc, u32_small; simpl; lia.
  - intros b. rewrite elem_of_cons, Hin. split.
    + intros [->|(z & Hz & Hpz)]; [exists y; by rewrite lookup_insert_eq|].
      exists z. rewrite lookup_insert_ne; [done|]. intros ->. congruence.
    + intros (z & [[<- <-]|[Hne Hz]]%lookup_insert_Some & Hpz); [by left|right; by eauto].
Qed.

Lemma threads_of_insert_other m p x l t y :
  threads_of m p x l → m !! t = None → t_process y ≠ p → threads_of (<[t := y]> m) p x l.
Proof.
  intros (Hl & Hnd & Hc & Hin) Ht Hp.
  assert (t ∉ l) as Htl by (intros (z & Hz & _)%Hin; congruence).
  split_and!; [by apply lseg_insert_other|done|done|]. intros b. rewrite Hin. split.
  - intros (z & Hz & Hpz). exists z. rewrite lookup_insert_ne; [done|]. intros ->. congruence.
  - intros (z & [[<- <-]|[Hne Hz]]%lookup_insert_Some & Hpz); [done|by eauto].
Qed.

Lemma insert_thread_inv ts s t y p px L a :
  thr_inv ts s → procs s !! p = Some px → p ≠ 0 → t ≠ 0 → t ∉ L → next_tid s + 1 < 2 ^ 32 →
  t_tid y = next_tid s → t_process y = p → t_next y = p_threads px → t_sched_next y = thread_list s →
  t_stack_base y ≠ 0 → t_stack_size y = STACK_SIZE → t_stack_base y ∉ {[t]} ∪ L →
  owned L (procs s) (threads s) → ka_inv ({[t_stack_base y]} ∪ ({[t]} ∪ L)) a →
  thr_inv (t :: ts) (after_create s t y p px a).
Proof.
  intros Hinv Hp Hp0 Ht0 HtL Hnt Htid Hpr Hnx Hsn Hsb Hss HsL Hown HL.
  destruct Hinv as [Hl Hnd Hdom Hc Hb Hn Htids Hinj Hproc _].
  assert (threads s !! t = None) as Ht.
  { apply not_elem_of_dom. intros H. apply HtL. by apply (ow_threads _ _ _ Hown). }
  assert (t ∉ ts) as Htts.
  { intros H. apply not_elem_of_dom in Ht. apply Ht. rewrite Hdom. by apply elem_of_list_to_set. }
  assert (dom (<[p := with_thread px t]> (procs s)) = dom (procs s)) as Hdp by (rewrite dom_insert_lookup_L; by eauto).
  assert (∀ b z, threads s !! b = Some z → t_tid z ≠ next_tid s) as Hfresh.
  { intros b z Hz. destruct (Htids b z Hz). lia. }
  split; cbn.
  - split_and!; [done..|]. exists y. rewrite lookup_insert_eq, Hsn. split; [done|]. by apply lseg_insert_other.
  - by apply NoDup_cons.
  - by rewrite dom_insert_L, Hdom.
  - rewrite Hc, u32_small; lia.
  - rewrite u32_small; lia.
  - rewrite u32_small; lia.
  - rewrite u32_small by lia. intros b z [[<- <-]|[_ Hz]]%lookup_insert_Some.
    + split_and!; [lia..|done|done|congruence|]. apply elem_of_dom. rewrite Hdp. apply elem_of_dom. rewrite Hpr. eauto.
    + destruct (Htids b z Hz) as (? & ? & ? & ? & ?%elem_of_dom). split_and!; [lia..|done|done|done|].
      apply elem_of_dom. by rewrite Hdp.
  - intros t1 t2 y1 y2 [[<- <-]|[Hn1 Hy1]]%lookup_insert_Some [[<- <-]|[Hn2 Hy2]]%lookup_insert_Some Heq;
      [done|rewrite Htid in Heq; by edestruct Hfresh; eauto|rewrite Htid in Heq; by edestruct Hfresh; eauto|by eapply Hinj].
  - intros p' x' [[<- <-]|[Hne Hx']]%lookup_insert_Some.
    + destruct (Hproc p px Hp) as [l Hlt]. exists (t :: l). apply threads_of_insert; try done.
      pose proof (threads_of_length _ _ _ _ Hlt) as Hlen.
      rewrite <- size_dom, Hdom, size_list_to_set in Hlen by done. lia.
    + destruct (Hproc p' x' Hx') as [l Hlt]. exists l. apply threads_of_insert_other; [done..|congruence].
  - exists ({[t_stack_base y]} ∪ ({[t]} ∪ L)). split; [done|]. apply owned_insert; try done; eauto.
Qed.

#[local] Opaque fill_canary.

Lemma create_thread_spec ps ts s pid entry arg (Q : Z → ks A → Prop) :
  proc_inv ps s → thr_inv ts s → next_tid s + 1 < 2 ^ 32 → entry ≠ 0 →
  ((∀ a x, procs s !! a = Some x → p_pid x ≠ pid) → Q 0 s) →
  (∀ a n, n = next_tid s ∨ n = next_tid s + 1 → (∃ L, ka_inv L a ∧ owned L (procs s) (threads s)) →
     Q 0 (s <| next_tid := n |> <| alloc := a |>)) →
  (∀ t p px stack a L, procs s !! p = Some px → p_pid px = pid → p ≠ 0 → t ≠ 0 → stack ≠ 0 → t ∉ L →
     stack ∉ {[t]} ∪ L → owned L (procs s) (threads s) → ka_inv ({[stack]} ∪ ({[t]} ∪ L)) a →
     Q t (after_create s t (new_thread s pid entry arg p px stack) p px a)) →
  wp (create_thread pid entry arg) Q s.
Proof.
  intros Hp Ht Hn He Hnone Hfail HQ. unfold create_thread. rewrite (proj2 (Z.eqb_neq entry 0) He).
  pose proof Hp as [Hl _ Hdom _ _ _ _ _ _]. destruct (ti_alloc _ _ Ht) as (L & HL & Hown).
  apply wp_bind, (wp_get_process _ 0 ps); [done|by rewrite (proc_inv_size ps s)|].
  intros p [[-> Hno]|(Hpp & px & Hpx & Hpid)].
  { apply wp_ret, Hnone. intros b x Hb. apply (Hno b x); [|done].
    apply elem_of_dom_2 in Hb. rewrite Hdom in Hb. by apply elem_of_list_to_set in Hb. }
  destruct (dls_lookup _ _ _ _ _ p Hl Hpp) as [Hp0 _]. rewrite (proj2 (Z.eqb_neq p 0) Hp0).
  assert (∀ t, t ∉ L → threads s !! t = None) as Hnew.
  { intros t HtL. apply not_elem_of_dom. intros H. apply HtL. by apply (ow_threads _ _ _ Hown). }
  pose proof (ti_bound _ _ Ht) as Hbound. clear Hp Ht Hnone Hl Hdom. destruct s as [].
  apply wp_bind, wp_lift_alloc.
  apply (wp_mono _ _ _ _ (ka_malloc_spec L _ SIZEOF_THREAD HL ltac:(done))).
  intros t a [[-> HL']|(Ht0 & HtL & HL')].
  { apply wp_ret. eapply (Hfail a); [by left|]. by exists L. }
  rewrite (proj2 (Z.eqb_neq t 0) Ht0). specialize (Hnew t HtL).
  apply wp_bind, wp_modify, wp_bind, wp_get, wp_bind, wp_modify. flat_all.
  apply wp_bind, (wp_ld_proc _ px); [done|].
  apply wp_bind. eapply wp_upd_thr_insert; [reflexivity|]. flat_all.
  apply wp_bind, wp_bind, wp_lift_alloc.
  apply (wp_mono _ _ _ _ (ka_malloc_spec _ a STACK_SIZE HL' ltac:(done))).
  intros stack a2 [[-> HL2]|(Hs0 & HsL & HL2)].
  { apply wp_ret, wp_bind, wp_bind, wp_lift_alloc.
    apply (wp_mono _ _ _ _ (ka_free_spec _ a2 t HL2 ltac:(set_solver))). intros _ a3 HL3.
    apply wp_modify, wp_ret. flat_all. rewrite delete_insert_eq, delete_id by done.
    cbn in Hbound, Hn. rewrite u32_small by lia.
    eapply (Hfail a3); [by right|].
    exists L. split; [|done]. by replace (({[t]} ∪ L) ∖ {[t]}) with L in HL3 by (clear -HtL; set_solver). }
  rewrite (proj2 (Z.eqb_neq stack 0) Hs0).
  apply wp_bind. eapply wp_upd_thr_insert; [reflexivity|]. flat_all.
  apply wp_bind, wp_modify, wp_ret. flat_all.
  apply wp_bind. eapply wp_upd_thr_insert; [reflexivity|]. flat_all.
  apply wp_bind. eapply wp_upd_thr_insert; [reflexivity|]. flat_all.
  apply wp_bind. eapply link_to_process_spec; [cbn; by rewrite lookup_insert_eq|exact Hpx|done|]. flat_all.
  rewrite insert_insert_eq.
  apply wp_bind. eapply link_thread_spec; [cbn; by rewrite lookup_insert_eq|done|]. flat_all.
  rewrite insert_insert_eq.
  apply wp_bind, wp_modify. flat_all.
  apply wp_bind. eapply wp_upd_thr_insert; [reflexivity|]. flat_all.
  apply wp_ret. exact (HQ t p px stack a2 L Hpx Hpid Hp0 Ht0 Hs0 HtL HsL Hown HL2).
Qed.

(** *** Destruction *)

(** The last element of [l1] gets a new link. *)
Definition relink (f : thread → thread) (l1 : list Z) (m : gmap Z thread) : gmap Z thread :=
  match last l1 with Some q => alter f q m | None => m end.

Definition without_thread (px : process) (t : Z) (l1 : list Z) (next : Z) : process :=
  let px1 := if decide (l1 = []) then px <| p_threads := next |> else px in
  let px2 := if p_main_thread px1 =? t then px1 <| p_main_thread := p_threads px1 |> else px1 in
  px2 <| p_thread_count := u32 (p_thread_count px - 1) |>.

Definition with_next (v : Z) (z : thread) : thread := z <| t_next := v |>.
Definition with_sched_next (v : Z) (z : thread) : thread := z <| t_sched_next := v |>.

Lemma relink_snoc f l q m x : m !! q = Some x → relink f (l ++ [q]) m = <[q := f x]> m.
Proof.
  intros Hx. unfold relink. rewrite last_snoc. apply map_eq. intros b. destruct (decide (b = q)) as [->|].
  - by rewrite lookup_alter_eq, lookup_insert_eq, Hx.
  - by rewrite lookup_alter_ne, lookup_insert_ne.
Qed.

Lemma relink_lookup f l m b :
  relink f l m !! b = (λ x, if decide (last l = Some b) then f x else x) <$> m !! b.
Proof.
  unfold relink. destruct (last l) as [q|].
  - destruct (decide (q = b)) as [->|Hne].
    + rewrite lookup_alter_eq. by destruct (m !! b); simpl; rewrite ?decide_True.
    + rewrite lookup_alter_ne by done. destruct (m !! b); simpl; [|done]. rewrite decide_False; [done|]. by intros [= ].
  - by destruct (m !! b); simpl; rewrite ?decide_False.
Qed.

Lemma relink_lookup_other f l m b : b ∉ l → relink f l m !! b = m !! b.
Proof.
  intros Hb. rewrite relink_lookup. destruct (m !! b); simpl; [|done]. rewrite decide_False; [done|].
  intros [l' ->]%last_Some. set_solver.
Qed.

Lemma size_relink f l m : size (relink f l m) = size m.
Proof.
  rewrite <- !size_dom. f_equal. apply set_eq. intros b.
  by rewrite !elem_of_dom, relink_lookup, fmap_is_Some.
Qed.

Lemma threads_of_keep m p x l t y y' :
  threads_of m p x l → m !! t = Some y → t_next y' = t_next y → t_process y' = t_process y →
  threads_of (<[t := y']> m) p x l.
Proof.
  intros (Hl & Hnd & Hc & Hin) Hy Hn Hp. split_and!; [by apply (lseg_insert_keep _ _ _ _ _ _ y)|done|done|].
  intros b. rewrite Hin. destruct (decide (b = t)) as [->|Hne].
  - rewrite Hy, lookup_insert_eq. split; intros (z & [= <-] & Hz); eexists; (split; [done|congruence]).
  - by rewrite lookup_insert_ne.
Qed.

Lemma wp_unlink_from fuel loc a l1 t l2 x Q s :
  wp (ld_link loc) (λ r s', r = a ∧ s' = s) s →
  linked t_next (threads s) a (l1 ++ t :: l2) → NoDup (l1 ++ t :: l2) → threads s !! t = Some x →
  (length l1 < fuel)%nat →
  wp (st_link (default loc (NextOf <$> last l1)) (t_next x)) Q s → wp (unlink_from fuel loc t) Q s.
Proof.
  revert loc a l1. induction fuel as [|fuel IH]; intros loc a l1 Hld Hl Hnd Hx Hlen HQ; [lia|].
  apply wp_bind, (wp_mono _ _ _ _ Hld). intros r s' [-> ->]. destruct l1 as [|b l1].
  - destruct Hl as (-> & Ht & _). rewrite (proj2 (Z.eqb_neq t 0) Ht), Z.eqb_refl.
    by apply wp_bind, (wp_ld_thr _ x).
  - destruct Hl as (-> & Hb & y & Hy & Hl). apply NoDup_cons in Hnd as [Hbt Hnd].
    rewrite (proj2 (Z.eqb_neq b 0) Hb), (proj2 (Z.eqb_neq b t)) by (intros ->; apply Hbt; set_solver).
    apply (IH (NextOf b) (t_next y) l1); [|done..|simpl in Hlen; lia|].
    + by apply wp_bind, (wp_ld_thr _ y).
    + replace (default (NextOf b) (NextOf <$> last l1)) with (default loc (NextOf <$> last (b :: l1))); [done|].
      rewrite last_cons. by destruct (last l1).
Qed.

Lemma unlink_from_process_spec s t y px l1 l2 Q :
  threads s !! t = Some y → t_process y ≠ 0 → procs s !! t_process y = Some px →
  threads_of (threads s) (t_process y) px (l1 ++ t :: l2) →
  Q () (s <| threads := relink (with_next (t_next y)) l1 (threads s) |>
          <| procs := <[t_process y := without_thread px t l1 (t_next y)]> (procs s) |>) →
  wp (unlink_from_process t) Q s.
Proof.
  intros Hy Hp0 Hpx Hof HQ. pose proof (threads_of_length _ _ _ _ Hof) as Hlen.
  destruct Hof as (Hl & Hnd & _ & _). rewrite length_app in Hlen.
  apply wp_bind, (wp_ld_thr _ y); [done|]. rewrite (proj2 (Z.eqb_neq _ 0) Hp0).
  apply wp_when_true, wp_bind, wp_get, wp_bind.
  apply (wp_unlink_from _ _ (p_threads px) l1 t l2 y); [|done..|unfold thread_fuel; simpl in Hlen; lia|].
  { by apply wp_bind, (wp_ld_proc _ px). }
  set (px1 := if decide (l1 = []) then px <| p_threads := t_next y |> else px).
  assert (∀ s1, procs s1 !! t_process y = Some px1 →
    Q () (s1 <| procs := <[t_process y := without_thread px t l1 (t_next y)]> (procs s1) |>) →
    wp (px <- ld_proc (t_process y) ;;
        when (p_main_thread px =? t) (upd_proc (t_process y) (λ y, y <| p_main_thread := p_threads y |>)) ;;;
        upd_proc (t_process y) (λ y, y <| p_thread_count := u32 (p_thread_count y - 1) |>)) Q s1) as Hrest.
  { intros s1 Hs1 HQ1. apply wp_bind, (wp_ld_proc _ px1); [done|]. apply wp_bind.
    assert (p_thread_count px1 = p_thread_count px) as Hc by (unfold px1; by case_decide).
    unfold without_thread in HQ1. fold px1 in HQ1. rewrite <- Hc in HQ1. destruct (p_main_thread px1 =? t).
    - apply wp_when_true, (wp_upd_proc _ px1); [done|].
      eapply wp_upd_proc; [cbn; by rewrite lookup_insert_eq|]. cbn. by rewrite insert_insert_eq.
    - apply wp_when_false. by apply (wp_upd_proc _ px1). }
  destruct l1 as [|q l1 _] using rev_ind.
  - apply (wp_upd_proc _ px); [done|]. apply Hrest; [cbn; by rewrite lookup_insert_eq|].
    cbn. rewrite insert_insert_eq. by replace (s <| threads := relink _ [] (threads s) |>) with s in HQ by (by destruct s).
  - rewrite last_snoc. simpl.
    destruct (lseg_inv _ _ _ _ _ q Hl) as [_ [z Hz]]; [set_solver|]. rewrite (relink_snoc _ _ _ _ z Hz) in HQ.
    apply (wp_upd_thr _ z); [done|]. apply Hrest; [|done]. cbn. unfold px1. by rewrite decide_False by (by destruct l1).
Qed.

Lemma wp_find_pred fuel a l1 q t l2 s (Q : Z → ks A → Prop) :
  linked t_sched_next (threads s) a (l1 ++ q :: t :: l2) → NoDup (l1 ++ q :: t :: l2) →
  (length l1 < fuel)%nat → Q q s → wp (find_pred fuel a t) Q s.
Proof.
  revert a l1. induction fuel as [|fuel IH]; intros a l1 Hl Hnd Hlen HQ; [lia|]. simpl. destruct l1 as [|b l1].
  - destruct Hl as (-> & Hq & y & Hy & (Ht & _)). rewrite (proj2 (Z.eqb_neq q 0) Hq).
    apply wp_bind, (wp_ld_thr _ y); [done|]. by rewrite Ht, Z.eqb_refl.
  - destruct Hl as (-> & Hb & y & Hy & Hl). rewrite (proj2 (Z.eqb_neq b 0) Hb).
    apply wp_bind, (wp_ld_thr _ y); [done|]. apply NoDup_cons in Hnd as [Hbt Hnd].
    assert (t_sched_next y ≠ t) as Hne.
    { intros Heq. destruct l1 as [|c l1]; destruct Hl as (Hc & _); rewrite Heq in Hc.
      - rewrite Hc in Hnd. apply NoDup_cons in Hnd as [Hqt _]. apply Hqt. by left.
      - rewrite Hc in Hnd. apply NoDup_cons in Hnd as [Hct _]. apply Hct. set_solver. }
    rewrite (proj2 (Z.eqb_neq _ t) Hne). apply (IH _ l1); [done..|simpl in Hlen; lia|done].
Qed.

Lemma unlink_thread_spec s t y l1 l2 Q :
  linked t_sched_next (threads s) (thread_list s) (l1 ++ t :: l2) → NoDup (l1 ++ t :: l2) →
  (length (l1 ++ t :: l2) ≤ size (threads s))%nat → threads s !! t = Some y →
  Q () (s <| threads := relink (with_sched_next (t_sched_next y)) l1 (threads s) |>
          <| thread_list := if decide (l1 = []) then t_sched_next y else thread_list s |>) →
  wp (unlink_thread t) Q s.
Proof.
  intros Hl Hnd Hlen Hy HQ. apply wp_bind, wp_get, wp_bind, (wp_ld_thr _ y); [done|].
  destruct l1 as [|q l1 _] using rev_ind.
  - pose proof Hl as (Ht & _). rewrite (proj2 (Z.eqb_eq _ t) Ht). apply wp_modify.
    by replace (s <| threads := relink _ [] (threads s) |>) with s in HQ by (by destruct s).
  - rewrite decide_False in HQ by (by destruct l1).
    rewrite <- app_assoc in Hl, Hnd, Hlen. cbn [app] in Hl, Hnd, Hlen.
    destruct (lseg_inv _ _ _ _ _ q Hl) as [Hq0 [z Hz]]; [set_solver|].
    assert (thread_list s ≠ t) as Hne.
    { intros Heq. rewrite Heq in Hl. destruct l1 as [|c l1]; destruct Hl as (<- & _);
        apply NoDup_cons in Hnd as [Hnd _]; apply Hnd; set_solver. }
    rewrite (proj2 (Z.eqb_neq _ t) Hne). apply wp_bind, (wp_find_pred _ _ l1 q t l2); [done..| |].
    { rewrite length_app in Hlen. unfold thread_fuel. lia. }
    rewrite (proj2 (Z.eqb_neq q 0) Hq0). apply wp_when_true, (wp_upd_thr _ z); [done|].
    rewrite (relink_snoc _ _ _ _ z Hz) in HQ.
    match goal with |- Q () ?st => replace st with (st <| thread_list := thread_list s |>) by (by destruct s) end.
    exact HQ.
Qed.

(** What destruction leaves of a thread block other than the destroyed one: its
    links may be redirected past the destroyed one. *)
Definition past (y : thread) (l1 g1 : list Z) (b : Z) (z : thread) : thread :=
  let z1 := if decide (last l1 = Some b) then z <| t_next := t_next y |> else z in
  if decide (last g1 = Some b) then z1 <| t_sched_next := t_sched_next y |> else z1.

Definition t_core (x : thread) : thread := x <| t_next := 0 |> <| t_sched_next := 0 |>.

Lemma past_core y l1 g1 b z : t_core (past y l1 g1 b z) = t_core z.
Proof. unfold past. by repeat case_decide. Qed.

Lemma past_next y l1 g1 b z :
  t_next (past y l1 g1 b z) = if decide (last l1 = Some b) then t_next y else t_next z.
Proof. unfold past. by repeat case_decide. Qed.

Lemma past_sched_next y l1 g1 b z :
  t_sched_next (past y l1 g1 b z) = if decide (last g1 = Some b) then t_sched_next y else t_sched_next z.
Proof. unfold past. by repeat case_decide. Qed.

Lemma owned_delete L pm m m' t y p px :
  owned L pm m → m !! t = Some y → is_Some (pm !! p) → m' !! t = None →
  (∀ b, b ≠ t → t_core <$> m' !! b = t_core <$> m !! b) →
  owned ((L ∖ {[t_stack_base y]}) ∖ {[t]}) (<[p := px]> pm) m'.
Proof.
  intros [H1 H2 H3 H4 H5] Hy Hp Ht Hcore.
  assert (∀ b z', m' !! b = Some z' → b ≠ t ∧ ∃ z, m !! b = Some z ∧ t_stack_base z' = t_stack_base z) as Hold.
  { intros b z' Hz'. assert (b ≠ t) as Hb by congruence. split; [done|]. specialize (Hcore b Hb).
    rewrite Hz' in Hcore. destruct (m !! b) as [z|]; [|done]. exists z. split; [done|].
    apply (inj Some) in Hcore. by apply (f_equal t_stack_base) in Hcore. }
  assert (dom m' ⊆ dom m ∧ t ∉ dom m') as [Hsub Htm].
  { split; [|by apply not_elem_of_dom]. intros b [z Hz]%elem_of_dom.
    destruct (Hold b z Hz) as (_ & w & Hw & _). by apply elem_of_dom. }
  destruct (H4 t y Hy) as (HsL & Hsm & Hsp). apply elem_of_dom_2 in Hy as Htd.
  split; rewrite ?dom_insert_lookup_L by done.
  - clear -H1 H3 Htd Hsp. set_solver.
  - clear -H2 Hsub Hsm Htm. set_solver.
  - clear -H3 Hsub. set_solver.
  - intros b z Hz. destruct (Hold b z Hz) as (Hb & w & Hw & ->). destruct (H4 b w Hw) as (Hin & Hm & Hpm).
    assert (t_stack_base w ≠ t_stack_base y) as Hne by (intros Heq; by apply Hb, (H5 b t w y)).
    clear -Hin Hm Hpm Hne Htd Hsub. split_and!; [|set_solver|done].
    apply elem_of_difference. split; [set_solver|]. intros Heq%elem_of_singleton. by rewrite Heq in Hm.
  - intros b c z w Hz Hw Heq. destruct (Hold b z Hz) as (_ & z1 & Hz1 & E1), (Hold c w Hw) as (_ & w1 & Hw1 & E2).
    apply (H5 b c z1 w1); congruence.
Qed.

Definition after_destroy s (m : gmap Z thread) (hd p : Z) (px : process) (b : mem) (a : A) : ks A :=
  s <| threads := m |> <| procs := <[p := px]> (procs s) |> <| thread_list := hd |>
    <| buffers := b |> <| alloc := a |> <| thread_count := u32 (thread_count s - 1) |>
    <| threads_destroyed := u64 (threads_destroyed s + 1) |>.

Lemma without_thread_fields px t l1 n :
  p_threads (without_thread px t l1 n) = (if decide (l1 = []) then n else p_threads px) ∧
  p_thread_count (without_thread px t l1 n) = u32 (p_thread_count px - 1) ∧
  p_next (without_thread px t l1 n) = p_next px ∧ p_prev (without_thread px t l1 n) = p_prev px ∧
  p_pid (without_thread px t l1 n) = p_pid px.
Proof. unfold without_thread. case_decide; by destruct (_ =? t). Qed.

(** Destruction removes [t] from the list of its process, *)
Lemma threads_of_delete m m' y px t l1 g1 l2 :
  threads_of m (t_process y) px (l1 ++ t :: l2) → m !! t = Some y → m' !! t = None →
  (∀ b, b ≠ t → m' !! b = past y l1 g1 b <$> m !! b) → Z.of_nat (length (l1 ++ t :: l2)) < 2 ^ 32 →
  threads_of m' (t_process y) (without_thread px t l1 (t_next y)) (l1 ++ l2).
Proof.
  intros (Hl & Hnd & Hc & Hin) Hy Ht Hm Hlen.
  destruct (without_thread_fields px t l1 (t_next y)) as (E1 & E2 & _). rewrite length_app in Hc, Hlen. simpl in Hc, Hlen.
  assert ((t ∉ l1 ++ l2) ∧ NoDup (l1 ++ l2)) as [Htl Hnd'].
  { apply NoDup_app in Hnd as (? & Hdis & [? ?]%NoDup_cons). split.
    - intros [H'|?]%elem_of_app; [|done]. apply (Hdis t H'). by left.
    - apply NoDup_app. split_and!; [done| |done]. intros b Hb ?. apply (Hdis b Hb). by right. }
  split_and!; [|done|..].
  - rewrite E1. apply (linked_unlink _ m m' _ l1 t l2 y); [done..|]. intros b z Hb Hz.
    exists (past y l1 g1 b z). rewrite Hm, Hz by done. split; [done|apply past_next].
  - rewrite E2, Hc, length_app, u32_small; lia.
  - intros b. assert (b ∈ l1 ++ l2 ↔ b ≠ t ∧ b ∈ l1 ++ t :: l2) as ->.
    { rewrite !elem_of_app, elem_of_cons in *. destruct (decide (b = t)) as [->|]; [|naive_solver]. tauto. }
    rewrite Hin. split.
    + intros (Hb & z & Hz & Hpz). exists (past y l1 g1 b z). rewrite Hm, Hz by done. split; [done|].
      rewrite <- Hpz. by apply (f_equal t_process (past_core y l1 g1 b z)).
    + intros (z & Hz & Hpz). assert (b ≠ t) as Hb by congruence. split; [done|].
      rewrite Hm in Hz by done. destruct (m !! b) as [w|]; [|done]. injection Hz as <-. exists w. split; [done|].
      rewrite <- Hpz. symmetry. by apply (f_equal t_process (past_core y l1 g1 b w)).
Qed.

(** and leaves the lists of the other processes alone. *)
Lemma threads_of_delete_other m m' y p px t l1 g1 l2 l qx :
  threads_of m p qx l → p ≠ t_process y → threads_of m (t_process y) px (l1 ++ t :: l2) →
  m !! t = Some y → m' !! t = None → (∀ b, b ≠ t → m' !! b = past y l1 g1 b <$> m !! b) →
  threads_of m' p qx l.
Proof.
  intros (Hl & Hnd & Hc & Hin) Hp (_ & _ & _ & Hin1) Hy Ht Hm.
  assert (∀ b z, m !! b = Some z → t_process z = p → b ≠ t ∧ last l1 ≠ Some b) as Hne.
  { intros b z Hz Hpz. split; [congruence|]. intros [l' ->]%last_Some.
    destruct (proj1 (Hin1 b)) as (w & Hw & Hpw); [set_solver|]. congruence. }
  split_and!; [|done|done|].
  - apply (lseg_ext _ m); [|done]. intros b z Hb Hz. apply Hin in Hb as (z' & Hz' & Hpz).
    destruct (Hne b z' Hz' Hpz). exists (past y l1 g1 b z). rewrite Hm, Hz by done. split; [done|].
    by rewrite past_next, decide_False.
  - intros b. rewrite Hin. split.
    + intros (z & Hz & Hpz). destruct (Hne b z Hz Hpz). exists (past y l1 g1 b z). rewrite Hm, Hz by done.
      split; [done|]. rewrite <- Hpz. by apply (f_equal t_process (past_core y l1 g1 b z)).
    + intros (z & Hz & Hpz). assert (b ≠ t) as Hb by congruence. rewrite Hm in Hz by done.
      destruct (m !! b) as [w|]; [|done]. injection Hz as <-. exists w. split; [done|].
      rewrite <- Hpz. symmetry. by apply (f_equal t_process (past_core y l1 g1 b w)).
Qed.

Lemma delete_thread_inv s g1 t g2 y px l1 l2 m b a L :
  thr_inv (g1 ++ t :: g2) s → threads s !! t = Some y → procs s !! t_process y = Some px →
  threads_of (threads s) (t_process y) px (l1 ++ t :: l2) → m !! t = None →
  (∀ b, b ≠ t → m !! b = past y l1 g1 b <$> threads s !! b) →
  owned L (procs s) (threads s) → ka_inv ((L ∖ {[t_stack_base y]}) ∖ {[t]}) a →
  thr_inv (g1 ++ g2) (after_destroy s m (if decide (g1 = []) then t_sched_next y else thread_list s)
    (t_process y) (without_thread px t l1 (t_next y)) b a).
Proof.
  intros [Hl Hnd Hdom Hc Hb Hn Htid Hinj Hproc _] Hy Hpx Hof Hmt Hm Hown HL.
  assert (∀ c z', m !! c = Some z' → ∃ z, c ≠ t ∧ threads s !! c = Some z ∧ t_core z' = t_core z) as Hold.
  { intros c z' Hz'. assert (c ≠ t) as Hne by congruence. rewrite Hm in Hz' by done.
    destruct (threads s !! c) as [z|]; [|done]. injection Hz' as <-. exists z. split_and!; [done..|apply past_core]. }
  assert (∀ {X} (f : thread → X), (∀ z, f (t_core z) = f z) → ∀ z z', t_core z = t_core z' → f z = f z') as Hf.
  { intros X f Hf z z' E. by rewrite <- Hf, E, Hf. }
  pose proof Hnd as (Hnd1 & Hdis & [Ht2 Hnd2]%NoDup_cons)%NoDup_app.
  assert (t ∉ g1) as Ht1 by (intros H; apply (Hdis t H); by left).
  rewrite length_app in Hc, Hb. simpl in Hc, Hb.
  assert (dom (<[t_process y := without_thread px t l1 (t_next y)]> (procs s)) = dom (procs s)) as Hdp
    by (rewrite dom_insert_lookup_L; by eauto).
  split; cbn.
  - apply (linked_unlink _ (threads s) m _ g1 t g2 y); [done..|]. intros c z Hne Hz.
    exists (past y l1 g1 c z). rewrite Hm, Hz by done. split; [done|apply past_sched_next].
  - apply NoDup_app. split_and!; [done| |done]. intros c Hc1 ?. apply (Hdis c Hc1). by right.
  - apply set_eq. intros c. rewrite elem_of_dom, list_to_set_app_L, elem_of_union, !elem_of_list_to_set.
    destruct (decide (c = t)) as [->|Hne]; [rewrite Hmt; split; [by intros []|tauto]|].
    rewrite Hm, fmap_is_Some, <- elem_of_dom, Hdom, elem_of_list_to_set, elem_of_app, elem_of_cons by done. tauto.
  - rewrite Hc, length_app, u32_small; lia.
  - rewrite length_app. lia.
  - done.
  - intros c z' (z & Hne & Hz & E)%Hold. destruct (Htid c z Hz) as (? & ? & ? & ? & ?%elem_of_dom).
    rewrite (Hf _ t_tid (λ _, eq_refl) z' z E), (Hf _ t_stack_base (λ _, eq_refl) z' z E),
      (Hf _ t_stack_size (λ _, eq_refl) z' z E), (Hf _ t_process (λ _, eq_refl) z' z E).
    split_and!; [lia..|done|done|done|]. apply elem_of_dom. by rewrite Hdp.
  - intros c d z w (z1 & _ & Hz & E1)%Hold (w1 & _ & Hw & E2)%Hold Heq. apply (Hinj c d z1 w1); [done..|].
    by rewrite <- (Hf _ t_tid (λ _, eq_refl) z z1 E1), <- (Hf _ t_tid (λ _, eq_refl) w w1 E2).
  - intros p x [[<- <-]|[Hne Hx]]%lookup_insert_Some.
    + exists (l1 ++ l2). apply (threads_of_delete (threads s) m y px t l1 g1 l2); try done.
      pose proof (threads_of_length _ _ _ _ Hof) as Hlen.
      rewrite <- size_dom, Hdom, size_list_to_set, (length_app g1) in Hlen by done. simpl in Hlen. lia.
    + destruct (Hproc p x Hx) as [l Hlo]. exists l.
      by apply (threads_of_delete_other (threads s) m y p px t l1 g1 l2).
  - exists ((L ∖ {[t_stack_base y]}) ∖ {[t]}). split; [done|].
    apply (owned_delete L (procs s) (threads s)); [done|done|by eauto|done|].
    intros c Hne. rewrite Hm by done. destruct (threads s !! c); simpl; [by rewrite past_core|done].
Qed.

(** The store without [t]; [y2] is the last content of its block. *)
Definition removed (m : gmap Z thread) (t : Z) (y y2 : thread) (l1 g1 : list Z) : gmap Z thread :=
  delete t (relink (with_sched_next (t_sched_next y)) g1 (relink (with_next (t_next y)) l1 (<[t := y2]> m))).

Lemma removed_eq m t y y2 l1 g1 : removed m t y y2 l1 g1 !! t = None.
Proof. apply lookup_delete_eq. Qed.

Lemma removed_ne m t y y2 l1 g1 b :
  b ≠ t → removed m t y y2 l1 g1 !! b = past y l1 g1 b <$> m !! b.
Proof.
  intros Hb. unfold removed. rewrite lookup_delete_ne, !relink_lookup, lookup_insert_ne by done.
  destruct (m !! b); [|done]. simpl. unfold past.
  by destruct (decide (last l1 = Some b)), (decide (last g1 = Some b)).
Qed.

Lemma rd8_memset m p v n b : rd8 (memset m p v n) b = if decide (p ≤ b < p + Z.max 0 n) then u8 v else rd8 m b.
Proof.
  unfold memset. rewrite (rd8_fill (Z.to_nat n) p (λ _, u8 v)).
  replace (Z.of_nat (Z.to_nat n)) with (Z.max 0 n) by lia. by rewrite u8_idemp.
Qed.
#[local] Opaque memset.

Lemma destroy_thread_spec ts L s tid (Q : Z → ks A → Prop) :
  thr_inv ts s → ka_inv L (alloc s) → owned L (procs s) (threads s) →
  ((∀ t y, threads s !! t = Some y → t_tid y ≠ tid) → Q KERN_NOTFOUND s) →
  (∀ y, threads s !! current_thread s = Some y → t_tid y = tid → Q KERN_BUSY s) →
  (∀ g1 t g2 y px l1 l2 m a, ts = g1 ++ t :: g2 → threads s !! t = Some y → t_tid y = tid →
     t ≠ current_thread s → procs s !! t_process y = Some px →
     threads_of (threads s) (t_process y) px (l1 ++ t :: l2) → m !! t = None →
     (∀ b, b ≠ t → m !! b = past y l1 g1 b <$> threads s !! b) →
     ka_inv ((L ∖ {[t_stack_base y]}) ∖ {[t]}) a →
     Q KERN_SUCCESS (after_destroy s m (if decide (g1 = []) then t_sched_next y else thread_list s)
       (t_process y) (without_thread px t l1 (t_next y))
       (memset (buffers s) (t_stack_base y) 0 (t_stack_size y)) a)) →
  wp (destroy_thread tid) Q s.
Proof.
  intros Hinv HL Hown Hnf Hbusy Hok. apply wp_bind, (wp_get_thread ts); [done|].
  intros t [[-> Hno]|(Hts & y & Hy & Htid)]; [by apply wp_ret, Hnf|].
  pose proof Hinv as [Hl Hnd Hdom _ _ _ Htids _ Hproc _].
  destruct (lseg_inv _ _ _ _ _ t Hl Hts) as [Ht0 _]. rewrite (proj2 (Z.eqb_neq t 0) Ht0).
  apply wp_bind, wp_gets. destruct (Z.eqb_spec t (current_thread s)) as [->|Hcur].
  { by apply wp_ret, (Hbusy y). }
  destruct (Htids t y Hy) as (_ & Hsb & _ & Hp0 & [px Hpx]). destruct (Hproc _ px Hpx) as [l Hof].
  pose proof Hof as (_ & _ & _ & Hin). 
  assert (t ∈ l) as (l1 & l2 & ->)%list_elem_of_split by (apply Hin; by eauto).
  apply list_elem_of_split in Hts as (g1 & g2 & ->).
  destruct (ow_stack _ _ _ Hown t y Hy) as (HsL & Hsm & _).
  pose proof (thr_inv_size _ _ Hinv) as Hsize.
  assert ((t ∉ l1) ∧ t ∉ g1) as [Htl Htg].
  { destruct Hof as (_ & Hnd1 & _). split; intros H.
    - apply NoDup_app in Hnd1 as (_ & Hd & _). apply (Hd t H). by left.
    - apply NoDup_app in Hnd as (_ & Hd & _). apply (Hd t H). by left. }
  specialize (Hok g1 t g2 y px l1 l2).
  assert (t ∈ L) as HtL by (apply (ow_threads _ _ _ Hown); by apply elem_of_dom).
  assert (t ≠ t_stack_base y) as Hst by (intros Heq; apply Hsm; rewrite <- Heq; by apply elem_of_dom).
  clear Hnf Hbusy Hproc Hinv Hin. destruct s.
  set (y1 := y <| t_state := THREAD_STATE_TERMINATED |>).
  set (y2 := y1 <| t_stack_base := 0 |> <| t_stack_size := 0 |> <| t_stack_pointer := 0 |>).
  apply wp_bind, (wp_upd_thr _ y); [done|]. fold y1. flat.
  apply wp_bind, wp_bind. eapply wp_ld_thr; [cbn; apply lookup_insert_eq|].
  change (t_stack_base y1) with (t_stack_base y). change (t_stack_size y1) with (t_stack_size y).
  rewrite (proj2 (Z.eqb_neq _ 0) Hsb). apply wp_when_true, wp_bind, wp_modify. flat.
  apply wp_bind, wp_lift_alloc, (wp_mono _ _ _ _ (ka_free_spec L _ _ HL HsL)). intros _ a HL1.
  eapply wp_upd_thr_insert; [reflexivity|]. fold y2. flat.
  apply wp_bind. eapply (unlink_from_process_spec _ t y2 px l1 l2); [cbn; apply lookup_insert_eq|done|done| |].
  { by apply (threads_of_keep threads _ _ _ _ y). }
  flat. apply wp_bind. eapply (unlink_thread_spec _ t y2 g1 g2).
  { apply (lseg_ext _ (<[t := y2]> threads)); [|by apply (lseg_insert_keep _ _ _ _ _ _ y)].
    intros b z Hb Hz. cbn. rewrite relink_lookup, Hz. eexists. split; [done|]. simpl. by destruct (decide (last l1 = Some b)). }
  { done. }
  { cbn. rewrite size_relink, map_size_insert_Some by (exists y; exact Hy). cbn in Hsize. by rewrite Hsize. }
  { cbn. rewrite relink_lookup_other by done. apply lookup_insert_eq. }
  flat. apply wp_bind, wp_bind, wp_lift_alloc.
  apply (wp_mono _ _ _ _ (ka_free_spec _ a t HL1 ltac:(clear -HtL Hst; set_solver))). intros _ a2 HL2.
  apply wp_modify. flat. apply wp_bind, wp_modify, wp_ret. flat.
  refine (Hok (removed threads t y y2 l1 g1) a2 eq_refl Hy Htid Hcur Hpx Hof _ _ HL2).
  - apply removed_eq.
  - intros b Hb. by apply removed_ne.
Qed.
End thread_proofs.

(** ** Sample states: a 256 KB heap, one process, then one thread *)
Lemma thr_inv_nil {A} `{KA : KAlloc A} ps (s : ks A) :
  proc_inv ps s → threads s = ∅ → thread_list s = 0 → thread_count s = 0 → next_tid s = 1 →
  (∀ p x, procs s !! p = Some x → p_threads x = 0 ∧ p_thread_count x = 0) → thr_inv [] s.
Proof.
  intros Hp Ht Hl Hc Hn Hx. split; rewrite ?Ht, ?Hl, ?Hc, ?Hn; try done.
  - constructor.
  - intros p x Hpx. destruct (Hx p x Hpx) as [H1 H2]. exists []. unfold threads_of. rewrite H1, H2.
    split_and!; [done|constructor|done|]. intros t. split; [by intros ?%not_elem_of_nil|by intros (y & ? & _)].
  - destruct (pi_alloc _ _ Hp) as (L & HL & Hsub). exists L. split; [done|].
    split; rewrite ?dom_empty_L; [|set_solver|set_solver|done|done]. by rewrite (pi_dom _ _ Hp).
Qed.

Definition sample_big_heap : heap := (heap_init (heap_boot ∅) 0x100000 0x40000).2.
Definition sample_p : ks heap :=
  match create_process (Some init_name) 0 (ks_boot sample_big_heap) with
  | Ok (_, s) => s
  | _ => ks_boot sample_big_heap
  end.

Lemma sample_p_run : create_process (Some init_name) 0 (ks_boot sample_big_heap) = Ok (0x100028, sample_p).
Proof. vm_compute. reflexivity. Qed.

Lemma sample_big_inv : proc_inv [] (ks_boot sample_big_heap).
Proof.
  split; try done; try (by intros a x ?).
  - constructor.
  - exists ∅. split; [|set_solver]. exists [mk_blk 0x40000 false]. split; [|done].
    pose proof (heap_init_spec (heap_boot ∅) 0x100000 0x40000 ltac:(lia) ltac:(lia) ltac:(lia)) as H.
    unfold sample_big_heap. change (alloc (ks_boot ?h)) with h.
    destruct (heap_init (heap_boot ∅) 0x100000 0x40000) as [r s]. destruct H as (_ & Hok & _). exact Hok.
Qed.

Lemma sample_p_inv : proc_inv [0x100028] sample_p ∧ thr_inv [] sample_p.
Proof.
  pose proof (create_process_spec [] (ks_boot sample_big_heap) init_name 0
    (λ p s', p = 0 ∨ (proc_inv [p] s' ∧ ∃ x, procs s' !! p = Some x ∧
       p_threads x = 0 ∧ p_thread_count x = 0)) sample_big_inv ltac:(done)) as H.
  unfold wp in H. rewrite sample_p_run in H.
  destruct H as [H|(Hinv & x & Hx & Hpt & Hpc)]; [by left| |done|].
  - intros p s' q _ _ Hinv _ (x & Hx & Hc) _ _ _. right. split; [done|]. exists x. split; [done|].
    split; [by apply (f_equal p_threads) in Hc|by apply (f_equal p_thread_count) in Hc].
  - split; [done|]. apply (thr_inv_nil [0x100028]); [done|by vm_compute..|].
    intros p y Hy. assert (p = 0x100028) as ->.
    { apply elem_of_dom_2 in Hy. rewrite (pi_dom _ _ Hinv) in Hy. clear -Hy. set_solver. }
    by rewrite Hx in Hy; injection Hy as <-.
Qed.

(** ** Theorems *)
Section thread_theorems.
Context {A : Type} `{KA : KAlloc A}.
Implicit Types s : ks A.

(** The process list does not see a change of the thread fields of a process. *)
Lemma proc_inv_update ps s s' p x x' :
  proc_inv ps s → procs s !! p = Some x → procs s' = <[p := x']> (procs s) →
  p_next x' = p_next x → p_prev x' = p_prev x → p_pid x' = p_pid x →
  process_list s' = process_list s → process_count s' = process_count s → next_pid s' = next_pid s →
  (∃ L, ka_inv L (alloc s') ∧ dom (procs s') ⊆ L) → proc_inv ps s'.
Proof.
  intros [Hdls Hnd Hdom Hcnt Hbd Hpids Hinj Hnext _] Hx Hm Hn Hp Hpid El Ec En (L & HL & Hsub).
  assert (dom (procs s') = dom (procs s)) as Hd by (rewrite Hm, dom_insert_lookup_L; [done|by eauto]).
  assert (∀ a y, procs s' !! a = Some y → ∃ z, procs s !! a = Some z ∧ p_pid y = p_pid z) as Hold.
  { intros a y. rewrite Hm. intros [[<- <-]|[_ Hy]]%lookup_insert_Some; by eauto. }
  split; rewrite ?El, ?Ec, ?En; try done.
  - rewrite Hm. apply (dls_ext (procs s)); [|done]. intros b z Hb Hz. destruct (decide (b = p)) as [->|].
    + exists x'. rewrite lookup_insert_eq. assert (z = x) as -> by congruence. done.
    + exists z. by rewrite lookup_insert_ne.
  - by rewrite Hd.
  - intros a y (z & Hz & ->)%Hold. by apply (Hpids a).
  - intros a b y z (y' & Hy' & E1)%Hold (z' & Hz' & E2)%Hold Heq. apply (Hinj a b y' z'); congruence.
  - exists L. split; [done|]. by rewrite <- Hdom, <- Hd.
Qed.

Lemma after_create_inv ps ts s pid entry arg t p px stack a L :
  proc_inv ps s → thr_inv ts s → next_tid s + 1 < 2 ^ 32 →
  procs s !! p = Some px → p ≠ 0 → t ≠ 0 → stack ≠ 0 → t ∉ L → stack ∉ {[t]} ∪ L →
  owned L (procs s) (threads s) → ka_inv ({[stack]} ∪ ({[t]} ∪ L)) a →
  let s' := after_create s t (new_thread s pid entry arg p px stack) p px a in
  proc_inv ps s' ∧ thr_inv (t :: ts) s'.
Proof.
  intros Hp Ht Hn Hpx Hp0 Ht0 Hs0 HtL HsL Hown HL s'.
  assert (thr_inv (t :: ts) s') as Hinv' by (by apply (insert_thread_inv ts s t _ p px L)).
  split; [|done].
  apply (proc_inv_update ps s _ p px (with_thread px t)); try done;
    try (unfold with_thread; by destruct (p_threads px =? 0)).
  destruct (ti_alloc _ _ Hinv') as (L' & HL' & Hown'). exists L'. split; [done|exact (ow_procs _ _ _ Hown')].
Qed.


(** What [destroy_thread] gives back to the allocator, for every set of live
    pointers that accounts for the blocks and stacks in use. *)
Lemma destroy_thread_releases ts s tid L r s' :
  thr_inv ts s → ka_inv L (alloc s) → owned L (procs s) (threads s) →
  destroy_thread tid s = Ok (r, s') → r = KERN_SUCCESS →
  ∀ t y, threads s !! t = Some y → t_tid y = tid → ka_inv (L ∖ {[t_stack_base y; t]}) (alloc s').
Proof.
  intros Ht HL Hown Hrun Hr t y Hy Htid.
  cut (wp (destroy_thread tid) (λ r s', r = KERN_SUCCESS → ka_inv (L ∖ {[t_stack_base y; t]}) (alloc s')) s).
  { unfold wp. rewrite Hrun. auto. }
  apply (destroy_thread_spec ts L); [done..|].
  intros g1 t' g2 y' px l1 l2 m a _ Hy' Htid' _ _ _ _ _ Ha _.
  assert (t' = t) as -> by (apply (ti_inj _ _ Ht t' t y' y); congruence).
  assert (y' = y) as -> by congruence.
  by rewrite (difference_difference_l_L L) in Ha.
Qed.

(** The thread and process lists after [destroy_thread]. *)
Lemma destroy_thread_lists ps ts s tid :
  proc_inv ps s → thr_inv ts s →
  wp (destroy_thread tid) (λ r s',
    (r = KERN_NOTFOUND ∧ s' = s ∧ ∀ t y, threads s !! t = Some y → t_tid y ≠ tid) ∨
    (r = KERN_BUSY ∧ s' = s ∧ ∃ y, threads s !! current_thread s = Some y ∧ t_tid y = tid) ∨
    (r = KERN_SUCCESS ∧ ∃ g1 t g2 y, ts = g1 ++ t :: g2 ∧ threads s !! t = Some y ∧ t_tid y = tid ∧
       t ≠ current_thread s ∧
       proc_inv ps s' ∧ thr_inv (g1 ++ g2) s' ∧ threads s' !! t = None ∧
       (∀ b, b ≠ t → t_core <$> threads s' !! b = t_core <$> threads s !! b) ∧
       (∀ i, t_stack_base y ≤ i < t_stack_base y + t_stack_size y → rd8 (buffers s') i = 0))) s.
Proof.
  intros Hp Ht. destruct (ti_alloc _ _ Ht) as (L & HL & Hown).
  apply (destroy_thread_spec ts L); [done..|by left| |].
  - intros y Hy Htid. right; left. by eauto.
  - intros g1 t g2 y px l1 l2 m a -> Hy Htid Hcur Hpx Hof Hmt Hm Ha. right; right. split; [done|].
    exists g1, t, g2, y.
    assert (thr_inv (g1 ++ g2) (after_destroy s m (if decide (g1 = []) then t_sched_next y else thread_list s)
      (t_process y) (without_thread px t l1 (t_next y))
      (memset (buffers s) (t_stack_base y) 0 (t_stack_size y)) a)) as Hinv'
      by (by apply (delete_thread_inv s g1 t g2 y px l1 l2 m _ a L)).
    split_and!; [done..| |done|done| |].
    + destruct (without_thread_fields px t l1 (t_next y)) as (_ & _ & E1 & E2 & E3).
      apply (proc_inv_update ps s _ (t_process y) px (without_thread px t l1 (t_next y))); try done.
      destruct (ti_alloc _ _ Hinv') as (L' & HL' & Hown'). exists L'. split; [done|exact (ow_procs _ _ _ Hown')].
    + intros b Hb. change (threads (after_destroy _ _ _ _ _ _ _)) with m. rewrite Hm by done.
      destruct (threads s !! b); simpl; [by rewrite past_core|done].
    + intros i Hi. change (buffers (after_destroy _ _ _ _ _ ?b _)) with b.
      rewrite rd8_memset, decide_True; [done|lia].
Qed.

(** C11: [destroy_thread] reports a missing TID and the running thread without
    changing anything; otherwise it unlinks exactly that thread from the global
    list and from its process, clears its stack, returns exactly the stack and the
    block to the allocator (the set of live allocations loses those two pointers
    and no other), and keeps the contents and order of all others; processes,
    lists, counts and allocations stay consistent. *)
Theorem destroy_thread_correct ps ts s tid :
  proc_inv ps s → thr_inv ts s →
  wp (destroy_thread tid) (λ r s',
    (r = KERN_NOTFOUND ∧ s' = s ∧ ∀ t y, threads s !! t = Some y → t_tid y ≠ tid) ∨
    (r = KERN_BUSY ∧ s' = s ∧ ∃ y, threads s !! current_thread s = Some y ∧ t_tid y = tid) ∨
    (r = KERN_SUCCESS ∧ ∃ g1 t g2 y, ts = g1 ++ t :: g2 ∧ threads s !! t = Some y ∧ t_tid y = tid ∧
       t ≠ current_thread s ∧
       proc_inv ps s' ∧ thr_inv (g1 ++ g2) s' ∧ threads s' !! t = None ∧
       (∀ b, b ≠ t → t_core <$> threads s' !! b = t_core <$> threads s !! b) ∧
       (∀ i, t_stack_base y ≤ i < t_stack_base y + t_stack_size y → rd8 (buffers s') i = 0) ∧
       t_stack_base y ≠ t ∧
       (∀ L, ka_inv L (alloc s) → owned L (procs s) (threads s) →
          {[t_stack_base y; t]} ⊆ L ∧ ka_inv (L ∖ {[t_stack_base y; t]}) (alloc s')))) s.
Proof.
  intros Hp Ht. destruct (proj1 (wp_run _ _ _) (destroy_thread_lists ps ts s tid Hp Ht)) as (r & s' & Hrun & Hpost).
  apply wp_run. exists r, s'. split; [done|]. destruct Hpost as [?|[?|(Hr & g1 & t & g2 & y & Hpost)]]; [by left|by right; left|].
  right; right. split; [done|]. exists g1, t, g2, y. destruct Hpost as (Hts & Hy & Htid & Hcur & ?&?&?&?&?).
  destruct (ti_alloc _ _ Ht) as (L0 & _ & Hown0). destruct (ow_stack _ _ _ Hown0 t y Hy) as (_ & Hsm & _).
  split_and!; try done.
  - intros Heq. apply Hsm. rewrite Heq. by apply elem_of_dom.
  - intros L HL Hown. split; [|by apply (destroy_thread_releases ts s tid L r s')].
    destruct (ow_stack _ _ _ Hown t y Hy) as (HsL & _). apply elem_of_dom_2 in Hy.
    apply (ow_threads _ _ _ Hown) in Hy. clear -HsL Hy. set_solver.
Qed.
End thread_theorems.


(** The sample with its thread. *)
Definition sample_t : ks heap :=
  match create_thread 1 0x401000 7 sample_p with Ok (_, s) => s | _ => sample_p end.

Lemma sample_t_run : create_thread 1 0x401000 7 sample_p = Ok (0x100140, sample_t).
Proof.
  assert (match create_thread 1 0x401000 7 sample_p with Ok (t, _) => t | _ => 0 end = 0x100140) as H
    by (vm_compute; reflexivity).
  unfold sample_t. destruct (create_thread 1 0x401000 7 sample_p) as [[t s]| | |]; try discriminate H. by rewrite H.
Qed.

Lemma sample_t_inv : proc_inv [0x100028] sample_t ∧ thr_inv [0x100140] sample_t.
Proof.
  pose proof (create_thread_spec [0x100028] [] sample_p 1 0x401000 7
    (λ t s', t = 0 ∨ (proc_inv [0x100028] s' ∧ thr_inv [t] s')) (proj1 sample_p_inv) (proj2 sample_p_inv)
    ltac:(vm_compute; reflexivity) ltac:(done)) as H.
  unfold wp in H. rewrite sample_t_run in H. destruct H as [H|H]; [by left|by left| |discriminate H|exact H].
  intros t p px stack a L Hpx _ Hp0 Ht0 Hs0 HtL HsL Hown HL. right.
  apply (after_create_inv [0x100028] [] sample_p 1 0x401000 7 t p px stack a L);
    [apply sample_p_inv|apply sample_p_inv|vm_compute; reflexivity|assumption..].
Qed.

Lemma destroy_thread_correct_witness : ∃ r s', destroy_thread 1 sample_t = Ok (r, s').
Proof.
  pose proof (destroy_thread_correct [0x100028] [0x100140] sample_t 1 (proj1 sample_t_inv) (proj2 sample_t_inv)) as H.
  destruct (proj1 (wp_run _ _ _) H) as (r & s' & Hrun & _). exists r, s'. exact Hrun.
Defined.
