(* ===== verification/Scheduler.v ===== *)
(** * The scheduler (sched/scheduler.c, and [sleep] of sched/thread.c)

    Ready and sleeping threads are singly linked through [t_sched_next], the field
    that also links the global thread list of thread.c.  The abstract state of a
    queue is the list of the threads it visits. *)
From S2P Require Import Prelude.
From S2P Require Import Memory.
From S2P Require Import Heap.
From S2P Require Import SchedState.
From S2P Require Import Process.
From S2P Require Import Thread.
Local Open Scope Z_scope.

Definition SCHED_POLICY_ROUND_ROBIN : Z := 1.
Definition SCHED_POLICY_PRIORITY : Z := 2.
Definition SCHED_POLICY_CFS : Z := 3.
Definition SCHED_POLICY_REALTIME : Z := 4.

Section scheduler.
Context {A : Type}.

(** [arch_halt] loops for ever. *)
Definition arch_halt : prog (ks A) () := halt.

Definition scheduler_init : prog (ks A) Z :=
  modify (λ s, s <| current_policy := SCHED_POLICY_ROUND_ROBIN |> <| time_quantum := TIME_SLICE_DEFAULT |>
    <| scheduler_enabled := false |> <| preemption_enabled := false |>
    <| ready_queue := 0 |> <| sleeping_queue := 0 |>
    <| sstats := mk_sched_stats 0 0 0 0 0 0 0 |> <| tick_counter := 0 |>) ;;;
  t <- get_system_time ;;
  modify (λ s, s <| last_schedule_time := t |>) ;;;
  ret KERN_SUCCESS.

Definition scheduler_enable (enable_preemption : bool) : prog (ks A) () :=
  modify (λ s, s <| scheduler_enabled := true |> <| preemption_enabled := enable_preemption |>).

Definition scheduler_disable : prog (ks A) () :=
  modify (λ s, s <| scheduler_enabled := false |> <| preemption_enabled := false |>).

Definition add_to_ready_queue (thread : Z) : prog (ks A) () :=
  if thread =? 0 then ret ()
  else
    s <- get ;;
    upd_thr thread (λ x, x <| t_sched_next := ready_queue s |>) ;;;
    modify (λ s, s <| ready_queue := thread |>) ;;;
    upd_thr thread (λ x, x <| t_state := THREAD_STATE_READY |>).

Definition remove_from_ready_queue : prog (ks A) Z :=
  thread <- gets ready_queue ;;
  if thread =? 0 then ret 0
  else
    x <- ld_thr thread ;;
    modify (λ s, s <| ready_queue := t_sched_next x |>) ;;;
    upd_thr thread (λ x, x <| t_sched_next := 0 |>) ;;;
    ret thread.

(** Every policy, and the default, takes the head of the ready queue. *)
Definition select_next_thread : prog (ks A) Z :=
  p <- gets current_policy ;;
  if p =? SCHED_POLICY_PRIORITY then remove_from_ready_queue
  else if p =? SCHED_POLICY_CFS then remove_from_ready_queue
  else if p =? SCHED_POLICY_REALTIME then remove_from_ready_queue
  else remove_from_ready_queue.

Definition update_thread_statistics (thread time_used : Z) : prog (ks A) () :=
  if thread =? 0 then ret ()
  else
    x <- ld_thr thread ;;
    if t_process x =? 0 then ret ()
    else
      upd_proc (t_process x) (λ y, y <| p_cpu_time := u64 (p_cpu_time y + time_used) |>) ;;;
      modify (λ s, s <| sstats := (sstats s) <| ss_total_cpu_time := u64 (ss_total_cpu_time (sstats s) + time_used) |> |>).

Definition context_switch (prev next : Z) : prog (ks A) () :=
  if next =? 0 then ret ()
  else
    when (negb (prev =? 0))
      (x <- ld_thr prev ;;
       when (bool_decide (t_state x = THREAD_STATE_RUNNING))
         (upd_thr prev (λ x, x <| t_state := THREAD_STATE_READY |>))) ;;;
    set_current_thread next ;;;
    upd_thr next (λ x, x <| t_state := THREAD_STATE_RUNNING |> <| t_remaining_time := t_time_slice x |>) ;;;
    y <- ld_thr next ;;
    other <- (if prev =? 0 then ret true
              else x <- ld_thr prev ;; ret (negb (t_process x =? t_process y))) ;;
    when other
      (set_current_process (t_process y) ;;;
       when (negb (t_process y =? 0)) (_ <- ld_proc (t_process y) ;; ret ())).

Definition schedule : prog (ks A) () :=
  en <- gets scheduler_enabled ;;
  if negb en then ret ()
  else
    current <- get_current_thread ;;
    next <- select_next_thread ;;
    if next =? 0 then (if current =? 0 then arch_halt else ret ())
    else if current =? next then upd_thr current (λ x, x <| t_remaining_time := t_time_slice x |>)
    else
      modify (λ s, s <| sstats := (sstats s)
        <| ss_context_switches := u64 (ss_context_switches (sstats s) + 1) |> |>) ;;;
      current_time <- get_system_time ;;
      last <- gets last_schedule_time ;;
      when (negb (current =? 0) && (0 <? last))
        (update_thread_statistics current (u64 (current_time - last))) ;;;
      context_switch current next ;;;
      modify (λ s, s <| last_schedule_time := current_time |>).

Definition yield : prog (ks A) () :=
  en <- gets scheduler_enabled ;;
  if negb en then ret ()
  else
    current <- get_current_thread ;;
    when (negb (current =? 0))
      (upd_thr current (λ x, x <| t_remaining_time := t_time_slice x |>) ;;;
       x <- ld_thr current ;;
       when (bool_decide (t_state x = THREAD_STATE_RUNNING))
         (upd_thr current (λ x, x <| t_state := THREAD_STATE_READY |>) ;;;
          add_to_ready_queue current)) ;;;
    schedule.

(** The loop of [update_sleep_queue]. *)
Fixpoint wake_expired (fuel : nat) (current_time thread prev : Z) : prog (ks A) () :=
  match fuel with
  | O => diverge
  | S fuel =>
      if thread =? 0 then ret ()
      else
        x <- ld_thr thread ;;
        let next := t_sched_next x in
        if t_sleep_until x <=? current_time then
          (if negb (prev =? 0) then upd_thr prev (λ y, y <| t_sched_next := next |>)
           else modify (λ s, s <| sleeping_queue := next |>)) ;;;
          wakeup thread ;;;
          add_to_ready_queue thread ;;;
          wake_expired fuel current_time next prev
        else wake_expired fuel current_time next thread
  end.

Definition update_sleep_queue : prog (ks A) () :=
  current_time <- get_system_time ;;
  s <- get ;;
  wake_expired (thread_fuel s) current_time (sleeping_queue s) 0.

Definition scheduler_tick : prog (ks A) () :=
  en <- gets scheduler_enabled ;;
  if negb en then ret ()
  else
    modify (λ s, s <| tick_counter := u64 (tick_counter s + 1) |>) ;;;
    update_sleep_queue ;;;
    pre <- gets preemption_enabled ;;
    when pre
      (current <- get_current_thread ;;
       when (negb (current =? 0))
         (x <- ld_thr current ;;
          when (0 <? t_remaining_time x)
            (upd_thr current (λ x, x <| t_remaining_time := u32 (t_remaining_time x - 1) |>) ;;;
             x <- ld_thr current ;;
             when (t_remaining_time x =? 0)
               (upd_thr current (λ x, x <| t_state := THREAD_STATE_READY |>) ;;;
                add_to_ready_queue current ;;;
                schedule)))).

Definition scheduler_add_thread (thread : Z) : prog (ks A) () :=
  if thread =? 0 then ret ()
  else
    upd_thr thread (λ x, x <| t_state := THREAD_STATE_READY |> <| t_remaining_time := t_time_slice x |>) ;;;
    add_to_ready_queue thread.

(** Removal of [thread] from a queue whose head is read with [hd] and set with [set]. *)
Definition remove_from_queue (hd : ks A → Z) (set : Z → ks A → ks A) (thread : Z) : prog (ks A) () :=
  s <- get ;;
  if hd s =? thread then x <- ld_thr thread ;; modify (set (t_sched_next x))
  else
    curr <- find_pred (thread_fuel s) (hd s) thread ;;
    when (negb (curr =? 0))
      (x <- ld_thr thread ;; upd_thr curr (λ y, y <| t_sched_next := t_sched_next x |>)).

Definition scheduler_remove_thread (thread : Z) : prog (ks A) () :=
  if thread =? 0 then ret ()
  else
    remove_from_queue ready_queue (λ v s, s <| ready_queue := v |>) thread ;;;
    remove_from_queue sleeping_queue (λ v s, s <| sleeping_queue := v |>) thread ;;;
    upd_thr thread (λ x, x <| t_sched_next := 0 |>).

Definition scheduler_set_policy (policy : Z) : prog (ks A) Z :=
  if (policy =? SCHED_POLICY_ROUND_ROBIN) || (policy =? SCHED_POLICY_PRIORITY)
     || (policy =? SCHED_POLICY_CFS) || (policy =? SCHED_POLICY_REALTIME)
  then modify (λ s, s <| current_policy := policy |>) ;;; ret KERN_SUCCESS
  else ret KERN_INVALID.

Definition scheduler_get_policy : prog (ks A) Z := gets current_policy.

(** The loop that counts the ready queue in [get_scheduler_stats]. *)
Fixpoint count_ready (fuel : nat) (thread : Z) : prog (ks A) () :=
  match fuel with
  | O => diverge
  | S fuel =>
      if thread =? 0 then ret ()
      else
        modify (λ s, s <| sstats := (sstats s)
          <| ss_runnable_threads := u32 (ss_runnable_threads (sstats s) + 1) |> |>) ;;;
        x <- ld_thr thread ;; count_ready fuel (t_sched_next x)
  end.

Definition get_scheduler_stats : prog (ks A) scheduler_stats :=
  modify (λ s, s <| sstats := (sstats s) <| ss_active_processes := 0 |> <| ss_active_threads := 0 |>
    <| ss_runnable_threads := 0 |> |>) ;;;
  s <- get ;;
  count_ready (thread_fuel s) (ready_queue s) ;;;
  gets sstats.

Definition sleep (milliseconds : Z) : prog (ks A) () :=
  current <- get_current_thread ;;
  if current =? 0 then ret ()
  else
    t <- get_system_time ;;
    upd_thr current (λ x, x <| t_sleep_until := u64 (t + milliseconds) |>
      <| t_state := THREAD_STATE_SLEEPING |>) ;;;
    yield.
End scheduler.

(** ** Queues *)
Section scheduler_proofs.
Context {A : Type}.
Implicit Types s : ks A.

(** The ready queue and the sleeping queue, as lists. *)
Definition ready s (q : list Z) : Prop := linked t_sched_next (threads s) (ready_queue s) q.
Definition sleeping s (l : list Z) : Prop := linked t_sched_next (threads s) (sleeping_queue s) l.

(** A thread block but for its queue link. *)
Definition s_core (x : thread) : thread := x <| t_sched_next := 0 |>.

(** What putting [x] on top of the ready queue makes of its block. *)
Definition readied (rq : Z) (x : thread) : thread :=
  x <| t_sched_next := rq |> <| t_state := THREAD_STATE_READY |>.

Lemma add_to_ready_queue_spec s t x Q :
  threads s !! t = Some x → t ≠ 0 →
  Q () (s <| threads := <[t := readied (ready_queue s) x]> (threads s) |> <| ready_queue := t |>) →
  wp (add_to_ready_queue t) Q s.
Proof.
  intros Hx Ht HQ. unfold add_to_ready_queue. rewrite (proj2 (Z.eqb_neq t 0) Ht).
  apply wp_bind, wp_get, wp_bind, (wp_upd_thr _ x); [done|]. apply wp_bind, wp_modify.
  eapply wp_upd_thr_insert; [reflexivity|]. exact HQ.
Qed.

Lemma select_none_spec s (Q : Z → ks A → Prop) : ready_queue s = 0 → Q 0 s → wp select_next_thread Q s.
Proof.
  intros Hr HQ. apply wp_bind, wp_gets. repeat case_if; apply wp_bind, wp_gets; by rewrite Hr.
Qed.

Lemma select_next_spec s n x (Q : Z → ks A → Prop) :
  ready_queue s = n → n ≠ 0 → threads s !! n = Some x →
  Q n (s <| ready_queue := t_sched_next x |> <| threads := <[n := s_core x]> (threads s) |>) →
  wp select_next_thread Q s.
Proof.
  intros Hr Hn Hx HQ. apply wp_bind, wp_gets.
  assert (wp remove_from_ready_queue Q s); [|by repeat case_if].
  apply wp_bind, wp_gets. rewrite Hr, (proj2 (Z.eqb_neq n 0) Hn). apply wp_bind, (wp_ld_thr _ x); [done|].
  apply wp_bind, wp_modify, wp_bind, (wp_upd_thr _ x); [done|]. by apply wp_ret.
Qed.

(** Reselecting the current thread only gives it a new time slice. *)
Lemma schedule_same_spec s c x Q :
  scheduler_enabled s = true → current_thread s = c → ready_queue s = c → c ≠ 0 → threads s !! c = Some x →
  Q () (s <| ready_queue := t_sched_next x |>
          <| threads := <[c := (s_core x) <| t_remaining_time := t_time_slice x |>]> (threads s) |>) →
  wp schedule Q s.
Proof.
  intros He Hc Hr Hc0 Hx HQ. apply wp_bind, wp_gets. rewrite He. apply wp_bind, wp_gets. rewrite Hc.
  apply wp_bind, (select_next_spec s c x); [done..|]. rewrite (proj2 (Z.eqb_neq c 0) Hc0), Z.eqb_refl.
  eapply wp_upd_thr_insert; [reflexivity|]. exact HQ.
Qed.

(** ** Waking *)
Definition expired (m : gmap Z thread) (now b : Z) : bool :=
  match m !! b with Some x => t_sleep_until x <=? now | None => false end.

Definition woken (x : thread) : thread :=
  (if bool_decide (t_state x = THREAD_STATE_SLEEPING) then x <| t_sleep_until := 0 |> else x)
    <| t_state := THREAD_STATE_READY |>.

Lemma wakeup_add_spec s t x Q :
  threads s !! t = Some x → t ≠ 0 →
  Q () (s <| threads := <[t := (woken x) <| t_sched_next := ready_queue s |>]> (threads s) |> <| ready_queue := t |>) →
  wp (wakeup t ;;; add_to_ready_queue t) Q s.
Proof.
  intros Hx Ht HQ. apply wp_bind. unfold wakeup. rewrite (proj2 (Z.eqb_neq t 0) Ht).
  apply wp_when_true, wp_bind, (wp_ld_thr _ x); [done|]. unfold woken in HQ.
  case_bool_decide; [apply wp_when_true, (wp_upd_thr _ x); [done|]|apply wp_when_false].
  - eapply add_to_ready_queue_spec; [apply lookup_insert_eq|done|]. cbn. rewrite insert_insert_eq. exact HQ.
  - apply (add_to_ready_queue_spec s t x); [done..|exact HQ].
Qed.

(** Sleeping threads [l] at store [m], ready threads [q]; [w] is what became of the
    store after waking the expired ones. *)
Record woke (now : Z) (m m' : gmap Z thread) (l : list Z) : Prop := {
  wk_in : ∀ b x, m !! b = Some x → b ∈ l → t_sleep_until x ≤ now →
    ∃ x', m' !! b = Some x' ∧ s_core x' = s_core (woken x);
  wk_out : ∀ b, b ∉ l ∨ expired m now b = false → s_core <$> m' !! b = s_core <$> m !! b
}.

Lemma expired_ext m m' now b : s_core <$> m' !! b = s_core <$> m !! b → expired m' now b = expired m now b.
Proof.
  unfold expired. destruct (m !! b) as [x|], (m' !! b) as [x'|]; simpl; try done.
  intros H%(inj Some)%(f_equal t_sleep_until). simpl in H. by rewrite H.
Qed.

Lemma woke_refl now m l : (∀ b, b ∈ l → expired m now b = false) → woke now m m l.
Proof.
  intros Hl. split; [|done]. intros b x Hx Hb Hle. specialize (Hl b Hb). unfold expired in Hl. rewrite Hx in Hl. lia.
Qed.

(** Waking [b] first and then the rest of [l]. *)
Lemma woke_cons now m m1 m2 b l x x1 :
  b ∉ l → m !! b = Some x → t_sleep_until x ≤ now → m1 !! b = Some x1 → s_core x1 = s_core (woken x) →
  (∀ c, c ≠ b → s_core <$> m1 !! c = s_core <$> m !! c) → woke now m1 m2 l → woke now m m2 (b :: l).
Proof.
  intros Hb Hx Hle Hx1 Hc1 Hout [Hi Ho]. split.
  - intros c y Hy [->|Hc]%elem_of_cons Hley.
    + assert (y = x) as -> by congruence. specialize (Ho b (or_introl Hb)). rewrite Hx1 in Ho.
      destruct (m2 !! b) as [x2|]; [|done]. exists x2. split; [done|]. apply (inj Some) in Ho. congruence.
    + assert (c ≠ b) as Hcb by congruence. specialize (Hout c Hcb). rewrite Hy in Hout.
      destruct (m1 !! c) as [y1|] eqn:Hy1; [|done]. apply (inj Some) in Hout.
      assert (t_sleep_until y1 = t_sleep_until y) as E by (by apply (f_equal t_sleep_until) in Hout).
      destruct (Hi c y1 Hy1 Hc) as (y2 & Hy2 & Hs); [lia|]. exists y2. split; [done|]. rewrite Hs. unfold woken.
      assert (t_state y1 = t_state y) as -> by (by apply (f_equal t_state) in Hout).
      apply (f_equal (λ z, z <| t_state := THREAD_STATE_READY |>)) in Hout.
      case_bool_decide; [|exact Hout]. by apply (f_equal (λ z, z <| t_sleep_until := 0 |>)) in Hout.
  - intros c Hc. assert (c ≠ b) as Hcb.
    { intros ->. destruct Hc as [Hc|Hc]; [apply Hc; by left|]. unfold expired in Hc. rewrite Hx in Hc. lia. }
    rewrite <- (Hout c Hcb). apply Ho. rewrite <- (expired_ext m m1) in Hc by (by apply Hout).
    destruct Hc as [Hc|Hc]; [left|by right]. intros ?. apply Hc. by right.
Qed.

Lemma wake_expired_unlink s K b l x Q :
  sleeping s (K ++ b :: l) → NoDup (K ++ b :: l) → threads s !! b = Some x →
  (let m := relink (with_sched_next (t_sched_next x)) K (threads s) in
   let hd := if decide (K = []) then t_sched_next x else sleeping_queue s in
   linked t_sched_next m hd (K ++ l) → Q () (s <| threads := m |> <| sleeping_queue := hd |>)) →
  wp (if negb (default 0 (last K) =? 0)
      then upd_thr (default 0 (last K)) (λ y, y <| t_sched_next := t_sched_next x |>)
      else modify (λ s, s <| sleeping_queue := t_sched_next x |>)) Q s.
Proof.
  intros Hl Hnd Hx HQ. simpl in HQ.
  assert (linked t_sched_next (relink (with_sched_next (t_sched_next x)) K (threads s))
    (if decide (K = []) then t_sched_next x else sleeping_queue s) (K ++ l)) as Hl'.
  { apply (linked_unlink _ (threads s) _ _ K b l x); [done..|]. intros c z Hc Hz.
    rewrite relink_lookup, Hz. eexists. split; [done|]. simpl. by destruct (decide (last K = Some c)). }
  specialize (HQ Hl'). destruct K as [|q K _] using rev_ind; [by destruct s|].
  rewrite last_snoc. simpl. rewrite decide_False in HQ by (by destruct K).
  destruct (lseg_inv _ _ _ _ _ q Hl) as [Hq [z Hz]]; [set_solver|]. rewrite (proj2 (Z.eqb_neq q 0) Hq).
  apply (wp_upd_thr _ z); [done|]. rewrite (relink_snoc _ _ _ _ z Hz) in HQ. by destruct s.
Qed.

Lemma relink_s_core v K (m : gmap Z thread) c :
  s_core <$> relink (with_sched_next v) K m !! c = s_core <$> m !! c.
Proof. rewrite relink_lookup. destruct (m !! c); [|done]. simpl. by destruct (decide _). Qed.

Lemma dom_relink f K (m : gmap Z thread) : dom (relink f K m) = dom m.
Proof. apply set_eq. intros c. by rewrite !elem_of_dom, relink_lookup, fmap_is_Some. Qed.

Lemma wake_expired_spec fuel now s K l q Q :
  sleeping s (K ++ l) → ready s q → NoDup (K ++ l ++ q) → (length l < fuel)%nat →
  (∀ m hd rq,
     linked t_sched_next m hd (K ++ filter (λ b, expired (threads s) now b = false) l) →
     linked t_sched_next m rq (reverse (filter (λ b, expired (threads s) now b = true) l) ++ q) →
     dom m = dom (threads s) → woke now (threads s) m l →
     Q () (s <| threads := m |> <| sleeping_queue := hd |> <| ready_queue := rq |>)) →
  wp (wake_expired fuel now (default 0 (head l)) (default 0 (last K))) Q s.
Proof.
  revert s K l q. induction fuel as [|fuel IH]; intros s K l q Hsl Hrd Hnd Hlen HQ; [lia|]. simpl.
  destruct l as [|b l].
  { replace s with (s <| threads := threads s |> <| sleeping_queue := sleeping_queue s |> <| ready_queue := ready_queue s |>)
      by (by destruct s). apply wp_ret, HQ; [done..|].
    apply woke_refl. by intros c ?%not_elem_of_nil. }
  pose proof Hsl as (d & Hk & (-> & Hb0 & x & Hx & Hl))%lseg_app. simpl.
  rewrite (proj2 (Z.eqb_neq b 0) Hb0). apply wp_bind, (wp_ld_thr _ x); [done|].
  assert (t_sched_next x = default 0 (head l)) as Hnext.
  { destruct l as [|c l]; [exact Hl|by destruct Hl]. }
  assert (expired (threads s) now b = (t_sleep_until x <=? now)) as Hexp by (unfold expired; by rewrite Hx).
  rewrite !filter_cons, Hexp in HQ.
  pose proof Hnd as (HndK & Hdis & HndR)%NoDup_app. cbn [app] in HndR, Hdis.
  apply NoDup_cons in HndR as [Hbl HndR]. rewrite Hnext.
  destruct (Z.leb_spec (t_sleep_until x) now) as [Hle|Hgt].
  - rewrite decide_False in HQ by done. rewrite decide_True in HQ by done.
    rewrite <- Hnext. apply wp_bind, (wake_expired_unlink s K b l x); [done| |done|].
    { rewrite (app_assoc K (b :: l) q) in Hnd. by apply NoDup_app in Hnd as (? & _). }
    intros m1 hd1 Hl1.
    assert (b ∉ K) as HbK by (intros H; apply (Hdis b H); by left).
    assert (m1 !! b = Some x) as Hm1 by (unfold m1; by rewrite relink_lookup_other).
    assert (linked t_sched_next m1 (ready_queue s) q) as Hq1.
    { apply (lseg_ext _ (threads s)); [|done]. intros c z Hc Hz. exists z. split; [|done].
      unfold m1. rewrite relink_lookup_other; [done|]. intros HcK. apply (Hdis c HcK). right. set_solver. }
    apply wp_assoc, (wakeup_add_spec _ b x); [exact Hm1|exact Hb0|]. rewrite Hnext.
    set (m2 := <[b := (woken x) <| t_sched_next := ready_queue s |>]> m1).
    change (wp (wake_expired fuel now (default 0 (head l)) (default 0 (last K))) Q
      (s <| threads := m2 |> <| sleeping_queue := hd1 |> <| ready_queue := b |>)).
    assert (∀ c, c ≠ b → s_core <$> m2 !! c = s_core <$> threads s !! c) as Hcore.
    { intros c Hc. unfold m2. rewrite lookup_insert_ne by done. apply relink_s_core. }
    assert (∀ c, c ∈ l → expired m2 now c = expired (threads s) now c) as Hext.
    { intros c Hc. apply expired_ext, Hcore. intros ->. apply Hbl. set_solver. }
    assert (∀ v, filter (λ c, expired m2 now c = v) l = filter (λ c, expired (threads s) now c = v) l) as Hfil.
    { intros v. apply filter_ext_in. intros c Hc. by rewrite Hext. }
    apply (IH (s <| threads := m2 |> <| sleeping_queue := hd1 |> <| ready_queue := b |>) K l (b :: q)).
    + apply lseg_insert_other; [done|]. set_solver.
    + split_and!; [done..|]. exists ((woken x) <| t_sched_next := ready_queue s |>).
      unfold m2. cbn. rewrite lookup_insert_eq. split; [done|]. apply lseg_insert_other; [done|]. set_solver.
    + by rewrite <- (Permutation_middle l q b).
    + simpl in Hlen. lia.
    + intros m hd rq Hm1' Hm2' Hdom Hwk. cbn in Hm1', Hm2', Hdom, Hwk.
      change (Q () (s <| threads := m |> <| sleeping_queue := hd |> <| ready_queue := rq |>)). apply HQ.
      * by rewrite Hfil in Hm1'.
      * rewrite reverse_cons, <- app_assoc. by rewrite Hfil in Hm2'.
      * rewrite Hdom. unfold m2. rewrite dom_insert_lookup_L by (by eexists). apply dom_relink.
      * apply (woke_cons now (threads s) m2 m b l x ((woken x) <| t_sched_next := ready_queue s |>)); try done.
        -- set_solver.
        -- unfold m2. apply lookup_insert_eq.
  - rewrite decide_True in HQ by done. rewrite decide_False in HQ by done.
    replace b with (default 0 (last (K ++ [b]))) at 1 by (by rewrite last_snoc).
    apply (IH s (K ++ [b]) l q); [by rewrite <- app_assoc|done| |simpl in Hlen; lia|].
    { by rewrite <- app_assoc. }
    intros m hd rq Hm1 Hm2 Hdom Hwk. rewrite <- app_assoc in Hm1. apply HQ; [done..|]. destruct Hwk as [Hi Ho]. split.
    + intros c y Hy [->|Hc]%elem_of_cons Hle; [|by eauto]. assert (y = x) as -> by congruence. lia.
    + intros c [Hc|Hc]; apply Ho; [left|by right]. intros ?. apply Hc. by right.
Qed.

(** ** Switching *)

(** Every thread belongs to a live process. *)
Definition owners_ok s : Prop :=
  ∀ t y, threads s !! t = Some y → t_process y ≠ 0 ∧ is_Some (procs s !! t_process y).

(** The thread switched away from and the thread switched to. *)
Definition preempted (x : thread) : thread :=
  if bool_decide (t_state x = THREAD_STATE_RUNNING) then x <| t_state := THREAD_STATE_READY |> else x.
Definition running (y : thread) : thread :=
  y <| t_state := THREAD_STATE_RUNNING |> <| t_remaining_time := t_time_slice y |>.

Lemma preempted_process x : t_process (preempted x) = t_process x.
Proof. unfold preempted. by case_bool_decide. Qed.

Definition switched (m : gmap Z thread) (c n : Z) (y : thread) : gmap Z thread :=
  <[n := running y]> (alter preempted c m).

(** The thread part of [context_switch]. *)
Lemma context_switch_spec s c n y (Q : () → ks A → Prop) :
  n ≠ 0 → c ≠ n → threads s !! n = Some y → c = 0 ∧ threads s !! c = None ∨ c ≠ 0 ∧ is_Some (threads s !! c) →
  t_process y ≠ 0 → is_Some (procs s !! t_process y) →
  (∀ pm ft cp,
     cp = (if bool_decide (c ≠ 0 ∧ t_process <$> threads s !! c = Some (t_process y))
           then current_process s else t_process y) →
     (∀ p, p_cpu_time <$> pm !! p = p_cpu_time <$> procs s !! p) →
     Q () (s <| threads := switched (threads s) c n y |> <| current_thread := n |>
             <| current_process := cp |> <| procs := pm |> <| fake_time := ft |>)) →
  wp (context_switch c n) Q s.
Proof.
  intros Hn Hcn Hy Hc Hp0 [py Hpy] HQ. unfold context_switch. rewrite (proj2 (Z.eqb_neq n 0) Hn). apply wp_bind.
  set (s1 := s <| threads := alter preempted c (threads s) |>).
  assert (threads s1 !! n = Some y) as Hy1 by (cbn; by rewrite lookup_alter_ne).
  apply (wp_mono _ (λ _ s', s' = s1)).
  { destruct Hc as [[-> Hc]|[Hc0 [x Hx]]].
    - apply wp_when_false. unfold s1. rewrite alter_id; [by destruct s|]. intros x Hx. congruence.
    - rewrite (proj2 (Z.eqb_neq c 0) Hc0). apply wp_when_true, wp_bind, (wp_ld_thr _ x); [done|].
      assert (∀ f : thread → thread, <[c := f x]> (threads s) = alter f c (threads s)) as Halt.
      { intros f. apply map_eq. intros b. destruct (decide (b = c)) as [->|].
        - by rewrite lookup_insert_eq, lookup_alter_eq, Hx.
        - by rewrite lookup_insert_ne, lookup_alter_ne. }
      unfold s1. rewrite <- Halt. unfold preempted.
      destruct (bool_decide (t_state x = _)); [by apply wp_when_true, (wp_upd_thr _ x)|apply wp_when_false].
      rewrite insert_id by done. by destruct s. }
  intros [] ? ->. apply wp_bind, wp_bind, wp_modify. rewrite (proj2 (Z.eqb_neq n 0) Hn).
  apply wp_when_true, (wp_upd_thr _ y); [done|]. apply wp_bind. eapply wp_upd_thr_insert; [reflexivity|].
  match goal with |- wp _ _ ?st => change st with
    (s <| threads := switched (threads s) c n y |> <| current_thread := n |>) end.
  set (s2 := s <| threads := switched (threads s) c n y |> <| current_thread := n |>).
  apply wp_bind, (wp_ld_thr _ (running y)); [apply lookup_insert_eq|].
  change (t_process (running y)) with (t_process y). apply wp_bind.
  apply (wp_mono _ (λ b s', s' = s2 ∧ b = negb (bool_decide (c ≠ 0 ∧ t_process <$> threads s !! c = Some (t_process y))))).
  { destruct Hc as [[-> Hc]|[Hc0 [x Hx]]].
    - apply wp_ret. rewrite bool_decide_false; [done|]. by intros [? _].
    - rewrite (proj2 (Z.eqb_neq c 0) Hc0). apply wp_bind, (wp_ld_thr _ (preempted x)).
      + cbn. unfold switched. by rewrite lookup_insert_ne, lookup_alter_eq, Hx.
      + apply wp_ret. split; [done|]. rewrite preempted_process, Hx. f_equal. simpl.
        destruct (Z.eqb_spec (t_process x) (t_process y)) as [E|E].
        * rewrite bool_decide_true; [done|]. by rewrite E.
        * rewrite bool_decide_false; [done|]. intros [_ ?]. congruence. }
  intros b ? [-> ->]. destruct (bool_decide _) eqn:E.
  - apply wp_when_false. replace s2 with (s2 <| current_process := current_process s |> <| procs := procs s |>
      <| fake_time := fake_time s |>) by (by unfold s2; destruct s). by apply HQ.
  - apply wp_when_true, wp_bind, wp_bind, wp_modify. rewrite (proj2 (Z.eqb_neq _ 0) Hp0).
    apply wp_when_true, wp_bind, wp_get_system_time, (wp_upd_proc _ py); [done|].
    apply wp_when_true, wp_bind. eapply wp_ld_proc; [apply lookup_insert_eq|]. apply wp_ret.
    match goal with |- Q () ?st => let pm := eval cbn in (procs st) in let ft := eval cbn in (fake_time st) in
      change (Q () (s2 <| current_process := t_process y |> <| procs := pm |> <| fake_time := ft |>)) end.
    apply HQ; [done|]. intros p. destruct (decide (p = t_process y)) as [->|].
    + by rewrite lookup_insert_eq, Hpy.
    + by rewrite lookup_insert_ne.
Qed.

(** What a switch from [c] to [n] leaves. *)
Record switch_post s (c n : Z) (y : thread) (q : list Z) s' : Prop := {
  sp_current : current_thread s' = n;
  sp_ready : ready s' q;
  sp_next : threads s' !! n = Some (running (s_core y));
  sp_prev : threads s' !! c = preempted <$> threads s !! c;
  sp_other : ∀ t, t ≠ n → t ≠ c → threads s' !! t = threads s !! t;
  sp_count : ss_context_switches (sstats s') = u64 (ss_context_switches (sstats s) + 1);
  sp_time : last_schedule_time s' = u64 (fake_time s + 1);
  sp_cpu : ∀ x, threads s !! c = Some x → 0 < last_schedule_time s →
    ss_total_cpu_time (sstats s') =
      u64 (ss_total_cpu_time (sstats s) + u64 (u64 (fake_time s + 1) - last_schedule_time s)) ∧
    ∀ p, p_cpu_time <$> procs s' !! p =
      (λ z, if decide (p = t_process x)
            then u64 (p_cpu_time z + u64 (u64 (fake_time s + 1) - last_schedule_time s))
            else p_cpu_time z) <$> procs s !! p;
  sp_process : threads s !! c = None ∨ t_process <$> threads s !! c ≠ Some (t_process y) →
    current_process s' = t_process y;
  sp_frame : sleeping_queue s' = sleeping_queue s ∧ scheduler_enabled s' = scheduler_enabled s ∧
    preemption_enabled s' = preemption_enabled s ∧ thread_list s' = thread_list s
}.

Lemma ready_after_switch s c n y q :
  ready s (n :: q) → NoDup (n :: q) → threads s !! n = Some y → c ≠ n →
  linked t_sched_next (switched (<[n := s_core y]> (threads s)) c n (s_core y)) (t_sched_next y) q.
Proof.
  intros (_ & _ & y' & Hy' & Hq) [Hn _]%NoDup_cons Hy Hcn. assert (y' = y) as -> by congruence.
  apply (lseg_ext _ (threads s)); [|done]. intros b z Hb Hz. unfold switched.
  assert (b ≠ n) by (by intros ->). rewrite lookup_insert_ne by done. destruct (decide (b = c)) as [->|].
  - rewrite lookup_alter_eq, lookup_insert_ne, Hz by done. eexists. split; [done|]. unfold preempted. by case_bool_decide.
  - rewrite lookup_alter_ne, lookup_insert_ne, Hz by done. by eexists.
Qed.

Lemma schedule_switch_spec s n q (Q : () → ks A → Prop) :
  scheduler_enabled s = true → ready s (n :: q) → NoDup (n :: q) → owners_ok s → current_thread s ≠ n →
  current_thread s = 0 ∧ threads s !! 0 = None ∨ current_thread s ≠ 0 ∧ is_Some (threads s !! current_thread s) →
  (∀ y s', threads s !! n = Some y → switch_post s (current_thread s) n y q s' → Q () s') →
  wp schedule Q s.
Proof.
  intros He Hr Hnd Hown Hcn Hc HQ. pose proof Hr as (Hrq & Hn0 & y & Hy & _).
  set (c := current_thread s) in *. set (now := u64 (fake_time s + 1)).
  apply wp_bind, wp_gets. rewrite He. apply wp_bind, wp_gets. fold c.
  apply wp_bind, (select_next_spec s n y); [done..|].
  rewrite (proj2 (Z.eqb_neq n 0) Hn0), (proj2 (Z.eqb_neq c n) Hcn).
  apply wp_bind, wp_modify, wp_bind, wp_get_system_time, wp_bind, wp_gets. cbn [fake_time fset]. fold now.
  assert (threads s !! c = None → c = 0) as Hc0.
  { intros Hno. destruct Hc as [[? _]|[_ [x Hx]]]; [done|congruence]. }
  match goal with |- wp _ _ ?st => set (s0 := st) end.
  set (used := u64 (now - last_schedule_time s0)).
  apply wp_bind, (wp_mono _ (λ _ s', ∃ pm st, s' = s0 <| procs := pm |> <| sstats := st |> ∧
    dom pm = dom (procs s) ∧ ss_context_switches st = u64 (ss_context_switches (sstats s) + 1) ∧
    ∀ x, threads s !! c = Some x → 0 < last_schedule_time s →
      ss_total_cpu_time st = u64 (ss_total_cpu_time (sstats s) + used) ∧
      ∀ p, p_cpu_time <$> pm !! p = (λ z, if decide (p = t_process x) then u64 (p_cpu_time z + used)
        else p_cpu_time z) <$> procs s !! p)).
  { assert (threads s = threads s → threads s0 !! c = threads s !! c) as Htc by (intros _; cbn; by rewrite lookup_insert_ne).
    destruct (negb (c =? 0) && (0 <? last_schedule_time s0)) eqn:Hb.
    - apply andb_prop in Hb as [Hb1%negb_true_iff%Z.eqb_neq Hb2%Z.ltb_lt]. apply wp_when_true.
      destruct Hc as [[? _]|[_ [x Hx]]]; [done|]. destruct (Hown c x Hx) as [Hp0 [px Hpx]].
      unfold update_thread_statistics. rewrite (proj2 (Z.eqb_neq c 0) Hb1).
      apply wp_bind, (wp_ld_thr _ x); [by rewrite Htc|]. rewrite (proj2 (Z.eqb_neq _ 0) Hp0).
      apply wp_bind, (wp_upd_proc _ px); [done|]. apply wp_modify.
      eexists _, _. split; [reflexivity|]. split_and!; [cbn; rewrite dom_insert_lookup_L; [done|by eexists]|done|].
      intros x' Hx' _. assert (x' = x) as -> by congruence. split; [done|]. intros p. cbn.
      destruct (decide (p = t_process x)) as [->|].
      + rewrite lookup_insert_eq, Hpx. apply (f_equal Some). by destruct (decide (t_process x = t_process x)).
      + rewrite lookup_insert_ne by done. destruct (procs s !! p); [|done]. apply (f_equal Some).
        by destruct (decide (p = t_process x)).
    - apply wp_when_false. exists (procs s), (sstats s0). split; [by unfold s0; destruct s|].
      split_and!; [done..|]. intros x Hx Hl. apply andb_false_iff in Hb as [Hb|Hb].
      + apply negb_false_iff, Z.eqb_eq in Hb. destruct Hc as [[_ Hc]|[? _]]; [|done]. rewrite Hb in Hx. congruence.
      + apply Z.ltb_ge in Hb. cbn in Hb. lia. }
  intros [] ? (pm & st & -> & Hdom & Hcs & Hcpu).
  assert (threads s0 !! c = threads s !! c) as Htc by (cbn; by rewrite lookup_insert_ne).
  destruct (Hown n y Hy) as [Hp0 Hpy].
  apply wp_bind, (context_switch_spec _ c n (s_core y)); [done..| | |done| |].
  { apply lookup_insert_eq. }
  { cbn. rewrite lookup_insert_ne by done. destruct Hc as [[E Hc]|Hc]; [left|by right]. by rewrite E in *. }
  { apply elem_of_dom. cbn. rewrite Hdom. by apply elem_of_dom. }
  intros pm' ft cp Hcp Hpm. apply wp_modify. apply (HQ y); [done|].
  match goal with |- switch_post _ _ _ _ _ ?x => set (s' := x) end.
  assert (threads s' = switched (<[n := s_core y]> (threads s)) c n (s_core y)) as Hth by done.
  split; [done|..]; unfold ready; rewrite ?Hth.
  - by apply ready_after_switch.
  - apply lookup_insert_eq.
  - unfold switched. by rewrite lookup_insert_ne, lookup_alter_eq, lookup_insert_ne by done.
  - intros t Ht1 Ht2. unfold switched. by rewrite lookup_insert_ne, lookup_alter_ne, lookup_insert_ne by done.
  - exact Hcs.
  - done.
  - intros x Hx Hl. destruct (Hcpu x Hx Hl) as [H1 H2]. split; [exact H1|]. intros p.
    rewrite <- H2. apply Hpm.
  - intros Hno. change (current_process s') with cp. rewrite Hcp, bool_decide_false; [done|].
    cbn. rewrite lookup_insert_ne by done. intros [Hne Heq]. destruct Hno as [Hno|Hno]; [|done].
    by apply Hne, Hc0.
  - done.
Qed.

(** ** Yielding and ticking *)

(** The block of a running thread that yields. *)
Definition yielded (x : thread) : thread :=
  x <| t_state := THREAD_STATE_READY |> <| t_remaining_time := t_time_slice x |> <| t_sched_next := 0 |>.

Lemma ks_ext_threads s (m m' : gmap Z thread) rq :
  m = m' → rq = ready_queue s →
  s <| threads := m |> <| ready_queue := rq |> = s <| threads := m' |>.
Proof. intros -> ->. by destruct s. Qed.

Lemma yield_running_spec s c x (Q : () → ks A → Prop) :
  scheduler_enabled s = true → current_thread s = c → c ≠ 0 → threads s !! c = Some x →
  t_state x = THREAD_STATE_RUNNING →
  Q () (s <| threads := <[c := yielded x]> (threads s) |>) → wp yield Q s.
Proof.
  intros He Hc Hc0 Hx Hst HQ. apply wp_bind, wp_gets. rewrite He. apply wp_bind, wp_gets. rewrite Hc.
  rewrite (proj2 (Z.eqb_neq c 0) Hc0). apply wp_bind, wp_when_true, wp_bind, (wp_upd_thr _ x); [done|].
  apply wp_bind. eapply wp_ld_thr; [apply lookup_insert_eq|].
  rewrite bool_decide_true by done. apply wp_when_true, wp_bind. eapply wp_upd_thr_insert; [reflexivity|].
  eapply add_to_ready_queue_spec; [apply lookup_insert_eq|done|].
  eapply schedule_same_spec; [done|exact Hc|done|done|apply lookup_insert_eq|].
  cbn. rewrite !insert_insert_eq. unfold yielded in HQ.
  match goal with |- Q () ?st => match type of HQ with Q () ?st' =>
    replace st with st'; [exact HQ|] end end. by destruct s.
Qed.

(** A thread that is current but not RUNNING gives way to the queue and is on no
    queue afterwards. *)
Lemma yield_ready_spec s c x n q (Q : () → ks A → Prop) :
  scheduler_enabled s = true → current_thread s = c → c ≠ 0 → threads s !! c = Some x →
  t_state x ≠ THREAD_STATE_RUNNING → ready s (n :: q) → NoDup (n :: q) → owners_ok s → c ∉ n :: q →
  (∀ y s', threads s !! n = Some y → current_thread s' = n → ready s' q →
     t_state <$> threads s' !! c = Some (t_state x) → Q () s') →
  wp yield Q s.
Proof.
  intros He Hc Hc0 Hx Hst Hr Hnd Hown Hnin HQ. apply wp_bind, wp_gets. rewrite He. apply wp_bind, wp_gets. rewrite Hc.
  rewrite (proj2 (Z.eqb_neq c 0) Hc0). apply wp_bind, wp_when_true, wp_bind, (wp_upd_thr _ x); [done|].
  apply wp_bind. eapply wp_ld_thr; [apply lookup_insert_eq|].
  rewrite bool_decide_false by done. apply wp_when_false.
  set (s1 := s <| threads := <[c := x <| t_remaining_time := t_time_slice x |>]> (threads s) |>).
  assert (n ≠ c) as Hnc by (intros ->; apply Hnin; by left).
  apply (schedule_switch_spec s1 n q); [done| |done| | | |].
  - by apply lseg_insert_other.
  - intros t y. cbn. intros [[<- <-]|[_ Hy]]%lookup_insert_Some; [exact (Hown c x Hx)|by apply (Hown t)].
  - change (current_thread s1) with (current_thread s). congruence.
  - right. change (current_thread s1) with (current_thread s). rewrite Hc. split; [done|]. cbn.
    rewrite lookup_insert_eq. by eexists.
  - intros y s' Hy [Hcur Hrd _ Hprev _ _ _ _ _ _]. change (current_thread s1) with (current_thread s) in Hprev.
    rewrite Hc in Hprev. cbn in Hprev. rewrite lookup_insert_eq in Hprev. cbn in Hy. rewrite lookup_insert_ne in Hy by done.
    apply (HQ y); [done..|]. rewrite Hprev. simpl. unfold preempted. by rewrite bool_decide_false.
Qed.

Lemma update_sleep_queue_spec s l q (Q : () → ks A → Prop) :
  sleeping s l → ready s q → NoDup (l ++ q) →
  (let now := u64 (fake_time s + 1) in
   ∀ m hd rq, linked t_sched_next m hd (filter (λ b, expired (threads s) now b = false) l) →
     linked t_sched_next m rq (reverse (filter (λ b, expired (threads s) now b = true) l) ++ q) →
     dom m = dom (threads s) → woke now (threads s) m l →
     Q () (s <| threads := m |> <| sleeping_queue := hd |> <| ready_queue := rq |> <| fake_time := now |>)) →
  wp update_sleep_queue Q s.
Proof.
  intros Hs Hr Hnd HQ. apply wp_bind, wp_get_system_time, wp_bind, wp_get.
  set (now := u64 (fake_time s + 1)) in *. cbv zeta in HQ. set (s1 := s <| fake_time := now |>).
  assert (sleeping_queue s1 = default 0 (head l)) as ->.
  { destruct l as [|b l]; [exact Hs|by destruct Hs]. }
  change 0 with (default 0 (last (@nil Z))) at 2.
  apply (wake_expired_spec (thread_fuel s1) now s1 [] l q); [done..| |].
  - unfold thread_fuel. change (threads s1) with (threads s). rewrite <- size_dom.
    apply NoDup_app in Hnd as (Hnd & _). rewrite <- (size_list_to_set (C:=gset Z) l) by done.
    apply Nat.lt_succ_r, subseteq_size. intros b Hb%elem_of_list_to_set. apply elem_of_dom.
    by destruct (lseg_inv _ _ _ _ _ b Hs Hb).
  - intros m hd rq H1 H2 H3 H4. change (Q () (s <| threads := m |> <| sleeping_queue := hd |>
      <| ready_queue := rq |> <| fake_time := now |>)). by apply HQ.
Qed.

Lemma scheduler_tick_spec s l q (Q : () → ks A → Prop) :
  sleeping s l → ready s q → NoDup (l ++ q) →
  (current_thread s ≠ 0 → is_Some (threads s !! current_thread s)) →
  (∀ s', current_thread s' = current_thread s →
     ss_context_switches (sstats s') = ss_context_switches (sstats s) → Q () s') →
  wp scheduler_tick Q s.
Proof.
  intros Hs Hr Hnd Hc HQ. apply wp_bind, wp_gets. destruct (scheduler_enabled s) eqn:He; [|by apply wp_ret, HQ].
  apply wp_bind, wp_modify, wp_bind.
  apply (update_sleep_queue_spec _ l q); [done..|]. intros now m hd rq _ _ Hdom _.
  match goal with |- wp _ _ ?st => set (s1 := st) end.
  apply wp_bind, wp_gets. destruct (preemption_enabled s1); [|by apply HQ].
  apply wp_when_true, wp_bind, wp_gets. change (current_thread s1) with (current_thread s).
  set (c := current_thread s) in *. destruct (Z.eqb_spec c 0) as [|Hc0]; [by apply HQ|].
  destruct (threads s1 !! c) as [x|] eqn:Hx.
  2:{ destruct (Hc Hc0) as [x Hx']. apply not_elem_of_dom in Hx. destruct Hx. cbn. rewrite Hdom.
      apply elem_of_dom. by eexists. }
  apply wp_when_true, wp_bind, (wp_ld_thr _ x); [done|].
  destruct (0 <? t_remaining_time x); [|by apply HQ].
  apply wp_when_true, wp_bind, (wp_upd_thr _ x); [done|]. apply wp_bind. eapply wp_ld_thr; [apply lookup_insert_eq|].
  destruct (_ =? 0); [|by apply HQ]. apply wp_when_true, wp_bind. eapply wp_upd_thr_insert; [reflexivity|].
  apply wp_bind. eapply add_to_ready_queue_spec; [apply lookup_insert_eq|done|].
  eapply schedule_same_spec; [exact He|reflexivity|reflexivity|exact Hc0|apply lookup_insert_eq|].
  by apply HQ.
Qed.
End scheduler_proofs.

(** ** The sleeping queue of a run *)
Section asleep.
Context {A : Type} `{KA : KAlloc A}.
Implicit Types s : ks A.

(** The program [m] leaves an empty sleeping queue empty. *)
Abbreviation asleep := (keeps (λ s : ks A, sleeping_queue s = 0)).

Lemma asleep_ld_thr t : asleep (ld_thr t).
Proof. intros s x s' Hs. unfold ld_thr. destruct (threads s !! t); [|done]. by intros [= _ <-]. Qed.
Lemma asleep_ld_proc p : asleep (ld_proc p).
Proof. intros s x s' Hs. unfold ld_proc. destruct (procs s !! p); [|done]. by intros [= _ <-]. Qed.
Lemma asleep_upd_thr t f : asleep (upd_thr t f).
Proof.
  apply keeps_bind; [apply asleep_ld_thr|]. intros x s y s' Hs. unfold st_thr.
  destruct (threads s !! t); [|done]. by intros [= _ <-].
Qed.
Lemma asleep_upd_proc p f : asleep (upd_proc p f).
Proof.
  apply keeps_bind; [apply asleep_ld_proc|]. intros x s y s' Hs. unfold st_proc.
  destruct (procs s !! p); [|done]. by intros [= _ <-].
Qed.
Lemma asleep_lift_alloc {X} (m : prog A X) : asleep (lift_alloc m).
Proof.
  intros s x s' Hs. unfold lift_alloc. destruct (m (alloc s)) as [[y a]| | |]; [|done..]. by intros [= _ <-].
Qed.
Lemma asleep_get_system_time : asleep get_system_time.
Proof. by intros s ? ? Hs [= _ <-]. Qed.

#[local] Hint Resolve asleep_ld_thr asleep_ld_proc asleep_upd_thr asleep_upd_proc asleep_lift_alloc
  asleep_get_system_time : keeps.

Lemma asleep_find_process fuel pid p : asleep (find_process fuel pid p).
Proof. revert p. induction fuel; intros p; simpl; walk. Qed.
Lemma asleep_find_thread fuel tid t : asleep (find_thread fuel tid t).
Proof. revert t. induction fuel; intros t; simpl; walk. Qed.
Lemma asleep_find_pred fuel c t : asleep (find_pred fuel c t).
Proof. revert c. induction fuel; intros c; simpl; walk. Qed.
Lemma asleep_unlink_from fuel c t : asleep (unlink_from fuel c t).
Proof.
  revert c. induction fuel as [|fuel IH]; intros c; simpl; [walk|].
  apply keeps_bind; [destruct c; cbn [ld_link st_link]; walk|intros ?]. apply keeps_if; [walk|].
  apply keeps_if; [apply keeps_bind; [walk|intros ?; destruct c; cbn [ld_link st_link]; walk]|apply IH].
Qed.
Lemma asleep_count_ready fuel t : asleep (count_ready fuel t).
Proof. revert t. induction fuel; intros t; simpl; walk. Qed.
#[local] Hint Resolve asleep_find_process asleep_find_thread asleep_find_pred asleep_unlink_from
  asleep_count_ready : keeps.

Lemma asleep_get_process pid : asleep (get_process pid).
Proof. unfold get_process. walk. Qed.
Lemma asleep_get_thread tid : asleep (get_thread tid).
Proof. unfold get_thread. walk. Qed.
#[local] Hint Resolve asleep_get_process asleep_get_thread : keeps.

Lemma asleep_add_to_ready_queue t : asleep (add_to_ready_queue t).
Proof. unfold add_to_ready_queue. walk. Qed.
Lemma asleep_select_next_thread : asleep select_next_thread.
Proof. unfold select_next_thread, remove_from_ready_queue. walk. Qed.
Lemma asleep_context_switch c n : asleep (context_switch c n).
Proof. unfold context_switch, set_current_thread, set_current_process. walk. Qed.
#[local] Hint Resolve asleep_add_to_ready_queue asleep_select_next_thread asleep_context_switch : keeps.

Lemma asleep_schedule : asleep schedule.
Proof. unfold schedule, get_current_thread, arch_halt, update_thread_statistics. walk. Qed.
#[local] Hint Resolve asleep_schedule : keeps.

Lemma asleep_yield : asleep yield.
Proof. unfold yield, get_current_thread. walk. Qed.

(** With an empty sleeping queue a tick wakes nobody. *)
Lemma update_sleep_queue_empty s :
  sleeping_queue s = 0 → update_sleep_queue s = Ok ((), s <| fake_time := u64 (fake_time s + 1) |>).
Proof.
  intros Hs. unfold update_sleep_queue, bind, get_system_time, get.
  change (sleeping_queue (s <| fake_time := u64 (fake_time s + 1) |>)) with (sleeping_queue s). by rewrite Hs.
Qed.

Lemma asleep_update_sleep_queue : asleep update_sleep_queue.
Proof. intros s x s' Hs. rewrite update_sleep_queue_empty by done. by intros [= _ <-]. Qed.
#[local] Hint Resolve asleep_yield asleep_update_sleep_queue : keeps.

Lemma asleep_remove_from_sleeping t :
  t ≠ 0 → asleep (remove_from_queue sleeping_queue (λ v s, s <| sleeping_queue := v |>) t).
Proof.
  intros Ht s x s' Hs. unfold remove_from_queue, bind at 1, get. rewrite Hs, (proj2 (Z.eqb_neq 0 t)) by done.
  unfold bind. by intros [= _ <-].
Qed.

(** The operations of the three components. *)
Inductive sched_op :=
  | OpCreateProcess (name : option (list Z)) (ppid : Z) | OpDestroyProcess (pid : Z)
  | OpCreateThread (pid entry arg : Z) | OpDestroyThread (tid : Z)
  | OpEnable (preempt : bool) | OpDisable | OpSetPolicy (p : Z)
  | OpAdd (t : Z) | OpRemove (t : Z) | OpYield | OpSleep (ms : Z) | OpTick | OpSchedule | OpStats.

Definition run_op (op : sched_op) : prog (ks A) () :=
  match op with
  | OpCreateProcess name ppid => create_process name ppid ;;; ret ()
  | OpDestroyProcess pid => destroy_process pid ;;; ret ()
  | OpCreateThread pid entry arg => create_thread pid entry arg ;;; ret ()
  | OpDestroyThread tid => destroy_thread tid ;;; ret ()
  | OpEnable b => scheduler_enable b
  | OpDisable => scheduler_disable
  | OpSetPolicy p => scheduler_set_policy p ;;; ret ()
  | OpAdd t => scheduler_add_thread t
  | OpRemove t => scheduler_remove_thread t
  | OpYield => yield
  | OpSleep ms => sleep ms
  | OpTick => scheduler_tick
  | OpSchedule => schedule
  | OpStats => get_scheduler_stats ;;; ret ()
  end.

Inductive sched_step : ks A → ks A → Prop :=
  | sched_step_op op s s' : run_op op s = Ok ((), s') → sched_step s s'.

Lemma asleep_run_op op : asleep (run_op op).
Proof.
  destruct op as [[name|] ppid|pid|pid entry arg|tid|b| |p|t|t| |ms| | |]; simpl.
  - unfold link_parent, link_process, allocate_process_memory, init_process_context, free_proc. walk.
  - walk.
  - unfold destroy_process, cleanup_process_memory, unlink_process, unlink_parent, free_proc. walk.
  - unfold create_thread, allocate_thread_stack, init_thread_context, link_to_process, link_thread, free_thr. walk.
  - unfold destroy_thread, cleanup_thread_stack, unlink_from_process, unlink_thread, free_thr. walk.
  - unfold scheduler_enable. walk.
  - unfold scheduler_disable. walk.
  - unfold scheduler_set_policy. walk.
  - unfold scheduler_add_thread. walk.
  - unfold scheduler_remove_thread. destruct (Z.eqb_spec t 0) as [|Ht]; [walk|].
    apply keeps_bind; [unfold remove_from_queue; walk|intros ?].
    apply keeps_bind; [by apply asleep_remove_from_sleeping|intros ?; walk].
  - walk.
  - unfold sleep, get_current_thread. walk.
  - unfold scheduler_tick, get_current_thread. walk.
  - walk.
  - unfold get_scheduler_stats. walk.
Qed.

Lemma sched_steps_asleep s s' : rtc sched_step s s' → sleeping_queue s = 0 → sleeping_queue s' = 0.
Proof.
  induction 1 as [|s s1 s2 [op a b Hrun] _ IH]; [done|]. intros Hs. apply IH. by apply (asleep_run_op op a () b).
Qed.
End asleep.

(** ** A sample state: one process, a running thread and a ready one *)
Definition sample_thread (tid next : Z) (st : thread_state) : thread :=
  mk_thread tid 1 st (start_context 0x401000 0 0) 0 0x9000 STACK_SIZE PRIORITY_NORMAL 20 5 0 0 0 0x1000 0 next.
Definition sample_sched : ks () :=
  (ks_boot ()) <| procs := {[0x1000 := sample_proc]} |>
    <| threads := {[0x2000 := sample_thread 1 0 THREAD_STATE_RUNNING;
                    0x3000 := sample_thread 2 0 THREAD_STATE_READY]} |>
    <| scheduler_enabled := true |> <| preemption_enabled := true |>
    <| current_thread := 0x2000 |> <| ready_queue := 0x3000 |>.

Lemma sample_sched_ready : ready sample_sched [0x3000].
Proof. split_and!; [done..|]. by exists (sample_thread 2 0 THREAD_STATE_READY). Qed.

Lemma sample_sched_owners : owners_ok sample_sched.
Proof.
  intros t y. unfold sample_sched. cbn. intros [[<- <-]|[_ [_ <-]%lookup_singleton_Some]]%lookup_insert_Some;
    (split; [done|by eexists]).
Qed.

(** ** Theorems *)
Section scheduler_theorems.
Context {A : Type} `{KA : KAlloc A}.
Implicit Types s : ks A.

(** C26: [schedule] on every branch: disabled it does nothing; with an empty ready
    queue it keeps the current thread and halts when there is none; otherwise it
    takes the head off the queue.  When that is the current thread, its remaining time is
    reset to its time slice and nothing else changes: no switch is counted and no clock is
    read.  When it is another thread it makes
    it RUNNING with a full time slice, takes RUNNING from the previous one, charges
    the elapsed time to the previous thread's process, switches the process if it
    differs, counts the switch, and changes no other thread. *)
Theorem schedule_correct s q :
  ready s q → NoDup q → owners_ok s →
  (current_thread s = 0 ∧ threads s !! 0 = None ∨
   current_thread s ≠ 0 ∧ is_Some (threads s !! current_thread s)) →
  (scheduler_enabled s = false → schedule s = Ok ((), s)) ∧
  (scheduler_enabled s = true → q = [] →
     schedule s = if current_thread s =? 0 then Halted else Ok ((), s)) ∧
  (∀ x q', scheduler_enabled s = true → q = current_thread s :: q' → threads s !! current_thread s = Some x →
     let x' := x <| t_sched_next := 0 |> <| t_remaining_time := t_time_slice x |> in
     let s' := s <| ready_queue := t_sched_next x |> <| threads := <[current_thread s := x']> (threads s) |> in
     schedule s = Ok ((), s') ∧ ready s' q') ∧
  (∀ n q', scheduler_enabled s = true → q = n :: q' → n ≠ current_thread s →
     wp schedule (λ _ s', ∃ y, threads s !! n = Some y ∧ switch_post s (current_thread s) n y q' s') s).
Proof.
  intros Hr Hnd Hown Hc. split_and!.
  - intros He. unfold schedule, bind, gets. by rewrite He.
  - intros He ->. unfold schedule, bind at 1, gets. rewrite He. cbn [negb].
    unfold bind at 1, get_current_thread, gets. cbn beta iota.
    assert (select_next_thread s = Ok (0, s)) as Hsel.
    { assert (wp select_next_thread (λ n s', n = 0 ∧ s' = s) s) as H by (by apply select_none_spec).
      destruct (proj1 (wp_run _ _ _) H) as (n & s' & Hrun & -> & ->). exact Hrun. }
    unfold bind at 1. rewrite Hsel. cbn. by destruct (current_thread s =? 0).
  - intros x q' He -> Hx x' s'. pose proof Hr as (Hrq & Hc0 & y & Hy & Hq). assert (y = x) as -> by congruence.
    apply NoDup_cons in Hnd as [Hcq _]. split; [|by apply lseg_insert_other].
    assert (wp schedule (λ _ s1, s1 = s') s) as Hw by (by apply (schedule_same_spec s (current_thread s) x)).
    destruct (proj1 (wp_run _ _ _) Hw) as ([] & s1 & Hrun & ->). exact Hrun.
  - intros n q' He -> Hn. apply (schedule_switch_spec s n q'); [done..|by apply not_eq_sym|done|].
    intros y s' Hy Hpost. by exists y.
Qed.

(** [yield] never hands the CPU to a waiting thread: called by a running thread
    it pushes the thread on the ready queue and takes it off again, so the same
    thread stays current, now marked READY, and the queue is as before.  A second
    call does switch, and leaves the thread READY but on no queue. *)
Theorem yield_reselects s c x n q :
  scheduler_enabled s = true → current_thread s = c → c ≠ 0 → threads s !! c = Some x →
  t_state x = THREAD_STATE_RUNNING → ready s (n :: q) → NoDup (c :: n :: q) → owners_ok s →
  let s1 := s <| threads := <[c := yielded x]> (threads s) |> in
  yield s = Ok ((), s1) ∧ ready s1 (n :: q) ∧
  wp yield (λ _ s2, current_thread s2 = n ∧ ready s2 q ∧ (c ∉ q) ∧
    t_state <$> threads s2 !! c = Some THREAD_STATE_READY) s1.
Proof.
  intros He Hc Hc0 Hx Hst Hr [Hcn Hnd]%NoDup_cons Hown s1.
  assert (ready s1 (n :: q)) as Hr1 by (by apply lseg_insert_other).
  split_and!; [|done|].
  - assert (wp yield (λ _ s', s' = s1) s) as H by (by apply (yield_running_spec s c x)).
    destruct (proj1 (wp_run _ _ _) H) as ([] & s' & Hrun & ->). exact Hrun.
  - apply (yield_ready_spec s1 c (yielded x) n q); try done.
    + apply lookup_insert_eq.
    + intros t y. cbn. intros [[<- <-]|[_ Hy]]%lookup_insert_Some; [exact (Hown c x Hx)|by apply (Hown t)].
    + intros y s' _ H1 H2 H3. split_and!; [done..| |done]. intros ?. apply Hcn. by right.
Qed.

(** No timer tick ever changes the current thread or counts a switch: when the
    time slice runs out the current thread is put on top of the ready queue and
    selected again, whatever else is ready. *)
Theorem scheduler_tick_never_switches s l q :
  sleeping s l → ready s q → NoDup (l ++ q) →
  (current_thread s ≠ 0 → is_Some (threads s !! current_thread s)) →
  wp scheduler_tick (λ _ s', current_thread s' = current_thread s ∧
    ss_context_switches (sstats s') = ss_context_switches (sstats s)) s.
Proof. intros. by apply (scheduler_tick_spec s l q). Qed.

(** C12: [update_sleep_queue] moves exactly the threads whose time has come from the
    sleeping queue to the ready queue, the last of them on top, keeping the order of
    the others; a sleeping one becomes READY with its deadline cleared, and nothing
    but the queue links changes for the threads that stay. *)
Theorem update_sleep_queue_correct s l q :
  sleeping s l → ready s q → NoDup (l ++ q) →
  let now := u64 (fake_time s + 1) in
  wp update_sleep_queue (λ _ s',
    sleeping s' (filter (λ b, expired (threads s) now b = false) l) ∧
    ready s' (reverse (filter (λ b, expired (threads s) now b = true) l) ++ q) ∧
    dom (threads s') = dom (threads s) ∧ woke now (threads s) (threads s') l ∧
    current_thread s' = current_thread s) s.
Proof. intros Hs Hr Hnd now. apply (update_sleep_queue_spec s l q); [done..|]. intros ? m hd rq H1 H2 H3 H4. done. Qed.

(** In every run of process, thread and scheduler operations from a state with an
    empty sleeping queue the sleeping queue stays empty: [sleep] marks the thread but
    queues it nowhere, so no tick ever wakes it. *)
Theorem sleepers_never_queued s s' :
  rtc sched_step s s' → sleeping_queue s = 0 →
  sleeping_queue s' = 0 ∧
  update_sleep_queue s' = Ok ((), s' <| fake_time := u64 (fake_time s' + 1) |>).
Proof.
  intros Hsteps Hs. assert (sleeping_queue s' = 0) as Hs' by (by apply (sched_steps_asleep s)).
  split; [done|]. by apply update_sleep_queue_empty.
Qed.

Lemma find_thread_stops fuel tid t x s :
  t ≠ 0 → threads s !! t = Some x → t_tid x ≠ tid → t_sched_next x = 0 →
  find_thread (S (S fuel)) tid t s = Ok (0, s).
Proof.
  intros Ht Hx Hne Hn. cbn [find_thread]. rewrite (proj2 (Z.eqb_neq t 0) Ht). unfold bind, ld_thr. rewrite Hx.
  by rewrite (proj2 (Z.eqb_neq _ tid) Hne), Hn.
Qed.

Lemma count_ready_cycle fuel t x s : t ≠ 0 → threads s !! t = Some x → t_sched_next x = t → count_ready fuel t s = Diverge.
Proof.
  intros Ht Hx Hn. revert s Hx. induction fuel as [|fuel IH]; intros s Hx; [done|]. simpl.
  rewrite (proj2 (Z.eqb_neq t 0) Ht). unfold bind, modify, ld_thr. cbn. rewrite Hx, Hn. by apply IH.
Qed.

(** The ready queue and the global thread list share the link field: making a
    thread ready in an empty queue hides every thread behind it in the list from
    [get_thread], and making a thread ready twice closes a cycle on which
    [get_scheduler_stats] never returns. *)
Theorem scheduler_add_corrupts s t x ts :
  thr_inv (t :: ts) s → threads s !! t = Some x → ready_queue s = 0 →
  wp (scheduler_add_thread t) (λ _ s', ∀ tid, tid ≠ t_tid x → get_thread tid s' = Ok (0, s')) s ∧
  (scheduler_add_thread t ;;; scheduler_add_thread t ;;; get_scheduler_stats) s = Diverge.
Proof.
  intros Hinv Hx Hr. destruct (ti_list _ _ Hinv) as (Hl & Ht0 & _).
  set (y := readied 0 (x <| t_state := THREAD_STATE_READY |> <| t_remaining_time := t_time_slice x |>)).
  set (s1 := s <| threads := <[t := y]> (threads s) |> <| ready_queue := t |>).
  assert (∀ s0 x0 Q, threads s0 !! t = Some x0 →
    Q () (s0 <| threads := <[t := readied (ready_queue s0) (x0 <| t_state := THREAD_STATE_READY |>
       <| t_remaining_time := t_time_slice x0 |>)]> (threads s0) |> <| ready_queue := t |>) →
    wp (scheduler_add_thread t) Q s0) as Hadd.
  { intros s0 x0 Q Hx0 HQ. unfold scheduler_add_thread. rewrite (proj2 (Z.eqb_neq t 0) Ht0).
    apply wp_bind, (wp_upd_thr _ x0); [done|]. eapply add_to_ready_queue_spec; [apply lookup_insert_eq|done|].
    cbn. rewrite insert_insert_eq. exact HQ. }
  assert (wp (scheduler_add_thread t) (λ _ s', s' = s1) s) as Hrun1.
  { apply (Hadd s x); [done|]. rewrite Hr. done. }
  split.
  - apply (wp_mono _ _ _ _ Hrun1). intros [] ? -> tid Hne. unfold get_thread, bind, get.
    change (thread_list s1) with (thread_list s). rewrite Hl. unfold thread_fuel.
    assert (threads s1 !! t = Some y) as Hy by apply lookup_insert_eq.
    assert (∃ n, size (threads s1) = S n) as [n ->].
    { destruct (size (threads s1)) as [|n] eqn:E; [|by exists n]. apply map_size_empty_inv in E. by rewrite E in Hy. }
    apply (find_thread_stops n tid t y); [done..|by apply not_eq_sym|done].
  - destruct (proj1 (wp_run _ _ _) Hrun1) as ([] & ? & Hr1 & ->).
    set (y2 := readied t (y <| t_state := THREAD_STATE_READY |> <| t_remaining_time := t_time_slice y |>)).
    set (s2 := s1 <| threads := <[t := y2]> (threads s1) |> <| ready_queue := t |>).
    assert (wp (scheduler_add_thread t) (λ _ s', s' = s2) s1) as Hrun2.
    { apply (Hadd s1 y); [apply lookup_insert_eq|done]. }
    destruct (proj1 (wp_run _ _ _) Hrun2) as ([] & ? & Hr2 & ->).
    unfold bind at 1. rewrite Hr1. unfold bind at 1. rewrite Hr2.
    unfold get_scheduler_stats, bind, modify, get. rewrite (count_ready_cycle _ t y2); [done|done| |done].
    apply lookup_insert_eq.
Qed.
End scheduler_theorems.

Lemma schedule_correct_witness :
  ∃ s', schedule sample_sched = Ok ((), s') ∧ current_thread s' = 0x3000.
Proof.
  destruct (schedule_correct sample_sched [0x3000] sample_sched_ready ltac:(apply NoDup_singleton)
    sample_sched_owners ltac:(right; split; [done|by eexists])) as (_ & _ & _ & H).
  specialize (H 0x3000 [] eq_refl eq_refl ltac:(done)).
  destruct (proj1 (wp_run _ _ _) H) as ([] & s' & Hrun & y & _ & Hpost). exists s'.
  split; [exact Hrun|exact (sp_current _ _ _ _ _ _ Hpost)].
Defined.

Lemma yield_reselects_witness :
  yield sample_sched = Ok ((), sample_sched <| threads := <[0x2000 := yielded (sample_thread 1 0 THREAD_STATE_RUNNING)]>
    (threads sample_sched) |>).
Proof.
  destruct (yield_reselects sample_sched 0x2000 (sample_thread 1 0 THREAD_STATE_RUNNING) 0x3000 [] eq_refl eq_refl
    ltac:(done) eq_refl eq_refl sample_sched_ready ltac:(by apply (bool_decide_unpack _)) sample_sched_owners) as [H _].
  exact H.
Defined.

Lemma scheduler_tick_never_switches_witness :
  ∃ s', scheduler_tick sample_sched = Ok ((), s') ∧ current_thread s' = 0x2000.
Proof.
  pose proof (scheduler_tick_never_switches sample_sched [] [0x3000] eq_refl sample_sched_ready
    ltac:(apply NoDup_singleton) ltac:(intros _; by eexists)) as H.
  destruct (proj1 (wp_run _ _ _) H) as ([] & s' & Hrun & Hc & _). exists s'. split; [exact Hrun|exact Hc].
Defined.

(** The sample with its second thread asleep until time 0. *)
Definition sample_asleep : ks () :=
  sample_sched <| threads := <[0x3000 := sample_thread 2 0 THREAD_STATE_SLEEPING]> (threads sample_sched) |>
    <| ready_queue := 0 |> <| sleeping_queue := 0x3000 |>.

Lemma update_sleep_queue_correct_witness :
  ∃ s', update_sleep_queue sample_asleep = Ok ((), s') ∧ sleeping s' [] ∧ ready s' [0x3000].
Proof.
  pose proof (update_sleep_queue_correct sample_asleep [0x3000] []
    ltac:(split_and!; [done..|]; by exists (sample_thread 2 0 THREAD_STATE_SLEEPING)) eq_refl
    ltac:(apply NoDup_singleton)) as H.
  destruct (proj1 (wp_run _ _ _) H) as ([] & s' & Hrun & H1 & H2 & _). exists s'.
  split; [exact Hrun|]. split; [exact H1|exact H2].
Defined.

Lemma sleepers_never_queued_witness :
  ∃ s', rtc sched_step sample_ks s' ∧ sleeping_queue s' = 0.
Proof.
  exists (sample_ks <| scheduler_enabled := true |> <| preemption_enabled := true |>).
  assert (rtc sched_step sample_ks (sample_ks <| scheduler_enabled := true |> <| preemption_enabled := true |>)) as H.
  { apply rtc_once, (sched_step_op (OpEnable true)). reflexivity. }
  split; [exact H|]. exact (proj1 (sleepers_never_queued _ _ H eq_refl)).
Defined.

Lemma scheduler_add_corrupts_witness :
  (scheduler_add_thread 0x100140 ;;; scheduler_add_thread 0x100140 ;;; get_scheduler_stats) sample_t = Diverge.
Proof.
  destruct (ti_list _ _ (proj2 sample_t_inv)) as (_ & _ & x & Hx & _).
  assert (ready_queue sample_t = 0) as Hr by (vm_compute; reflexivity).
  exact (proj2 (scheduler_add_corrupts sample_t 0x100140 x [] (proj2 sample_t_inv) Hx Hr)).
Defined.
