(* ===== verification/Idt.v ===== *)
(** * Interrupt descriptor table (interrupt/idt.c)

    The interrupt manager: the 256 gates, the handler table, the statistics, the
    disable/enable balance, and the interrupt flag of the processor.  Handlers are
    the functions the sources register, or a client's, which is a parameter.  The
    addresses of the functions and of the table, fixed at link time, are parameters
    too. *)
From S2P Require Import Prelude.
From S2P Require Import Memory.
From S2P Require Import Heap.
From S2P Require Import SchedState.
Local Open Scope Z_scope.

(** ** Constants of idt.h and arch.h *)
Definition IDT_ENTRIES : Z := 256.
Definition IDT_GATE_INTERRUPT : Z := 0x8E.
Definition IDT_DPL_KERNEL : Z := 0x00.
Definition IDT_DPL_USER : Z := 0x60.
Definition IRQ_TIMER : Z := 0x20.
Definition IRQ_KEYBOARD : Z := 0x21.
Definition IRQ_RTC : Z := 0x28.
Definition IRQ_SECONDARY_ATA : Z := 0x2F.
Definition INT_SYSCALL : Z := 0x80.
Definition EXCEPTION_DOUBLE_FAULT : Z := 8.
Definition EXCEPTION_GENERAL_PROTECTION : Z := 13.
Definition EXCEPTION_PAGE_FAULT : Z := 14.
Definition EXCEPTION_MACHINE_CHECK : Z := 18.
Definition PIC1_COMMAND : Z := 0x20.
Definition PIC1_DATA : Z := 0x21.
Definition PIC2_COMMAND : Z := 0xA0.
Definition PIC2_DATA : Z := 0xA1.
Definition PIC_EOI : Z := 0x20.

(** ** Data *)
Record idt_entry := mk_idt_entry {
  offset_low : Z; selector : Z; ist : Z; type_attr : Z; offset_mid : Z; offset_high : Z; reserved : Z
}.
Definition zero_entry : idt_entry := mk_idt_entry 0 0 0 0 0 0 0.

(** Interrupt handlers: NULL, the functions of idt.c and interrupt.c, or a client's. *)
Inductive interrupt_handler :=
  | HNull | HDefaultException | HDefaultInterrupt | HTimer | HKeyboard | HPageFault | HGpf
  | HClient (id : Z).
#[export] Instance interrupt_handler_eq_dec : EqDecision interrupt_handler.
Proof. solve_decision. Defined.

Record interrupt_stats := mk_int_stats {
  total_interrupts : Z; exceptions : Z; hardware_interrupts : Z; software_interrupts : Z;
  spurious_interrupts : Z; nested_interrupts : Z; interrupt_overruns : Z;
  max_interrupt_latency : Z; avg_interrupt_latency : Z;
  interrupt_frequency : list Z
}.
#[export] Instance eta_int_stats : Eta interrupt_stats := λ r,
  {| total_interrupts := total_interrupts r; exceptions := exceptions r;
     hardware_interrupts := hardware_interrupts r; software_interrupts := software_interrupts r;
     spurious_interrupts := spurious_interrupts r; nested_interrupts := nested_interrupts r;
     interrupt_overruns := interrupt_overruns r; max_interrupt_latency := max_interrupt_latency r;
     avg_interrupt_latency := avg_interrupt_latency r; interrupt_frequency := interrupt_frequency r |}.
Definition zero_stats : interrupt_stats := mk_int_stats 0 0 0 0 0 0 0 0 0 (replicate 256 0).

Inductive interrupt_system_state :=
  | INTERRUPT_SYSTEM_DISABLED | INTERRUPT_SYSTEM_INITIALIZING | INTERRUPT_SYSTEM_ENABLED
  | INTERRUPT_SYSTEM_SUSPENDED | INTERRUPT_SYSTEM_ERROR.
#[export] Instance interrupt_system_state_eq_dec : EqDecision interrupt_system_state.
Proof. solve_decision. Defined.

(** [exception_info_t], [hardware_interrupt_info_t] and [timer_manager_t] of
    interrupt.h. *)
Record exception_info := mk_exc_info {
  ei_name : string; ei_description : string; ei_has_error_code : bool; ei_vector : Z; ei_count : Z
}.
#[export] Instance eta_exc_info : Eta exception_info := λ r,
  {| ei_name := ei_name r; ei_description := ei_description r; ei_has_error_code := ei_has_error_code r;
     ei_vector := ei_vector r; ei_count := ei_count r |}.
Record hardware_interrupt_info := mk_hw_info {
  hw_name : string; hw_description : string; hw_irq : Z; hw_vector : Z; hw_count : Z;
  hw_enabled : bool; hw_last_time : Z; hw_total_time : Z
}.
#[export] Instance eta_hw_info : Eta hardware_interrupt_info := λ r,
  {| hw_name := hw_name r; hw_description := hw_description r; hw_irq := hw_irq r;
     hw_vector := hw_vector r; hw_count := hw_count r; hw_enabled := hw_enabled r;
     hw_last_time := hw_last_time r; hw_total_time := hw_total_time r |}.
Record timer_manager := mk_timer {
  ticks : Z; milliseconds : Z; seconds : Z; frequency : Z; initialized : bool;
  last_tick_time : Z; tick_overruns : Z
}.
#[export] Instance eta_timer : Eta timer_manager := λ r,
  {| ticks := ticks r; milliseconds := milliseconds r; seconds := seconds r; frequency := frequency r;
     initialized := initialized r; last_tick_time := last_tick_time r; tick_overruns := tick_overruns r |}.

(** The interrupt manager, the tables of interrupt.c, the processor's RFLAGS and
    IDTR, the calls of the [outb] stub in order, and the scheduler's state. *)
Record irqs (A : Type) := mk_irqs {
  idt : list idt_entry;
  idt_limit : Z; idt_base : Z;
  handlers : list interrupt_handler;
  istats : interrupt_stats;
  istate : interrupt_system_state;
  nested_level : Z;
  disabled_count : Z;
  pic_initialized : bool; apic_available : bool; apic_enabled : bool;
  g_timer_manager : timer_manager;
  g_exceptions : list exception_info;
  g_hardware_interrupts : list hardware_interrupt_info;
  cpu_rflags : Z;
  idtr : Z * Z;
  port_log : list (Z * Z);
  sched : ks A
}.
#[global] Arguments mk_irqs {A}.
#[global] Arguments idt {A}.
#[global] Arguments idt_limit {A}.
#[global] Arguments idt_base {A}.
#[global] Arguments handlers {A}.
#[global] Arguments istats {A}.
#[global] Arguments istate {A}.
#[global] Arguments nested_level {A}.
#[global] Arguments disabled_count {A}.
#[global] Arguments pic_initialized {A}.
#[global] Arguments apic_available {A}.
#[global] Arguments apic_enabled {A}.
#[global] Arguments g_timer_manager {A}.
#[global] Arguments g_exceptions {A}.
#[global] Arguments g_hardware_interrupts {A}.
#[global] Arguments cpu_rflags {A}.
#[global] Arguments idtr {A}.
#[global] Arguments port_log {A}.
#[global] Arguments sched {A}.
#[export] Instance eta_irqs {A} : Eta (irqs A) := λ r,
  {| idt := idt r; idt_limit := idt_limit r; idt_base := idt_base r; handlers := handlers r;
     istats := istats r; istate := istate r; nested_level := nested_level r;
     disabled_count := disabled_count r; pic_initialized := pic_initialized r;
     apic_available := apic_available r; apic_enabled := apic_enabled r;
     g_timer_manager := g_timer_manager r; g_exceptions := g_exceptions r;
     g_hardware_interrupts := g_hardware_interrupts r; cpu_rflags := cpu_rflags r; idtr := idtr r;
     port_log := port_log r; sched := sched r |}.

Definition zero_exception : exception_info := mk_exc_info EmptyString EmptyString false 0 0.
Definition zero_hw : hardware_interrupt_info := mk_hw_info EmptyString EmptyString 0 0 0 false 0 0.
Definition zero_timer : timer_manager := mk_timer 0 0 0 0 false 0 0.

(** The zero-initialised statics, with the processor's flags and the scheduler. *)
Definition irqs_boot {A} (fl : Z) (k : ks A) : irqs A :=
  mk_irqs (replicate 256 zero_entry) 0 0 (replicate 256 HNull) zero_stats INTERRUPT_SYSTEM_DISABLED 0 0
    false false false zero_timer (replicate 32 zero_exception) (replicate 16 zero_hw) fl (0, 0) [] k.

(** Increment of a counter in a table of 32-bit counters. *)
Definition bump (l : list Z) (i : Z) : list Z := alter (λ x, u32 (x + 1)) (Z.to_nat i) l.

Section idt.
Context {A : Type}.
Implicit Types s : irqs A.

(** The stub of the port output keeps nothing; [port_log] lists its calls. *)
Definition outb (port value : Z) : prog (irqs A) () :=
  modify (λ s, s <| port_log := port_log s ++ [(port, u8 value)] |>).

(** The stub of the port input returns 0. *)
Definition inb (port : Z) : prog (irqs A) Z := ret 0.

Definition pic_send_eoi (irq : Z) : prog (irqs A) () :=
  when (8 <=? irq) (outb PIC2_COMMAND PIC_EOI) ;;;
  outb PIC1_COMMAND PIC_EOI.

(** [panic] does not return. *)
Definition panic {X} : prog (irqs A) X := halt.

Definition default_exception_handler (vector error_code : Z) : prog (irqs A) () :=
  modify (λ s, s <| istats := (istats s)
    <| exceptions := u64 (exceptions (istats s) + 1) |>
    <| total_interrupts := u64 (total_interrupts (istats s) + 1) |>
    <| interrupt_frequency := bump (interrupt_frequency (istats s)) vector |> |>) ;;;
  when ((vector =? EXCEPTION_DOUBLE_FAULT) || (vector =? EXCEPTION_MACHINE_CHECK)
        || (vector =? EXCEPTION_GENERAL_PROTECTION)) panic.

Definition default_interrupt_handler (vector error_code : Z) : prog (irqs A) () :=
  modify (λ s, s <| istats := (istats s)
    <| total_interrupts := u64 (total_interrupts (istats s) + 1) |>
    <| interrupt_frequency := bump (interrupt_frequency (istats s)) vector |> |>) ;;;
  if (IRQ_TIMER <=? vector) && (vector <=? IRQ_SECONDARY_ATA) then
    modify (λ s, s <| istats := (istats s)
      <| hardware_interrupts := u64 (hardware_interrupts (istats s) + 1) |> |>) ;;;
    pic_send_eoi (vector - IRQ_TIMER)
  else if INT_SYSCALL <=? vector then
    modify (λ s, s <| istats := (istats s)
      <| software_interrupts := u64 (software_interrupts (istats s) + 1) |> |>)
  else
    modify (λ s, s <| istats := (istats s)
      <| spurious_interrupts := u64 (spurious_interrupts (istats s) + 1) |> |>).

(** A gate for [handler]: the address split over three fields. *)
Definition make_entry (handler sel attr : Z) : idt_entry :=
  mk_idt_entry (u16 (Z.land handler 0xFFFF)) sel 0 attr
    (u16 (Z.land (Z.shiftr handler 16) 0xFFFF)) (u32 (Z.land (Z.shiftr handler 32) 0xFFFFFFFF)) 0.

Definition idt_set_entry (vector handler sel attr : Z) : prog (irqs A) Z :=
  s <- get ;;
  if bool_decide (istate s = INTERRUPT_SYSTEM_DISABLED) then ret (-1)
  else
    modify (λ s, s <| idt := <[Z.to_nat vector := make_entry handler sel attr]> (idt s) |>) ;;;
    ret 0.

Definition interrupts_enable : prog (irqs A) () :=
  s <- get ;;
  when (0 <? disabled_count s) (modify (λ s, s <| disabled_count := u64 (disabled_count s - 1) |>)) ;;;
  s <- get ;;
  when (disabled_count s =? 0) (modify (λ s, s <| cpu_rflags := Z.lor (cpu_rflags s) 0x200 |>)).

Definition interrupts_disable : prog (irqs A) Z :=
  flags <- gets cpu_rflags ;;
  modify (λ s, s <| cpu_rflags := Z.ldiff (cpu_rflags s) 0x200 |>
                 <| disabled_count := u64 (disabled_count s + 1) |>) ;;;
  ret flags.

Definition interrupts_restore (state : Z) : prog (irqs A) () :=
  when (has_bits state 0x200) interrupts_enable.

Definition interrupts_enabled : prog (irqs A) bool := gets (λ s, has_bits (cpu_rflags s) 0x200).

Definition idt_register_handler (vector : Z) (handler : interrupt_handler) : prog (irqs A) Z :=
  s <- get ;;
  if bool_decide (istate s = INTERRUPT_SYSTEM_DISABLED) then ret (-1)
  else if bool_decide (handler = HNull) then ret (-2)
  else
    flags <- interrupts_disable ;;
    modify (λ s, s <| handlers := <[Z.to_nat vector := handler]> (handlers s) |>) ;;;
    interrupts_restore flags ;;;
    ret 0.

Definition idt_unregister_handler (vector : Z) : prog (irqs A) Z :=
  s <- get ;;
  if bool_decide (istate s = INTERRUPT_SYSTEM_DISABLED) then ret (-1)
  else
    flags <- interrupts_disable ;;
    modify (λ s, s <| handlers := <[Z.to_nat vector :=
      if vector <? 32 then HDefaultException else HDefaultInterrupt]> (handlers s) |>) ;;;
    interrupts_restore flags ;;;
    ret 0.

Definition idt_load : prog (irqs A) () := modify (λ s, s <| idtr := (idt_limit s, idt_base s) |>).

(** The addresses the linker gives to the two default handlers and to the table. *)
Context (default_exception_addr default_interrupt_addr idt_addr : Z).

(** [for (i = a; i < b; i++) idt_set_entry(i, handler, 0x08, type)]. *)
Definition set_entries (a b handler type : Z) : prog (irqs A) () := λ s,
  let step i o := match o with
    | Ok (_, s) => match idt_set_entry i handler 0x08 type s with
                   | Ok (_, s) => Ok ((), s) | Fault => Fault | Halted => Halted | Diverge => Diverge end
    | o => o
    end in
  for_loop (Z.to_nat (b - a)) a step (Ok ((), s)).

Definition idt_init : prog (irqs A) Z :=
  modify (λ s, s <| idt := replicate 256 zero_entry |> <| idt_limit := 0 |> <| idt_base := 0 |>
    <| handlers := replicate 256 HNull |> <| istats := zero_stats |> <| nested_level := 0 |>
    <| disabled_count := 0 |> <| pic_initialized := false |> <| apic_available := false |>
    <| apic_enabled := false |> <| istate := INTERRUPT_SYSTEM_INITIALIZING |>
    <| idt_limit := 16 * IDT_ENTRIES - 1 |> <| idt_base := idt_addr |>) ;;;
  modify (λ s, s <| handlers := for_loop (Z.to_nat IDT_ENTRIES) 0 (λ i h,
    <[Z.to_nat i := if i <? 32 then HDefaultException else HDefaultInterrupt]> h) (handlers s) |>) ;;;
  set_entries 0 32 default_exception_addr (Z.lor IDT_GATE_INTERRUPT IDT_DPL_KERNEL) ;;;
  set_entries 32 48 default_interrupt_addr (Z.lor IDT_GATE_INTERRUPT IDT_DPL_KERNEL) ;;;
  set_entries 48 IDT_ENTRIES default_interrupt_addr (Z.lor IDT_GATE_INTERRUPT IDT_DPL_USER) ;;;
  idt_load ;;;
  modify (λ s, s <| istate := INTERRUPT_SYSTEM_ENABLED |>) ;;;
  ret 0.

Definition idt_get_stats : prog (irqs A) interrupt_stats := gets istats.
Definition idt_reset_stats : prog (irqs A) () := modify (λ s, s <| istats := zero_stats |>).
Definition idt_get_state : prog (irqs A) interrupt_system_state := gets istate.
End idt.

(** ** Gates *)

(** The address of a gate, as [idt_dump] reassembles it. *)
Definition entry_handler (e : idt_entry) : Z :=
  Z.lor (Z.lor (offset_low e) (Z.shiftl (offset_mid e) 16)) (Z.shiftl (offset_high e) 32).

Lemma entry_handler_make handler sel attr :
  0 ≤ handler < 2 ^ 64 → entry_handler (make_entry handler sel attr) = handler.
Proof.
  intros Hh. unfold entry_handler, make_entry. cbn [offset_low offset_mid offset_high].
  change 0xFFFF with (Z.ones 16). change 0xFFFFFFFF with (Z.ones 32). unfold u16, u32.
  rewrite !Z.land_ones, !Z.mod_mod by lia. apply Z.bits_inj'. intros i Hi.
  rewrite !Z.lor_spec, !Z.shiftl_spec, !mod_pow2_testbit by lia.
  destruct (decide (i < 16)).
  - rewrite bool_decide_true by lia. rewrite !(Z.testbit_neg_r _ (i - _)) by lia.
    by rewrite andb_true_l, !orb_false_r.
  - rewrite (bool_decide_false (i < 16)) by lia. cbn [andb orb]. destruct (decide (i < 32)).
    + rewrite mod_pow2_testbit by lia. rewrite bool_decide_true by lia.
      rewrite (Z.testbit_neg_r _ (i - 32)) by lia. rewrite Z.shiftr_spec by lia.
      cbn [andb]. rewrite orb_false_r. f_equal. lia.
    + rewrite !mod_pow2_testbit by lia. rewrite (bool_decide_false (i - 16 < 16)) by lia. cbn [andb orb].
      rewrite Z.shiftr_spec by lia. replace (i - 32 + 32) with i by lia.
      destruct (decide (i < 64)).
      * by rewrite bool_decide_true by lia.
      * rewrite bool_decide_false by lia. by rewrite (testbit_above 64 handler i) by lia.
Qed.

(** A loop that fills a range of a table. *)
Lemma fill_table_lookup {X} (f : Z → X) n a l k :
  0 ≤ a → 0 ≤ k < Z.of_nat (length l) →
  for_loop n a (λ i l, <[Z.to_nat i := f i]> l) l !! Z.to_nat k =
    if decide (a ≤ k < a + Z.of_nat n) then Some (f k) else l !! Z.to_nat k.
Proof.
  revert a l. induction n as [|n IH]; intros a l Ha Hk; simpl for_loop; [by rewrite decide_False by lia|].
  rewrite IH by (rewrite ?length_insert; lia). destruct (decide (a + 1 ≤ k < a + 1 + Z.of_nat n)).
  { by rewrite decide_True by lia. }
  destruct (decide (a = k)) as [->|].
  - rewrite list_lookup_insert_eq by lia. by rewrite decide_True by lia.
  - rewrite list_lookup_insert_ne by lia. by rewrite decide_False by lia.
Qed.

Lemma fill_table_length {X} (f : Z → X) n a (l : list X) :
  length (for_loop n a (λ i l, <[Z.to_nat i := f i]> l) l) = length l.
Proof. revert a l. induction n; intros; simpl; [done|]. by rewrite IHn, length_insert. Qed.

Section idt_proofs.
Context {A : Type}.
Implicit Types s : irqs A.

Lemma wp_set_entries s a b h ty Q :
  istate s ≠ INTERRUPT_SYSTEM_DISABLED →
  Q () (s <| idt := for_loop (Z.to_nat (b - a)) a (λ i l, <[Z.to_nat i := make_entry h 0x08 ty]> l) (idt s) |>) →
  wp (set_entries a b h ty) Q s.
Proof.
  unfold set_entries, wp. set (n := Z.to_nat (b - a)). clearbody n. revert a s. induction n as [|n IH]; intros a s Hs HQ.
  - simpl in *. by destruct s.
  - simpl for_loop at 1. unfold idt_set_entry at 2, bind, get. rewrite bool_decide_false by done.
    cbn [modify ret]. by apply IH.
Qed.

Lemma idt_init_spec ea ia ta s (Q : Z → irqs A → Prop) :
  (∀ s', istate s' = INTERRUPT_SYSTEM_ENABLED → idtr s' = (4095, ta) → istats s' = zero_stats →
     nested_level s' = 0 → disabled_count s' = 0 → cpu_rflags s' = cpu_rflags s → sched s' = sched s →
     port_log s' = port_log s → length (handlers s') = 256%nat →
     (∀ v, 0 ≤ v < 256 →
        idt s' !! Z.to_nat v = Some (make_entry (if v <? 32 then ea else ia) 0x08 (if v <? 48 then 0x8E else 0xEE)) ∧
        handlers s' !! Z.to_nat v = Some (if v <? 32 then HDefaultException else HDefaultInterrupt)) →
     Q 0 s') →
  wp (idt_init ea ia ta) Q s.
Proof.
  intros HQ. apply wp_bind, wp_modify, wp_bind, wp_modify, wp_bind, wp_set_entries; [done|].
  apply wp_bind, wp_set_entries; [done|]. apply wp_bind, wp_set_entries; [done|].
  apply wp_bind, wp_modify, wp_bind, wp_modify, wp_ret.
  apply HQ; [done..| |].
  - exact (fill_table_length (λ i, if i <? 32 then HDefaultException else HDefaultInterrupt) 256 0 (replicate 256 HNull)).
  - intros v Hv. cbn [idt handlers fset]. split.
    + rewrite (fill_table_lookup (λ _, make_entry ia 0x08 0xEE)) by (rewrite ?(fill_table_length (λ _, _)); cbn; lia).
      rewrite (fill_table_lookup (λ _, make_entry ia 0x08 0x8E)) by (rewrite ?(fill_table_length (λ _, _)); cbn; lia).
      rewrite (fill_table_lookup (λ _, make_entry ea 0x08 0x8E)) by (cbn; lia).
      destruct (Z.ltb_spec v 32), (Z.ltb_spec v 48); repeat case_decide; unfold IDT_ENTRIES in *; try done; lia.
    + rewrite (fill_table_lookup (λ i, if i <? 32 then HDefaultException else HDefaultInterrupt)) by (cbn; lia).
      by rewrite decide_True by (unfold IDT_ENTRIES; lia).
Qed.
End idt_proofs.

(** C34: [idt_init] returns 0 from any state, with every one of the 256 gates
    reassembling to the address of its default handler, in an interrupt gate of the
    kernel's code segment that user code may only call from vector 48 on, with the
    handler table to match, the table loaded, and statistics and balance reset. *)
Theorem idt_init_correct {A} (s : irqs A) ea ia ta :
  0 ≤ ea < 2 ^ 64 → 0 ≤ ia < 2 ^ 64 →
  wp (idt_init ea ia ta) (λ r s', r = 0 ∧ istate s' = INTERRUPT_SYSTEM_ENABLED ∧ idtr s' = (4095, ta) ∧
    istats s' = zero_stats ∧ disabled_count s' = 0 ∧ cpu_rflags s' = cpu_rflags s ∧
    ∀ v, 0 ≤ v < 256 → ∃ e, idt s' !! Z.to_nat v = Some e ∧
      entry_handler e = (if v <? 32 then ea else ia) ∧ selector e = 0x08 ∧ reserved e = 0 ∧
      type_attr e = Z.lor IDT_GATE_INTERRUPT (if v <? 48 then IDT_DPL_KERNEL else IDT_DPL_USER) ∧
      handlers s' !! Z.to_nat v = Some (if v <? 32 then HDefaultException else HDefaultInterrupt)) s.
Proof.
  intros Hea Hia. apply idt_init_spec. intros s' H1 H2 H3 H4 H5 H6 _ _ _ Hv. split_and!; [done..|].
  intros v Hr. destruct (Hv v Hr) as [He Hh]. eexists. split; [exact He|].
  rewrite entry_handler_make by (by destruct (v <? 32)). split_and!; [done..| |done]. cbn. by destruct (v <? 48).
Qed.

Lemma idt_init_correct_witness :
  ∃ s', idt_init 0x101000 0x102000 0x200000 (irqs_boot 0x202 (ks_boot ())) = Ok (0, s').
Proof.
  pose proof (idt_init_correct (irqs_boot 0x202 (ks_boot ())) 0x101000 0x102000 0x200000 ltac:(lia) ltac:(lia)) as H.
  destruct (proj1 (wp_run _ _ _) H) as (r & s' & Hrun & -> & _). exists s'. exact Hrun.
Defined.
