(* ===== verification/Interrupt.v ===== *)
(** * Interrupt handling (interrupt/interrupt.c, and the dispatcher of idt.c)

    Exception and IRQ tables, the PIC, the timer and its handler, which drives the
    scheduler of Scheduler.v, and the common handler that every interrupt enters. *)
From S2P Require Import Prelude.
From S2P Require Import Memory.
From S2P Require Import Heap.
From S2P Require Import SchedState.
From S2P Require Import Process.
From S2P Require Import Thread.
From S2P Require Import Scheduler.
From S2P Require Import Idt.
Local Open Scope Z_scope.
Local Open Scope string_scope.

Definition TIMER_FREQUENCY : Z := 1000.
Definition TIMER_DIVISOR : Z := 1193180.
Definition PIC_ICW1_INIT : Z := 0x11.
Definition PIC_ICW1_EDGE : Z := 0x00.

(** The constant tables: name, description and whether the processor pushes an
    error code, by vector; name and description by IRQ. *)
Definition exception_data : list (string * string * bool) :=
  [("Divide Error", "Division by zero or overflow", false);
   ("Debug", "Debug exception", false);
   ("NMI", "Non-maskable interrupt", false);
   ("Breakpoint", "Breakpoint instruction", false);
   ("Overflow", "Overflow instruction", false);
   ("Bound Range", "BOUND range exceeded", false);
   ("Invalid Opcode", "Invalid or undefined opcode", false);
   ("Device Not Available", "FPU not available", false);
   ("Double Fault", "Double fault", true);
   ("Coprocessor Overrun", "Coprocessor segment overrun", false);
   ("Invalid TSS", "Invalid Task State Segment", true);
   ("Segment Not Present", "Segment not present", true);
   ("Stack Fault", "Stack segment fault", true);
   ("General Protection", "General protection fault", true);
   ("Page Fault", "Page fault", true);
   ("Reserved", "Intel reserved", false);
   ("FPU Error", "x87 FPU floating-point error", false);
   ("Alignment Check", "Alignment check", true);
   ("Machine Check", "Machine check", false);
   ("SIMD Exception", "SIMD floating-point exception", false)].

Definition irq_data : list (string * string) :=
  [("Timer", "System timer (PIT)"); ("Keyboard", "PS/2 Keyboard");
   ("Cascade", "PIC cascade (never raised)"); ("COM2", "Serial port COM2");
   ("COM1", "Serial port COM1"); ("LPT2", "Parallel port LPT2");
   ("Floppy", "Floppy disk controller"); ("LPT1", "Parallel port LPT1");
   ("RTC", "Real-time clock"); ("Free", "Free IRQ (ACPI/SCSI/NIC)");
   ("Free", "Free IRQ (SCSI/NIC)"); ("Free", "Free IRQ (SCSI/NIC)");
   ("Mouse", "PS/2 Mouse"); ("Coprocessor", "Math coprocessor");
   ("Primary ATA", "Primary ATA hard disk"); ("Secondary ATA", "Secondary ATA hard disk")].

Local Close Scope string_scope.

Section interrupt.
Context {A : Type}.
Implicit Types s : irqs A.

Definition init_exception_table : prog (irqs A) () :=
  modify (λ s, s <| g_exceptions :=
    app (imap (λ i '(n, d, e), mk_exc_info n d e (Z.of_nat i) 0) exception_data)
      (replicate 12 zero_exception) |>).

Definition init_hardware_interrupt_table : prog (irqs A) () :=
  modify (λ s, s <| g_hardware_interrupts :=
    imap (λ i '(n, d), mk_hw_info n d (Z.of_nat i) (u8 (IRQ_TIMER + Z.of_nat i)) 0 false 0 0) irq_data |>).

(** Changing entry [i] of the IRQ table. *)
Definition upd_hw (i : Z) (f : hardware_interrupt_info → hardware_interrupt_info) : prog (irqs A) () :=
  modify (λ s, s <| g_hardware_interrupts := alter f (Z.to_nat i) (g_hardware_interrupts s) |>).

Definition upd_exception (i : Z) (f : exception_info → exception_info) : prog (irqs A) () :=
  modify (λ s, s <| g_exceptions := alter f (Z.to_nat i) (g_exceptions s) |>).

(** Running the scheduler inside the interrupt state. *)
Definition lift_sched {X} (m : prog (ks A) X) : prog (irqs A) X := λ s,
  match m (sched s) with
  | Ok (x, k) => Ok (x, s <| sched := k |>)
  | Fault => Fault
  | Halted => Halted
  | Diverge => Diverge
  end.

(** [scheduler_is_enabled] is declared nowhere in the sources, and the handlers of
    clients are theirs. *)
Context (scheduler_is_enabled : ks A → bool) (client : Z → Z → Z → prog (irqs A) ()).

Definition timer_interrupt_handler (vector error_code : Z) : prog (irqs A) () :=
  s <- get ;;
  if frequency (g_timer_manager s) =? 0 then fault
  else
    modify (λ s,
      let t := g_timer_manager s in
      let n := u64 (ticks t + 1) in
      let ms := u64 (n * (1000 / frequency t)) in
      s <| g_timer_manager := t <| ticks := n |> <| milliseconds := ms |> <| seconds := ms / 1000 |> |>) ;;;
    s <- get ;;
    upd_hw 0 (λ h, h <| hw_count := u32 (hw_count h + 1) |> <| hw_last_time := ticks (g_timer_manager s) |>) ;;;
    pic_send_eoi 0 ;;;
    s <- get ;;
    when (scheduler_is_enabled (sched s)) (lift_sched scheduler_tick).

Definition keyboard_interrupt_handler (vector error_code : Z) : prog (irqs A) () :=
  scancode <- inb 0x60 ;;
  s <- get ;;
  upd_hw 1 (λ h, h <| hw_count := u32 (hw_count h + 1) |> <| hw_last_time := ticks (g_timer_manager s) |>) ;;;
  pic_send_eoi 1.

Definition page_fault_handler (vector error_code : Z) : prog (irqs A) () :=
  upd_exception EXCEPTION_PAGE_FAULT (λ e, e <| ei_count := u32 (ei_count e + 1) |>).

Definition gpf_handler (vector error_code : Z) : prog (irqs A) () :=
  upd_exception EXCEPTION_GENERAL_PROTECTION (λ e, e <| ei_count := u32 (ei_count e + 1) |>) ;;;
  panic.

Definition pic_init : prog (irqs A) Z :=
  _ <- inb PIC1_DATA ;;
  _ <- inb PIC2_DATA ;;
  outb PIC1_COMMAND (Z.lor PIC_ICW1_INIT PIC_ICW1_EDGE) ;;;
  outb PIC1_DATA IRQ_TIMER ;;;
  outb PIC1_DATA 0x04 ;;;
  outb PIC1_DATA 0x01 ;;;
  outb PIC2_COMMAND (Z.lor PIC_ICW1_INIT PIC_ICW1_EDGE) ;;;
  outb PIC2_DATA IRQ_RTC ;;;
  outb PIC2_DATA 0x02 ;;;
  outb PIC2_DATA 0x01 ;;;
  outb PIC1_DATA 0xFF ;;;
  outb PIC2_DATA 0xFF ;;;
  ret 0.

Definition pic_enable_irq (irq : Z) : prog (irqs A) () :=
  if 16 <=? irq then ret ()
  else
    let '(port, irq) := if irq <? 8 then (PIC1_DATA, irq) else (PIC2_DATA, irq - 8) in
    v <- inb port ;;
    outb port (Z.land v (Z.lnot (Z.shiftl 1 irq))) ;;;
    upd_hw irq (λ h, h <| hw_enabled := true |>).

Definition pic_disable_irq (irq : Z) : prog (irqs A) () :=
  if 16 <=? irq then ret ()
  else
    let '(port, irq) := if irq <? 8 then (PIC1_DATA, irq) else (PIC2_DATA, irq - 8) in
    v <- inb port ;;
    outb port (Z.lor v (Z.shiftl 1 irq)) ;;;
    upd_hw irq (λ h, h <| hw_enabled := false |>).

Definition pic_get_irq_mask : prog (irqs A) Z :=
  master <- inb PIC1_DATA ;;
  slave <- inb PIC2_DATA ;;
  ret (u16 (Z.lor (Z.shiftl slave 8) master)).

Definition pic_set_irq_mask (mask : Z) : prog (irqs A) () :=
  outb PIC1_DATA (Z.land mask 0xFF) ;;;
  outb PIC2_DATA (Z.land (Z.shiftr mask 8) 0xFF).

Definition timer_init (freq : Z) : prog (irqs A) Z :=
  modify (λ s, s <| g_timer_manager := mk_timer 0 0 0 freq true 0 0 |>) ;;;
  if freq =? 0 then fault
  else
    let divisor := TIMER_DIVISOR / freq in
    outb 0x43 0x36 ;;;
    outb 0x40 (Z.land divisor 0xFF) ;;;
    outb 0x40 (Z.land (Z.shiftr divisor 8) 0xFF) ;;;
    idt_register_handler IRQ_TIMER HTimer ;;;
    pic_enable_irq 0 ;;;
    ret 0.

Context (default_exception_addr default_interrupt_addr idt_addr : Z).

Definition interrupt_init : prog (irqs A) Z :=
  result <- idt_init default_exception_addr default_interrupt_addr idt_addr ;;
  if negb (result =? 0) then ret result
  else
    init_exception_table ;;;
    init_hardware_interrupt_table ;;;
    result <- pic_init ;;
    if negb (result =? 0) then ret result
    else
      idt_register_handler EXCEPTION_PAGE_FAULT HPageFault ;;;
      idt_register_handler EXCEPTION_GENERAL_PROTECTION HGpf ;;;
      idt_register_handler IRQ_KEYBOARD HKeyboard ;;;
      result <- timer_init TIMER_FREQUENCY ;;
      if negb (result =? 0) then ret result else ret 0.

Definition interrupt_shutdown : prog (irqs A) () :=
  _ <- interrupts_disable ;;
  pic_set_irq_mask 0xFFFF ;;;
  modify (λ s, s <| g_timer_manager := (g_timer_manager s) <| initialized := false |> |>).

Definition timer_get_ticks : prog (irqs A) Z := gets (λ s, ticks (g_timer_manager s)).
Definition timer_get_uptime_ms : prog (irqs A) Z := gets (λ s, milliseconds (g_timer_manager s)).
Definition timer_get_uptime_sec : prog (irqs A) Z := gets (λ s, seconds (g_timer_manager s)).

(** The busy wait of [timer_sleep_ms], interleaved with timer interrupts: [arrivals]
    says after which polls one is taken; the wait is unfinished when it runs out. *)
Fixpoint timer_wait (arrivals : list bool) (start ms : Z) : prog (irqs A) bool :=
  now <- timer_get_uptime_ms ;;
  if u64 (now - start) <? ms then
    match arrivals with
    | [] => ret false
    | tick :: arrivals =>
        when tick (timer_interrupt_handler IRQ_TIMER 0) ;;;
        timer_wait arrivals start ms
    end
  else ret true.

Definition timer_sleep_ms (arrivals : list bool) (ms : Z) : prog (irqs A) bool :=
  start <- timer_get_uptime_ms ;; timer_wait arrivals start ms.

Definition exception_get_info (exception : Z) : prog (irqs A) (option exception_info) :=
  if 32 <=? exception then ret None else gets (λ s, g_exceptions s !! Z.to_nat exception).
Definition irq_get_info (irq : Z) : prog (irqs A) (option hardware_interrupt_info) :=
  if 16 <=? irq then ret None else gets (λ s, g_hardware_interrupts s !! Z.to_nat irq).

Definition critical_section_enter : prog (irqs A) Z := interrupts_disable.
Definition critical_section_exit (state : Z) : prog (irqs A) () := interrupts_restore state.

Definition in_interrupt : prog (irqs A) bool :=
  st <- idt_get_stats ;; ret (0 <? nested_interrupts st).
Definition interrupt_get_nesting_level : prog (irqs A) Z :=
  st <- idt_get_stats ;; ret (u32 (nested_interrupts st)).

Definition exception_register_handler (exception : Z) (h : interrupt_handler) : prog (irqs A) Z :=
  if 32 <=? exception then ret (-1) else idt_register_handler exception h.
Definition irq_register_handler (irq : Z) (h : interrupt_handler) : prog (irqs A) Z :=
  if 16 <=? irq then ret (-1) else idt_register_handler (u8 (IRQ_TIMER + irq)) h.
Definition irq_unregister_handler (irq : Z) : prog (irqs A) Z :=
  if 16 <=? irq then ret (-1) else idt_unregister_handler (u8 (IRQ_TIMER + irq)).

(** The call through the handler table. *)
Definition call_handler (h : interrupt_handler) (vector error_code : Z) : prog (irqs A) () :=
  match h with
  | HNull => ret ()
  | HDefaultException => default_exception_handler vector error_code
  | HDefaultInterrupt => default_interrupt_handler vector error_code
  | HTimer => timer_interrupt_handler vector error_code
  | HKeyboard => keyboard_interrupt_handler vector error_code
  | HPageFault => page_fault_handler vector error_code
  | HGpf => gpf_handler vector error_code
  | HClient id => client id vector error_code
  end.

Definition interrupt_common_handler (vector error_code : Z) : prog (irqs A) () :=
  modify (λ s, s <| nested_level := u32 (nested_level s + 1) |>) ;;;
  s <- get ;;
  match handlers s !! Z.to_nat vector with
  | Some h => call_handler h vector error_code
  | None => fault
  end ;;;
  modify (λ s, s <| nested_level := u32 (nested_level s - 1) |>).
End interrupt.

(** ** Statistics *)
Definition sum_of (l : list Z) : Z := foldr Z.add 0 l.

(** Every counted interrupt is in exactly one class and under exactly one vector
    (modulo the widths of the counters). *)
Record stats_ok (st : interrupt_stats) : Prop := {
  so_classes : total_interrupts st =
    u64 (exceptions st + hardware_interrupts st + software_interrupts st + spurious_interrupts st);
  so_length : length (interrupt_frequency st) = 256%nat;
  so_vectors : total_interrupts st mod 2 ^ 32 = sum_of (interrupt_frequency st) mod 2 ^ 32;
  so_nested : nested_interrupts st = 0
}.

Lemma sum_of_app l r : sum_of (app l r) = sum_of l + sum_of r.
Proof. unfold sum_of. induction l as [|x l IH]; simpl; [done|]. rewrite IH. lia. Qed.

Lemma sum_of_bump l i :
  (Z.to_nat i < length l)%nat → sum_of (bump l i) mod 2 ^ 32 = (sum_of l + 1) mod 2 ^ 32.
Proof.
  intros Hi. destruct (lookup_lt_is_Some_2 l (Z.to_nat i) Hi) as [x Hx].
  unfold bump. rewrite <- (take_drop_middle l (Z.to_nat i) x Hx) at 1.
  assert (length (take (Z.to_nat i) l) = Z.to_nat i) as Hl by (rewrite length_take; lia).
  rewrite alter_app_r_alt by lia. rewrite Hl, Nat.sub_diag. simpl.
  rewrite <- (take_drop_middle l (Z.to_nat i) x Hx) at 3. rewrite !sum_of_app.
  change (sum_of (?a :: ?r)) with (a + sum_of r). unfold u32.
  replace (sum_of (take (Z.to_nat i) l) + ((x + 1) mod 2 ^ 32 + sum_of (drop (S (Z.to_nat i)) l)))
    with ((x + 1) mod 2 ^ 32 + (sum_of (take (Z.to_nat i) l) + sum_of (drop (S (Z.to_nat i)) l))) by lia.
  rewrite Zplus_mod_idemp_l. f_equal. lia.
Qed.

Lemma length_bump l i : length (bump l i) = length l.
Proof. apply length_alter. Qed.

Lemma zero_stats_ok : stats_ok zero_stats.
Proof. by split. Qed.

Section interrupt_proofs.
Context {A : Type}.
Implicit Types s : irqs A.
Context (scheduler_is_enabled : ks A → bool) (client : Z → Z → Z → prog (irqs A) ()).

(** The statistics are consistent and the handler table is complete. *)
Definition irq_ok (n : Z) s : Prop :=
  stats_ok (istats s) ∧ length (handlers s) = 256%nat ∧ nested_level s = n.

(** A client's handler does not write the interrupt manager, which is static to
    idt.c, and leaves the nesting level as it finds it. *)
Hypothesis client_frame : ∀ n id vector error_code, keeps (irq_ok n) (client id vector error_code).

(** One counted interrupt. *)
Lemma stats_ok_count st v (f : interrupt_stats → interrupt_stats) :
  stats_ok st → 0 ≤ v < 256 →
  total_interrupts (f st) = u64 (total_interrupts st + 1) →
  interrupt_frequency (f st) = bump (interrupt_frequency st) v →
  nested_interrupts (f st) = nested_interrupts st →
  u64 (exceptions (f st) + hardware_interrupts (f st) + software_interrupts (f st) + spurious_interrupts (f st)) =
    u64 (exceptions st + hardware_interrupts st + software_interrupts st + spurious_interrupts st + 1) →
  stats_ok (f st).
Proof.
  intros [Hc Hl Hv Hn] Hr Et Ef En Es. split.
  - rewrite Et, Es, Hc. unfold u64. by rewrite Zplus_mod_idemp_l.
  - by rewrite Ef, length_bump.
  - rewrite Et, Ef, sum_of_bump by lia. rewrite <- Zplus_mod_idemp_l, <- Hv, Zplus_mod_idemp_l. unfold u64.
    rewrite Z.mod_mod_divide; [done|]. by exists (2 ^ 32).
  - by rewrite En.
Qed.

Lemma outb_ok n port v : keeps (irq_ok n) (outb (A:=A) port v).
Proof. unfold outb. walk. Qed.
Lemma inb_ok n port : keeps (irq_ok n) (inb (A:=A) port).
Proof. unfold inb. walk. Qed.
Lemma upd_hw_ok n i f : keeps (irq_ok n) (upd_hw (A:=A) i f).
Proof. unfold upd_hw. walk. Qed.
Lemma upd_exception_ok n i f : keeps (irq_ok n) (upd_exception (A:=A) i f).
Proof. unfold upd_exception. walk. Qed.
Lemma lift_sched_ok {X} n (m : prog (ks A) X) : keeps (irq_ok n) (lift_sched m).
Proof. intros s x s' Hs. unfold lift_sched. destruct (m (sched s)) as [[y k]| | |]; [|done..]. by intros [= _ <-]. Qed.
#[local] Hint Resolve outb_ok inb_ok upd_hw_ok upd_exception_ok @lift_sched_ok client_frame : keeps.

Lemma pic_send_eoi_ok n irq : keeps (irq_ok n) (pic_send_eoi (A:=A) irq).
Proof. unfold pic_send_eoi. walk. Qed.
Lemma interrupts_enable_ok n : keeps (irq_ok n) (interrupts_enable (A:=A)).
Proof. unfold interrupts_enable. walk. Qed.
Lemma interrupts_disable_ok n : keeps (irq_ok n) (interrupts_disable (A:=A)).
Proof. unfold interrupts_disable. walk. Qed.
#[local] Hint Resolve pic_send_eoi_ok interrupts_enable_ok interrupts_disable_ok : keeps.
Lemma interrupts_restore_ok n st : keeps (irq_ok n) (interrupts_restore (A:=A) st).
Proof. unfold interrupts_restore. walk. Qed.
#[local] Hint Resolve interrupts_restore_ok : keeps.

Lemma irq_ok_handlers n s v h : irq_ok n s → irq_ok n (s <| handlers := <[v := h]> (handlers s) |>).
Proof. intros (? & ? & ?). split_and!; [done| |done]. cbn. by rewrite length_insert. Qed.
#[local] Hint Resolve irq_ok_handlers : keeps.

Lemma register_ok n v h : keeps (irq_ok n) (idt_register_handler (A:=A) v h).
Proof. unfold idt_register_handler. walk. Qed.
Lemma unregister_ok n v : keeps (irq_ok n) (idt_unregister_handler (A:=A) v).
Proof. unfold idt_unregister_handler. walk. Qed.

Lemma default_exception_ok n v e : 0 ≤ v < 256 → keeps (irq_ok n) (default_exception_handler (A:=A) v e).
Proof.
  intros Hv. unfold default_exception_handler, panic. apply keeps_bind; [|intros ?; walk].
  apply keeps_modify. intros s (Hs & Hh & Hn). split_and!; [|done|done]. cbn.
  apply (stats_ok_count _ v (λ st, st <| exceptions := u64 (exceptions st + 1) |>
    <| total_interrupts := u64 (total_interrupts st + 1) |>
    <| interrupt_frequency := bump (interrupt_frequency st) v |>)); try done.
  cbn. unfold u64. rewrite <- !Z.add_assoc, Zplus_mod_idemp_l. f_equal. lia.
Qed.

Lemma default_interrupt_ok n v e : 0 ≤ v < 256 → keeps (irq_ok n) (default_interrupt_handler (A:=A) v e).
Proof.
  intros Hv s [] s' (Hs & Hh & Hn). unfold default_interrupt_handler, bind at 1, modify at 1.
  set (st1 := (istats s) <| total_interrupts := u64 (total_interrupts (istats s) + 1) |>
    <| interrupt_frequency := bump (interrupt_frequency (istats s)) v |>).
  assert (∀ (f : interrupt_stats → interrupt_stats), stats_ok (f st1) → ∀ s0 : irqs A,
    istats s0 = f st1 → handlers s0 = handlers s → nested_level s0 = nested_level s → irq_ok n s0) as Hdone.
  { intros f Hf s0 E1 E2 E3. split_and!; [by rewrite E1|by rewrite E2|by rewrite E3]. }
  destruct ((IRQ_TIMER <=? v) && (v <=? IRQ_SECONDARY_ATA)); [|destruct (INT_SYSCALL <=? v)].
  - unfold bind at 1, modify. intros Hrun. revert Hrun. apply pic_send_eoi_ok.
    apply (Hdone (λ st, st <| hardware_interrupts := u64 (hardware_interrupts st + 1) |>)); [|done..].
    apply (stats_ok_count (istats s) v (λ st, st <| total_interrupts := u64 (total_interrupts st + 1) |>
      <| interrupt_frequency := bump (interrupt_frequency st) v |>
      <| hardware_interrupts := u64 (hardware_interrupts st + 1) |>)); try done.
    cbn. unfold u64. rewrite (Z.add_comm (exceptions _)), <- !Z.add_assoc, Zplus_mod_idemp_l. f_equal. lia.
  - intros [= <-].
    apply (Hdone (λ st, st <| software_interrupts := u64 (software_interrupts st + 1) |>)); [|done..].
    apply (stats_ok_count (istats s) v (λ st, st <| total_interrupts := u64 (total_interrupts st + 1) |>
      <| interrupt_frequency := bump (interrupt_frequency st) v |>
      <| software_interrupts := u64 (software_interrupts st + 1) |>)); try done.
    cbn. unfold u64. rewrite <- (Zplus_mod_idemp_l _ (spurious_interrupts _)), Zplus_mod_idemp_r, Zplus_mod_idemp_l.
    f_equal. lia.
  - intros [= <-].
    apply (Hdone (λ st, st <| spurious_interrupts := u64 (spurious_interrupts st + 1) |>)); [|done..].
    apply (stats_ok_count (istats s) v (λ st, st <| total_interrupts := u64 (total_interrupts st + 1) |>
      <| interrupt_frequency := bump (interrupt_frequency st) v |>
      <| spurious_interrupts := u64 (spurious_interrupts st + 1) |>)); try done.
    cbn. unfold u64. rewrite Zplus_mod_idemp_r. f_equal. lia.
Qed.

Lemma call_handler_ok n h v e :
  0 ≤ v < 256 → keeps (irq_ok n) (call_handler scheduler_is_enabled client h v e).
Proof.
  intros Hv. destruct h; simpl; [walk|by apply default_exception_ok|by apply default_interrupt_ok|..].
  - unfold timer_interrupt_handler. walk.
  - unfold keyboard_interrupt_handler. walk.
  - unfold page_fault_handler. walk.
  - unfold gpf_handler, panic. walk.
  - auto with keeps.
Qed.

Lemma common_handler_ok n v e :
  0 ≤ n < 2 ^ 32 - 1 → 0 ≤ v < 256 →
  keeps (irq_ok n) (interrupt_common_handler scheduler_is_enabled client v e).
Proof.
  intros Hn Hv s [] s' (Hs & Hh & Hl). unfold interrupt_common_handler, bind at 1, modify at 1.
  unfold bind at 1, get. cbn [handlers fset].
  destruct (handlers s !! Z.to_nat v) as [h|]; [|done]. unfold bind.
  destruct (call_handler scheduler_is_enabled client h v e _) as [[[] s1]| | |] eqn:E; [|done..].
  apply (call_handler_ok (n + 1)) in E as (Hs1 & Hh1 & Hl1); [|done|].
  - intros [= <-]. split_and!; [done..|]. cbn. rewrite Hl1, u32_small; lia.
  - split_and!; [done..|]. cbn. rewrite Hl, u32_small; lia.
Qed.

(** What can happen once the system is initialised. *)
Inductive irq_op :=
  | OpInterrupt (vector error_code : Z) | OpRegister (vector : Z) (h : interrupt_handler)
  | OpUnregister (vector : Z) | OpIrqRegister (irq : Z) (h : interrupt_handler) | OpIrqUnregister (irq : Z)
  | OpEnableIrq (irq : Z) | OpDisableIrq (irq : Z) | OpReset | OpInEnable | OpInDisable | OpRestore (st : Z)
  | OpShutdown.

Definition run_irq_op (op : irq_op) : prog (irqs A) () :=
  match op with
  | OpInterrupt v e => interrupt_common_handler scheduler_is_enabled client (u8 v) e
  | OpRegister v h => idt_register_handler (u8 v) h ;;; ret ()
  | OpUnregister v => idt_unregister_handler (u8 v) ;;; ret ()
  | OpIrqRegister i h => irq_register_handler i h ;;; ret ()
  | OpIrqUnregister i => irq_unregister_handler i ;;; ret ()
  | OpEnableIrq i => pic_enable_irq (u8 i)
  | OpDisableIrq i => pic_disable_irq (u8 i)
  | OpReset => idt_reset_stats
  | OpInEnable => interrupts_enable
  | OpInDisable => interrupts_disable ;;; ret ()
  | OpRestore st => interrupts_restore st
  | OpShutdown => interrupt_shutdown
  end.

Inductive irq_step : irqs A → irqs A → Prop :=
  | irq_step_op op s s' : run_irq_op op s = Ok ((), s') → irq_step s s'.

Lemma run_irq_op_ok op : keeps (irq_ok 0) (run_irq_op op).
Proof.
  destruct op; simpl.
  - apply common_handler_ok; [lia|apply u8_range].
  - apply keeps_bind; [apply register_ok|intros ?; walk].
  - apply keeps_bind; [apply unregister_ok|intros ?; walk].
  - unfold irq_register_handler. apply keeps_bind; [apply keeps_if; [walk|apply register_ok]|intros ?; walk].
  - unfold irq_unregister_handler. apply keeps_bind; [apply keeps_if; [walk|apply unregister_ok]|intros ?; walk].
  - unfold pic_enable_irq. destruct (u8 irq <? 8); walk.
  - unfold pic_disable_irq. destruct (u8 irq <? 8); walk.
  - unfold idt_reset_stats. apply keeps_modify. intros s (_ & ? & ?). split_and!; [apply zero_stats_ok|done|done].
  - walk.
  - walk.
  - walk.
  - unfold interrupt_shutdown, pic_set_irq_mask. walk.
Qed.

Lemma irq_steps_ok s s' : rtc irq_step s s' → irq_ok 0 s → irq_ok 0 s'.
Proof.
  induction 1 as [|s s1 s2 [op a b Hrun] _ IH]; [done|]. intros Hs. apply IH. by apply (run_irq_op_ok op a () b).
Qed.

(** C13: after [idt_init], whatever interrupts arrive and handlers are registered or
    removed, every interrupt the default handlers count is in exactly one class
    (exception, hardware, software, spurious) and under exactly one vector, the
    nesting level is back at 0 between interrupts, and the [nested_interrupts]
    counter that [in_interrupt] reads is never anything but 0. *)
Theorem interrupt_stats_consistent ea ia ta s s0 s' :
  idt_init ea ia ta s = Ok (0, s0) → rtc irq_step s0 s' →
  stats_ok (istats s') ∧ nested_level s' = 0 ∧ in_interrupt s' = Ok (false, s').
Proof.
  intros Hinit Hsteps.
  assert (wp (idt_init ea ia ta) (λ _ s1, irq_ok 0 s1) s) as H.
  { apply idt_init_spec. intros s1 _ _ Est En _ _ _ _ Hl _. split_and!; [rewrite Est; apply zero_stats_ok|done|done]. }
  destruct (proj1 (wp_run _ _ _) H) as (r & s1 & Hrun & Hok). rewrite Hinit in Hrun. injection Hrun as _ <-.
  destruct (irq_steps_ok s0 s' Hsteps Hok) as (Hs & _ & Hn).
  split_and!; [done..|]. unfold in_interrupt, bind, idt_get_stats, gets. by rewrite (so_nested _ Hs).
Qed.

(** ** Critical sections *)

(** [n] nested critical sections. *)
Fixpoint nest (n : nat) : prog (irqs A) () :=
  match n with
  | O => ret ()
  | S n => st <- critical_section_enter ;; nest n ;;; critical_section_exit st
  end.

Lemma ldiff_if_clear x : has_bits (Z.ldiff x 0x200) 0x200 = false.
Proof.
  change 0x200 with (Z.shiftl 1 9). rewrite has_bits_single, Z.ldiff_spec, testbit_pow2 by lia.
  by rewrite bool_decide_true, andb_false_r.
Qed.

Lemma lor_if_set x : has_bits (Z.lor x 0x200) 0x200 = true.
Proof.
  change 0x200 with (Z.shiftl 1 9). rewrite has_bits_single, Z.lor_spec, testbit_pow2 by lia.
  by rewrite bool_decide_true, orb_true_r.
Qed.

Lemma nest_clear n s (Q : () → irqs A → Prop) :
  has_bits (cpu_rflags s) 0x200 = false → 0 ≤ disabled_count s → disabled_count s + Z.of_nat n < 2 ^ 64 →
  (∀ s', has_bits (cpu_rflags s') 0x200 = false → disabled_count s' = disabled_count s + Z.of_nat n → Q () s') →
  wp (nest n) Q s.
Proof.
  revert s Q. induction n as [|n IH]; intros s Q Hif H0 Hd HQ; simpl.
  - apply wp_ret, HQ; [done|lia].
  - apply wp_bind, wp_bind, wp_gets, wp_bind, wp_modify, wp_ret, wp_bind.
    apply IH; cbn; [apply ldiff_if_clear|rewrite u64_small; lia|rewrite u64_small; lia|].
    intros s' Hif' Hd'. unfold critical_section_exit, interrupts_restore. rewrite Hif. cbn [when]. apply wp_ret.
    apply HQ; [done|]. rewrite Hd', u64_small; lia.
Qed.

(** One critical section gives interrupts back, but nested ones do not: leaving
    [n + 1] nested critical sections entered with interrupts on leaves the balance
    at [n], and interrupts stay disabled as soon as there was any nesting. *)
Theorem nested_critical_sections n s :
  has_bits (cpu_rflags s) 0x200 = true → disabled_count s = 0 → Z.of_nat n + 1 < 2 ^ 64 →
  wp (nest (S n)) (λ _ s', disabled_count s' = Z.of_nat n ∧
    (has_bits (cpu_rflags s') 0x200 = true ↔ n = 0%nat)) s.
Proof.
  intros Hif Hd Hn. simpl. apply wp_bind, wp_bind, wp_gets, wp_bind, wp_modify, wp_ret, wp_bind.
  apply nest_clear; cbn; [apply ldiff_if_clear|rewrite Hd; done|rewrite Hd, u64_small; lia|].
  intros s' Hif' Hd'. rewrite Hd, u64_small in Hd' by lia.
  unfold critical_section_exit, interrupts_restore. rewrite Hif. cbn [when].
  apply wp_bind, wp_get. rewrite (proj2 (Z.ltb_lt 0 (disabled_count s'))) by lia. cbn [when].
  apply wp_bind, wp_modify, wp_bind, wp_get. cbn. rewrite Hd', u64_small by lia.
  destruct (Z.eqb_spec (0 + 1 + Z.of_nat n - 1) 0) as [E|E].
  - cbn [when]. apply wp_modify. cbn. rewrite lor_if_set. split; [lia|]. split; [intros _; lia|done].
  - cbn [when]. apply wp_ret. cbn. rewrite Hif'. split; [lia|]. split; [done|lia].
Qed.
End interrupt_proofs.

(** ** Initialisation and the timer *)
Section interrupt_init_proofs.
Context {A : Type}.
Implicit Types s : irqs A.

(** Interrupts are on and balanced, or off. *)
Definition balanced s : Prop := has_bits (cpu_rflags s) 0x200 = true → disabled_count s = 0.

(** The balance after one registration: it grows by one when interrupts are off. *)
Definition leak s : Z := if has_bits (cpu_rflags s) 0x200 then 0 else disabled_count s + 1.

Lemma register_spec s v h (Q : Z → irqs A → Prop) :
  istate s ≠ INTERRUPT_SYSTEM_DISABLED → h ≠ HNull → balanced s → 0 ≤ disabled_count s < 2 ^ 64 - 1 →
  (∀ rf, has_bits rf 0x200 = has_bits (cpu_rflags s) 0x200 →
     Q 0 (s <| handlers := <[Z.to_nat v := h]> (handlers s) |> <| cpu_rflags := rf |> <| disabled_count := leak s |>)) →
  wp (idt_register_handler v h) Q s.
Proof.
  intros Hst Hh Hb Hd HQ. apply wp_bind, wp_get. rewrite !bool_decide_false by done.
  apply wp_bind, wp_bind, wp_gets, wp_bind, wp_modify, wp_ret, wp_bind, wp_modify, wp_bind.
  unfold interrupts_restore. unfold leak in HQ. unfold balanced in Hb.
  destruct (has_bits (cpu_rflags s) 0x200) eqn:E; cbn [when].
  - rewrite ?(Hb eq_refl). apply wp_bind, wp_get. cbn. rewrite ?(Hb eq_refl). cbn. apply wp_bind, wp_modify, wp_bind, wp_get.
    cbn. rewrite ?(Hb eq_refl). cbn. apply wp_modify, wp_ret.
    specialize (HQ (Z.lor (Z.ldiff (cpu_rflags s) 0x200) 0x200) (lor_if_set _)).
    match goal with |- Q 0 ?st => match type of HQ with Q 0 ?st' => replace st with st'; [exact HQ|] end end.
    destruct s. cbn in *. by rewrite ?(Hb eq_refl).
  - apply wp_ret, wp_ret. specialize (HQ (Z.ldiff (cpu_rflags s) 0x200) (ldiff_if_clear _)).
    rewrite <- (u64_small (disabled_count s + 1)) in HQ by lia. exact HQ.
Qed.

(** The handler table [interrupt_init] sets up. *)
Definition initial_handler (v : Z) : interrupt_handler :=
  if v =? EXCEPTION_PAGE_FAULT then HPageFault
  else if v =? EXCEPTION_GENERAL_PROTECTION then HGpf
  else if v =? IRQ_KEYBOARD then HKeyboard
  else if v =? IRQ_TIMER then HTimer
  else if v <? 32 then HDefaultException else HDefaultInterrupt.

Lemma initial_handlers_lookup (hs : list interrupt_handler) v :
  length hs = 256%nat → 0 ≤ v < 256 →
  hs !! Z.to_nat v = Some (if v <? 32 then HDefaultException else HDefaultInterrupt) →
  <[Z.to_nat IRQ_TIMER := HTimer]> (<[Z.to_nat IRQ_KEYBOARD := HKeyboard]>
    (<[Z.to_nat EXCEPTION_GENERAL_PROTECTION := HGpf]> (<[Z.to_nat EXCEPTION_PAGE_FAULT := HPageFault]> hs)))
    !! Z.to_nat v = Some (initial_handler v).
Proof.
  intros Hl Hv Hd. unfold initial_handler, IRQ_TIMER, IRQ_KEYBOARD, EXCEPTION_GENERAL_PROTECTION, EXCEPTION_PAGE_FAULT.
  rewrite !list_lookup_insert, !length_insert, Hl. rewrite Hd.
  destruct (Z.eqb_spec v 14), (Z.eqb_spec v 13), (Z.eqb_spec v 33), (Z.eqb_spec v 32); subst;
    repeat case_decide; try done; lia.
Qed.

Lemma pic_init_spec s (Q : Z → irqs A → Prop) : (∀ l, Q 0 (s <| port_log := l |>)) → wp pic_init Q s.
Proof.
  intros HQ. apply wp_bind, wp_ret, wp_bind, wp_ret. do 10 (apply wp_bind, wp_modify). apply wp_ret.
  match goal with |- Q 0 ?st => let l := eval cbn [port_log fset] in (port_log st) in
    replace st with (s <| port_log := l |>) by (by destruct s) end. apply HQ.
Qed.

Lemma timer_init_spec s freq (Q : Z → irqs A → Prop) :
  freq ≠ 0 → istate s ≠ INTERRUPT_SYSTEM_DISABLED → balanced s → 0 ≤ disabled_count s < 2 ^ 64 - 1 →
  (∀ l rf, has_bits rf 0x200 = has_bits (cpu_rflags s) 0x200 →
     Q 0 (s <| g_timer_manager := mk_timer 0 0 0 freq true 0 0 |>
            <| handlers := <[Z.to_nat IRQ_TIMER := HTimer]> (handlers s) |> <| cpu_rflags := rf |>
            <| disabled_count := leak s |>
            <| g_hardware_interrupts := alter (λ h, h <| hw_enabled := true |>) (Z.to_nat 0) (g_hardware_interrupts s) |>
            <| port_log := l |>)) →
  wp (timer_init freq) Q s.
Proof.
  intros Hf Hst Hb Hd HQ. apply wp_bind, wp_modify. rewrite (proj2 (Z.eqb_neq freq 0) Hf).
  do 3 (apply wp_bind, wp_modify). apply wp_bind, register_spec; [done..|]. intros rf Hrf.
  apply wp_bind, wp_bind, wp_ret, wp_bind, wp_modify, wp_modify, wp_ret.
  match goal with |- Q 0 ?st => let l := eval cbn [port_log fset] in (port_log st) in specialize (HQ l rf Hrf);
    match type of HQ with Q 0 ?st' => replace st with st'; [exact HQ|] end end. by destruct s.
Qed.

(** [interrupt_init] returns 0 with the page-fault, protection-fault, keyboard
    and timer handlers registered and the default handlers elsewhere, the timer at
    1000 Hz and zero, IRQ 0 alone enabled, and every IRQ at vector 32 + IRQ.  With
    interrupts on it leaves them on; with interrupts off every registration it makes
    leaks a disable, so that the next [interrupts_enable] does not turn them on. *)
Theorem interrupt_init_correct ea ia ta s :
  wp (interrupt_init ea ia ta) (λ r s', r = 0 ∧
    (∀ v, 0 ≤ v < 256 → handlers s' !! Z.to_nat v = Some (initial_handler v)) ∧
    g_timer_manager s' = mk_timer 0 0 0 1000 true 0 0 ∧
    (∀ i, 0 ≤ i < 16 → ∃ h, g_hardware_interrupts s' !! Z.to_nat i = Some h ∧
       hw_vector h = 32 + i ∧ hw_irq h = i ∧ hw_enabled h = (i =? 0) ∧ hw_count h = 0) ∧
    (has_bits (cpu_rflags s) 0x200 = true → has_bits (cpu_rflags s') 0x200 = true ∧ disabled_count s' = 0) ∧
    (has_bits (cpu_rflags s) 0x200 = false → disabled_count s' = 4 ∧
       wp interrupts_enable (λ _ s2, has_bits (cpu_rflags s2) 0x200 = false) s')) s.
Proof.
  apply wp_bind, idt_init_spec. intros s1 Hst _ _ _ Hd Hrf _ _ Hlen Hh. cbn [negb Z.eqb].
  apply wp_bind, wp_modify, wp_bind, wp_modify, wp_bind, pic_init_spec. intros l1. cbn [negb Z.eqb].
  set (b := has_bits (cpu_rflags s) 0x200). change (has_bits (cpu_rflags s) 0x200) with b in Hrf.
  assert (has_bits (cpu_rflags s1) 0x200 = b) as Hb by (by rewrite Hrf).
  assert (∀ st : irqs A, disabled_count st = 0 → balanced st) as Hbal0 by (by intros ? ? ?).
  assert (∀ st : irqs A, has_bits (cpu_rflags st) 0x200 = b → ∀ k, disabled_count st = (if b then 0 else k) →
    balanced st ∧ leak st = if b then 0 else k + 1) as Hlk.
  { intros st E k Ek. unfold balanced, leak. rewrite E, Ek. by destruct b. }
  destruct (Hlk s1 Hb 0) as [Hb1 Hl1]; [by rewrite Hd; destruct b|].
  apply wp_bind, register_spec; [by cbn; rewrite Hst|done|exact Hb1|cbn; rewrite Hd; lia|]. intros rf1 E1%(λ E, eq_trans E Hb).
  match goal with |- wp _ _ ?st => set (s2 := st) end.
  destruct (Hlk s2) with (k := 1) as [Hb2 Hl2]; [exact E1|exact Hl1|].
  apply wp_bind, register_spec; [by cbn; rewrite Hst|done|exact Hb2| |].
  { change (disabled_count s2) with (leak s1). rewrite Hl1. by destruct b. }
  intros rf2 E2%(λ E, eq_trans E E1). match goal with |- wp _ _ ?st => set (s3 := st) end.
  destruct (Hlk s3) with (k := 2) as [Hb3 Hl3]; [exact E2|exact Hl2|].
  apply wp_bind, register_spec; [by cbn; rewrite Hst|done|exact Hb3| |].
  { change (disabled_count s3) with (leak s2). rewrite Hl2. by destruct b. }
  intros rf3 E3%(λ E, eq_trans E E2). match goal with |- wp _ _ ?st => set (s4 := st) end.
  destruct (Hlk s4) with (k := 3) as [Hb4 Hl4]; [exact E3|exact Hl3|].
  apply wp_bind, timer_init_spec; [done|by cbn; rewrite Hst|exact Hb4| |].
  { change (disabled_count s4) with (leak s3). rewrite Hl3. by destruct b. }
  intros l rf4 E4%(λ E, eq_trans E E3). cbn [negb Z.eqb]. apply wp_ret.
  match goal with |- context [handlers ?st] => set (s5 := st) end.
  assert (has_bits (cpu_rflags s5) 0x200 = b) as Hb5 by exact E4.
  assert (disabled_count s5 = if b then 0 else 4) as Hd5 by exact Hl4.
  split_and!; [done| |done| | |].
  - intros v Hv. by apply initial_handlers_lookup, (Hh v Hv).
  - intros i Hi. rewrite <- (Z2Nat.id i) by lia. assert (Z.to_nat i < 16)%nat as Hk by lia.
    generalize dependent (Z.to_nat i). intros k Hk. rewrite Nat2Z.id.
    do 16 (destruct k as [|k]; [eexists; split; [reflexivity|done]|]). lia.
  - intros Hbt. rewrite Hb5, Hd5. by rewrite Hbt.
  - intros Hbf. rewrite Hbf in Hb5, Hd5. split; [done|]. apply wp_bind, wp_get. rewrite Hd5.
    apply wp_bind, wp_modify, wp_bind, wp_get. cbn [disabled_count fset]. rewrite Hd5. exact Hb5.
Qed.

Context (scheduler_is_enabled : ks A → bool).

Lemma timer_handler_spec s v e (Q : () → irqs A → Prop) :
  frequency (g_timer_manager s) ≠ 0 → scheduler_is_enabled (sched s) = false →
  (∀ s', let t := g_timer_manager s in let n := u64 (ticks t + 1) in let ms := u64 (n * (1000 / frequency t)) in
     g_timer_manager s' = t <| ticks := n |> <| milliseconds := ms |> <| seconds := ms / 1000 |> →
     sched s' = sched s → Q () s') →
  wp (timer_interrupt_handler scheduler_is_enabled v e) Q s.
Proof.
  intros Hf Hs HQ. apply wp_bind, wp_get. rewrite (proj2 (Z.eqb_neq _ 0) Hf).
  apply wp_bind, wp_modify, wp_bind, wp_get, wp_bind, wp_modify, wp_bind, wp_bind, wp_ret, wp_modify, wp_bind, wp_get.
  cbn [sched fset]. rewrite Hs. apply wp_ret. by apply HQ.
Qed.

(** The number of timer interrupts in [arrivals]. *)
Definition arrived (arrivals : list bool) : Z := Z.of_nat (length (filter (λ b : bool, b = true) arrivals)).

Lemma arrived_cons b l : arrived (b :: l) = (if b then 1 else 0) + arrived l.
Proof. unfold arrived. rewrite filter_cons. destruct b; [rewrite decide_True by done|rewrite decide_False by done]; simpl length; lia. Qed.

Lemma arrived_bound l : 0 ≤ arrived l ≤ Z.of_nat (length l).
Proof. unfold arrived. pose proof (length_filter (λ b : bool, b = true) l). lia. Qed.

Lemma timer_wait_spec arrivals n0 r ms s (Q : bool → irqs A → Prop) :
  let t := g_timer_manager s in
  frequency t ≠ 0 → r = 1000 / frequency t → 0 ≤ r → 0 ≤ n0 ≤ ticks t → milliseconds t = ticks t * r →
  (ticks t + Z.of_nat (length arrivals)) * r < 2 ^ 64 → ticks t + Z.of_nat (length arrivals) < 2 ^ 64 →
  scheduler_is_enabled (sched s) = false →
  (∀ s', Q (ms <=? (ticks t - n0 + arrived arrivals) * r) s') →
  wp (timer_wait scheduler_is_enabled arrivals (n0 * r) ms) Q s.
Proof.
  revert s Q. induction arrivals as [|b l IH]; intros s Q t Hf Hr Hr0 Hn Hms Hb Hb2 Hs HQ; simpl.
  - apply wp_bind, wp_gets. fold t. rewrite Hms, u64_small by (simpl in Hb; nia).
    replace (ticks t * r - n0 * r) with ((ticks t - n0 + 0) * r) by lia.
    destruct (Z.ltb_spec ((ticks t - n0 + 0) * r) ms) as [H|H]; apply wp_ret.
    + specialize (HQ s). change (arrived []) with 0 in HQ. rewrite (proj2 (Z.leb_gt ms _)) in HQ by lia. exact HQ.
    + specialize (HQ s). change (arrived []) with 0 in HQ. rewrite (proj2 (Z.leb_le ms _)) in HQ by lia. exact HQ.
  - pose proof (arrived_bound l) as Hal. rewrite arrived_cons in HQ.
    apply wp_bind, wp_gets. fold t. rewrite Hms, u64_small by (simpl in Hb; nia).
    replace (ticks t * r - n0 * r) with ((ticks t - n0) * r) by lia. simpl length in Hb, Hb2.
    destruct (Z.ltb_spec ((ticks t - n0) * r) ms) as [H|H].
    2:{ apply wp_ret. specialize (HQ s). rewrite (proj2 (Z.leb_le ms _)) in HQ by (destruct b; nia). exact HQ. }
    apply wp_bind. destruct b; cbn [when].
    + apply timer_handler_spec; [done..|]. cbv zeta. fold t. intros s' Ht Hs'.
      assert (u64 (ticks t + 1) = ticks t + 1) as E by (apply u64_small; lia).
      assert (u64 ((ticks t + 1) * r) = (ticks t + 1) * r) as E2 by (apply u64_small; nia).
      rewrite E, <- Hr, E2 in Ht.
      assert (ticks (g_timer_manager s') = ticks t + 1) as Et by (by rewrite Ht).
      apply IH; [by rewrite Ht|by rewrite Ht|done|lia|by rewrite Ht|rewrite Et; nia|lia|by rewrite Hs'|].
      intros s2. rewrite Et. replace (ticks t + 1 - n0 + arrived l) with (ticks t - n0 + (1 + arrived l)) by lia. apply HQ.
    + apply wp_ret, IH; fold t; [done..|nia|lia|done|]. intros s2.
      replace (ticks t - n0 + arrived l) with (ticks t - n0 + (0 + arrived l)) by lia. apply HQ.
Qed.

(** C38: [timer_sleep_ms] returns exactly when the timer interrupts taken so far add
    up to the time asked for, each counting 1000 / frequency milliseconds (no wrap of
    the clock): at 1000 Hz after [ms] of them, above 1000 Hz never. *)
Theorem timer_sleep_correct arrivals ms s :
  let t := g_timer_manager s in
  0 < frequency t → 0 < ms → 0 ≤ ticks t → milliseconds t = ticks t * (1000 / frequency t) →
  (ticks t + Z.of_nat (length arrivals)) * 1000 < 2 ^ 64 → scheduler_is_enabled (sched s) = false →
  wp (timer_sleep_ms scheduler_is_enabled arrivals ms) (λ b _,
    b = (ms <=? arrived arrivals * (1000 / frequency t)) ∧ (1000 < frequency t → b = false) ∧
    (frequency t = 1000 → b = (ms <=? arrived arrivals))) s.
Proof.
  intros t Hf Hms Ht Hm Hb Hs. apply wp_bind, wp_gets. fold t. rewrite Hm.
  assert (0 ≤ 1000 / frequency t ≤ 1000) as Hr by (split; [apply Z.div_pos; lia|apply Z.div_le_upper_bound; nia]).
  apply (timer_wait_spec _ _ (1000 / frequency t)); fold t; try done; try lia; try nia.
  intros s'. rewrite Z.sub_diag, Z.add_0_l. split_and!; [done| |].
  - intros Hgt. rewrite Z.div_small by lia. rewrite Z.mul_0_r. apply Z.leb_gt. lia.
  - intros ->. by rewrite Z.div_same, Z.mul_1_r by lia.
Qed.
End interrupt_init_proofs.

(** ** Witnesses *)
Definition sample_irqs : irqs () := irqs_boot 0x202 (ks_boot ()).
Definition no_client (id vector error_code : Z) : prog (irqs ()) () := ret ().

Lemma interrupt_stats_consistent_witness :
  ∃ s0 s', idt_init 0x101000 0x102000 0x200000 sample_irqs = Ok (0, s0) ∧
    rtc (irq_step (λ _, false) no_client) s0 s' ∧ stats_ok (istats s').
Proof.
  assert (wp (idt_init 0x101000 0x102000 0x200000) (λ r _, r = 0) sample_irqs) as H by (by apply idt_init_spec).
  destruct (proj1 (wp_run _ _ _) H) as (r & s0 & Hrun & ->). exists s0.
  assert (rtc (irq_step (λ _, false) no_client) s0 (s0 <| istats := zero_stats |>)) as Hs.
  { apply rtc_once, (irq_step_op _ _ OpReset). reflexivity. }
  exists (s0 <| istats := zero_stats |>). split; [exact Hrun|]. split; [exact Hs|].
  refine (proj1 (interrupt_stats_consistent (λ _, false) no_client _ _ _ _ _ _ _ Hrun Hs)).
  intros n id v e. unfold no_client. walk.
Defined.

Lemma nested_critical_sections_witness :
  ∃ s', nest 2 sample_irqs = Ok ((), s') ∧ disabled_count s' = 1.
Proof.
  pose proof (nested_critical_sections 1 sample_irqs eq_refl eq_refl ltac:(lia)) as H.
  destruct (proj1 (wp_run _ _ _) H) as ([] & s' & Hrun & Hd & _). exists s'. split; [exact Hrun|exact Hd].
Defined.

Lemma timer_sleep_correct_witness :
  ∃ s', timer_sleep_ms (λ _, false) [true; false; true] 2
          (sample_irqs <| g_timer_manager := mk_timer 0 0 0 1000 true 0 0 |>) = Ok (true, s').
Proof.
  pose proof (timer_sleep_correct (λ _ : ks (), false) [true; false; true] 2
    (sample_irqs <| g_timer_manager := mk_timer 0 0 0 1000 true 0 0 |>)
    ltac:(done) ltac:(done) ltac:(done) ltac:(done) ltac:(done) ltac:(done)) as H.
  destruct (proj1 (wp_run _ _ _) H) as (b & s' & Hrun & Hb & _). exists s'. rewrite Hrun, Hb. reflexivity.
Defined.
