(* ===== verification/Device.v ===== *)
(** * Device driver framework (drivers/device.c)

    Registration of drivers and devices, the life cycle of a device, I/O
    requests and their statistics.  Devices, drivers and requests are records
    in stores keyed by their address, as the control blocks of SchedState.v
    are.  The entry points of the drivers, the completion callbacks, the error
    numbers and the millisecond clock are declared in no file of the
    repository: they are the parameters of the classes [Errno] and
    [DriverEnv]. *)
From S2P Require Import Prelude.
From S2P Require Import Heap.
From S2P Require Import SchedState.
Local Open Scope Z_scope.

(** ** Constants of drivers/device.h *)
Definition DEVICE_TYPE_MAX : Z := 15.

Definition DEVICE_STATE_UNKNOWN : Z := 0.
Definition DEVICE_STATE_INITIALIZING : Z := 1.
Definition DEVICE_STATE_READY : Z := 2.
Definition DEVICE_STATE_BUSY : Z := 3.
Definition DEVICE_STATE_ERROR : Z := 4.
Definition DEVICE_STATE_SUSPENDED : Z := 5.
Definition DEVICE_STATE_REMOVED : Z := 6.
Definition DEVICE_STATE_MAX : Z := 7.

Definition DEVICE_CAP_SUSPEND : Z := Z.shiftl 1 6.

Definition DEVICE_IO_READ : Z := 0.
Definition DEVICE_IO_WRITE : Z := 1.
Definition DEVICE_IO_CONTROL : Z := 2.

Definition DEVICE_IO_PENDING : Z := 0.
Definition DEVICE_IO_SUCCESS : Z := 1.
Definition DEVICE_IO_ERROR : Z := 2.
Definition DEVICE_IO_TIMEOUT : Z := 3.

Definition SIZEOF_REQUEST : Z := 88.

(** ** Data *)

(** A request; [rq_callback] is a function pointer, 0 for NULL. *)
Record device_io_request := mk_request {
  rq_request_id : Z; rq_type : Z; rq_status : Z; rq_device : Z;
  rq_offset : Z; rq_buffer : Z; rq_size : Z; rq_flags : Z; rq_timestamp : Z;
  rq_private_data : Z; rq_callback : Z; rq_next : Z
}.
#[export] Instance eta_request : Eta device_io_request := λ r,
  {| rq_request_id := rq_request_id r; rq_type := rq_type r; rq_status := rq_status r;
     rq_device := rq_device r; rq_offset := rq_offset r; rq_buffer := rq_buffer r;
     rq_size := rq_size r; rq_flags := rq_flags r; rq_timestamp := rq_timestamp r;
     rq_private_data := rq_private_data r; rq_callback := rq_callback r; rq_next := rq_next r |}.
Definition zero_request : device_io_request := mk_request 0 0 0 0 0 0 0 0 0 0 0 0.

Record device_stats := mk_device_stats {
  ds_requests_total : Z; ds_requests_read : Z; ds_requests_write : Z; ds_requests_control : Z;
  ds_requests_successful : Z; ds_requests_failed : Z; ds_requests_timeout : Z;
  ds_bytes_read : Z; ds_bytes_written : Z; ds_interrupts_received : Z; ds_errors_total : Z;
  ds_uptime_ms : Z; ds_avg_request_time_us : Z; ds_max_request_time_us : Z
}.
#[export] Instance eta_device_stats : Eta device_stats := λ r,
  {| ds_requests_total := ds_requests_total r; ds_requests_read := ds_requests_read r;
     ds_requests_write := ds_requests_write r; ds_requests_control := ds_requests_control r;
     ds_requests_successful := ds_requests_successful r; ds_requests_failed := ds_requests_failed r;
     ds_requests_timeout := ds_requests_timeout r; ds_bytes_read := ds_bytes_read r;
     ds_bytes_written := ds_bytes_written r; ds_interrupts_received := ds_interrupts_received r;
     ds_errors_total := ds_errors_total r; ds_uptime_ms := ds_uptime_ms r;
     ds_avg_request_time_us := ds_avg_request_time_us r;
     ds_max_request_time_us := ds_max_request_time_us r |}.
Definition zero_device_stats : device_stats := mk_device_stats 0 0 0 0 0 0 0 0 0 0 0 0 0 0.

(** Strings are the bytes before the terminator. *)
Record device_info := mk_device_info {
  di_name : list Z; di_description : list Z; di_manufacturer : list Z; di_model : list Z;
  di_serial_number : list Z; di_firmware_version : list Z;
  di_vendor_id : Z; di_device_id : Z; di_revision : Z; di_class_code : Z; di_subclass_code : Z
}.

Record device_config := mk_device_config {
  dc_base_address : Z; dc_memory_mapped_base : Z; dc_memory_size : Z; dc_irq_line : Z;
  dc_dma_channel : Z; dc_clock_frequency : Z; dc_max_transfer_size : Z;
  dc_alignment_requirement : Z; dc_timeout_ms : Z; dc_retry_count : Z
}.

(** Function pointers, 0 for NULL. *)
Record device_driver_ops := mk_ops {
  op_probe : Z; op_init : Z; op_start : Z; op_stop : Z; op_reset : Z; op_suspend : Z;
  op_resume : Z; op_remove : Z; op_read : Z; op_write : Z; op_ioctl : Z;
  op_interrupt_handler : Z
}.

Record device_driver := mk_driver {
  dr_name : list Z; dr_version : list Z; dr_author : list Z; dr_supported_types : list Z;
  dr_flags : Z; dr_ops : device_driver_ops; dr_next : Z; dr_private_data : Z;
  dr_reference_count : Z; dr_loaded : bool
}.
#[export] Instance eta_driver : Eta device_driver := λ r,
  {| dr_name := dr_name r; dr_version := dr_version r; dr_author := dr_author r;
     dr_supported_types := dr_supported_types r; dr_flags := dr_flags r; dr_ops := dr_ops r;
     dr_next := dr_next r; dr_private_data := dr_private_data r;
     dr_reference_count := dr_reference_count r; dr_loaded := dr_loaded r |}.

Record device := mk_device {
  dv_device_id : Z; dv_type : Z; dv_state : Z; dv_capabilities : Z;
  dv_info : device_info; dv_config : device_config; dv_stats : device_stats;
  dv_driver : Z; dv_parent : Z; dv_children : Z; dv_next_sibling : Z; dv_next : Z;
  dv_request_queue : Z; dv_driver_data : Z;
  dv_created_time : Z; dv_last_access_time : Z; dv_registered : bool
}.
#[export] Instance eta_device : Eta device := λ r,
  {| dv_device_id := dv_device_id r; dv_type := dv_type r; dv_state := dv_state r;
     dv_capabilities := dv_capabilities r; dv_info := dv_info r; dv_config := dv_config r;
     dv_stats := dv_stats r; dv_driver := dv_driver r; dv_parent := dv_parent r;
     dv_children := dv_children r; dv_next_sibling := dv_next_sibling r; dv_next := dv_next r;
     dv_request_queue := dv_request_queue r; dv_driver_data := dv_driver_data r;
     dv_created_time := dv_created_time r; dv_last_access_time := dv_last_access_time r;
     dv_registered := dv_registered r |}.

Record device_manager_stats := mk_mstats {
  ms_total_devices : Z; ms_active_devices : Z; ms_failed_devices : Z; ms_suspended_devices : Z;
  ms_total_drivers : Z; ms_active_drivers : Z;
  ms_total_requests : Z; ms_pending_requests : Z; ms_completed_requests : Z; ms_failed_requests : Z;
  ms_devices_by_type : list Z
}.
#[export] Instance eta_mstats : Eta device_manager_stats := λ r,
  {| ms_total_devices := ms_total_devices r; ms_active_devices := ms_active_devices r;
     ms_failed_devices := ms_failed_devices r; ms_suspended_devices := ms_suspended_devices r;
     ms_total_drivers := ms_total_drivers r; ms_active_drivers := ms_active_drivers r;
     ms_total_requests := ms_total_requests r; ms_pending_requests := ms_pending_requests r;
     ms_completed_requests := ms_completed_requests r; ms_failed_requests := ms_failed_requests r;
     ms_devices_by_type := ms_devices_by_type r |}.

(** The static [device_manager]. *)
Record device_manager := mk_manager {
  dm_device_list : Z; dm_driver_list : Z; dm_stats : device_manager_stats;
  dm_next_device_id : Z; dm_next_request_id : Z; dm_initialized : bool
}.
#[export] Instance eta_manager : Eta device_manager := λ r,
  {| dm_device_list := dm_device_list r; dm_driver_list := dm_driver_list r;
     dm_stats := dm_stats r; dm_next_device_id := dm_next_device_id r;
     dm_next_request_id := dm_next_request_id r; dm_initialized := dm_initialized r |}.
Definition zero_manager : device_manager :=
  mk_manager 0 0 (mk_mstats 0 0 0 0 0 0 0 0 0 0 (replicate 15 0)) 0 0 false.

(** The state: the manager, the stores, how often the clock has been read, and
    the allocator. *)
Record dstate (A : Type) := mk_dstate {
  mgr : device_manager;
  devs : gmap Z device;
  drvs : gmap Z device_driver;
  reqs : gmap Z device_io_request;
  clock_reads : Z;
  dalloc : A
}.
#[global] Arguments mk_dstate {A}.
#[global] Arguments mgr {A}.
#[global] Arguments devs {A}.
#[global] Arguments drvs {A}.
#[global] Arguments reqs {A}.
#[global] Arguments clock_reads {A}.
#[global] Arguments dalloc {A}.
#[export] Instance eta_dstate {A} : Eta (dstate A) := λ r,
  {| mgr := mgr r; devs := devs r; drvs := drvs r; reqs := reqs r;
     clock_reads := clock_reads r; dalloc := dalloc r |}.

(** ** What the framework is linked with *)

(** The error numbers, which no header of the repository defines. *)
Class Errno := {
  ENOTINIT : Z; EINVAL : Z; EEXIST : Z; EBUSY : Z; ENOENT : Z; ENOSYS : Z; ENODEV : Z;
  ENOMEM : Z; EIO : Z
}.

(** [call_dev f d] runs the driver entry point [int f(struct device* d)];
    [time_at n] is what the [n]-th reading of the clock returns. *)
Class DriverEnv (A : Type) := {
  call_dev : Z → Z → prog (dstate A) Z;
  call_req : Z → Z → Z → prog (dstate A) Z;
  call_ioctl : Z → Z → Z → Z → prog (dstate A) Z;
  call_irq : Z → Z → Z → prog (dstate A) ();
  call_done : Z → Z → prog (dstate A) ();
  call_each : Z → Z → Z → prog (dstate A) ();
  time_at : Z → Z
}.

(** ** Walking a list through a pointer to its links

    The walk stops at the link that holds [target]: [Some None] is the head of
    the list, [Some (Some b)] the [next] field of [b], [None] the end. *)
Fixpoint find_link {St} (ld : option Z → prog St Z) (fuel : nat) (current : option Z) (target : Z)
    : prog St (option (option Z)) :=
  match fuel with
  | O => diverge
  | S fuel =>
      p <- ld current ;;
      if p =? 0 then ret None
      else if p =? target then ret (Some current)
      else find_link ld fuel (Some p) target
  end.

(** The names of device.c's tables. *)
Definition device_type_names : list string :=
  ["Unknown"; "Storage"; "Network"; "Input"; "Output"; "Audio"; "USB"; "PCI"; "Serial"; "Parallel";
   "Graphics"; "Sensor"; "Power"; "Thermal"; "Virtual"]%string.
Definition device_state_names : list string :=
  ["Unknown"; "Initializing"; "Ready"; "Busy"; "Error"; "Suspended"; "Removed"]%string.

Definition device_type_to_string (type : Z) : string :=
  if DEVICE_TYPE_MAX <=? type then "Invalid"%string
  else nth (Z.to_nat type) device_type_names ""%string.
Definition device_state_to_string (state : Z) : string :=
  if DEVICE_STATE_MAX <=? state then "Invalid"%string
  else nth (Z.to_nat state) device_state_names ""%string.

(** ** Operations *)
Section device.
Context {A : Type} `{KA : KAlloc A} `{!Errno} `{!DriverEnv A}.
Abbreviation M := (prog (dstate A)).

(** *** Access to the stores *)
Definition ld_dev (d : Z) : M device := λ s,
  match devs s !! d with Some x => Ok (x, s) | None => Fault end.
Definition upd_dev (d : Z) (f : device → device) : M () := λ s,
  match devs s !! d with Some x => Ok ((), s <| devs := <[d := f x]> (devs s) |>) | None => Fault end.
Definition ld_drv (d : Z) : M device_driver := λ s,
  match drvs s !! d with Some x => Ok (x, s) | None => Fault end.
Definition upd_drv (d : Z) (f : device_driver → device_driver) : M () := λ s,
  match drvs s !! d with Some x => Ok ((), s <| drvs := <[d := f x]> (drvs s) |>) | None => Fault end.
Definition ld_req (r : Z) : M device_io_request := λ s,
  match reqs s !! r with Some x => Ok (x, s) | None => Fault end.
Definition upd_req (r : Z) (f : device_io_request → device_io_request) : M () := λ s,
  match reqs s !! r with Some x => Ok ((), s <| reqs := <[r := f x]> (reqs s) |>) | None => Fault end.
Definition upd_mgr (f : device_manager → device_manager) : M () :=
  modify (λ s, s <| mgr := f (mgr s) |>).
Definition upd_stats (f : device_manager_stats → device_manager_stats) : M () :=
  upd_mgr (λ m, m <| dm_stats := f (dm_stats m) |>).
Definition upd_dstats (d : Z) (f : device_stats → device_stats) : M () :=
  upd_dev d (λ x, x <| dv_stats := f (dv_stats x) |>).

(** Running an allocator operation inside the state. *)
Definition lift_dalloc {X} (m : prog A X) : M X := λ s,
  match m (dalloc s) with
  | Ok (x, a) => Ok (x, s <| dalloc := a |>)
  | Fault => Fault
  | Halted => Halted
  | Diverge => Diverge
  end.

(** [devices_by_type[type] += n]: out of bounds is a fault. *)
Definition add_by_type (type n : Z) : M () :=
  if (0 <=? type) && (type <? DEVICE_TYPE_MAX) then
    upd_stats (λ m, m <| ms_devices_by_type :=
      alter (λ c, u32 (c + n)) (Z.to_nat type) (ms_devices_by_type m) |>)
  else fault.

Definition get_system_time_ms : M Z := λ s,
  Ok (u64 (time_at (clock_reads s)), s <| clock_reads := clock_reads s + 1 |>).

(** The entry point [op] of the device's driver: 0 when the device has no
    driver or the driver does not implement it. *)
Definition driver_op (device : Z) (op : device_driver_ops → Z) : M Z :=
  x <- ld_dev device ;;
  if dv_driver x =? 0 then ret 0
  else y <- ld_drv (dv_driver x) ;; ret (op (dr_ops y)).

Definition is_registered (device : Z) : M bool :=
  if device =? 0 then ret false else x <- ld_dev device ;; ret (dv_registered x).

(** *** Validation, initialization *)
Definition validate_device (device : Z) : M Z :=
  if device =? 0 then ret (- EINVAL)
  else
    x <- ld_dev device ;;
    if DEVICE_TYPE_MAX <=? dv_type x then ret (- EINVAL)
    else if bool_decide (di_name (dv_info x) = []) then ret (- EINVAL)
    else ret 0.

Definition validate_driver (driver : Z) : M Z :=
  if driver =? 0 then ret (- EINVAL)
  else
    x <- ld_drv driver ;;
    if bool_decide (dr_name x = []) then ret (- EINVAL)
    else if bool_decide (dr_version x = []) then ret (- EINVAL)
    else if (op_probe (dr_ops x) =? 0) && (op_init (dr_ops x) =? 0) && (op_read (dr_ops x) =? 0) &&
            (op_write (dr_ops x) =? 0) && (op_ioctl (dr_ops x) =? 0) then ret (- EINVAL)
    else ret 0.

Definition device_init : M Z :=
  m <- gets mgr ;;
  if dm_initialized m then ret 0
  else
    upd_mgr (λ _, zero_manager) ;;;
    upd_mgr (λ m, m <| dm_next_device_id := 1 |> <| dm_next_request_id := 1 |>
                    <| dm_initialized := true |>) ;;;
    ret 0.

(** *** Drivers *)
Fixpoint find_driver (fuel : nat) (name : list Z) (driver : Z) : M Z :=
  match fuel with
  | O => diverge
  | S fuel =>
      if driver =? 0 then ret 0
      else
        x <- ld_drv driver ;;
        if bool_decide (dr_name x = name) then ret driver else find_driver fuel name (dr_next x)
  end.

Definition drv_fuel (s : dstate A) : nat := S (size (drvs s)).
Definition dev_fuel (s : dstate A) : nat := S (size (devs s)).

Definition device_driver_find (name : option (list Z)) : M Z :=
  s <- get ;;
  match name with
  | Some name =>
      if dm_initialized (mgr s) then find_driver (drv_fuel s) name (dm_driver_list (mgr s)) else ret 0
  | None => ret 0
  end.

Definition device_driver_register (driver : Z) : M Z :=
  m <- gets mgr ;;
  if negb (dm_initialized m) then ret (- ENOTINIT)
  else
    v <- validate_driver driver ;;
    if negb (v =? 0) then ret (- EINVAL)
    else
      x <- ld_drv driver ;;
      old <- device_driver_find (Some (dr_name x)) ;;
      if negb (old =? 0) then ret (- EEXIST)
      else
        m <- gets mgr ;;
        upd_drv driver (λ x, x <| dr_next := dm_driver_list m |>) ;;;
        upd_mgr (λ m, m <| dm_driver_list := driver |>) ;;;
        upd_drv driver (λ x, x <| dr_loaded := true |> <| dr_reference_count := 0 |>) ;;;
        upd_stats (λ m, m <| ms_total_drivers := u32 (ms_total_drivers m + 1) |>
                          <| ms_active_drivers := u32 (ms_active_drivers m + 1) |>) ;;;
        ret 0.

Definition ld_drv_link (c : option Z) : M Z :=
  match c with
  | None => gets (λ s, dm_driver_list (mgr s))
  | Some b => x <- ld_drv b ;; ret (dr_next x)
  end.
Definition st_drv_link (c : option Z) (v : Z) : M () :=
  match c with
  | None => upd_mgr (λ m, m <| dm_driver_list := v |>)
  | Some b => upd_drv b (λ x, x <| dr_next := v |>)
  end.

Definition device_driver_unregister (driver : Z) : M Z :=
  s <- get ;;
  if negb (dm_initialized (mgr s)) || (driver =? 0) then ret (- EINVAL)
  else
    x <- ld_drv driver ;;
    if 0 <? dr_reference_count x then ret (- EBUSY)
    else
      c <- find_link ld_drv_link (drv_fuel s) None driver ;;
      match c with
      | None => ret (- ENOENT)
      | Some current =>
          x <- ld_drv driver ;;
          st_drv_link current (dr_next x) ;;;
          upd_drv driver (λ x, x <| dr_loaded := false |>) ;;;
          upd_stats (λ m, m <| ms_active_drivers := u32 (ms_active_drivers m - 1) |>) ;;;
          ret 0
      end.

(** *** Devices *)

(** From "Assign device ID" to "Update manager statistics". *)
Definition enlist_device (device : Z) : M () :=
  m <- gets mgr ;;
  upd_dev device (λ x, x <| dv_device_id := dm_next_device_id m |>) ;;;
  upd_mgr (λ m, m <| dm_next_device_id := u32 (dm_next_device_id m + 1) |>) ;;;
  t <- get_system_time_ms ;;
  upd_dev device (λ x, x <| dv_created_time := t |>) ;;;
  upd_dev device (λ x, x <| dv_last_access_time := dv_created_time x |>
                         <| dv_state := DEVICE_STATE_INITIALIZING |>
                         <| dv_stats := zero_device_stats |>) ;;;
  m <- gets mgr ;;
  upd_dev device (λ x, x <| dv_next := dm_device_list m |>) ;;;
  upd_mgr (λ m, m <| dm_device_list := device |>) ;;;
  upd_dev device (λ x, x <| dv_registered := true |>) ;;;
  upd_stats (λ m, m <| ms_total_devices := u32 (ms_total_devices m + 1) |>) ;;;
  x <- ld_dev device ;;
  add_by_type (dv_type x) 1.

(** "Initialize device if driver supports it". *)
Definition init_device (device : Z) : M () :=
  f <- driver_op device op_init ;;
  if f =? 0 then ret ()
  else
    result <- call_dev f device ;;
    if result =? 0 then
      upd_dev device (λ x, x <| dv_state := DEVICE_STATE_READY |>) ;;;
      upd_stats (λ m, m <| ms_active_devices := u32 (ms_active_devices m + 1) |>)
    else
      upd_dev device (λ x, x <| dv_state := DEVICE_STATE_ERROR |>) ;;;
      upd_stats (λ m, m <| ms_failed_devices := u32 (ms_failed_devices m + 1) |>).

Definition device_register (device : Z) : M Z :=
  m <- gets mgr ;;
  if negb (dm_initialized m) then ret (- ENOTINIT)
  else
    v <- validate_device device ;;
    if negb (v =? 0) then ret (- EINVAL)
    else
      x <- ld_dev device ;;
      if dv_registered x then ret (- EEXIST)
      else
        enlist_device device ;;;
        init_device device ;;;
        ret 0.

(** The guarded decrements [if (n > 0) n--]. *)
Definition dec_pos (n : Z) : Z := if 0 <? n then n - 1 else n.

Definition device_start (device : Z) : M Z :=
  r <- is_registered device ;;
  if negb r then ret (- EINVAL)
  else
    x <- ld_dev device ;;
    if dv_state x =? DEVICE_STATE_READY then ret 0
    else if negb (dv_state x =? DEVICE_STATE_READY) && negb (dv_state x =? DEVICE_STATE_SUSPENDED)
    then ret (- EINVAL)
    else
      f <- driver_op device op_start ;;
      if f =? 0 then ret (- ENOSYS)
      else
        result <- call_dev f device ;;
        (if result =? 0 then
           upd_dev device (λ x, x <| dv_state := DEVICE_STATE_READY |>) ;;;
           upd_stats (λ m, m <| ms_active_devices := u32 (ms_active_devices m + 1) |>)
         else
           upd_dev device (λ x, x <| dv_state := DEVICE_STATE_ERROR |>) ;;;
           upd_stats (λ m, m <| ms_failed_devices := u32 (ms_failed_devices m + 1) |>)) ;;;
        ret result.

(** The bookkeeping that [device_stop] and [device_suspend] share. *)
Definition enter_suspended (device : Z) : M () :=
  upd_dev device (λ x, x <| dv_state := DEVICE_STATE_SUSPENDED |>) ;;;
  upd_stats (λ m, m <| ms_active_devices := dec_pos (ms_active_devices m) |>
                    <| ms_suspended_devices := u32 (ms_suspended_devices m + 1) |>).

Definition device_stop (device : Z) : M Z :=
  r <- is_registered device ;;
  if negb r then ret (- EINVAL)
  else
    x <- ld_dev device ;;
    if negb (dv_state x =? DEVICE_STATE_READY) && negb (dv_state x =? DEVICE_STATE_BUSY) then ret 0
    else
      f <- driver_op device op_stop ;;
      if f =? 0 then ret (- ENOSYS)
      else
        result <- call_dev f device ;;
        when (result =? 0) (enter_suspended device) ;;;
        ret result.

Definition device_reset (device : Z) : M Z :=
  r <- is_registered device ;;
  if negb r then ret (- EINVAL)
  else
    f <- driver_op device op_reset ;;
    if f =? 0 then ret (- ENOSYS)
    else
      result <- call_dev f device ;;
      upd_dev device (λ x, x <| dv_state :=
        if result =? 0 then DEVICE_STATE_READY else DEVICE_STATE_ERROR |>) ;;;
      ret result.

Definition device_suspend (device : Z) : M Z :=
  r <- is_registered device ;;
  if negb r then ret (- EINVAL)
  else
    x <- ld_dev device ;;
    if dv_state x =? DEVICE_STATE_SUSPENDED then ret 0
    else if negb (has_bits (dv_capabilities x) DEVICE_CAP_SUSPEND) then ret (- ENOSYS)
    else
      f <- driver_op device op_suspend ;;
      if f =? 0 then ret (- ENOSYS)
      else
        result <- call_dev f device ;;
        when (result =? 0) (enter_suspended device) ;;;
        ret result.

Definition device_resume (device : Z) : M Z :=
  r <- is_registered device ;;
  if negb r then ret (- EINVAL)
  else
    x <- ld_dev device ;;
    if negb (dv_state x =? DEVICE_STATE_SUSPENDED) then ret (- EINVAL)
    else
      f <- driver_op device op_resume ;;
      if f =? 0 then ret (- ENOSYS)
      else
        result <- call_dev f device ;;
        when (result =? 0)
          (upd_dev device (λ x, x <| dv_state := DEVICE_STATE_READY |>) ;;;
           upd_stats (λ m, m <| ms_active_devices := u32 (ms_active_devices m + 1) |>
                             <| ms_suspended_devices := dec_pos (ms_suspended_devices m) |>)) ;;;
        ret result.

Definition ld_dev_link (c : option Z) : M Z :=
  match c with
  | None => gets (λ s, dm_device_list (mgr s))
  | Some b => x <- ld_dev b ;; ret (dv_next x)
  end.
Definition st_dev_link (c : option Z) (v : Z) : M () :=
  match c with
  | None => upd_mgr (λ m, m <| dm_device_list := v |>)
  | Some b => upd_dev b (λ x, x <| dv_next := v |>)
  end.

(** "Remove from device list": the body of the loop at the device's link. *)
Definition unlink_device (current : option Z) (device : Z) : M Z :=
  x <- ld_dev device ;;
  st_dev_link current (dv_next x) ;;;
  upd_dev device (λ x, x <| dv_registered := false |> <| dv_state := DEVICE_STATE_REMOVED |>) ;;;
  upd_stats (λ m, m <| ms_total_devices := u32 (ms_total_devices m - 1) |>) ;;;
  x <- ld_dev device ;;
  add_by_type (dv_type x) (-1) ;;;
  (if dv_state x =? DEVICE_STATE_READY then
     upd_stats (λ m, m <| ms_active_devices := u32 (ms_active_devices m - 1) |>)
   else if dv_state x =? DEVICE_STATE_ERROR then
     upd_stats (λ m, m <| ms_failed_devices := u32 (ms_failed_devices m - 1) |>)
   else ret ()) ;;;
  ret 0.

(** "Remove device if driver supports it". *)
Definition remove_device (device : Z) : M () :=
  f <- driver_op device op_remove ;;
  if f =? 0 then ret ()
  else
    call_dev f device ;;;
    x <- ld_dev device ;;
    upd_drv (dv_driver x) (λ y, y <| dr_reference_count := u32 (dr_reference_count y - 1) |>).

Definition device_unregister (device : Z) : M Z :=
  m <- gets mgr ;;
  if negb (dm_initialized m) then ret (- EINVAL)
  else
    r <- is_registered device ;;
    if negb r then ret (- EINVAL)
    else
      x <- ld_dev device ;;
      (if (dv_state x =? DEVICE_STATE_READY) || (dv_state x =? DEVICE_STATE_BUSY)
       then device_stop device ;;; ret () else ret ()) ;;;
      remove_device device ;;;
      s <- get ;;
      c <- find_link ld_dev_link (dev_fuel s) None device ;;
      match c with
      | None => ret (- ENOENT)
      | Some current => unlink_device current device
      end.

(** "Shutdown all devices". *)
Fixpoint shutdown_devices (fuel : nat) (device : Z) : M () :=
  match fuel with
  | O => diverge
  | S fuel =>
      if device =? 0 then ret ()
      else
        x <- ld_dev device ;;
        let next := dv_next x in
        device_stop device ;;;
        device_unregister device ;;;
        shutdown_devices fuel next
  end.

(** "Unregister all drivers". *)
Fixpoint shutdown_drivers (fuel : nat) (driver : Z) : M () :=
  match fuel with
  | O => diverge
  | S fuel =>
      if driver =? 0 then ret ()
      else
        x <- ld_drv driver ;;
        let next := dr_next x in
        device_driver_unregister driver ;;;
        shutdown_drivers fuel next
  end.

Definition device_shutdown : M () :=
  s <- get ;;
  if negb (dm_initialized (mgr s)) then ret ()
  else
    shutdown_devices (dev_fuel s) (dm_device_list (mgr s)) ;;;
    s <- get ;;
    shutdown_drivers (drv_fuel s) (dm_driver_list (mgr s)) ;;;
    upd_mgr (λ m, m <| dm_initialized := false |>).

(** *** Lookup *)
Fixpoint find_device (fuel : nat) (device_id device : Z) : M Z :=
  match fuel with
  | O => diverge
  | S fuel =>
      if device =? 0 then ret 0
      else
        x <- ld_dev device ;;
        if dv_device_id x =? device_id then ret device else find_device fuel device_id (dv_next x)
  end.

Definition device_find_by_id (device_id : Z) : M Z :=
  s <- get ;;
  if negb (dm_initialized (mgr s)) then ret 0
  else find_device (dev_fuel s) device_id (dm_device_list (mgr s)).

(** The pointers stored from [devices[count]] on. *)
Fixpoint collect_devices (fuel : nat) (type max_devices count device : Z) : M (list Z) :=
  match fuel with
  | O => diverge
  | S fuel =>
      if (device =? 0) || (max_devices <=? count) then ret []
      else
        x <- ld_dev device ;;
        if dv_type x =? type then
          r <- collect_devices fuel type max_devices (count + 1) (dv_next x) ;; ret (device :: r)
        else collect_devices fuel type max_devices count (dv_next x)
  end.

(** The count and the pointers stored in [devices]. *)
Definition device_find_by_type (type devices max_devices : Z) : M (Z * list Z) :=
  s <- get ;;
  if negb (dm_initialized (mgr s)) || (devices =? 0) || (max_devices =? 0) then ret (0, [])
  else
    l <- collect_devices (dev_fuel s) type max_devices 0 (dm_device_list (mgr s)) ;;
    ret (Z.of_nat (length l), l).

(** *** Requests *)
Definition update_device_stats (device request : Z) : M () :=
  if (device =? 0) || (request =? 0) then ret ()
  else
    q <- ld_req request ;;
    let ok := rq_status q =? DEVICE_IO_SUCCESS in
    upd_dstats device (λ m, m <| ds_requests_total := u64 (ds_requests_total m + 1) |>) ;;;
    upd_dstats device (λ m,
      if rq_type q =? DEVICE_IO_READ then
        let m := m <| ds_requests_read := u64 (ds_requests_read m + 1) |> in
        if ok then m <| ds_bytes_read := u64 (ds_bytes_read m + rq_size q) |> else m
      else if rq_type q =? DEVICE_IO_WRITE then
        let m := m <| ds_requests_write := u64 (ds_requests_write m + 1) |> in
        if ok then m <| ds_bytes_written := u64 (ds_bytes_written m + rq_size q) |> else m
      else if rq_type q =? DEVICE_IO_CONTROL then
        m <| ds_requests_control := u64 (ds_requests_control m + 1) |>
      else m) ;;;
    upd_dstats device (λ m,
      if ok then m <| ds_requests_successful := u64 (ds_requests_successful m + 1) |>
      else m <| ds_requests_failed := u64 (ds_requests_failed m + 1) |>
             <| ds_errors_total := u64 (ds_errors_total m + 1) |>) ;;;
    upd_dstats device (λ m,
      if rq_status q =? DEVICE_IO_TIMEOUT
      then m <| ds_requests_timeout := u64 (ds_requests_timeout m + 1) |> else m) ;;;
    t <- get_system_time_ms ;;
    let request_time := u64 (t - rq_timestamp q) in
    let request_time_us := u32 (request_time * 1000) in
    upd_dstats device (λ m,
      if ds_max_request_time_us m <? request_time_us
      then m <| ds_max_request_time_us := request_time_us |> else m) ;;;
    upd_dstats device (λ m,
      if ds_requests_total m =? 1 then m <| ds_avg_request_time_us := request_time_us |>
      else m <| ds_avg_request_time_us := u32 (ds_avg_request_time_us m + request_time_us) / 2 |>).

Definition complete_request (request status : Z) : M () :=
  if request =? 0 then ret ()
  else
    upd_req request (λ q, q <| rq_status := status |>) ;;;
    q <- ld_req request ;;
    when (negb (rq_device q =? 0)) (update_device_stats (rq_device q) request) ;;;
    upd_stats (λ m, m <| ms_pending_requests := dec_pos (ms_pending_requests m) |>) ;;;
    upd_stats (λ m, m <| ms_completed_requests := u64 (ms_completed_requests m + 1) |>) ;;;
    when (negb (status =? DEVICE_IO_SUCCESS))
      (upd_stats (λ m, m <| ms_failed_requests := u64 (ms_failed_requests m + 1) |>)) ;;;
    q <- ld_req request ;;
    when (negb (rq_callback q =? 0)) (call_done (rq_callback q) request).

(** "Process request based on type". *)
Definition dispatch_request (device request : Z) : M Z :=
  q <- ld_req request ;;
  if rq_type q =? DEVICE_IO_READ then
    f <- driver_op device op_read ;;
    if f =? 0 then ret (- ENOSYS) else call_req f device request
  else if rq_type q =? DEVICE_IO_WRITE then
    f <- driver_op device op_write ;;
    if f =? 0 then ret (- ENOSYS) else call_req f device request
  else if rq_type q =? DEVICE_IO_CONTROL then
    f <- driver_op device op_ioctl ;;
    if f =? 0 then ret (- ENOSYS) else call_ioctl f device (u32 (rq_buffer q)) (rq_private_data q)
  else ret (- EINVAL).

Definition device_submit_request (device request : Z) : M Z :=
  if (device =? 0) || (request =? 0) then ret (- EINVAL)
  else
    x <- ld_dev device ;;
    if negb (dv_registered x) then ret (- EINVAL)
    else if negb (dv_state x =? DEVICE_STATE_READY) then ret (- ENODEV)
    else
      m <- gets mgr ;;
      upd_req request (λ q, q <| rq_request_id := dm_next_request_id m |>) ;;;
      upd_mgr (λ m, m <| dm_next_request_id := u32 (dm_next_request_id m + 1) |>) ;;;
      t <- get_system_time_ms ;;
      upd_req request (λ q, q <| rq_device := device |> <| rq_status := DEVICE_IO_PENDING |>
                             <| rq_timestamp := t |>) ;;;
      x <- ld_dev device ;;
      upd_req request (λ q, q <| rq_next := dv_request_queue x |>) ;;;
      upd_dev device (λ x, x <| dv_request_queue := request |>) ;;;
      upd_stats (λ m, m <| ms_total_requests := u64 (ms_total_requests m + 1) |>
                        <| ms_pending_requests := u64 (ms_pending_requests m + 1) |>) ;;;
      result <- dispatch_request device request ;;
      when (negb (result =? 0)) (complete_request request DEVICE_IO_ERROR) ;;;
      ret result.

Definition device_create_request (type offset buffer size callback : Z) : M Z :=
  r <- lift_dalloc (ka_malloc SIZEOF_REQUEST) ;;
  if r =? 0 then ret 0
  else
    modify (λ s, s <| reqs := <[r := zero_request]> (reqs s) |>) ;;;
    upd_req r (λ q, q <| rq_type := type |> <| rq_offset := offset |> <| rq_buffer := buffer |>
                      <| rq_size := size |> <| rq_callback := callback |>
                      <| rq_status := DEVICE_IO_PENDING |>) ;;;
    ret r.

Definition device_free_request (request : Z) : M () :=
  when (negb (request =? 0))
    (lift_dalloc (ka_free request) ;;;
     modify (λ s, s <| reqs := delete request (reqs s) |>)).

(** "while (request->status == DEVICE_IO_PENDING)": [arrivals] is what other
    code (an interrupt) runs between two readings; when nothing arrives any
    more the loop goes on for ever. *)
Fixpoint wait_request (arrivals : list (M ())) (request : Z) : M () :=
  q <- ld_req request ;;
  if rq_status q =? DEVICE_IO_PENDING then
    match arrivals with
    | [] => diverge
    | irq :: rest => irq ;;; wait_request rest request
    end
  else ret ().

(** The common body of [device_read] and [device_write]. *)
Definition device_transfer (type : Z) (arrivals : list (M ())) (device offset buffer size : Z) : M Z :=
  if (device =? 0) || (buffer =? 0) || (size =? 0) then ret (- EINVAL)
  else
    request <- device_create_request type offset buffer size 0 ;;
    if request =? 0 then ret (- ENOMEM)
    else
      result <- device_submit_request device request ;;
      if negb (result =? 0) then device_free_request request ;;; ret result
      else
        wait_request arrivals request ;;;
        q <- ld_req request ;;
        device_free_request request ;;;
        ret (if rq_status q =? DEVICE_IO_SUCCESS then s64 size else - EIO).
Definition device_read := device_transfer DEVICE_IO_READ.
Definition device_write := device_transfer DEVICE_IO_WRITE.

Definition device_ioctl (device cmd arg : Z) : M Z :=
  r <- is_registered device ;;
  if negb r then ret (- EINVAL)
  else
    x <- ld_dev device ;;
    if negb (dv_state x =? DEVICE_STATE_READY) then ret (- ENODEV)
    else
      f <- driver_op device op_ioctl ;;
      if f =? 0 then ret (- ENOSYS) else call_ioctl f device cmd arg.

(** One device's queue: [current] is the link that is examined, [None] the
    head [device->request_queue]. *)
Definition ld_req_link (device : Z) (c : option Z) : M Z :=
  match c with
  | None => x <- ld_dev device ;; ret (dv_request_queue x)
  | Some r => q <- ld_req r ;; ret (rq_next q)
  end.
Definition st_req_link (device : Z) (c : option Z) (v : Z) : M () :=
  match c with
  | None => upd_dev device (λ x, x <| dv_request_queue := v |>)
  | Some r => upd_req r (λ q, q <| rq_next := v |>)
  end.

Fixpoint process_queue (fuel : nat) (device : Z) (current : option Z) : M () :=
  match fuel with
  | O => diverge
  | S fuel =>
      request <- ld_req_link device current ;;
      if request =? 0 then ret ()
      else
        current_time <- get_system_time_ms ;;
        q <- ld_req request ;;
        x <- ld_dev device ;;
        if dc_timeout_ms (dv_config x) <? u64 (current_time - rq_timestamp q) then
          complete_request request DEVICE_IO_TIMEOUT ;;;
          q <- ld_req request ;;
          st_req_link device current (rq_next q) ;;;
          process_queue fuel device current
        else process_queue fuel device (Some request)
  end.

Fixpoint process_devices (fuel : nat) (device : Z) : M () :=
  match fuel with
  | O => diverge
  | S fuel =>
      if device =? 0 then ret ()
      else
        s <- get ;;
        process_queue (S (size (reqs s))) device None ;;;
        x <- ld_dev device ;;
        process_devices fuel (dv_next x)
  end.

Definition device_process_requests : M () :=
  s <- get ;; process_devices (dev_fuel s) (dm_device_list (mgr s)).

(** *** Information *)
Definition touch (device : Z) : M () :=
  t <- get_system_time_ms ;; upd_dev device (λ x, x <| dv_last_access_time := t |>).

(** The pointer to the device's [info], as the device's address. *)
Definition device_get_info (device : Z) : M Z :=
  if device =? 0 then ret 0 else touch device ;;; ret device.

Definition device_get_stats (device : Z) : M (option device_stats) :=
  if device =? 0 then ret None
  else
    t <- get_system_time_ms ;;
    upd_dev device (λ x, x <| dv_stats := (dv_stats x) <| ds_uptime_ms := u64 (t - dv_created_time x) |> |>) ;;;
    touch device ;;;
    x <- ld_dev device ;;
    ret (Some (dv_stats x)).

Definition device_get_manager_stats : M (option device_manager_stats) :=
  m <- gets mgr ;;
  ret (if dm_initialized m then Some (dm_stats m) else None).

Definition device_reset_stats (device : Z) : M () :=
  when (negb (device =? 0)) (upd_dstats device (λ _, zero_device_stats)).

Definition device_set_state (device state : Z) : M () :=
  if (device =? 0) || (DEVICE_STATE_MAX <=? state) then ret ()
  else
    x <- ld_dev device ;;
    let old_state := dv_state x in
    upd_dev device (λ x, x <| dv_state := state |>) ;;;
    touch device ;;;
    upd_stats (λ m,
      if (old_state =? DEVICE_STATE_READY) && negb (state =? DEVICE_STATE_READY) then
        m <| ms_active_devices := dec_pos (ms_active_devices m) |>
      else if negb (old_state =? DEVICE_STATE_READY) && (state =? DEVICE_STATE_READY) then
        m <| ms_active_devices := u32 (ms_active_devices m + 1) |>
      else m) ;;;
    upd_stats (λ m,
      if state =? DEVICE_STATE_ERROR then
        m <| ms_failed_devices := u32 (ms_failed_devices m + 1) |>
      else if (old_state =? DEVICE_STATE_ERROR) && negb (state =? DEVICE_STATE_ERROR) then
        m <| ms_failed_devices := dec_pos (ms_failed_devices m) |>
      else m) ;;;
    upd_stats (λ m,
      if state =? DEVICE_STATE_SUSPENDED then
        m <| ms_suspended_devices := u32 (ms_suspended_devices m + 1) |>
      else if (old_state =? DEVICE_STATE_SUSPENDED) && negb (state =? DEVICE_STATE_SUSPENDED) then
        m <| ms_suspended_devices := dec_pos (ms_suspended_devices m) |>
      else m).

Definition device_get_state (device : Z) : M Z :=
  if device =? 0 then ret DEVICE_STATE_UNKNOWN
  else touch device ;;; x <- ld_dev device ;; ret (dv_state x).

Definition device_has_capability (device capability : Z) : M bool :=
  if device =? 0 then ret false
  else x <- ld_dev device ;; ret (has_bits (dv_capabilities x) capability).

Definition device_handle_interrupt (device vector : Z) : M () :=
  r <- is_registered device ;;
  if negb r then ret ()
  else
    upd_dstats device (λ m, m <| ds_interrupts_received := u64 (ds_interrupts_received m + 1) |>) ;;;
    touch device ;;;
    f <- driver_op device op_interrupt_handler ;;
    when (negb (f =? 0)) (call_irq f device vector).

Fixpoint enumerate_from (fuel : nat) (callback user_data device : Z) : M () :=
  match fuel with
  | O => diverge
  | S fuel =>
      if device =? 0 then ret ()
      else
        call_each callback device user_data ;;;
        x <- ld_dev device ;;
        enumerate_from fuel callback user_data (dv_next x)
  end.

Definition device_enumerate (callback user_data : Z) : M () :=
  s <- get ;;
  if (callback =? 0) || negb (dm_initialized (mgr s)) then ret ()
  else enumerate_from (dev_fuel s) callback user_data (dm_device_list (mgr s)).
End device.

(** ** What the framework relies on

    Error numbers are positive.  A driver entry point or a completion callback
    returns when its arguments are live, keeps to the device's [driver_data] and
    the status of requests, and leaves the framework's own fields alone. *)
Class ErrnoLaws `{!Errno} : Prop := {
  ENOTINIT_pos : 0 < ENOTINIT; EINVAL_pos : 0 < EINVAL; EEXIST_pos : 0 < EEXIST;
  EBUSY_pos : 0 < EBUSY; ENOENT_pos : 0 < ENOENT; ENOSYS_pos : 0 < ENOSYS;
  ENODEV_pos : 0 < ENODEV; ENOMEM_pos : 0 < ENOMEM; EIO_pos : 0 < EIO
}.

Definition but_data (x : device) : device := x <| dv_driver_data := 0 |>.
Definition but_status (q : device_io_request) : device_io_request := q <| rq_status := 0 |>.

Definition calm {A} (s s' : dstate A) : Prop :=
  mgr s' = mgr s ∧ drvs s' = drvs s ∧
  (∀ d, but_data <$> devs s' !! d = but_data <$> devs s !! d) ∧
  (∀ r, but_status <$> reqs s' !! r = but_status <$> reqs s !! r).

Class Polite (A : Type) `{!DriverEnv A} : Prop := {
  polite_dev f d s : is_Some (devs s !! d) → wp (call_dev f d) (λ _ s', calm s s') s;
  polite_req f d r s :
    is_Some (devs s !! d) → is_Some (reqs s !! r) → wp (call_req f d r) (λ _ s', calm s s') s;
  polite_ioctl f d cmd arg s :
    is_Some (devs s !! d) → wp (call_ioctl f d cmd arg) (λ _ s', calm s s') s;
  polite_irq f d v s : is_Some (devs s !! d) → wp (call_irq f d v) (λ _ s', calm s s') s;
  polite_done f r s : is_Some (reqs s !! r) → wp (call_done f r) (λ _ s', calm s s') s;
  polite_each f d u s : is_Some (devs s !! d) → wp (call_each f d u) (λ _ s', calm s s') s;
  modest_dev f d s x s' : call_dev f d s = Ok (x, s') → calm s s';
  modest_req f d r s x s' : call_req f d r s = Ok (x, s') → calm s s';
  modest_ioctl f d cmd arg s x s' : call_ioctl f d cmd arg s = Ok (x, s') → calm s s';
  modest_irq f d v s x s' : call_irq f d v s = Ok (x, s') → calm s s';
  modest_done f r s x s' : call_done f r s = Ok (x, s') → calm s s';
  modest_each f d u s x s' : call_each f d u s = Ok (x, s') → calm s s'
}.

(** ** The registry: what the framework's lists represent *)

(** The fields of a device and a driver that the registry depends on. *)
Definition dev_core (x : device) : Z * bool * Z * Z :=
  (dv_next x, dv_registered x, dv_type x, dv_driver x).
Definition drv_core (y : device_driver) : Z * list Z := (dr_next y, dr_name y).
Definition mgr_core (m : device_manager) : Z * Z * bool * Z * list Z * Z :=
  (dm_device_list m, dm_driver_list m, dm_initialized m, ms_total_devices (dm_stats m),
   ms_devices_by_type (dm_stats m), ms_active_drivers (dm_stats m)).

Definition core_eq {X Y} (f : X → Y) (m m' : gmap Z X) : Prop := ∀ a, f <$> m' !! a = f <$> m !! a.

(** No pointer of a live record dangles. *)
Definition closed {A} (s : dstate A) : Prop :=
  (∀ d x, devs s !! d = Some x → dv_driver x = 0 ∨ is_Some (drvs s !! dv_driver x)) ∧
  (∀ r q, reqs s !! r = Some q → rq_device q = 0 ∨ is_Some (devs s !! rq_device q)).

(** A step that does not concern the registry. *)
Definition same {A} (s s' : dstate A) : Prop :=
  mgr_core (mgr s') = mgr_core (mgr s) ∧
  core_eq dev_core (devs s) (devs s') ∧ core_eq drv_core (drvs s) (drvs s') ∧
  (∀ r, is_Some (reqs s !! r) → is_Some (reqs s' !! r)) ∧
  (closed s → closed s').

Section core_eq.
Context {X Y : Type} (f : X → Y).
Implicit Types m : gmap Z X.

Lemma core_eq_refl m : core_eq f m m.
Proof. by intros a. Qed.

Lemma core_eq_trans m1 m2 m3 : core_eq f m1 m2 → core_eq f m2 m3 → core_eq f m1 m3.
Proof. intros H1 H2 a. by rewrite H2, H1. Qed.

Lemma core_eq_some m m' a x : core_eq f m m' → m !! a = Some x → ∃ x', m' !! a = Some x' ∧ f x' = f x.
Proof.
  intros H Hx. specialize (H a). rewrite Hx in H. destruct (m' !! a) as [y|]; [|done].
  exists y. split; [done|]. by apply (inj Some) in H.
Qed.

Lemma core_eq_some_inv m m' a x' : core_eq f m m' → m' !! a = Some x' → ∃ x, m !! a = Some x ∧ f x' = f x.
Proof.
  intros H Hx. specialize (H a). rewrite Hx in H. destruct (m !! a) as [y|]; [|done].
  exists y. split; [done|]. by apply (inj Some) in H.
Qed.

Lemma core_eq_is_Some m m' a : core_eq f m m' → is_Some (m !! a) → is_Some (m' !! a).
Proof. intros H [x Hx]. destruct (core_eq_some m m' a x H Hx) as (x' & -> & _). done. Qed.

Lemma core_eq_insert m a x x' : m !! a = Some x → f x' = f x → core_eq f m (<[a := x']> m).
Proof.
  intros Hx Hf b. destruct (decide (b = a)) as [->|].
  - rewrite lookup_insert_eq, Hx. simpl. by rewrite Hf.
  - by rewrite lookup_insert_ne.
Qed.

Lemma core_eq_linked (nxt : X → Z) m m' a l :
  (∀ x x', f x' = f x → nxt x' = nxt x) → core_eq f m m' → linked nxt m a l → linked nxt m' a l.
Proof.
  intros Hn H. apply lseg_ext. intros b x _ Hx.
  destruct (core_eq_some m m' b x H Hx) as (x' & Hx' & Hf). eauto.
Qed.
End core_eq.

#[export] Instance same_preorder {A} : PreOrder (@same A).
Proof.
  split.
  - intros s. split_and!; [done|apply core_eq_refl..|done|done].
  - intros s1 s2 s3 (?&?&?&?&?) (?&?&?&?&?). split_and!.
    + congruence.
    + by eapply core_eq_trans.
    + by eapply core_eq_trans.
    + auto.
    + auto.
Qed.

(** *** wp rules of the accessors *)
Section rules.
Context {A : Type}.
Implicit Types s : dstate A.

Lemma wp_ld_dev d x Q s : devs s !! d = Some x → Q x s → wp (ld_dev d) Q s.
Proof. intros H HQ. unfold wp, ld_dev. by rewrite H. Qed.
Lemma wp_upd_dev d f x Q s :
  devs s !! d = Some x → Q () (s <| devs := <[d := f x]> (devs s) |>) → wp (upd_dev d f) Q s.
Proof. intros H HQ. unfold wp, upd_dev. by rewrite H. Qed.
Lemma wp_ld_drv d x Q s : drvs s !! d = Some x → Q x s → wp (ld_drv d) Q s.
Proof. intros H HQ. unfold wp, ld_drv. by rewrite H. Qed.
Lemma wp_upd_drv d f x Q s :
  drvs s !! d = Some x → Q () (s <| drvs := <[d := f x]> (drvs s) |>) → wp (upd_drv d f) Q s.
Proof. intros H HQ. unfold wp, upd_drv. by rewrite H. Qed.
Lemma wp_ld_req r x Q s : reqs s !! r = Some x → Q x s → wp (ld_req r) Q s.
Proof. intros H HQ. unfold wp, ld_req. by rewrite H. Qed.
Lemma wp_upd_req r f x Q s :
  reqs s !! r = Some x → Q () (s <| reqs := <[r := f x]> (reqs s) |>) → wp (upd_req r f) Q s.
Proof. intros H HQ. unfold wp, upd_req. by rewrite H. Qed.
Lemma wp_upd_mgr f Q s : Q () (s <| mgr := f (mgr s) |>) → wp (upd_mgr f) Q s.
Proof. done. Qed.
Lemma wp_upd_stats f Q s :
  Q () (s <| mgr := (mgr s) <| dm_stats := f (dm_stats (mgr s)) |> |>) → wp (upd_stats f) Q s.
Proof. done. Qed.
Lemma wp_time `{!DriverEnv A} (Q : Z → dstate A → Prop) s :
  Q (u64 (time_at (clock_reads s))) (s <| clock_reads := clock_reads s + 1 |>) →
  wp get_system_time_ms Q s.
Proof. done. Qed.
Lemma wp_is_registered d Q s :
  d = 0 ∨ is_Some (devs s !! d) →
  (∀ x, d ≠ 0 → devs s !! d = Some x → Q (dv_registered x) s) → (d = 0 → Q false s) →
  wp (is_registered d) Q s.
Proof.
  intros Hd HQ HQ0. unfold is_registered. destruct (Z.eqb_spec d 0) as [->|Hd0]; [by apply HQ0|].
  destruct Hd as [?|[x Hx]]; [done|]. apply wp_bind, (wp_ld_dev _ x); [done|]. by apply HQ.
Qed.
Lemma wp_driver_op d op Q s :
  is_Some (devs s !! d) → closed s → (∀ f, Q f s) → wp (driver_op d op) Q s.
Proof.
  intros [x Hx] [Hc _] HQ. apply wp_bind, (wp_ld_dev _ x); [done|].
  destruct (Hc d x Hx) as [->|[y Hy]]; [apply HQ|]. case_if; [apply HQ|].
  apply wp_bind, (wp_ld_drv _ y); [done|]. apply HQ.
Qed.
End rules.

(** *** Programs that do not concern the registry

    [steady d ro m]: where the device [d] (and the request [ro]) exists, [m]
    returns, and the registry is what it was. *)
Section steady.
Context {A : Type} `{KA : KAlloc A} `{!Errno} `{!DriverEnv A} `{!Polite A}.
Abbreviation M := (prog (dstate A)).
Implicit Types s : dstate A.

Definition ready (d : Z) (ro : option Z) s : Prop :=
  is_Some (devs s !! d) ∧ closed s ∧ ∀ r, ro = Some r → is_Some (reqs s !! r).

Definition steady {X} (d : Z) (ro : option Z) (m : M X) : Prop :=
  ∀ s, ready d ro s → wp m (λ _ s', same s s') s.

Lemma ready_same d ro s s' : ready d ro s → same s s' → ready d ro s'.
Proof.
  intros (Hd & Hc & Hr) (_ & Hd' & _ & Hr' & Hc'). split_and!; [by eapply core_eq_is_Some|auto|auto].
Qed.

Lemma calm_same s s' : calm s s' → same s s'.
Proof.
  intros (Hm & Hd & Hv & Hq).
  assert (core_eq dev_core (devs s) (devs s')) as Hcv.
  { intros d. specialize (Hv d). destruct (devs s !! d) as [[]|], (devs s' !! d) as [[]|]; try done.
    apply (inj Some) in Hv. cbn in *. unfold but_data in Hv. cbn in Hv. by simplify_eq. }
  split_and!.
  - by rewrite Hm.
  - done.
  - rewrite Hd. apply core_eq_refl.
  - intros r [q Hr]. specialize (Hq r). rewrite Hr in Hq. by destruct (reqs s' !! r).
  - intros [Hc1 Hc2]. split.
    + intros d x' Hx'. destruct (core_eq_some_inv _ _ _ d x' Hcv Hx') as (x & Hx & Hf).
      unfold dev_core in Hf. simplify_eq. rewrite Hd. apply Hc1 in Hx. congruence.
    + intros r q' Hr'. specialize (Hq r). rewrite Hr' in Hq. destruct (reqs s !! r) as [q|] eqn:Hr; [|done].
      apply (inj Some) in Hq. assert (rq_device q' = rq_device q) as ->.
      { destruct q, q'. cbn in *. unfold but_status in Hq. cbn in Hq. by simplify_eq. }
      destruct (Hc2 r q Hr) as [?|?]; [by left|right]. by eapply core_eq_is_Some.
Qed.

Lemma wp_steady_bind {X Y} d ro (m : M X) (k : X → M Y) s :
  ready d ro s → wp m (λ _ s', same s s') s → (∀ x, steady d ro (k x)) →
  wp (bind m k) (λ _ s', same s s') s.
Proof.
  intros Hs Hm Hk. apply wp_bind. eapply wp_mono; [exact Hm|]. intros x s1 H1.
  eapply wp_mono; [apply Hk; by eapply ready_same|]. intros y s2 H2. by transitivity s1.
Qed.
Lemma steady_bind {X Y} d ro (m : M X) (k : X → M Y) :
  steady d ro m → (∀ x, steady d ro (k x)) → steady d ro (bind m k).
Proof. intros Hm Hk s Hs. by apply (wp_steady_bind d ro); [|apply Hm|]. Qed.
Lemma steady_ret {X} d ro (x : X) : steady d ro (ret x).
Proof. intros s _. by apply wp_ret. Qed.
Lemma steady_gets {X} d ro (f : dstate A → X) : steady d ro (gets f).
Proof. intros s _. by apply wp_gets. Qed.
Lemma steady_get d ro : steady d ro get.
Proof. intros s _. by apply wp_get. Qed.
Lemma steady_if {X} d ro (b : bool) (m1 m2 : M X) :
  steady d ro m1 → steady d ro m2 → steady d ro (if b then m1 else m2).
Proof. by destruct b. Qed.
Lemma steady_when d ro b (m : M ()) : steady d ro m → steady d ro (when b m).
Proof. intros Hm. by destruct b; [|apply steady_ret]. Qed.
Lemma steady_ld_dev d ro : steady d ro (ld_dev d).
Proof. intros s ([x Hx] & _). by apply (wp_ld_dev _ x). Qed.
Lemma steady_ld_req d r : steady d (Some r) (ld_req r).
Proof. intros s (_ & _ & Hr). destruct (Hr r eq_refl) as [q Hq]. by apply (wp_ld_req _ q). Qed.

Lemma same_upd_dev d x x' s :
  devs s !! d = Some x → dev_core x' = dev_core x → same s (s <| devs := <[d := x']> (devs s) |>).
Proof.
  intros Hx Hf. pose proof (core_eq_insert dev_core (devs s) d x x' Hx Hf) as Hcv.
  split_and!; [done|done|apply core_eq_refl|done|]. intros [Hc1 Hc2]. split; cbn.
  - intros e y' Hy'. destruct (core_eq_some_inv _ _ _ e y' Hcv Hy') as (y & Hy & Hf').
    unfold dev_core in Hf'. simplify_eq. apply Hc1 in Hy. congruence.
  - intros r q Hq. destruct (Hc2 r q Hq) as [?|?]; [by left|right]. by eapply core_eq_is_Some.
Qed.

Lemma steady_upd_dev d ro f : (∀ x, dev_core (f x) = dev_core x) → steady d ro (upd_dev d f).
Proof. intros Hf s ([x Hx] & _). apply (wp_upd_dev _ _ x); [done|]. by apply (same_upd_dev _ x). Qed.
Lemma steady_upd_dstats d ro f : steady d ro (upd_dstats d f).
Proof. by apply steady_upd_dev. Qed.

Lemma same_mgr s m : mgr_core m = mgr_core (mgr s) → same s (s <| mgr := m |>).
Proof. intros Hm. split_and!; [done|apply core_eq_refl..|done|done]. Qed.
Lemma steady_upd_mgr d ro f : (∀ m, mgr_core (f m) = mgr_core m) → steady d ro (upd_mgr f).
Proof. intros Hf s _. apply wp_upd_mgr. by apply same_mgr. Qed.

(** The fields of the statistics that the registry determines. *)
Definition stats_core (m : device_manager_stats) : Z * list Z * Z :=
  (ms_total_devices m, ms_devices_by_type m, ms_active_drivers m).
Lemma steady_upd_stats d ro f : (∀ m, stats_core (f m) = stats_core m) → steady d ro (upd_stats f).
Proof.
  intros Hf. apply steady_upd_mgr. intros m. specialize (Hf (dm_stats m)). unfold stats_core in Hf.
  unfold mgr_core. cbn. congruence.
Qed.

Lemma steady_upd_req d r f :
  (∀ q, rq_device (f q) = rq_device q ∨ rq_device (f q) = d) → steady d (Some r) (upd_req r f).
Proof.
  intros Hf s ([x Hx] & _ & Hr). destruct (Hr r eq_refl) as [q Hq].
  apply (wp_upd_req _ _ q); [done|]. split_and!; [done|apply core_eq_refl..| |].
  - intros r' Hr'. cbn. destruct (decide (r' = r)) as [->|].
    + by rewrite lookup_insert_eq.
    + by rewrite lookup_insert_ne.
  - intros [Hc1 Hc2]. split; [done|]. cbn. intros r' q' [[<- <-]|[Hne Hq']]%lookup_insert_Some; [|by eauto].
    destruct (Hf q) as [->| ->]; [by apply Hc2 in Hq|eauto].
Qed.

Lemma steady_time d ro : steady d ro get_system_time_ms.
Proof. intros s _. apply wp_time. split_and!; [done|apply core_eq_refl..|done|done]. Qed.
Lemma steady_touch d ro : steady d ro (touch d).
Proof. apply steady_bind; [apply steady_time|]. intros t. by apply steady_upd_dev. Qed.
Lemma steady_driver_op d ro op : steady d ro (driver_op d op).
Proof. intros s (Hd & Hc & _). by apply wp_driver_op. Qed.
Lemma steady_is_registered d ro : steady d ro (is_registered d).
Proof. intros s (Hd & _). apply wp_is_registered; [by right|done..]. Qed.

Lemma steady_calm {X} d ro (m : M X) :
  (∀ s, ready d ro s → wp m (λ _ s', calm s s') s) → steady d ro m.
Proof. intros Hm s Hs. eapply wp_mono; [by apply Hm|]. intros ? s'. apply calm_same. Qed.
Lemma steady_call_dev d ro f : steady d ro (call_dev f d).
Proof. apply steady_calm. intros s (Hd & _). by apply polite_dev. Qed.
Lemma steady_call_req d r f : steady d (Some r) (call_req f d r).
Proof. apply steady_calm. intros s (Hd & _ & Hr). apply polite_req; [done|by apply Hr]. Qed.
Lemma steady_call_ioctl d ro f cmd arg : steady d ro (call_ioctl f d cmd arg).
Proof. apply steady_calm. intros s (Hd & _). by apply polite_ioctl. Qed.
Lemma steady_call_irq d ro f v : steady d ro (call_irq f d v).
Proof. apply steady_calm. intros s (Hd & _). by apply polite_irq. Qed.
Lemma steady_call_done d r f : steady d (Some r) (call_done f r).
Proof. apply steady_calm. intros s (_ & _ & Hr). apply polite_done. by apply Hr. Qed.
End steady.

Create HintDb steady.
#[export] Hint Resolve steady_ret steady_get steady_gets steady_ld_dev steady_ld_req steady_upd_dstats
  steady_time steady_touch steady_driver_op steady_is_registered steady_call_dev steady_call_req
  steady_call_ioctl steady_call_irq steady_call_done : steady.

(** Walks over a program; the side conditions say which fields an update keeps. *)
Ltac stroll :=
  repeat lazymatch goal with
  | |- steady _ _ (bind _ _) => apply steady_bind; [|intros ?]
  | |- steady _ _ (when _ _) => apply steady_when
  | |- steady _ _ (if _ then _ else _) => apply steady_if
  | |- steady _ _ (upd_dev _ _) => apply steady_upd_dev; intros ?; reflexivity
  | |- steady _ _ (upd_stats _) => apply steady_upd_stats; intros ?; repeat case_if; reflexivity
  | |- steady _ _ (upd_mgr _) => apply steady_upd_mgr; intros ?; reflexivity
  | |- steady _ _ (upd_req _ _) => apply steady_upd_req; intros ?; auto
  | |- steady _ _ _ => solve [auto 3 with steady]
  end.

Section steady_ops.
Context {A : Type} `{KA : KAlloc A} `{!Errno} `{!DriverEnv A} `{!Polite A}.
Implicit Types s : dstate A.

Lemma steady_enter_suspended d ro : steady d ro (enter_suspended (A:=A) d).
Proof. unfold enter_suspended. stroll. Qed.
#[local] Hint Resolve steady_enter_suspended : steady.
Lemma steady_start d ro : steady d ro (device_start d).
Proof. unfold device_start. stroll. Qed.
Lemma steady_stop d ro : steady d ro (device_stop d).
Proof. unfold device_stop. stroll. Qed.
Lemma steady_reset d ro : steady d ro (device_reset d).
Proof. unfold device_reset. stroll. Qed.
Lemma steady_suspend d ro : steady d ro (device_suspend d).
Proof. unfold device_suspend. stroll. Qed.
Lemma steady_resume d ro : steady d ro (device_resume d).
Proof. unfold device_resume. stroll. Qed.
Lemma steady_ioctl d ro cmd arg : steady d ro (device_ioctl d cmd arg).
Proof. unfold device_ioctl. stroll. Qed.
Lemma steady_handle_interrupt d ro v : steady d ro (device_handle_interrupt d v).
Proof. unfold device_handle_interrupt. stroll. Qed.
Lemma steady_set_state d ro st : steady d ro (device_set_state d st).
Proof. unfold device_set_state. stroll. Qed.
Lemma steady_get_stats d ro : steady d ro (device_get_stats d).
Proof. unfold device_get_stats. stroll. Qed.
Lemma steady_reset_stats d ro : steady d ro (device_reset_stats (A:=A) d).
Proof. unfold device_reset_stats. stroll. Qed.

Lemma steady_update_stats d r : steady d (Some r) (update_device_stats d r).
Proof. unfold update_device_stats. stroll. Qed.

(** [complete_request] accounts the request to the device it names. *)
Lemma steady_complete d r status : steady d (Some r) (complete_request r status).
Proof.
  unfold complete_request. apply steady_if; [apply steady_ret|].
  apply steady_bind; [by apply steady_upd_req; intros ?; left|]. intros _ s Hs.
  destruct (Hs) as (_ & Hc & Hr). destruct (Hr r eq_refl) as [q Hq].
  apply wp_bind, (wp_ld_req _ q); [done|]. apply (wp_steady_bind d (Some r)); [done| |].
  - destruct (proj2 Hc r q Hq) as [->|He]; [by apply wp_ret|].
    destruct (rq_device q =? 0); [by apply wp_ret|]. by apply steady_update_stats.
  - intros _. stroll.
Qed.
#[local] Hint Resolve steady_complete : steady.

Lemma steady_dispatch d r : steady d (Some r) (dispatch_request d r).
Proof. unfold dispatch_request. stroll. Qed.
#[local] Hint Resolve steady_dispatch : steady.
Lemma steady_submit d r : steady d (Some r) (device_submit_request d r).
Proof. unfold device_submit_request. stroll. Qed.
End steady_ops.

(** ** The registry

    [registry s l dl]: the device list of [s] is [l], newest first, and the
    driver list is [dl]; the flags and the counters agree with them. *)
Definition has_type (m : gmap Z device) (t d : Z) : Prop := dv_type <$> m !! d = Some t.
#[export] Instance has_type_dec m t d : Decision (has_type m t d).
Proof. unfold has_type. apply _. Defined.

Record registry {A} (s : dstate A) (l dl : list Z) : Prop := {
  rg_list : linked dv_next (devs s) (dm_device_list (mgr s)) l;
  rg_nodup : NoDup l;
  rg_flag d x : devs s !! d = Some x → dv_registered x = true ↔ d ∈ l;
  rg_type d x : devs s !! d = Some x → 0 ≤ dv_type x ∧ (d ∈ l → dv_type x < DEVICE_TYPE_MAX);
  rg_total : ms_total_devices (dm_stats (mgr s)) = u32 (Z.of_nat (length l));
  rg_types : length (ms_devices_by_type (dm_stats (mgr s))) = 15%nat;
  rg_by_type t : 0 ≤ t < DEVICE_TYPE_MAX →
    ms_devices_by_type (dm_stats (mgr s)) !! Z.to_nat t =
    Some (u32 (Z.of_nat (length (filter (has_type (devs s) t) l))));
  rg_drivers : linked dr_next (drvs s) (dm_driver_list (mgr s)) dl;
  rg_dnodup : NoDup dl;
  rg_names a b x y : a ∈ dl → b ∈ dl → drvs s !! a = Some x → drvs s !! b = Some y →
    dr_name x = dr_name y → a = b;
  rg_active : ms_active_drivers (dm_stats (mgr s)) = u32 (Z.of_nat (length dl));
  rg_init : dm_initialized (mgr s) = false → l = [];
  rg_closed : closed s
}.

Section registry.
Context {A : Type}.
Implicit Types s : dstate A.

Lemma has_type_core m m' t d : core_eq dev_core m m' → has_type m' t d ↔ has_type m t d.
Proof.
  intros Hc. unfold has_type. assert (dv_type <$> m' !! d = dv_type <$> m !! d) as ->; [|done].
  specialize (Hc d). destruct (m !! d), (m' !! d); try done.
  apply (inj Some) in Hc. cbn. f_equal. unfold dev_core in Hc. congruence.
Qed.

Lemma registry_same s s' l dl : registry s l dl → same s s' → registry s' l dl.
Proof.
  intros [] (Hm & Hv & Hd & Hr & Hc). injection Hm as Hl Hdl Hi Ht Hby Ha. split.
  - rewrite Hl. eapply (core_eq_linked dev_core); [|done|done]. unfold dev_core. naive_solver.
  - done.
  - intros d x' Hx'. destruct (core_eq_some_inv _ _ _ d x' Hv Hx') as (x & Hx & Hf).
    assert (dv_registered x' = dv_registered x) as -> by (unfold dev_core in Hf; congruence). by apply rg_flag0.
  - intros d x' Hx'. destruct (core_eq_some_inv _ _ _ d x' Hv Hx') as (x & Hx & Hf).
    assert (dv_type x' = dv_type x) as -> by (unfold dev_core in Hf; congruence). by apply rg_type0.
  - congruence.
  - congruence.
  - intros t Ht'. rewrite Hby, rg_by_type0 by done. do 4 f_equal. apply filter_ext_in.
    intros d _. symmetry. by apply has_type_core.
  - rewrite Hdl. eapply (core_eq_linked drv_core); [|done|done]. unfold drv_core. naive_solver.
  - done.
  - intros a b x' y' Ha' Hb' Hx' Hy' Hn.
    destruct (core_eq_some_inv _ _ _ a x' Hd Hx') as (x & Hx & Hf).
    destruct (core_eq_some_inv _ _ _ b y' Hd Hy') as (y & Hy & Hg).
    unfold drv_core in *. apply (rg_names0 a b x y); [done..|congruence].
  - congruence.
  - intros Hi'. apply rg_init0. congruence.
  - auto.
Qed.
End registry.

Lemma u32_add_l a b : u32 (u32 a + b) = u32 (a + b).
Proof. unfold u32. by rewrite Zplus_mod_idemp_l. Qed.

(** ** Walking the lists *)
Lemma linked_length {X} (nxt : X → Z) (m : gmap Z X) a l : linked nxt m a l → NoDup l → (length l ≤ size m)%nat.
Proof.
  intros Hl Hnd. rewrite <- (size_dom m), <- (size_list_to_set (C := gset Z) l) by done.
  apply subseteq_size. intros b Hb%elem_of_list_to_set.
  apply elem_of_dom. by apply (lseg_inv nxt m a l 0).
Qed.

(** The walk through the links stops at the link that holds its target: the
    head if the target comes first, else the [next] of its predecessor. *)
Section find_link.
Context {St X : Type} (ld : option Z → prog St Z) (nxt : X → Z) (m : gmap Z X) (s : St).
Hypothesis ld_next : ∀ b x, m !! b = Some x → ld (Some b) s = Ok (nxt x, s).

Lemma find_link_found fuel c a l1 target l2 :
  ld c s = Ok (a, s) → linked nxt m a (l1 ++ target :: l2) → target ∉ l1 → (length l1 < fuel)%nat →
  find_link ld fuel c target s = Ok (Some (match last l1 with Some b => Some b | None => c end), s).
Proof.
  revert fuel c a. induction l1 as [|b l1 IH]; intros fuel c a Hc Hl Ht Hf;
    (destruct fuel as [|fuel]; [simpl in Hf; lia|]); cbn [find_link]; unfold bind; rewrite Hc.
  - destruct Hl as (-> & Ht0 & _). rewrite (proj2 (Z.eqb_neq target 0)), Z.eqb_refl by done. done.
  - destruct Hl as (-> & Hb0 & x & Hx & Hl). apply not_elem_of_cons in Ht as [Htb Ht].
    rewrite (proj2 (Z.eqb_neq b 0)), (proj2 (Z.eqb_neq b target)) by done.
    rewrite (IH fuel (Some b) (nxt x)); [|by apply ld_next|done|done|simpl in Hf; lia].
    rewrite last_cons. by destruct (last l1).
Qed.

Lemma find_link_missing fuel c a l target :
  ld c s = Ok (a, s) → linked nxt m a l → target ∉ l → (length l < fuel)%nat →
  find_link ld fuel c target s = Ok (None, s).
Proof.
  revert fuel c a. induction l as [|b l IH]; intros fuel c a Hc Hl Ht Hf;
    (destruct fuel as [|fuel]; [simpl in Hf; lia|]); cbn [find_link]; unfold bind; rewrite Hc.
  - simpl in Hl. by rewrite Hl.
  - destruct Hl as (-> & Hb0 & x & Hx & Hl). apply not_elem_of_cons in Ht as [Htb Ht].
    rewrite (proj2 (Z.eqb_neq b 0)), (proj2 (Z.eqb_neq b target)) by done.
    apply (IH fuel (Some b) (nxt x)); [by apply ld_next|done|done|simpl in Hf; lia].
Qed.
End find_link.

Section listing.
Context {A : Type} `{KA : KAlloc A} `{!Errno} `{!DriverEnv A} `{!Polite A}.
Implicit Types s : dstate A.

(** The device that [enlist_device] puts in front of the list. *)
Definition enlisted (x : device) (id t next : Z) : device :=
  x <| dv_device_id := id |> <| dv_created_time := t |> <| dv_last_access_time := t |>
    <| dv_state := DEVICE_STATE_INITIALIZING |> <| dv_stats := zero_device_stats |>
    <| dv_next := next |> <| dv_registered := true |>.

Definition enlist_mgr (m : device_manager) (d type : Z) : device_manager :=
  m <| dm_next_device_id := u32 (dm_next_device_id m + 1) |> <| dm_device_list := d |>
    <| dm_stats := (dm_stats m)
      <| ms_total_devices := u32 (ms_total_devices (dm_stats m) + 1) |>
      <| ms_devices_by_type :=
           alter (λ c, u32 (c + 1)) (Z.to_nat type) (ms_devices_by_type (dm_stats m)) |> |>.

Definition enlist_state s d (x : device) : dstate A :=
  mk_dstate (enlist_mgr (mgr s) d (dv_type x))
    (<[d := enlisted x (dm_next_device_id (mgr s)) (u64 (time_at (clock_reads s)))
                       (dm_device_list (mgr s))]> (devs s))
    (drvs s) (reqs s) (clock_reads s + 1) (dalloc s).

Lemma enlist_run s d x :
  devs s !! d = Some x → 0 ≤ dv_type x < DEVICE_TYPE_MAX →
  enlist_device d s = Ok ((), enlist_state s d x).
Proof.
  intros Hx Ht. destruct s as [[dl drl st ndi nri ini] ds drs rs cr al].
  unfold enlist_device, bind, gets, upd_dev, upd_stats, upd_mgr, modify, ld_dev, get_system_time_ms.
  cbn in Hx |- *. rewrite Hx. cbn. do 5 (rewrite lookup_insert_eq; cbn).
  unfold add_by_type. rewrite (proj2 (Z.leb_le 0 _)), (proj2 (Z.ltb_lt _ DEVICE_TYPE_MAX)) by (cbn; lia).
  rewrite !insert_insert_eq. done.
Qed.

Lemma registry_enlist s l dl d x :
  registry s l dl → dm_initialized (mgr s) = true → d ≠ 0 → devs s !! d = Some x →
  dv_registered x = false → dv_type x < DEVICE_TYPE_MAX →
  registry (enlist_state s d x) (d :: l) dl.
Proof.
  intros Hrg Hi Hd0 Hx Hreg Ht. destruct (Hrg).
  assert (d ∉ l) as Hd by (rewrite <- (rg_flag0 d x Hx); congruence).
  split; cbn -[list_filter]; try done.
  - split_and!; [done..|]. eexists. rewrite lookup_insert_eq. split; [done|].
    by apply lseg_insert_other.
  - by constructor.
  - intros e y [[<- <-]|[Hne Hy]]%lookup_insert_Some.
    + split; [by left|done].
    + rewrite (rg_flag0 e y Hy). set_solver.
  - intros e y [[<- <-]|[Hne Hy]]%lookup_insert_Some.
    + split; [|done]. by apply (rg_type0 d x).
    + destruct (rg_type0 e y Hy). split; [done|]. set_solver.
  - rewrite rg_total0, u32_add_l. f_equal. lia.
  - by rewrite length_alter.
  - intros t Htt. set (m' := <[d:=_]> (devs s)).
    assert (filter (has_type m' t) l = filter (has_type (devs s) t) l) as Hfl.
    { apply filter_ext_in. intros e He. unfold has_type, m'. rewrite lookup_insert_ne; [done|]. by intros ->. }
    rewrite filter_cons, Hfl. case_decide as Hh; unfold has_type, m' in Hh;
      rewrite lookup_insert_eq in Hh; cbn in Hh.
    + injection Hh as <-. rewrite list_lookup_alter_eq, rg_by_type0 by done. cbn -[list_filter].
      f_equal. rewrite u32_add_l. f_equal. lia.
    + rewrite list_lookup_alter_ne; [by apply rg_by_type0|].
      destruct (rg_type0 d x Hx). intros Heq. apply Hh. f_equal. lia.
  - congruence.
  - destruct rg_closed0 as [Hc1 Hc2]. split; cbn.
    + intros e y [[<- <-]|[Hne Hy]]%lookup_insert_Some; [by apply (Hc1 d x)|by apply (Hc1 e)].
    + intros r q Hq. destruct (Hc2 r q Hq) as [?|[y Hy]]; [by left|right].
      apply lookup_insert_is_Some. destruct (decide (d = rq_device q)); eauto.
Qed.

(** *** Taking a device out of the list *)
Definition relink (c : option Z) (v : Z) (m : gmap Z device) : gmap Z device :=
  match c with Some b => alter (λ x, x <| dv_next := v |>) b m | None => m end.

Definition unlink_mgr (m : device_manager) (c : option Z) (v type : Z) : device_manager :=
  (match c with Some _ => m | None => m <| dm_device_list := v |> end)
    <| dm_stats := (dm_stats m)
      <| ms_total_devices := u32 (ms_total_devices (dm_stats m) - 1) |>
      <| ms_devices_by_type :=
           alter (λ c, u32 (c - 1)) (Z.to_nat type) (ms_devices_by_type (dm_stats m)) |> |>.

Definition unlink_state s (c : option Z) d (x : device) : dstate A :=
  mk_dstate (unlink_mgr (mgr s) c (dv_next x) (dv_type x))
    (<[d := x <| dv_registered := false |> <| dv_state := DEVICE_STATE_REMOVED |>]>
       (relink c (dv_next x) (devs s)))
    (drvs s) (reqs s) (clock_reads s) (dalloc s).

Lemma alter_insert {X} (f : X → X) b x (m : gmap Z X) : m !! b = Some x → alter f b m = <[b := f x]> m.
Proof.
  intros Hx. apply map_eq. intros a. destruct (decide (a = b)) as [->|].
  - by rewrite lookup_alter_eq, Hx, lookup_insert_eq.
  - by rewrite lookup_alter_ne, lookup_insert_ne.
Qed.

Lemma st_dev_link_run s c v :
  (∀ b, c = Some b → is_Some (devs s !! b)) →
  st_dev_link c v s =
  Ok ((), mk_dstate (match c with Some _ => mgr s | None => (mgr s) <| dm_device_list := v |> end)
            (relink c v (devs s)) (drvs s) (reqs s) (clock_reads s) (dalloc s)).
Proof.
  intros Hc. destruct s, c as [b|]; [|done]. destruct (Hc b eq_refl) as [y Hy].
  unfold st_dev_link, upd_dev. cbn in Hy |- *. rewrite Hy. by rewrite (alter_insert _ b y).
Qed.

Lemma unlink_run s c d x :
  devs s !! d = Some x → (∀ b, c = Some b → b ≠ d ∧ is_Some (devs s !! b)) →
  0 ≤ dv_type x < DEVICE_TYPE_MAX →
  unlink_device c d s = Ok (0, unlink_state s c d x).
Proof.
  intros Hx Hc Ht.
  assert (relink c (dv_next x) (devs s) !! d = Some x) as Hx'.
  { destruct c as [b|]; [|done]. cbn. destruct (Hc b eq_refl). by rewrite lookup_alter_ne. }
  unfold unlink_device, bind at 1, ld_dev at 1. rewrite Hx. unfold bind at 1.
  rewrite st_dev_link_run by (intros b Hb; by apply Hc).
  unfold bind, upd_dev, upd_stats, upd_mgr, modify, ld_dev. cbn. rewrite Hx'. cbn.
  rewrite lookup_insert_eq. cbn.
  unfold add_by_type. rewrite (proj2 (Z.leb_le 0 _)), (proj2 (Z.ltb_lt _ DEVICE_TYPE_MAX)) by (cbn; lia).
  cbn. by destruct c.
Qed.

(** Every record but the removed one keeps all but its link. *)
Lemma unlink_lookup s c d x b z :
  b ≠ d → devs s !! b = Some z →
  devs (unlink_state s c d x) !! b =
  Some (if decide (c = Some b) then z <| dv_next := dv_next x |> else z).
Proof.
  intros Hb Hz. cbn. rewrite lookup_insert_ne by done. destruct c as [e|]; cbn.
  - destruct (decide (e = b)) as [->|Hne].
    + rewrite lookup_alter_eq, Hz, decide_True by done. done.
    + rewrite lookup_alter_ne, decide_False by congruence. done.
  - by rewrite decide_False.
Qed.

Lemma unlink_lookup_inv s c d x b z' :
  devs (unlink_state s c d x) !! b = Some z' →
  (b = d ∧ z' = x <| dv_registered := false |> <| dv_state := DEVICE_STATE_REMOVED |>) ∨
  (b ≠ d ∧ ∃ z, devs s !! b = Some z ∧ dv_registered z' = dv_registered z ∧ dv_type z' = dv_type z ∧
                dv_driver z' = dv_driver z).
Proof.
  intros Hz'. destruct (decide (b = d)) as [->|Hne].
  - left. cbn in Hz'. rewrite lookup_insert_eq in Hz'. by simplify_eq.
  - right. split; [done|]. destruct (devs s !! b) as [z|] eqn:Hz.
    + rewrite (unlink_lookup s c d x b z) in Hz' by done. exists z. split; [done|].
      case_decide; by simplify_eq.
    + exfalso. cbn in Hz'. rewrite lookup_insert_ne in Hz' by done. destruct c as [e|]; cbn in Hz'; [|congruence].
      apply lookup_alter_Some in Hz'. naive_solver congruence.
Qed.

Lemma registry_unlink s l1 d l2 dl x :
  registry s (l1 ++ d :: l2) dl → dm_initialized (mgr s) = true → devs s !! d = Some x →
  registry (unlink_state s (last l1) d x) (l1 ++ l2) dl.
Proof.
  intros Hrg Hi Hx. destruct Hrg.
  pose proof rg_nodup0 as (Hnd1 & Hdis & [Hd2 Hnd2]%NoDup_cons)%NoDup_app.
  assert (d ∉ l1) as Hd1 by (intros ?; apply (Hdis d); [done|by left]).
  assert (∀ t, filter (has_type (devs (unlink_state s (last l1) d x)) t) (l1 ++ l2) =
               filter (has_type (devs s) t) (l1 ++ l2)) as Hfl.
  { intros t. apply filter_ext_in. intros b Hb. assert (b ≠ d) by (intros ->; set_solver).
    assert (is_Some (devs s !! b)) as [z Hz].
    { apply (lseg_inv _ _ _ _ _ b rg_list0). set_solver. }
    unfold has_type. rewrite (unlink_lookup s _ d x b z), Hz by done. by case_decide. }
  assert (length (l1 ++ d :: l2) = S (length (l1 ++ l2))) as Hlen by (rewrite !length_app; cbn; lia).
  assert (dv_type x < DEVICE_TYPE_MAX) as Htx by (apply (rg_type0 d x Hx); set_solver).
  split; try done.
  - replace (dm_device_list (mgr (unlink_state s (last l1) d x)))
      with (if decide (l1 = []) then dv_next x else dm_device_list (mgr s)).
    2:{ destruct l1 as [|b l1 _] using rev_ind; [done|]. rewrite decide_False by (by destruct l1).
        cbn. by rewrite last_snoc. }
    apply (linked_unlink _ (devs s) _ _ _ d); [done..|]. intros b z Hb Hz.
    eexists. split; [by apply unlink_lookup|]. by case_decide.
  - apply NoDup_app. split_and!; [done| |done]. intros b Hb1 Hb2. apply (Hdis b Hb1). by right.
  - intros b z' Hz'. apply unlink_lookup_inv in Hz' as [[-> ->]|(Hne & z & Hz & -> & _)].
    + cbn. set_solver.
    + rewrite (rg_flag0 b z Hz). set_solver.
  - intros b z' Hz'. apply unlink_lookup_inv in Hz' as [[-> ->]|(Hne & z & Hz & _ & -> & _)].
    + split; [by apply (rg_type0 d x)|done].
    + destruct (rg_type0 b z Hz) as [? Hlt]. split; [done|]. intros Hb. apply Hlt. set_solver.
  - cbn. destruct (last l1); cbn; rewrite rg_total0, Hlen; unfold Z.sub; rewrite u32_add_l; f_equal; lia.
  - cbn. destruct (last l1); cbn; by rewrite length_alter.
  - intros t Ht. rewrite Hfl. replace (ms_devices_by_type (dm_stats (mgr (unlink_state s (last l1) d x))))
      with (alter (λ c, u32 (c - 1)) (Z.to_nat (dv_type x)) (ms_devices_by_type (dm_stats (mgr s))))
      by (cbn; by destruct (last l1)).
    specialize (rg_by_type0 t Ht). rewrite filter_app, filter_cons in rg_by_type0. rewrite filter_app.
    assert (has_type (devs s) t d ↔ t = dv_type x) as Hh.
    { unfold has_type. rewrite Hx. cbn. naive_solver. }
    destruct (decide (t = dv_type x)) as [->|Hne].
    + rewrite decide_True in rg_by_type0 by (by apply Hh).
      rewrite list_lookup_alter_eq, rg_by_type0. cbn -[list_filter]. rewrite !length_app. cbn -[list_filter].
      f_equal. unfold Z.sub. rewrite u32_add_l. f_equal. lia.
    + rewrite decide_False in rg_by_type0 by (by rewrite Hh).
      rewrite list_lookup_alter_ne; [done|]. destruct (rg_type0 d x Hx). lia.
  - cbn. destruct (last l1); done.
  - cbn. destruct (last l1); cbn; congruence.
  - destruct rg_closed0 as [Hc1 Hc2]. split.
    + intros b z' Hz'. apply unlink_lookup_inv in Hz' as [[-> ->]|(Hne & z & Hz & _ & _ & ->)].
      * by apply (Hc1 d x).
      * by apply (Hc1 b z).
    + intros r q Hq. destruct (Hc2 r q Hq) as [?|[y Hy]]; [by left|right].
      destruct (decide (rq_device q = d)) as [Heq|].
      * rewrite Heq. cbn. by rewrite lookup_insert_eq.
      * rewrite (unlink_lookup _ _ _ _ _ y) by done. done.
Qed.
End listing.

Lemma filter_out_mid (d : Z) l1 l2 : d ∉ l1 → d ∉ l2 → filter (λ e, e ≠ d) (l1 ++ d :: l2) = l1 ++ l2.
Proof.
  intros H1 H2. assert (∀ l : list Z, d ∉ l → filter (λ e, e ≠ d) l = l) as Hid.
  { induction l as [|e l IH]; [done|]. intros [??]%not_elem_of_cons.
    rewrite filter_cons, decide_True by done. by rewrite IH. }
  rewrite filter_app, filter_cons, decide_False by (intros Hn; by apply Hn). by rewrite !Hid.
Qed.

(** *** The operations on the registry *)
Section registry_ops.
Context {A : Type} `{KA : KAlloc A} `{!Errno} `{!DriverEnv A} `{!Polite A} `{!ErrnoLaws}.
Implicit Types s : dstate A.

Lemma neg_errno e : 0 < e → - e ≠ 0.
Proof. lia. Qed.

Lemma same_upd_drv d y y' s :
  drvs s !! d = Some y → drv_core y' = drv_core y → same s (s <| drvs := <[d := y']> (drvs s) |>).
Proof.
  intros Hy Hf. pose proof (core_eq_insert drv_core (drvs s) d y y' Hy Hf) as Hc.
  split_and!; [done|apply core_eq_refl|done|done|]. intros [Hc1 Hc2]. split; [|done].
  intros e x Hx. destruct (Hc1 e x Hx) as [?|?]; [by left|right]. by eapply core_eq_is_Some.
Qed.

Lemma steady_remove d ro : steady d ro (remove_device d).
Proof.
  intros s ([x Hx] & Hc & Hr). unfold remove_device, driver_op.
  apply wp_bind, wp_bind, (wp_ld_dev _ x); [done|].
  destruct (Z.eqb_spec (dv_driver x) 0) as [_|Hd0]; [by apply wp_ret|].
  destruct (proj1 Hc d x Hx) as [?|[y Hy]]; [done|]. apply wp_bind, (wp_ld_drv _ y); [done|].
  apply wp_ret. case_if; [by apply wp_ret|]. apply wp_bind.
  eapply wp_mono; [by apply polite_dev|]. intros ? s1 Hcalm. pose proof (calm_same _ _ Hcalm) as Hs.
  destruct (core_eq_some dev_core (devs s) (devs s1) d x) as (x1 & Hx1 & Hf); [apply Hs|done|].
  assert (dv_driver x1 = dv_driver x) as Hdv by (unfold dev_core in Hf; congruence).
  apply wp_bind, (wp_ld_dev _ x1); [done|]. rewrite Hdv.
  destruct Hcalm as (_ & Hdr & _). apply (wp_upd_drv _ _ y); [by rewrite Hdr|].
  transitivity s1; [done|]. apply (same_upd_drv _ y); [by rewrite Hdr|done].
Qed.

Lemma steady_init_device d ro : steady d ro (init_device d).
Proof. unfold init_device. stroll. Qed.

Lemma validate_device_spec s d Q :
  d = 0 ∨ is_Some (devs s !! d) →
  Q (- EINVAL) s →
  (∀ x, d ≠ 0 → devs s !! d = Some x → dv_type x < DEVICE_TYPE_MAX → di_name (dv_info x) ≠ [] → Q 0 s) →
  wp (validate_device d) Q s.
Proof.
  intros Hd HQ HQ0. unfold validate_device. destruct (Z.eqb_spec d 0) as [->|Hd0]; [by apply wp_ret|].
  destruct Hd as [?|[x Hx]]; [done|]. apply wp_bind, (wp_ld_dev _ x); [done|].
  destruct (Z.leb_spec DEVICE_TYPE_MAX (dv_type x)); [by apply wp_ret|].
  destruct (bool_decide_reflect (di_name (dv_info x) = [])); [by apply wp_ret|]. apply wp_ret. by eapply HQ0.
Qed.

Lemma device_register_spec s l dl d :
  registry s l dl → d = 0 ∨ is_Some (devs s !! d) →
  wp (device_register d)
     (λ r s', registry s' (if decide (r = 0) then d :: l else l) dl ∧
              dm_initialized (mgr s') = dm_initialized (mgr s)) s.
Proof.
  intros Hrg Hd. unfold device_register. apply wp_bind, wp_gets.
  destruct (dm_initialized (mgr s)) eqn:Hi; cbn [negb].
  2:{ apply wp_ret. rewrite decide_False by apply neg_errno, ENOTINIT_pos. done. }
  apply wp_bind, validate_device_spec; [done| |].
  { rewrite (proj2 (Z.eqb_neq _ 0)) by apply neg_errno, EINVAL_pos. apply wp_ret.
    rewrite decide_False by apply neg_errno, EINVAL_pos. done. }
  intros x Hd0 Hx Ht _. cbn [Z.eqb negb]. apply wp_bind, (wp_ld_dev _ x); [done|].
  destruct (dv_registered x) eqn:Hreg.
  { apply wp_ret. rewrite decide_False by apply neg_errno, EEXIST_pos. done. }
  assert (0 ≤ dv_type x < DEVICE_TYPE_MAX) as Ht' by (split; [by apply (rg_type s l dl Hrg d x)|done]).
  pose proof (registry_enlist s l dl d x Hrg Hi Hd0 Hx Hreg Ht) as Hrg1.
  apply wp_bind. unfold wp at 1. rewrite (enlist_run s d x) by done. apply wp_bind.
  eapply wp_mono; [apply (steady_init_device d None)|].
  { split_and!; [|by apply (rg_closed _ _ _ Hrg1)|done]. cbn. by rewrite lookup_insert_eq. }
  intros ? s' Hs. apply wp_ret. rewrite decide_True by done. split; [by apply (registry_same _ _ _ _ Hrg1)|].
  destruct Hs as (Hm & _). injection Hm as _ _ -> _ _ _. done.
Qed.

Lemma unlink_found s l1 d l2 dl x :
  registry s (l1 ++ d :: l2) dl → devs s !! d = Some x →
  (s0 <- get ;; c <- find_link ld_dev_link (dev_fuel s0) None d ;;
   match c with None => ret (- ENOENT) | Some current => unlink_device current d end) s =
  Ok (0, unlink_state s (last l1) d x).
Proof.
  intros Hrg Hx. pose proof (rg_nodup _ _ _ Hrg) as (_ & Hdis & [Hd2 _]%NoDup_cons)%NoDup_app.
  assert (d ∉ l1) as Hd1 by (intros Hin; apply (Hdis d Hin); by left).
  unfold bind at 1, get. unfold bind at 1.
  rewrite (find_link_found ld_dev_link dv_next (devs s) s) with (a := dm_device_list (mgr s)) (l1 := l1) (l2 := l2).
  2:{ intros b z Hz. unfold ld_dev_link, bind, ld_dev. by rewrite Hz. }
  2:{ done. }
  2:{ apply (rg_list _ _ _ Hrg). }
  2:{ done. }
  2:{ pose proof (linked_length _ _ _ _ (rg_list _ _ _ Hrg) (rg_nodup _ _ _ Hrg)) as Hlen.
      rewrite length_app in Hlen. cbn in Hlen. unfold dev_fuel. lia. }
  replace (match last l1 with Some b => Some b | None => None end) with (last l1) by (by destruct (last l1)).
  apply unlink_run; [done| |].
  - intros b Hb. apply last_Some in Hb as [l' ->]. split; [set_solver|].
    apply (lseg_inv _ _ _ _ _ b (rg_list _ _ _ Hrg)). set_solver.
  - destruct (rg_type _ _ _ Hrg d x Hx) as [? Hlt]. split; [done|]. apply Hlt. set_solver.
Qed.

Lemma unregister_spec s l dl d :
  registry s l dl → d = 0 ∨ is_Some (devs s !! d) →
  wp (device_unregister d)
     (λ r s', registry s' (if decide (r = 0) then filter (λ e, e ≠ d) l else l) dl ∧
              (r = 0 ↔ dm_initialized (mgr s) = true ∧ d ∈ l) ∧
              dm_initialized (mgr s') = dm_initialized (mgr s)) s.
Proof.
  intros Hrg Hd. unfold device_unregister. apply wp_bind, wp_gets.
  pose proof (neg_errno _ EINVAL_pos) as Hne.
  destruct (dm_initialized (mgr s)) eqn:Hi; cbn [negb].
  2:{ apply wp_ret. rewrite decide_False by done. naive_solver. }
  apply wp_bind, wp_is_registered; [done| |].
  2:{ intros ->. apply wp_ret. rewrite decide_False by done. split_and!; [done| |done]. split; [done|].
      intros [_ Hin]. by apply (lseg_inv _ _ _ _ _ 0 (rg_list _ _ _ Hrg)) in Hin as [? _]. }
  intros x Hd0 Hx. destruct (dv_registered x) eqn:Hreg; cbn [negb].
  2:{ apply wp_ret. rewrite decide_False by done. split_and!; [done| |done]. split; [done|].
      intros [_ Hin]. apply (rg_flag _ _ _ Hrg d x Hx) in Hin. congruence. }
  assert (d ∈ l) as Hdl by (by apply (rg_flag _ _ _ Hrg d x Hx)).
  apply wp_bind, (wp_ld_dev _ x); [done|].
  assert (ready d None s) as Hready by (split_and!; [done|apply Hrg|done]).
  apply wp_bind. eapply wp_mono.
  { apply (steady_if d None); [|apply steady_ret|done]. apply steady_bind; [apply steady_stop|intros; apply steady_ret]. }
  intros [] s1 Hs1. apply wp_bind. eapply wp_mono; [apply (steady_remove d None); by eapply ready_same|].
  intros [] s2 Hs2. assert (same s s2) as Hs by (by transitivity s1). clear s1 Hs1 Hs2.
  pose proof (registry_same _ _ _ _ Hrg Hs) as Hrg2.
  apply list_elem_of_split in Hdl as (l1 & l2 & Heq). rewrite Heq in Hrg2 |- *.
  pose proof (rg_nodup _ _ _ Hrg2) as (_ & Hdis & [Hd2 _]%NoDup_cons)%NoDup_app.
  assert (d ∉ l1) as Hd1 by (intros Hin; apply (Hdis d Hin); by left).
  destruct (core_eq_some dev_core (devs s) (devs s2) d x) as (x2 & Hx2 & _); [apply Hs|done|].
  assert (dm_initialized (mgr s2) = true) as Hi2.
  { destruct Hs as (Hm & _). unfold mgr_core in Hm. congruence. }
  unfold wp. rewrite (unlink_found s2 l1 d l2 dl x2) by done. rewrite decide_True, filter_out_mid by done.
  split_and!; [by apply registry_unlink| |].
  - split; [|done]. intros _. split; [done|set_solver].
  - cbn. destruct (last l1); cbn; congruence.
Qed.

(** *** Drivers *)
Lemma find_driver_spec s fuel name a l :
  linked dr_next (drvs s) a l → (length l < fuel)%nat →
  wp (find_driver fuel name a)
     (λ r s', s' = s ∧ ((r = 0 ∧ ∀ b y, b ∈ l → drvs s !! b = Some y → dr_name y ≠ name) ∨
                        (r ≠ 0 ∧ r ∈ l ∧ ∃ y, drvs s !! r = Some y ∧ dr_name y = name))) s.
Proof.
  revert fuel a. induction l as [|b l IH]; intros fuel a Hl Hf;
    (destruct fuel as [|fuel]; [simpl in Hf; lia|]); cbn [find_driver].
  - assert (a = 0) as -> by exact Hl. cbn [Z.eqb]. apply wp_ret. split; [done|left]. set_solver.
  - destruct Hl as (-> & Hb0 & y & Hy & Hl). rewrite (proj2 (Z.eqb_neq b 0)) by done.
    apply wp_bind, (wp_ld_drv _ y); [done|]. destruct (bool_decide_reflect (dr_name y = name)) as [Hn|Hn].
    + apply wp_ret. split; [done|right]. split_and!; [done|by left|by eauto].
    + eapply wp_mono; [apply (IH fuel (dr_next y)); [done|simpl in Hf; lia]|].
      intros r s' [-> [[-> Hno]|(Hr & Hin & Hex)]]; (split; [done|]).
      * left. split; [done|]. intros c z [->|Hc]%elem_of_cons Hz; [congruence|by eapply Hno].
      * right. split_and!; [done|by right|done].
Qed.

Definition driver_enlisted (y : device_driver) (next : Z) : device_driver :=
  y <| dr_next := next |> <| dr_loaded := true |> <| dr_reference_count := 0 |>.

Lemma validate_driver_spec s d Q :
  d = 0 ∨ is_Some (drvs s !! d) →
  Q (- EINVAL) s → (∀ y, d ≠ 0 → drvs s !! d = Some y → Q 0 s) → wp (validate_driver d) Q s.
Proof.
  intros Hd HQ HQ0. unfold validate_driver. destruct (Z.eqb_spec d 0) as [->|Hd0]; [by apply wp_ret|].
  destruct Hd as [?|[y Hy]]; [done|]. apply wp_bind, (wp_ld_drv _ y); [done|].
  repeat case_if; apply wp_ret; eauto.
Qed.

Lemma driver_register_spec s l dl d :
  registry s l dl → d = 0 ∨ is_Some (drvs s !! d) →
  wp (device_driver_register d)
     (λ r s', registry s' l (if decide (r = 0) then d :: dl else dl) ∧
              dm_initialized (mgr s') = dm_initialized (mgr s) ∧
              (r = 0 → ∃ y, drvs s !! d = Some y ∧
                 drvs s' !! d = Some (driver_enlisted y (dm_driver_list (mgr s))))) s.
Proof.
  intros Hrg Hd. pose proof (neg_errno _ EINVAL_pos) as Hne. unfold device_driver_register. apply wp_bind, wp_gets.
  destruct (dm_initialized (mgr s)) eqn:Hi; cbn [negb].
  2:{ pose proof (neg_errno _ ENOTINIT_pos). apply wp_ret. by rewrite decide_False. }
  apply wp_bind, validate_driver_spec; [done| |].
  { rewrite (proj2 (Z.eqb_neq _ 0)) by done. apply wp_ret. by rewrite decide_False. }
  intros y Hd0 Hy. cbn [Z.eqb negb]. apply wp_bind, (wp_ld_drv _ y); [done|].
  apply wp_bind. unfold device_driver_find. apply wp_bind, wp_get. rewrite Hi.
  destruct (Hrg).
  eapply wp_mono; [apply (find_driver_spec s _ _ _ dl rg_drivers0)|].
  { unfold drv_fuel. pose proof (linked_length _ _ _ _ rg_drivers0 rg_dnodup0). lia. }
  intros r s' [-> [[-> Hno]|(Hr & Hin & _)]]; cbn beta.
  2:{ pose proof (neg_errno _ EEXIST_pos). rewrite (proj2 (Z.eqb_neq r 0)) by done. apply wp_ret. by rewrite decide_False. }
  assert (d ∉ dl) as Hdl by (intros Hin; by apply (Hno d y Hin Hy)).
  cbn [Z.eqb negb]. apply wp_bind, wp_gets. apply wp_bind, (wp_upd_drv _ _ y); [done|].
  apply wp_bind, wp_upd_mgr. apply wp_bind. eapply wp_upd_drv; [cbn; by rewrite lookup_insert_eq|].
  apply wp_bind, wp_upd_stats, wp_ret. rewrite decide_True by done. split_and!; [|done|].
  2:{ intros _. exists y. split; [done|]. cbn. by rewrite lookup_insert_eq. }
  split; cbn -[list_filter]; try done.
  - split_and!; [done..|]. eexists. rewrite lookup_insert_eq. split; [done|]. cbn.
    rewrite insert_insert_eq. by apply lseg_insert_other.
  - by constructor.
  - rewrite insert_insert_eq. intros a b x z Ha Hb Hx Hz Hn.
    rewrite lookup_insert_Some in Hx, Hz.
    destruct Hx as [[<- <-]|[Hax Hx]], Hz as [[<- <-]|[Hbz Hz']]; cbn in Hn; try done.
    + exfalso. apply elem_of_cons in Hb as [?|Hb]; [by subst|]. by apply (Hno b z Hb Hz').
    + exfalso. apply elem_of_cons in Ha as [?|Ha]; [by subst|]. by apply (Hno a x Ha Hx).
    + apply (rg_names0 a b x z); [set_solver..|done|done|done].
  - rewrite rg_active0, u32_add_l. f_equal. lia.
  - destruct rg_closed0 as [Hc1 Hc2]. split; cbn; [|done].
    intros e x Hx. destruct (Hc1 e x Hx) as [?|[z Hz]]; [by left|right].
    rewrite insert_insert_eq. apply lookup_insert_is_Some. destruct (decide (d = dv_driver x)); eauto.
Qed.

(** What [device_driver_unregister] leaves of the manager, [c] the link that was rewritten. *)
Definition drv_unlink_mgr (m : device_manager) (c : option Z) (next : Z) : device_manager :=
  (match c with Some _ => m | None => m <| dm_driver_list := next |> end)
    <| dm_stats := (dm_stats m) <| ms_active_drivers := u32 (ms_active_drivers (dm_stats m) - 1) |> |>.

Lemma registry_drv_unlink s s' l l1 d l2 y :
  registry s l (l1 ++ d :: l2) → drvs s !! d = Some y →
  core_eq dr_name (drvs s) (drvs s') →
  (∀ b z, b ≠ d → drvs s !! b = Some z →
     ∃ z', drvs s' !! b = Some z' ∧ dr_next z' = if decide (last l1 = Some b) then dr_next y else dr_next z) →
  mgr s' = drv_unlink_mgr (mgr s) (last l1) (dr_next y) → devs s' = devs s → reqs s' = reqs s →
  registry s' l (l1 ++ l2).
Proof.
  intros [] Hy Hname Hnext Hm Hdv Hrq.
  pose proof rg_dnodup0 as (Hnd1 & Hdis & [Hd2 Hnd2]%NoDup_cons)%NoDup_app.
  assert (mgr_core (mgr s') = (dm_device_list (mgr s),
    if decide (l1 = []) then dr_next y else dm_driver_list (mgr s), dm_initialized (mgr s),
    ms_total_devices (dm_stats (mgr s)), ms_devices_by_type (dm_stats (mgr s)),
    u32 (ms_active_drivers (dm_stats (mgr s)) - 1))) as Hc.
  { rewrite Hm. destruct l1 as [|b l1 _] using rev_ind; [done|].
    rewrite last_snoc, decide_False by (by destruct l1). done. }
  injection Hc as Hc1 Hc2 Hc3 Hc4 Hc5 Hc6. split; rewrite ?Hdv, ?Hc1, ?Hc2, ?Hc3, ?Hc4, ?Hc5, ?Hc6; try done.
  - by apply (linked_unlink _ (drvs s) _ _ _ d).
  - apply NoDup_app. split_and!; [done| |done]. intros b Hb1 Hb2. apply (Hdis b Hb1). by right.
  - intros a b x z Ha Hb Hx Hz Hn.
    destruct (core_eq_some_inv _ _ _ a x Hname Hx) as (x0 & Hx0 & Hf).
    destruct (core_eq_some_inv _ _ _ b z Hname Hz) as (z0 & Hz0 & Hg).
    apply (rg_names0 a b x0 z0); [set_solver..|done|done|congruence].
  - rewrite rg_active0, !length_app. unfold Z.sub. rewrite u32_add_l. f_equal. cbn. lia.
  - destruct rg_closed0 as [Hcl1 Hcl2]. split; rewrite Hdv, ?Hrq; [|done].
    intros e x Hx. destruct (Hcl1 e x Hx) as [?|?]; [by left|right]. by eapply core_eq_is_Some.
Qed.

Lemma driver_unregister_spec s l dl d :
  registry s l dl → d = 0 ∨ is_Some (drvs s !! d) →
  wp (device_driver_unregister d)
     (λ r s', registry s' l (if decide (r = 0) then filter (λ e, e ≠ d) dl else dl) ∧
              devs s' = devs s ∧ dm_initialized (mgr s') = dm_initialized (mgr s) ∧
              (r ≠ 0 → s' = s)) s.
Proof.
  intros Hrg Hd. pose proof (neg_errno _ EINVAL_pos) as Hne. unfold device_driver_unregister.
  apply wp_bind, wp_get. destruct (Z.eqb_spec d 0) as [->|Hd0].
  { rewrite orb_true_r. apply wp_ret. by rewrite decide_False. }
  destruct Hd as [?|[y Hy]]; [done|]. rewrite orb_false_r.
  destruct (dm_initialized (mgr s)) eqn:Hi; cbn [negb].
  2:{ apply wp_ret. by rewrite decide_False. }
  apply wp_bind, (wp_ld_drv _ y); [done|]. pose proof (neg_errno _ EBUSY_pos).
  destruct (0 <? dr_reference_count y). { apply wp_ret. by rewrite decide_False. }
  pose proof (linked_length _ _ _ _ (rg_drivers _ _ _ Hrg) (rg_dnodup _ _ _ Hrg)) as Hlen.
  assert (∀ b z, drvs s !! b = Some z → ld_drv_link (Some b) s = Ok (dr_next z, s)) as Hld.
  { intros b z Hz. unfold ld_drv_link, bind, ld_drv. by rewrite Hz. }
  apply wp_bind. destruct (decide (d ∈ dl)) as [Hdl|Hdl].
  2:{ unfold wp at 1. pose proof (neg_errno _ ENOENT_pos).
      rewrite (find_link_missing ld_drv_link dr_next (drvs s) s Hld) with (a := dm_driver_list (mgr s)) (l := dl);
        [|done|apply Hrg|done|unfold drv_fuel; lia].
      apply wp_ret. by rewrite decide_False. }
  apply list_elem_of_split in Hdl as (l1 & l2 & ->).
  assert (d ∉ l1) as Hd1.
  { intros Hin. pose proof (rg_dnodup _ _ _ Hrg) as (_ & Hdis & _)%NoDup_app. apply (Hdis d Hin). by left. }
  assert (d ∉ l2) as Hd2 by (pose proof (rg_dnodup _ _ _ Hrg) as (_ & _ & [? _]%NoDup_cons)%NoDup_app; done).
  unfold wp at 1.
  rewrite (find_link_found ld_drv_link dr_next (drvs s) s Hld) with (a := dm_driver_list (mgr s)) (l1 := l1) (l2 := l2);
    [|done|apply Hrg|done|rewrite length_app in Hlen; cbn in Hlen; unfold drv_fuel; lia].
  apply wp_bind, (wp_ld_drv _ y); [done|].
  destruct (last l1) as [b|] eqn:Hlast.
  - assert (b ∈ l1) as Hb by (apply last_Some in Hlast as [l' ->]; set_solver).
    assert (b ≠ d) as Hbd by (by intros ->).
    destruct (lseg_inv _ _ _ _ _ b (rg_drivers _ _ _ Hrg) ltac:(set_solver)) as [_ [z Hz]].
    apply wp_bind, (wp_upd_drv _ _ z); [done|].
    apply wp_bind, (wp_upd_drv _ _ y); [cbn; by rewrite lookup_insert_ne|].
    apply wp_bind, wp_upd_stats, wp_ret. rewrite decide_True, filter_out_mid by done. split_and!; try done.
    apply (registry_drv_unlink s _ l l1 d l2 y); cbn; rewrite ?Hlast; try done.
    + intros a. destruct (decide (a = d)) as [->|]; [by rewrite lookup_insert_eq, Hy|].
      rewrite lookup_insert_ne by done. destruct (decide (a = b)) as [->|]; [by rewrite lookup_insert_eq, Hz|].
      by rewrite lookup_insert_ne.
    + intros a w Ha Hw. rewrite lookup_insert_ne by done. destruct (decide (a = b)) as [->|].
      * rewrite lookup_insert_eq, decide_True by done. eauto.
      * rewrite lookup_insert_ne, decide_False by congruence. eauto.
  - apply wp_bind, wp_upd_mgr. apply wp_bind, (wp_upd_drv _ _ y); [done|].
    apply wp_bind, wp_upd_stats, wp_ret. rewrite decide_True, filter_out_mid by done. split_and!; try done.
    apply (registry_drv_unlink s _ l l1 d l2 y); cbn; rewrite ?Hlast; try done.
    + intros a. destruct (decide (a = d)) as [->|]; [by rewrite lookup_insert_eq, Hy|].
      by rewrite lookup_insert_ne.
    + intros a w Ha Hw. rewrite lookup_insert_ne by done. eauto.
Qed.

Lemma device_init_spec s l dl :
  registry s l dl →
  wp device_init (λ r s', r = 0 ∧ dm_initialized (mgr s') = true ∧
    registry s' l (if dm_initialized (mgr s) then dl else [])) s.
Proof.
  intros Hrg. unfold device_init. apply wp_bind, wp_gets.
  destruct (dm_initialized (mgr s)) eqn:Hi; [by apply wp_ret|].
  apply wp_bind, wp_upd_mgr, wp_bind, wp_upd_mgr, wp_ret. split_and!; [done..|].
  destruct Hrg. rewrite (rg_init0 Hi) in *. split; cbn -[list_filter]; try done.
  - intros t Ht. change ([0; 0; 0; 0; 0; 0; 0; 0; 0; 0; 0; 0; 0; 0; 0]) with (replicate 15 0).
    rewrite lookup_replicate_2; [done|]. unfold DEVICE_TYPE_MAX in Ht. lia.
  - set_solver.
Qed.

(** *** Shutdown *)
Lemma linked_head {X} (nxt : X → Z) m a l : linked nxt m a l → a = hd 0 l.
Proof. destruct l; [done|]. by intros [-> _]. Qed.

Lemma shutdown_devices_spec s l dl fuel :
  registry s l dl → dm_initialized (mgr s) = true → (length l < fuel)%nat →
  wp (shutdown_devices fuel (hd 0 l))
     (λ _ s', registry s' [] dl ∧ dm_initialized (mgr s') = true) s.
Proof.
  revert s fuel. induction l as [|d l IH]; intros s fuel Hrg Hi Hf;
    (destruct fuel as [|fuel]; [simpl in Hf; lia|]); cbn [shutdown_devices hd].
  { by apply wp_ret. }
  destruct (rg_list _ _ _ Hrg) as (_ & Hd0 & x & Hx & Hl). rewrite (proj2 (Z.eqb_neq d 0)) by done.
  apply wp_bind, (wp_ld_dev _ x); [done|]. cbv zeta. apply wp_bind. eapply wp_mono.
  { apply (steady_stop d None). split_and!; [done|apply Hrg|done]. }
  intros ? s1 Hs1. pose proof (registry_same _ _ _ _ Hrg Hs1) as Hrg1.
  assert (dm_initialized (mgr s1) = true) as Hi1.
  { destruct Hs1 as (Hm & _). unfold mgr_core in Hm. congruence. }
  apply wp_bind. eapply wp_mono; [apply (unregister_spec s1 (d :: l) dl d Hrg1)|].
  { right. destruct Hs1 as (_ & Hv & _). by eapply core_eq_is_Some. }
  intros r s2 (Hrg2 & Hr & Hi2). assert (r = 0) as -> by (apply Hr; split; [done|by left]).
  assert (d ∉ l) as Hdl by (by pose proof (rg_nodup _ _ _ Hrg) as [? _]%NoDup_cons).
  rewrite decide_True in Hrg2 by done.
  pose proof (filter_out_mid d [] l ltac:(set_solver) Hdl) as Hfl. cbn [app] in Hfl. rewrite Hfl in Hrg2.
  rewrite (linked_head _ _ _ _ Hl). apply IH; [done|congruence|simpl in Hf; lia].
Qed.

(** Drivers that are still referenced stay on the list. *)
Lemma shutdown_drivers_spec s l kept rest fuel :
  registry s l (kept ++ rest) → (length rest < fuel)%nat →
  wp (shutdown_drivers fuel (hd 0 rest))
     (λ _ s', ∃ dl', registry s' l dl' ∧ dl' ⊆ kept ++ rest) s.
Proof.
  revert s kept fuel. induction rest as [|d rest IH]; intros s kept fuel Hrg Hf;
    (destruct fuel as [|fuel]; [simpl in Hf; lia|]); cbn [shutdown_drivers hd].
  { apply wp_ret. by exists (kept ++ []). }
  pose proof (rg_drivers _ _ _ Hrg) as Hl. apply lseg_app in Hl as (a & _ & -> & Hd0 & y & Hy & Hl).
  rewrite (proj2 (Z.eqb_neq d 0)) by done. apply wp_bind, (wp_ld_drv _ y); [done|]. cbv zeta.
  apply wp_bind. eapply wp_mono; [by apply (driver_unregister_spec s l _ d Hrg); right|].
  intros r s1 (Hrg1 & _ & _ & Hsame). rewrite (linked_head _ _ _ _ Hl). cbv beta.
  pose proof (rg_dnodup _ _ _ Hrg) as (_ & Hdis & [Hd2 _]%NoDup_cons)%NoDup_app.
  destruct (decide (r = 0)) as [->|Hr].
  - rewrite filter_out_mid in Hrg1; [|intros Hin; apply (Hdis d Hin); by left|done].
    eapply wp_mono; [apply (IH s1 kept fuel Hrg1); simpl in Hf; lia|].
    intros _ s' (dl' & ? & ?). exists dl'. split; [done|]. set_solver.
  - rewrite Hsame by done. replace (kept ++ d :: rest) with ((kept ++ [d]) ++ rest) in Hrg |- * by by rewrite <- app_assoc.
    apply (IH s _ fuel Hrg). simpl in Hf. lia.
Qed.

Lemma device_shutdown_spec s l dl :
  registry s l dl →
  wp device_shutdown (λ _ s', dm_initialized (mgr s') = false ∧
    ∃ dl', registry s' [] dl' ∧ dl' ⊆ dl) s.
Proof.
  intros Hrg. unfold device_shutdown. apply wp_bind, wp_get.
  destruct (dm_initialized (mgr s)) eqn:Hi; cbn [negb].
  2:{ apply wp_ret. split; [done|]. exists dl. by rewrite <- (rg_init _ _ _ Hrg Hi). }
  apply wp_bind. rewrite (linked_head _ _ _ _ (rg_list _ _ _ Hrg)).
  eapply wp_mono; [apply (shutdown_devices_spec s l dl); [done..|]|].
  { pose proof (linked_length _ _ _ _ (rg_list _ _ _ Hrg) (rg_nodup _ _ _ Hrg)). unfold dev_fuel. lia. }
  intros _ s1 [Hrg1 _]. apply wp_bind, wp_get, wp_bind.
  rewrite (linked_head _ _ _ _ (rg_drivers _ _ _ Hrg1)).
  eapply wp_mono; [apply (shutdown_drivers_spec s1 [] [] dl); [done|]|].
  { pose proof (linked_length _ _ _ _ (rg_drivers _ _ _ Hrg1) (rg_dnodup _ _ _ Hrg1)). unfold drv_fuel. lia. }
  intros _ s2 (dl' & Hrg2 & Hsub). apply wp_upd_mgr. split; [done|]. exists dl'. split; [|done].
  destruct Hrg2. by split.
Qed.
End registry_ops.

(** ** Clients of the framework *)
Inductive dev_op :=
  | OpInit | OpShutdown
  | OpDriverRegister (d : Z) | OpDriverUnregister (d : Z)
  | OpRegister (d : Z) | OpUnregister (d : Z)
  | OpStart (d : Z) | OpStop (d : Z) | OpReset (d : Z) | OpSuspend (d : Z) | OpResume (d : Z)
  | OpSubmit (d r : Z) | OpIoctl (d cmd arg : Z)
  | OpSetState (d state : Z) | OpInterrupt (d vector : Z)
  | OpGetStats (d : Z) | OpResetStats (d : Z).

Section clients.
Context {A : Type} `{KA : KAlloc A} `{!Errno} `{!DriverEnv A} `{!Polite A} `{!ErrnoLaws}.
Implicit Types s : dstate A.

(** Running an operation; one that returns nothing gives 0. *)
Definition run_op (o : dev_op) : prog (dstate A) Z :=
  match o with
  | OpInit => device_init
  | OpShutdown => device_shutdown ;;; ret 0
  | OpDriverRegister d => device_driver_register d
  | OpDriverUnregister d => device_driver_unregister d
  | OpRegister d => device_register d
  | OpUnregister d => device_unregister d
  | OpStart d => device_start d
  | OpStop d => device_stop d
  | OpReset d => device_reset d
  | OpSuspend d => device_suspend d
  | OpResume d => device_resume d
  | OpSubmit d r => device_submit_request d r
  | OpIoctl d cmd arg => device_ioctl d cmd arg
  | OpSetState d state => device_set_state d state ;;; ret 0
  | OpInterrupt d vector => device_handle_interrupt d vector ;;; ret 0
  | OpGetStats d => device_get_stats d ;;; ret 0
  | OpResetStats d => device_reset_stats d ;;; ret 0
  end.

Definition dev_arg (s : dstate A) (d : Z) : Prop := d = 0 ∨ is_Some (devs s !! d).
Definition drv_arg (s : dstate A) (d : Z) : Prop := d = 0 ∨ is_Some (drvs s !! d).
Definition req_arg (s : dstate A) (r : Z) : Prop := r = 0 ∨ is_Some (reqs s !! r).

(** The pointers passed are NULL or point to a live record. *)
Definition op_args (s : dstate A) (o : dev_op) : Prop :=
  match o with
  | OpInit | OpShutdown => True
  | OpDriverRegister d | OpDriverUnregister d => drv_arg s d
  | OpSubmit d r => dev_arg s d ∧ req_arg s r
  | OpRegister d | OpUnregister d | OpStart d | OpStop d | OpReset d | OpSuspend d | OpResume d
  | OpIoctl d _ _ | OpSetState d _ | OpInterrupt d _ | OpGetStats d | OpResetStats d => dev_arg s d
  end.

(** The abstract registry: the devices, the drivers, newest first, and whether
    the framework is up.  [reg_step o r a a']: the operation [o] with the result
    [r] takes the registry [a] to [a']. *)
Definition areg : Type := list Z * list Z * bool.
Definition reg_step (o : dev_op) (r : Z) (a a' : areg) : Prop :=
  let '(l, dl, up) := a in
  match o with
  | OpInit => r = 0 ∧ a' = (l, if up then dl else [], true)
  | OpShutdown => ∃ dl', dl' ⊆ dl ∧ a' = ([], dl', false)
  | OpDriverRegister d => a' = (l, if decide (r = 0) then d :: dl else dl, up)
  | OpDriverUnregister d => a' = (l, if decide (r = 0) then filter (λ e, e ≠ d) dl else dl, up)
  | OpRegister d => a' = (if decide (r = 0) then d :: l else l, dl, up)
  | OpUnregister d =>
      (r = 0 ↔ up = true ∧ d ∈ l) ∧ a' = (if decide (r = 0) then filter (λ e, e ≠ d) l else l, dl, up)
  | _ => a' = a
  end.

Definition represents (s : dstate A) (a : areg) : Prop :=
  let '(l, dl, up) := a in registry s l dl ∧ dm_initialized (mgr s) = up.

Lemma run_steady {X} s a d ro (m : prog (dstate A) X) :
  represents s a → steady d ro m → ready d ro s → wp m (λ _ s', represents s' a) s.
Proof.
  intros Hrep Hm Hs. eapply wp_mono; [by apply Hm|]. intros x s' Hss.
  destruct a as [[l dl] up], Hrep as [Hrg <-]. split; [by eapply registry_same|].
  destruct Hss as (Hmg & _). unfold mgr_core in Hmg. congruence.
Qed.

(** The operations that act on one device. *)
Lemma run_on_device {X} s a d (m : prog (dstate A) X) :
  represents s a → dev_arg s d → (d = 0 → wp m (λ _ s', s' = s) s) → steady d None m →
  wp m (λ _ s', represents s' a) s.
Proof.
  intros Hrep Hd Hnull Hm. destruct (decide (d = 0)) as [Hd0|Hd0].
  - eapply wp_mono; [by apply Hnull|]. by intros ? ? ->.
  - destruct Hd as [?|Hd]; [done|]. apply (run_steady s a d None); [done..|]. split_and!; [done| |done].
    destruct a as [[l dl] up]. apply (rg_closed _ _ _ (proj1 Hrep)).
Qed.

Lemma run_op_spec s a o :
  represents s a → op_args s o →
  wp (run_op o) (λ r s', ∃ a', reg_step o r a a' ∧ represents s' a') s.
Proof.
  intros Hrep Hargs. pose proof Hrep as Hrep0. destruct a as [[l dl] up], Hrep0 as [Hrg Hup].
  assert (∀ d (m : prog (dstate A) Z), dev_arg s d → (d = 0 → wp m (λ _ s', s' = s) s) → steady d None m →
    wp m (λ _ s', ∃ a', a' = (l, dl, up) ∧ represents s' a') s) as Hone.
  { intros d m Hd Hd0 Hm. eapply wp_mono; [by eapply run_on_device|]. intros ? s' ?. by eexists. }
  assert (∀ d (m : prog (dstate A) ()), dev_arg s d → (d = 0 → wp m (λ _ s', s' = s) s) → steady d None m →
    wp (m ;;; ret 0) (λ _ s', ∃ a', a' = (l, dl, up) ∧ represents s' a') s) as Hone'.
  { intros d m Hd Hd0 Hm. apply (Hone d); [done| |].
    - intros Hz. apply wp_bind. eapply wp_mono; [by apply Hd0|]. by intros ? ? ->.
    - apply steady_bind; [done|]. intros. apply steady_ret. }
  destruct o; cbn [run_op op_args reg_step] in *.
  - eapply wp_mono; [by apply device_init_spec|]. intros r s' (-> & Hi & Hrg'). rewrite Hup in Hrg'. by eexists.
  - apply wp_bind. eapply wp_mono; [by apply (device_shutdown_spec s l dl)|].
    intros _ s' (Hi & dl' & Hrg' & Hsub). apply wp_ret. exists ([], dl', false). split; [by exists dl'|done].
  - eapply wp_mono; [by apply (driver_register_spec s l dl)|]. intros r s' (Hrg' & Hi & _).
    eexists. split; [done|]. split; [done|congruence].
  - eapply wp_mono; [by apply (driver_unregister_spec s l dl)|]. intros r s' (Hrg' & _ & Hi & _).
    eexists. split; [done|]. split; [done|congruence].
  - eapply wp_mono; [by apply (device_register_spec s l dl)|]. intros r s' [Hrg' Hi].
    eexists. split; [done|]. split; [done|congruence].
  - eapply wp_mono; [by apply (unregister_spec s l dl)|]. intros r s' (Hrg' & Hr & Hi).
    rewrite Hup in Hr, Hi. eexists. split; [by split|]. by split.
  - apply (Hone d); [done|by intros ->|apply steady_start].
  - apply (Hone d); [done|by intros ->|apply steady_stop].
  - apply (Hone d); [done|by intros ->|apply steady_reset].
  - apply (Hone d); [done|by intros ->|apply steady_suspend].
  - apply (Hone d); [done|by intros ->|apply steady_resume].
  - destruct Hargs as [Hd Hr]. destruct (decide (d = 0 ∨ r = 0)) as [Hz|Hz].
    + unfold device_submit_request.
      replace ((d =? 0) || (r =? 0)) with true by (destruct Hz as [->| ->]; by rewrite ?orb_true_r).
      apply wp_ret. by eexists.
    + destruct Hd as [?|Hd], Hr as [?|Hr]; try tauto. eapply wp_mono.
      * apply (run_steady s (l, dl, up) d (Some r)); [done|apply steady_submit|].
        split_and!; [done|apply Hrg|]. by intros ? [= <-].
      * intros ? s' ?. by eexists.
  - apply (Hone d); [done|by intros ->|apply steady_ioctl].
  - apply (Hone' d); [done|by intros ->|apply steady_set_state].
  - apply (Hone' d); [done|by intros ->|apply steady_handle_interrupt].
  - apply (Hone d); [done|by intros ->|]. apply steady_bind; [apply steady_get_stats|intros; apply steady_ret].
  - apply (Hone' d); [done|by intros ->|apply steady_reset_stats].
Qed.
End clients.

(** ** Transfers and queue passes

    [device_read], [device_write] and [device_process_requests] follow request pointers that may
    dangle, so they need not return; when they do, the registry is what it was. *)
Section lasting.
Context {A : Type} `{KA : KAlloc A} `{!Errno} `{!DriverEnv A} `{!Polite A} `{!ErrnoLaws}.
Implicit Types s : dstate A.

Definition lasting s s' : Prop := ∀ a, represents s a → represents s' a.

Lemma lasting_same s s' : same s s' → lasting s s'.
Proof.
  intros Hss [[l dl] up] [Hrg <-]. split; [by eapply registry_same|].
  destruct Hss as (Hmg & _). unfold mgr_core in Hmg. congruence.
Qed.

Lemma lasting_reqs s rs :
  (∀ r q, rs !! r = Some q → reqs s !! r = Some q ∨ rq_device q = 0) → lasting s (s <| reqs := rs |>).
Proof.
  intros Hrs [[l dl] up] [[] Hup]. split; [|done]. split; try done. destruct rg_closed0 as [Hc1 Hc2].
  split; [done|]. cbn. intros r q [Hq|?]%Hrs; [by apply (Hc2 r)|by left].
Qed.

(** Some registry. *)
Definition listed s : Prop := ∃ a, represents s a.

(** A state predicate that depends on the registry alone. *)
Context (P : dstate A → Prop) (HP : ∀ s s', P s → lasting s s' → P s') (HPl : ∀ s, P s → listed s).

Lemma lasts {X} (m : prog (dstate A) X) : (∀ s x s', m s = Ok (x, s') → lasting s s') → keeps P m.
Proof. intros Hm s x s' Hs Hrun. by apply (HP s s'), (Hm s x s'). Qed.
Lemma lasts_read {X} (m : prog (dstate A) X) : (∀ s x s', m s = Ok (x, s') → s' = s) → keeps P m.
Proof. intros Hm. apply lasts. intros s x s' ->%Hm. by intros a. Qed.
Lemma lasts_calm {X} (m : prog (dstate A) X) : (∀ s x s', m s = Ok (x, s') → calm s s') → keeps P m.
Proof. intros Hm. apply lasts. intros s x s' Hrun. by eapply lasting_same, calm_same, Hm. Qed.

Lemma lasts_ld_dev d : keeps P (ld_dev d).
Proof. apply lasts_read. intros s x s'. unfold ld_dev. by destruct (devs s !! d); intros [= _ <-]. Qed.
Lemma lasts_ld_req r : keeps P (ld_req r).
Proof. apply lasts_read. intros s x s'. unfold ld_req. by destruct (reqs s !! r); intros [= _ <-]. Qed.
Lemma lasts_upd_dev d f : (∀ x, dev_core (f x) = dev_core x) → keeps P (upd_dev d f).
Proof.
  intros Hf. apply lasts. intros s x s'. unfold upd_dev. destruct (devs s !! d) as [y|] eqn:Hy; [|done].
  intros [= _ <-]. by apply lasting_same, (same_upd_dev d y).
Qed.
Lemma lasts_upd_req r f : (∀ q, rq_device (f q) = rq_device q) → keeps P (upd_req r f).
Proof.
  intros Hf. apply lasts. intros s x s'. unfold upd_req. destruct (reqs s !! r) as [q|] eqn:Hq; [|done].
  intros [= _ <-] [[l dl] up] [[] Hup]. split; [|done]. split; try done. destruct rg_closed0 as [Hc1 Hc2].
  split; [done|]. cbn. intros r' q' [[<- <-]|[_ Hq']]%lookup_insert_Some; [|by apply (Hc2 r')].
  rewrite Hf. by apply (Hc2 r).
Qed.
Lemma lasts_upd_mgr f : (∀ m, mgr_core (f m) = mgr_core m) → keeps P (upd_mgr f).
Proof. intros Hf. apply lasts. intros s x s' [= _ <-]. by apply lasting_same, same_mgr. Qed.
Lemma lasts_upd_stats f : (∀ m, stats_core (f m) = stats_core m) → keeps P (upd_stats f).
Proof.
  intros Hf. apply lasts_upd_mgr. intros m. specialize (Hf (dm_stats m)). destruct m.
  unfold mgr_core, stats_core in *. cbn in *. congruence.
Qed.
Lemma lasts_clock : keeps P get_system_time_ms.
Proof.
  apply lasts. intros s x s' [= _ <-]. apply lasting_same.
  split_and!; [done|apply core_eq_refl..|done|done].
Qed.
Lemma lasts_lift {X} (m : prog A X) : keeps P (lift_dalloc m).
Proof.
  apply lasts. intros s x s'. unfold lift_dalloc. destruct (m (dalloc s)) as [[? ?]| | |]; [|done..].
  intros [= _ <-]. apply lasting_same. split_and!; [done|apply core_eq_refl..|done|done].
Qed.

#[local] Hint Resolve lasts_ld_dev lasts_ld_req lasts_clock lasts_lift : keeps.
Ltac linger :=
  repeat lazymatch goal with
  | |- keeps _ (bind _ _) => apply keeps_bind; [|intros ?]
  | |- keeps _ (when _ _) => apply keeps_when
  | |- keeps _ (if _ then _ else _) => apply keeps_if
  | |- keeps _ (match ?c with Some _ => _ | None => _ end) => destruct c
  | |- keeps _ (upd_dstats _ _) => apply lasts_upd_dev; intros ?; reflexivity
  | |- keeps _ (upd_dev _ _) => apply lasts_upd_dev; intros ?; reflexivity
  | |- keeps _ (upd_req _ _) => apply lasts_upd_req; intros ?; reflexivity
  | |- keeps _ (upd_stats _) => apply lasts_upd_stats; intros ?; first [reflexivity | by case_if]
  | |- keeps _ (call_done _ _) => apply lasts_calm; intros ? ? ?; apply modest_done
  | |- keeps _ _ => solve [auto 3 with keeps]
  end.

Lemma lasts_complete r st : keeps P (complete_request r st).
Proof. unfold complete_request, update_device_stats. linger. Qed.
#[local] Hint Resolve lasts_complete : keeps.
Lemma lasts_process_queue fuel d c : keeps P (process_queue fuel d c).
Proof. revert c. induction fuel; intros c; cbn [process_queue]; unfold ld_req_link, st_req_link; linger; auto. Qed.
#[local] Hint Resolve lasts_process_queue : keeps.
Lemma lasts_process_devices fuel d : keeps P (process_devices fuel d).
Proof. revert d. induction fuel; intros d; cbn [process_devices]; linger; auto. Qed.
Lemma lasts_process : keeps P device_process_requests.
Proof. unfold device_process_requests. apply keeps_bind; [apply keeps_get|intros; apply lasts_process_devices]. Qed.

Lemma lasts_submit d r : keeps P (device_submit_request d r).
Proof.
  intros s x s' Hs Hrun. destruct (HPl s Hs) as [a Ha]. apply (HP s); [done|].
  pose proof Hrun as Hrun0. unfold device_submit_request in Hrun.
  destruct (Z.eqb_spec d 0) as [->|Hd]; [injection Hrun as _ <-; by intros ?|].
  destruct (Z.eqb_spec r 0) as [->|Hr]; [injection Hrun as _ <-; by intros ?|]. cbn [orb] in Hrun.
  unfold bind at 1, ld_dev at 1 in Hrun. destruct (devs s !! d) as [y|] eqn:Hy; [|done].
  destruct (reqs s !! r) as [q|] eqn:Hq.
  - pose proof (steady_submit d r s) as Hsub. destruct a as [[l dl] up].
    assert (ready d (Some r) s) as Hready.
    { split_and!; [by eauto|apply (rg_closed _ _ _ (proj1 Ha))|intros ? [= <-]; eauto]. }
    specialize (Hsub Hready). unfold wp in Hsub. rewrite Hrun0 in Hsub. by apply lasting_same.
  - destruct (dv_registered y); cbn [negb] in Hrun; [|injection Hrun as _ <-; by intros ?].
    destruct (dv_state y =? DEVICE_STATE_READY); cbn [negb] in Hrun; [|injection Hrun as _ <-; by intros ?].
    unfold bind at 1, gets in Hrun. unfold bind at 1, upd_req at 1 in Hrun. by rewrite Hq in Hrun.
Qed.

Lemma lasts_transfer ty arrivals d off buf n :
  Forall (keeps P) arrivals → keeps P (device_transfer ty arrivals d off buf n).
Proof.
  intros Harr. assert (∀ r, keeps P (wait_request arrivals r)) as Hwait.
  { intros r. induction Harr as [|m l Hm _ IH]; cbn [wait_request]; linger; auto. }
  assert (∀ r, keeps P (modify (λ s, s <| reqs := <[r := zero_request]> (reqs s) |>))) as Hnew.
  { intros r. apply lasts. intros s [] s' [= <-]. apply lasting_reqs.
    intros r' q [[<- <-]|[_ Hq]]%lookup_insert_Some; [by right|by left]. }
  assert (∀ r, keeps P (modify (λ s, s <| reqs := delete r (reqs s) |>))) as Hdel.
  { intros r. apply lasts. intros s [] s' [= <-]. apply lasting_reqs. intros r' q [_ Hq]%lookup_delete_Some. by left. }
  unfold device_transfer, device_create_request, device_free_request. linger; auto using lasts_submit.
Qed.
End lasting.

(** ** Properties *)
Section properties.
Context {A : Type} `{KA : KAlloc A} `{!Errno} `{!DriverEnv A} `{!Polite A} `{!ErrnoLaws}.
Implicit Types s : dstate A.

(** The static [device_manager] before [device_init], and devices nobody registered. *)
Definition cold s : Prop :=
  mgr s = zero_manager ∧ closed s ∧
  ∀ d x, devs s !! d = Some x → dv_registered x = false ∧ 0 ≤ dv_type x.

(** A step: a call of [dev_op] with NULL or live pointers, a pass over the pending requests, or a
    synchronous transfer that returns; [arrivals], what runs while the transfer waits, leaves
    the framework with a registry. *)
Inductive dev_step : dstate A → dstate A → Prop :=
  | dev_call o r s s' : op_args s o → run_op o s = Ok (r, s') → dev_step s s'
  | dev_pass s s' : device_process_requests s = Ok ((), s') → dev_step s s'
  | dev_read arrivals d off buf n r s s' :
      Forall (keeps listed) arrivals → device_read arrivals d off buf n s = Ok (r, s') → dev_step s s'
  | dev_write arrivals d off buf n r s s' :
      Forall (keeps listed) arrivals → device_write arrivals d off buf n s = Ok (r, s') → dev_step s s'.

Lemma listed_lasting s s' : listed s → lasting s s' → listed s'.
Proof. intros [a Ha] Hl. exists a. by apply Hl. Qed.

Lemma dev_step_listed s s' : dev_step s s' → listed s → listed s'.
Proof.
  intros Hstep Hl. destruct Hstep as [o r s s' Hargs Hr|s s' Hr|arr d off buf n r s s' Harr Hr|arr d off buf n r s s' Harr Hr].
  - destruct Hl as [a Ha]. destruct (proj1 (wp_run _ _ _) (run_op_spec s a o Ha Hargs)) as (r' & s1 & Hr' & a' & _ & Ha').
    rewrite Hr in Hr'. injection Hr' as _ <-. by exists a'.
  - by apply (lasts_process listed listed_lasting s () s').
  - by apply (lasts_transfer listed listed_lasting (λ _ H, H) DEVICE_IO_READ arr d off buf n Harr s r s').
  - by apply (lasts_transfer listed listed_lasting (λ _ H, H) DEVICE_IO_WRITE arr d off buf n Harr s r s').
Qed.

Lemma cold_registry s : cold s → represents s ([], [], false).
Proof.
  intros (Hm & Hc & Hd). split; [|by rewrite Hm]. split; rewrite ?Hm; try done.
  - constructor.
  - intros d x Hx. destruct (Hd d x Hx) as [-> _]. set_solver.
  - intros d x Hx. split; [by apply (Hd d)|set_solver].
  - intros t Ht. cbn [zero_manager dm_stats ms_devices_by_type].
    rewrite lookup_replicate_2; [done|]. unfold DEVICE_TYPE_MAX in Ht. lia.
  - constructor.
  - set_solver.
Qed.

(** C3: Clients start from a cold start and make, in any order, the seventeen calls of [dev_op]
    (initialization, shutdown, registrations, life-cycle calls, requests, interrupts, statistics) with
    NULL or live pointers, whatever the drivers' entry points return, and also reads, writes and passes
    over the pending requests that return.  In every state reached, the two linked lists, the
    [registered] flags, the device counts (in total and by type) and the active-driver count agree;
    each call of [dev_op] returns, without fault or endless loop, and changes the lists exactly as
    the abstract registry does: a successful registration adds one element in front, a successful
    unregistration removes that element, shutdown empties the device list, and nothing else changes
    them.  A queue pass or a transfer that returns leaves the lists as they are, if the code that runs
    while the transfer waits does; that these three always return is not claimed:
    [device_transfer_leaves_dangling] shows a queue pass that faults. *)
Theorem device_framework_refines s0 s :
  cold s0 → rtc dev_step s0 s →
  ∃ a, represents s a ∧
    (∀ o, op_args s o → ∃ r s' a', run_op o s = Ok (r, s') ∧ reg_step o r a a' ∧ represents s' a') ∧
    (∀ s', device_process_requests s = Ok ((), s') → represents s' a) ∧
    (∀ arrivals d off buf n r s', Forall (keeps (λ s, represents s a)) arrivals →
       device_read arrivals d off buf n s = Ok (r, s') ∨ device_write arrivals d off buf n s = Ok (r, s') →
       represents s' a).
Proof.
  intros Hcold%cold_registry Hrun. assert (listed s) as [a Ha].
  { assert (listed s0) as Hl by (by eexists). clear Hcold.
    induction Hrun as [|s1 s2 s3 Hstep _ IH]; [done|]. by apply IH, (dev_step_listed s1). }
  assert (∀ s s', represents s a → lasting s s' → represents s' a) as HP by (intros s1 s2 H1 Hl; by apply Hl).
  assert (∀ s, represents s a → listed s) as HPl by (intros s1 H1; by exists a).
  exists a. split_and!; [done| | |].
  - intros o Hargs. destruct (proj1 (wp_run _ _ _) (run_op_spec s a o Ha Hargs)) as (r & s' & Hr & a' & Hstep & Ha').
    by exists r, s', a'.
  - intros s' Hr. by apply (lasts_process _ HP s () s').
  - intros arr d off buf n r s' Harr [Hr|Hr].
    + by apply (lasts_transfer _ HP HPl DEVICE_IO_READ arr d off buf n Harr s r s').
    + by apply (lasts_transfer _ HP HPl DEVICE_IO_WRITE arr d off buf n Harr s r s').
Qed.

(** The entry point [op] of [x]'s driver, 0 if there is none. *)
Definition entry s (x : device) (op : device_driver_ops → Z) : Z :=
  if dv_driver x =? 0 then 0 else from_option (λ y, op (dr_ops y)) 0 (drvs s !! dv_driver x).

Lemma driver_op_run s d x op :
  devs s !! d = Some x → closed s → driver_op d op s = Ok (entry s x op, s).
Proof.
  intros Hx [Hc _]. unfold driver_op, entry, bind, ld_dev. rewrite Hx. destruct (dv_driver x =? 0) eqn:E; [done|].
  destruct (Hc d x Hx) as [Hz|[y Hy]]; [by rewrite Hz in E|]. unfold ld_drv. by rewrite Hy.
Qed.

Lemma calm_dev s s' d x :
  calm s s' → devs s !! d = Some x → ∃ x', devs s' !! d = Some x' ∧ but_data x' = but_data x.
Proof. intros (_ & _ & Hd & _) Hx. by apply (core_eq_some but_data (devs s)). Qed.

(** Fields that survive a call of a driver. *)
Lemma but_data_fields x x' :
  but_data x' = but_data x →
  dv_device_id x' = dv_device_id x ∧ dv_state x' = dv_state x ∧ dv_registered x' = dv_registered x ∧
  dv_stats x' = dv_stats x ∧ dv_next x' = dv_next x ∧ dv_driver x' = dv_driver x ∧
  dv_request_queue x' = dv_request_queue x ∧ dv_type x' = dv_type x ∧ dv_capabilities x' = dv_capabilities x.
Proof. destruct x, x'. unfold but_data. cbn. intros. by simplify_eq. Qed.

Lemma find_by_id_head s d x :
  dm_initialized (mgr s) = true → dm_device_list (mgr s) = d → d ≠ 0 → devs s !! d = Some x →
  device_find_by_id (dv_device_id x) s = Ok (d, s).
Proof.
  intros Hi Hl Hd Hx. unfold device_find_by_id, bind, get. rewrite Hi, Hl. cbn [negb dev_fuel find_device].
  rewrite (proj2 (Z.eqb_neq d 0)) by done. unfold bind, ld_dev. rewrite Hx. by rewrite Z.eqb_refl.
Qed.

Lemma init_device_spec s d x :
  devs s !! d = Some x → closed s →
  wp (init_device d) (λ _ s', ∃ x', devs s' !! d = Some x' ∧
     dv_device_id x' = dv_device_id x ∧ dv_stats x' = dv_stats x ∧
     dm_next_device_id (mgr s') = dm_next_device_id (mgr s) ∧
     let st := dm_stats (mgr s) in let st' := dm_stats (mgr s') in
     ((entry s x op_init = 0 ∧ dv_state x' = dv_state x ∧
       ms_active_devices st' = ms_active_devices st ∧ ms_failed_devices st' = ms_failed_devices st) ∨
      (entry s x op_init ≠ 0 ∧ ∃ r s1, call_dev (entry s x op_init) d s = Ok (r, s1) ∧
       ((r = 0 ∧ dv_state x' = DEVICE_STATE_READY ∧
         ms_active_devices st' = u32 (ms_active_devices st + 1) ∧ ms_failed_devices st' = ms_failed_devices st) ∨
        (r ≠ 0 ∧ dv_state x' = DEVICE_STATE_ERROR ∧
         ms_active_devices st' = ms_active_devices st ∧
         ms_failed_devices st' = u32 (ms_failed_devices st + 1)))))) s.
Proof.
  intros Hx Hc. unfold init_device. apply wp_bind. unfold wp at 1. rewrite (driver_op_run s d x) by done.
  destruct (Z.eqb_spec (entry s x op_init) 0) as [E|E].
  { apply wp_ret. exists x. split_and!; [done..|]. by left. }
  destruct (proj1 (wp_run _ _ _) (polite_dev (entry s x op_init) d s ltac:(eauto))) as (r & s1 & Hcall & Hcalm).
  apply wp_bind. unfold wp at 1. rewrite Hcall.
  destruct (calm_dev s s1 d x Hcalm Hx) as (x1 & Hx1 & Hb). apply but_data_fields in Hb as (Hid & Hst & _ & Hsx & _).
  destruct Hcalm as (Hm & _). destruct (Z.eqb_spec r 0); apply wp_bind, (wp_upd_dev _ _ x1); try done; apply wp_upd_stats;
    (eexists; cbn; rewrite lookup_insert_eq, Hm; split_and!; [done|done|done|done|]); cbn;
    right; (split; [done|]); exists r, s1; auto 8.
Qed.

(** C16: [device_register]: without initialization, with an invalid device or with one that is already
    registered it returns the documented error and changes nothing.  Otherwise it returns 0, the device
    gets the next identifier, fresh statistics and a place at the head of the list, where
    [device_find_by_id] finds it; the driver's [init], if there is one, is called once on the listed
    device ([enlist_state]): when it returns 0 the device ends READY and counted as active, when it
    returns anything else it ends ERROR and counted as failed; without [init] it stays INITIALIZING
    and neither count moves. *)
Theorem device_register_correct s l dl d x :
  registry s l dl → d ≠ 0 → devs s !! d = Some x →
  let st := dm_stats (mgr s) in
  let id := dm_next_device_id (mgr s) in
  let valid := dv_type x < DEVICE_TYPE_MAX ∧ di_name (dv_info x) ≠ [] in
  (dm_initialized (mgr s) = false → device_register d s = Ok (- ENOTINIT, s)) ∧
  (dm_initialized (mgr s) = true → ¬ valid → device_register d s = Ok (- EINVAL, s)) ∧
  (dm_initialized (mgr s) = true → valid → dv_registered x = true → device_register d s = Ok (- EEXIST, s)) ∧
  (dm_initialized (mgr s) = true → valid → dv_registered x = false →
   ∃ s' x', device_register d s = Ok (0, s') ∧ registry s' (d :: l) dl ∧ devs s' !! d = Some x' ∧
     dv_device_id x' = id ∧ dm_next_device_id (mgr s') = u32 (id + 1) ∧
     dv_stats x' = zero_device_stats ∧ device_find_by_id id s' = Ok (d, s') ∧
     let st' := dm_stats (mgr s') in
     ((entry s x op_init = 0 ∧ dv_state x' = DEVICE_STATE_INITIALIZING ∧
       ms_active_devices st' = ms_active_devices st ∧ ms_failed_devices st' = ms_failed_devices st) ∨
      (entry s x op_init ≠ 0 ∧
       ∃ r s1, call_dev (entry s x op_init) d (enlist_state s d x) = Ok (r, s1) ∧
       ((r = 0 ∧ dv_state x' = DEVICE_STATE_READY ∧
         ms_active_devices st' = u32 (ms_active_devices st + 1) ∧ ms_failed_devices st' = ms_failed_devices st) ∨
        (r ≠ 0 ∧ dv_state x' = DEVICE_STATE_ERROR ∧
         ms_active_devices st' = ms_active_devices st ∧ ms_failed_devices st' = u32 (ms_failed_devices st + 1)))))).
Proof.
  intros Hrg Hd0 Hx. cbv zeta.
  assert (dv_type x < DEVICE_TYPE_MAX → di_name (dv_info x) ≠ [] → validate_device d s = Ok (0, s)) as Hval.
  { intros Ht Hn. unfold validate_device, bind, ld_dev. rewrite (proj2 (Z.eqb_neq d 0)), Hx by done.
    rewrite (proj2 (Z.leb_gt DEVICE_TYPE_MAX (dv_type x))), bool_decide_eq_false_2 by done. done. }
  pose proof (neg_errno _ EINVAL_pos) as Hne.
  split_and!.
  - intros Hi. unfold device_register, bind, gets. by rewrite Hi.
  - intros Hi Hv. unfold device_register, bind, gets. rewrite Hi. cbn [negb].
    assert (validate_device d s = Ok (- EINVAL, s)) as ->.
    { unfold validate_device, bind, ld_dev. rewrite (proj2 (Z.eqb_neq d 0)), Hx by done.
      destruct (Z.leb_spec DEVICE_TYPE_MAX (dv_type x)); [done|].
      destruct (bool_decide_reflect (di_name (dv_info x) = [])); [done|]. by destruct Hv. }
    by rewrite (proj2 (Z.eqb_neq _ 0)).
  - intros Hi [Ht Hn] Hreg. unfold device_register, bind, gets. rewrite Hi. cbn [negb].
    rewrite Hval by done. cbn [Z.eqb negb]. unfold ld_dev. rewrite Hx. by rewrite Hreg.
  - intros Hi [Ht Hn] Hreg.
    assert (0 ≤ dv_type x < DEVICE_TYPE_MAX) as Ht' by (split; [by apply (rg_type s l dl Hrg d x)|done]).
    pose proof (registry_enlist s l dl d x Hrg Hi Hd0 Hx Hreg Ht) as Hrg1.
    destruct (proj1 (wp_run _ _ _) (init_device_spec (enlist_state s d x) d _ (lookup_insert_eq _ _ _)
      (rg_closed _ _ _ Hrg1))) as ([] & s' & Hrun & x' & Hx' & Hid & Hsx & Hnext & Hst).
    assert (device_register d s = Ok (0, s')) as Hr.
    { unfold device_register, bind, gets. rewrite Hi. cbn [negb]. rewrite Hval by done.
      cbn [Z.eqb negb]. unfold ld_dev. rewrite Hx, Hreg, (enlist_run s d x) by done. by rewrite Hrun. }
    pose proof (device_register_spec s l dl d Hrg (or_intror (mk_is_Some _ _ Hx))) as Hspec.
    apply wp_run in Hspec as (r & s2 & Hr2 & Hrg2 & Hi2). rewrite Hr in Hr2. injection Hr2 as <- <-.
    rewrite decide_True in Hrg2 by done. exists s', x'. split_and!; [done..| |].
    + change (dv_device_id x' = dm_next_device_id (mgr s)) in Hid. rewrite <- Hid. apply (find_by_id_head s' d x'); [congruence| |done|done].
      by destruct (rg_list _ _ _ Hrg2) as [? _].
    + exact Hst.
Qed.

(** *** Life cycle *)

(** The drivers' entry points succeed. *)
Definition obliging : Prop :=
  ∀ f d s, is_Some (devs s !! d) → wp (call_dev f d) (λ r s', r = 0 ∧ calm s s') s.

(** [s'] is [s] with the device [d] in the state [st], the statistics updated by [g]. *)
Definition moved s s' d (x : device) (st : Z) (g : device_manager_stats → device_manager_stats) : Prop :=
  ∃ x', devs s' !! d = Some x' ∧ dv_state x' = st ∧ dv_registered x' = dv_registered x ∧
    dv_driver x' = dv_driver x ∧ dv_capabilities x' = dv_capabilities x ∧
    drvs s' = drvs s ∧ dm_stats (mgr s') = g (dm_stats (mgr s)) ∧ closed s'.

Lemma moved_after_call s s1 d x st g :
  calm s s1 → devs s !! d = Some x → closed s →
  wp (upd_dev d (λ x, x <| dv_state := st |>) ;;; upd_stats g) (λ _ s', moved s s' d x st g) s1.
Proof.
  intros Hcalm Hx Hc. pose proof (calm_same _ _ Hcalm) as (_ & _ & _ & _ & Hc1).
  destruct (calm_dev s s1 d x Hcalm Hx) as (x1 & Hx1 & Hb).
  apply but_data_fields in Hb as (_ & _ & Hreg & _ & _ & Hdr & _ & _ & Hcap). destruct Hcalm as (Hm & Hdv & _).
  apply wp_bind, (wp_upd_dev _ _ x1); [done|]. apply wp_upd_stats. eexists. cbn.
  rewrite lookup_insert_eq, Hm, Hdv. split_and!; [done..|]. split; cbn.
  - intros e y [[<- <-]|[_ Hy]]%lookup_insert_Some; [by apply (Hc1 Hc) in Hx1|by apply (Hc1 Hc) in Hy].
  - intros r q Hq. apply (Hc1 Hc) in Hq as [?|[y Hy]]; [by left|right].
    apply lookup_insert_is_Some. destruct (decide (d = rq_device q)); eauto.
Qed.

(** A registered device [d] whose driver implements the entry points [ops]. *)
Definition managed s d (x : device) (st : Z) (ops : list (device_driver_ops → Z)) : Prop :=
  d ≠ 0 ∧ devs s !! d = Some x ∧ dv_registered x = true ∧ dv_state x = st ∧ closed s ∧
  Forall (λ op, entry s x op ≠ 0) ops.

Lemma moved_managed s s' d x st g ops st0 :
  moved s s' d x st g → managed s d x st0 ops → ∃ x', managed s' d x' st ops ∧
    dv_capabilities x' = dv_capabilities x ∧ dm_stats (mgr s') = g (dm_stats (mgr s)).
Proof.
  intros (x' & Hx' & Hst & Hreg & Hdr & Hcap & Hdv & Hg & Hc) (Hd & Hx & Hr & _ & _ & Hops).
  exists x'. split_and!; [|done|done]. split_and!; try done; [congruence|].
  eapply Forall_impl; [done|]. intros op. unfold entry. by rewrite Hdr, Hdv.
Qed.

Lemma is_registered_run s d x st ops : managed s d x st ops → is_registered d s = Ok (true, s).
Proof.
  intros (Hd & Hx & Hr & _). unfold is_registered, bind, ld_dev. rewrite (proj2 (Z.eqb_neq d 0)), Hx by done.
  by rewrite Hr.
Qed.

(** The prefix that the life-cycle calls share: the guards, then the driver's entry point. *)
Lemma wp_guarded {X} s d x st ops (k : bool → prog (dstate A) X) Q :
  managed s d x st ops → wp (k true) Q s → wp (r <- is_registered d ;; k r) Q s.
Proof. intros Hm Hk. apply wp_bind. unfold wp at 1. by rewrite (is_registered_run s d x st ops). Qed.
Lemma wp_entry {X} s d x st ops op (k : Z → prog (dstate A) X) Q :
  managed s d x st ops → op ∈ ops → (∀ f, f ≠ 0 → wp (k f) Q s) → wp (f <- driver_op d op ;; k f) Q s.
Proof.
  intros (Hd & Hx & _ & _ & Hc & Hops) Hop Hk. apply wp_bind. unfold wp at 1.
  rewrite (driver_op_run s d x) by done. apply Hk. rewrite Forall_forall in Hops. by apply Hops.
Qed.

Definition suspended_stats (m : device_manager_stats) : device_manager_stats :=
  m <| ms_active_devices := dec_pos (ms_active_devices m) |>
    <| ms_suspended_devices := u32 (ms_suspended_devices m + 1) |>.

Lemma stop_moves s d x ops :
  obliging → managed s d x DEVICE_STATE_READY ops → op_stop ∈ ops →
  wp (device_stop d) (λ r s', r = 0 ∧ moved s s' d x DEVICE_STATE_SUSPENDED suspended_stats) s.
Proof.
  intros Hob Hm Hop. unfold device_stop. apply (wp_guarded s d x DEVICE_STATE_READY ops); [done|]. cbn [negb].
  pose proof Hm as (Hd & Hx & Hr & Hst & Hc & _). apply wp_bind, (wp_ld_dev _ x); [done|]. rewrite Hst. cbn [Z.eqb negb andb DEVICE_STATE_READY].
  apply (wp_entry s d x DEVICE_STATE_READY ops); [done..|]. intros f Hf. rewrite (proj2 (Z.eqb_neq f 0)) by done.
  apply wp_bind. eapply wp_mono; [by apply Hob|]. intros r s1 [-> Hcalm]. cbn [Z.eqb when].
  apply wp_bind. eapply wp_mono; [by apply (moved_after_call s s1 d x)|]. intros ? s' Hmv. by apply wp_ret.
Qed.

Lemma start_moves s d x ops :
  obliging → managed s d x DEVICE_STATE_SUSPENDED ops → op_start ∈ ops →
  wp (device_start d) (λ r s', r = 0 ∧ moved s s' d x DEVICE_STATE_READY
    (λ m, m <| ms_active_devices := u32 (ms_active_devices m + 1) |>)) s.
Proof.
  intros Hob Hm Hop. unfold device_start. apply (wp_guarded s d x DEVICE_STATE_SUSPENDED ops); [done|]. cbn [negb].
  pose proof Hm as (Hd & Hx & Hr & Hst & Hc & _). apply wp_bind, (wp_ld_dev _ x); [done|]. rewrite Hst.
  apply (wp_entry s d x DEVICE_STATE_SUSPENDED ops); [done..|]. intros f Hf. rewrite (proj2 (Z.eqb_neq f 0)) by done.
  apply wp_bind. eapply wp_mono; [by apply Hob|]. intros r s1 [-> Hcalm]. cbn [Z.eqb].
  apply wp_bind. eapply wp_mono; [by apply (moved_after_call s s1 d x)|]. intros ? s' Hmv. by apply wp_ret.
Qed.

Lemma suspend_moves s d x ops :
  obliging → managed s d x DEVICE_STATE_READY ops → op_suspend ∈ ops →
  has_bits (dv_capabilities x) DEVICE_CAP_SUSPEND = true →
  wp (device_suspend d) (λ r s', r = 0 ∧ moved s s' d x DEVICE_STATE_SUSPENDED suspended_stats) s.
Proof.
  intros Hob Hm Hop Hcap. unfold device_suspend. apply (wp_guarded s d x DEVICE_STATE_READY ops); [done|]. cbn [negb].
  pose proof Hm as (Hd & Hx & Hr & Hst & Hc & _). apply wp_bind, (wp_ld_dev _ x); [done|]. rewrite Hst, Hcap.
  apply (wp_entry s d x DEVICE_STATE_READY ops); [done..|]. intros f Hf. rewrite (proj2 (Z.eqb_neq f 0)) by done.
  apply wp_bind. eapply wp_mono; [by apply Hob|]. intros r s1 [-> Hcalm]. cbn [Z.eqb when].
  apply wp_bind. eapply wp_mono; [by apply (moved_after_call s s1 d x)|]. intros ? s' Hmv. by apply wp_ret.
Qed.

Lemma resume_moves s d x ops :
  obliging → managed s d x DEVICE_STATE_SUSPENDED ops → op_resume ∈ ops →
  wp (device_resume d) (λ r s', r = 0 ∧ moved s s' d x DEVICE_STATE_READY
    (λ m, m <| ms_active_devices := u32 (ms_active_devices m + 1) |>
            <| ms_suspended_devices := dec_pos (ms_suspended_devices m) |>)) s.
Proof.
  intros Hob Hm Hop. unfold device_resume. apply (wp_guarded s d x DEVICE_STATE_SUSPENDED ops); [done|]. cbn [negb].
  pose proof Hm as (Hd & Hx & Hr & Hst & Hc & _). apply wp_bind, (wp_ld_dev _ x); [done|]. rewrite Hst.
  apply (wp_entry s d x DEVICE_STATE_SUSPENDED ops); [done..|]. intros f Hf. rewrite (proj2 (Z.eqb_neq f 0)) by done.
  apply wp_bind. eapply wp_mono; [by apply Hob|]. intros r s1 [-> Hcalm]. cbn [Z.eqb when].
  apply wp_bind. eapply wp_mono; [by apply (moved_after_call s s1 d x)|]. intros ? s' Hmv. by apply wp_ret.
Qed.

Fixpoint times (n : nat) (m : prog (dstate A) Z) : prog (dstate A) () :=
  match n with O => ret () | S n => m ;;; times n m end.

(** A cycle that brings the device back repeats; [g] is what it does to the statistics. *)
Lemma times_spec (m : prog (dstate A) Z) (g : device_manager_stats → device_manager_stats)
    (P : device_manager_stats → Prop) d ops cap n s x :
  (∀ s x, managed s d x DEVICE_STATE_READY ops → dv_capabilities x = cap → P (dm_stats (mgr s)) →
     wp m (λ r s', ∃ x', managed s' d x' DEVICE_STATE_READY ops ∧ dv_capabilities x' = cap ∧
                         dm_stats (mgr s') = g (dm_stats (mgr s))) s) →
  (∀ st, P st → P (g st)) →
  managed s d x DEVICE_STATE_READY ops → dv_capabilities x = cap → P (dm_stats (mgr s)) →
  wp (times n m) (λ _ s', ∃ x', managed s' d x' DEVICE_STATE_READY ops ∧
                          dm_stats (mgr s') = Nat.iter n g (dm_stats (mgr s))) s.
Proof.
  intros Hm HP. revert s x. induction n as [|n IH]; intros s x Hs Hcap Hst; cbn [times].
  - apply wp_ret. by exists x.
  - apply wp_bind. eapply wp_mono; [by apply (Hm s x)|]. intros r s1 (x1 & Hs1 & Hc1 & Hg). cbv beta.
    eapply wp_mono; [apply (IH s1 x1); [done..|rewrite Hg; auto]|].
    intros _ s' (x' & Hs' & Hg'). exists x'. split; [done|]. rewrite Hg', Hg. by rewrite Nat.iter_succ_r.
Qed.

Lemma dec_pos_back a : 0 < a < 2 ^ 32 → u32 (dec_pos a + 1) = a.
Proof. intros Ha. unfold dec_pos. rewrite (proj2 (Z.ltb_lt 0 a)) by lia. rewrite u32_small; lia. Qed.

Lemma suspend_resume_stats m :
  0 < ms_active_devices m < 2 ^ 32 → 0 ≤ ms_suspended_devices m < 2 ^ 32 - 1 →
  (suspended_stats m) <| ms_active_devices := u32 (ms_active_devices (suspended_stats m) + 1) |>
    <| ms_suspended_devices := dec_pos (ms_suspended_devices (suspended_stats m)) |> = m.
Proof.
  destruct m. unfold suspended_stats. cbn. intros Ha Hs. rewrite dec_pos_back by lia.
  rewrite u32_small by lia. unfold dec_pos. rewrite (proj2 (Z.ltb_lt 0 _)) by lia.
  unfold fset. cbn. f_equal. lia.
Qed.

Lemma stop_start_stats m :
  0 < ms_active_devices m < 2 ^ 32 →
  (suspended_stats m) <| ms_active_devices := u32 (ms_active_devices (suspended_stats m) + 1) |> =
  m <| ms_suspended_devices := u32 (ms_suspended_devices m + 1) |>.
Proof. destruct m. unfold suspended_stats. cbn. intros Ha. rewrite dec_pos_back by lia. done. Qed.

Lemma iter_suspended n m :
  0 ≤ ms_suspended_devices m < 2 ^ 32 →
  Nat.iter n (λ m, m <| ms_suspended_devices := u32 (ms_suspended_devices m + 1) |>) m =
  m <| ms_suspended_devices := u32 (ms_suspended_devices m + Z.of_nat n) |>.
Proof.
  intros Hm. induction n as [|n IH].
  - destruct m. cbn in *. rewrite Z.add_0_r, u32_small by lia. done.
  - rewrite Nat.iter_succ, IH. destruct m. cbn -[Z.of_nat]. rewrite u32_add_l.
    unfold fset. cbn -[Z.of_nat]. do 2 f_equal. lia.
Qed.

(** [device_suspend] and [device_resume] are inverse: after any number of cycles a device is READY
    again and the manager's statistics are what they were.  [device_stop] and [device_start] are not:
    the device is READY again and the active count is right, but each cycle leaves one more device
    counted as suspended, since [device_start] never takes the device out of that count. *)
Theorem device_cycles_count s d x n :
  obliging → managed s d x DEVICE_STATE_READY [op_start; op_stop; op_suspend; op_resume] →
  has_bits (dv_capabilities x) DEVICE_CAP_SUSPEND = true →
  let st := dm_stats (mgr s) in
  0 < ms_active_devices st < 2 ^ 32 → 0 ≤ ms_suspended_devices st < 2 ^ 32 - 1 →
  wp (times n (device_suspend d ;;; device_resume d))
     (λ _ s', dm_stats (mgr s') = st ∧ ∃ x', devs s' !! d = Some x' ∧ dv_state x' = DEVICE_STATE_READY) s ∧
  wp (times n (device_stop d ;;; device_start d))
     (λ _ s', dm_stats (mgr s') = st <| ms_suspended_devices := u32 (ms_suspended_devices st + Z.of_nat n) |> ∧
              ∃ x', devs s' !! d = Some x' ∧ dv_state x' = DEVICE_STATE_READY) s.
Proof.
  intros Hob Hm Hcap st Hact Hsus. set (ops := [op_start; op_stop; op_suspend; op_resume]) in *.
  split.
  - eapply wp_mono; [apply (times_spec _ id (λ m, m = st) d ops (dv_capabilities x) n s x); try done|].
    + intros s1 x1 Hm1 Hc1 Hst1. apply wp_bind.
      eapply wp_mono; [apply (suspend_moves s1 d x1 ops); [done..|set_solver|congruence]|].
      intros ? s2 [_ Hmv]. destruct (moved_managed _ _ _ _ _ _ _ _ Hmv Hm1) as (x2 & Hm2 & Hc2 & Hg2). cbv beta.
      eapply wp_mono; [apply (resume_moves s2 d x2 ops); [done..|set_solver]|].
      intros ? s3 [_ Hmv3]. destruct (moved_managed _ _ _ _ _ _ _ _ Hmv3 Hm2) as (x3 & Hm3 & Hc3 & Hg3).
      exists x3. split_and!; [done|congruence|]. rewrite Hg3, Hg2, Hst1. by apply suspend_resume_stats.
    + intros _ s' (x' & (_ & Hx' & _ & Hst' & _) & Hg). split; [|by eauto]. rewrite Hg.
      clear. induction n; done.
  - eapply wp_mono; [apply (times_spec _ (λ m, m <| ms_suspended_devices := u32 (ms_suspended_devices m + 1) |>)
      (λ m, ms_active_devices m = ms_active_devices st) d ops (dv_capabilities x) n s x); try done|].
    + intros s1 x1 Hm1 Hc1 Hst1. apply wp_bind.
      eapply wp_mono; [apply (stop_moves s1 d x1 ops); [done..|set_solver]|].
      intros ? s2 [_ Hmv]. destruct (moved_managed _ _ _ _ _ _ _ _ Hmv Hm1) as (x2 & Hm2 & Hc2 & Hg2). cbv beta.
      eapply wp_mono; [apply (start_moves s2 d x2 ops); [done..|set_solver]|].
      intros ? s3 [_ Hmv3]. destruct (moved_managed _ _ _ _ _ _ _ _ Hmv3 Hm2) as (x3 & Hm3 & Hc3 & Hg3).
      exists x3. split_and!; [done|congruence|]. rewrite Hg3, Hg2. apply stop_start_stats. by rewrite Hst1.
    + intros _ s' (x' & (_ & Hx' & _ & Hst' & _) & Hg). split; [|by eauto]. rewrite Hg. apply iter_suspended. lia.
Qed.

(** *** Statistics of a device *)
Definition stats_ok (m : device_stats) : Prop :=
  ds_requests_total m = u64 (ds_requests_successful m + ds_requests_failed m) ∧
  ds_errors_total m = ds_requests_failed m ∧
  0 ≤ ds_avg_request_time_us m ≤ ds_max_request_time_us m ∧ ds_max_request_time_us m < 2 ^ 32.
Definition all_stats_ok s : Prop := ∀ d x, devs s !! d = Some x → stats_ok (dv_stats x).

Lemma dstats_chain d f1 f2 f3 f4 (f5 f6 : Z → device_stats → device_stats) s :
  (upd_dstats d f1 ;;; upd_dstats d f2 ;;; upd_dstats d f3 ;;; upd_dstats d f4 ;;;
   t <- get_system_time_ms ;; upd_dstats d (f5 t) ;;; upd_dstats d (f6 t)) s =
  (t <- get_system_time_ms ;; upd_dstats d (λ m, f6 t (f5 t (f4 (f3 (f2 (f1 m))))))) s.
Proof.
  destruct s as [m ds drs rs cr al]. unfold bind, upd_dstats, upd_dev, get_system_time_ms. cbn.
  destruct (ds !! d) as [x|] eqn:Hx; [|done]. cbn. do 5 (rewrite lookup_insert_eq; cbn).
  by rewrite !insert_insert_eq.
Qed.

Lemma u64_add_1 a b : u64 (u64 (a + b) + 1) = u64 (a + u64 (b + 1)).
Proof. unfold u64. rewrite Zplus_mod_idemp_l, Zplus_mod_idemp_r. f_equal. lia. Qed.

Lemma keeps_dstats d f : (∀ m, stats_ok m → stats_ok (f m)) → keeps all_stats_ok (upd_dstats (A:=A) d f).
Proof.
  intros Hf s [] s' Hs. unfold upd_dstats, upd_dev. destruct (devs s !! d) as [x|] eqn:Hx; [|done].
  intros [= <-] e y. cbn. intros [[<- <-]|[_ Hy]]%lookup_insert_Some; [|by eapply Hs].
  cbn. apply Hf. by apply (Hs d).
Qed.

(** The counters between [requests_total++] and the count of the result. *)
Definition stats_counting (m : device_stats) : Prop :=
  ds_requests_total m = u64 (u64 (ds_requests_successful m + ds_requests_failed m) + 1) ∧
  ds_errors_total m = ds_requests_failed m ∧
  0 ≤ ds_avg_request_time_us m ≤ ds_max_request_time_us m ∧ ds_max_request_time_us m < 2 ^ 32.

Lemma keeps_chain d f1 f2 f3 f4 (f5 f6 : Z → device_stats → device_stats) (u : Z → Z) :
  (∀ m, stats_ok m → stats_counting (f1 m)) → (∀ m, stats_counting m → stats_counting (f2 m)) →
  (∀ m, stats_counting m → stats_ok (f3 m)) → (∀ m, stats_ok m → stats_ok (f4 m)) →
  (∀ t m, stats_ok m → stats_ok (f5 t m) ∧ u t ≤ ds_max_request_time_us (f5 t m)) →
  (∀ t m, stats_ok m → u t ≤ ds_max_request_time_us m → stats_ok (f6 t m)) →
  keeps all_stats_ok
    (upd_dstats d f1 ;;; upd_dstats d f2 ;;; upd_dstats d f3 ;;; upd_dstats d f4 ;;;
     t <- get_system_time_ms ;; upd_dstats d (f5 t) ;;; upd_dstats d (f6 t)).
Proof.
  intros H1 H2 H3 H4 H5 H6 s [] s' Hs. rewrite dstats_chain.
  apply (keeps_bind all_stats_ok); [|intros t; apply keeps_dstats|done].
  - by intros s1 x s2 Hs1 [= _ <-].
  - intros m Hm. destruct (H5 t (f4 (f3 (f2 (f1 m))))) as [? ?]; [by auto|]. by apply H6.
Qed.

Lemma mean_bound a b u : 0 ≤ a ≤ b → 0 ≤ u ≤ b → 0 ≤ u32 (a + u) / 2 ≤ b.
Proof.
  intros Ha Hb. assert (0 ≤ u32 (a + u) ≤ a + u).
  { split; [apply u32_range|]. unfold u32. apply Z.mod_le; lia. }
  split; [apply Z.div_pos; lia|]. apply Z.div_le_upper_bound; lia.
Qed.

Lemma keeps_update_stats d r : keeps all_stats_ok (update_device_stats d r).
Proof.
  unfold update_device_stats. apply keeps_if; [apply keeps_ret|].
  apply keeps_bind; [intros s x s' Hs; unfold ld_req; by destruct (reqs s !! r); intros [= _ <-]|].
  intros q. cbv zeta. apply (keeps_chain _ _ _ _ _ _ _ (λ t, u32 (u64 (t - rq_timestamp q) * 1000))).
  - intros [] (Ht & He & Ha & Hm). cbn in *. subst. done.
  - intros [] Hm. by repeat case_if.
  - intros [] (Ht & He & Ha & Hm). cbn in *. subst. case_if; (split; [|done]); cbn.
    + rewrite (Z.add_comm _ ds_requests_failed0), (Z.add_comm (u64 _) ds_requests_failed0). apply u64_add_1.
    + apply u64_add_1.
  - intros [] Hm. by case_if.
  - intros t [] (Ht & He & Ha & Hm). cbn in *. pose proof (u32_range (u64 (t - rq_timestamp q) * 1000)).
    case_if; cbn; unfold stats_ok; cbn; lia.
  - intros t [] (Ht & He & Ha & Hm) Hu. cbn in *. pose proof (u32_range (u64 (t - rq_timestamp q) * 1000)).
    case_if; (split; [done|split; [done|]]); cbn; [lia|]. split; [|done]. apply mean_bound; lia.
Qed.

Lemma keeps_read_only {X} (m : prog (dstate A) X) :
  (∀ s x s', m s = Ok (x, s') → devs s' = devs s) → keeps all_stats_ok m.
Proof. intros Hm s x s' Hs Hr d y. rewrite (Hm s x s' Hr). apply Hs. Qed.
Lemma keeps_upd_dev d f :
  (∀ x, stats_ok (dv_stats x) → stats_ok (dv_stats (f x))) → keeps all_stats_ok (upd_dev (A:=A) d f).
Proof.
  intros Hf s [] s' Hs. unfold upd_dev. destruct (devs s !! d) as [x|] eqn:Hx; [|done].
  intros [= <-] e y. cbn. intros [[<- <-]|[_ Hy]]%lookup_insert_Some; [|by eapply Hs].
  apply Hf. by apply (Hs d).
Qed.
Lemma keeps_calm {X} (m : prog (dstate A) X) :
  (∀ s x s', m s = Ok (x, s') → calm s s') → keeps all_stats_ok m.
Proof.
  intros Hm s x s' Hs Hr d y' Hy'. destruct (Hm s x s' Hr) as (_ & _ & Hd & _).
  destruct (core_eq_some_inv but_data (devs s) (devs s') d y' Hd Hy') as (y & Hy & Hb).
  apply but_data_fields in Hb as (_ & _ & _ & -> & _). by apply (Hs d).
Qed.
Lemma keeps_ld_dev d : keeps all_stats_ok (ld_dev (A:=A) d).
Proof. apply keeps_read_only. intros s x s'. unfold ld_dev. by destruct (devs s !! d); intros [= _ <-]. Qed.
Lemma keeps_ld_drv d : keeps all_stats_ok (ld_drv (A:=A) d).
Proof. apply keeps_read_only. intros s x s'. unfold ld_drv. by destruct (drvs s !! d); intros [= _ <-]. Qed.
Lemma keeps_ld_req r : keeps all_stats_ok (ld_req (A:=A) r).
Proof. apply keeps_read_only. intros s x s'. unfold ld_req. by destruct (reqs s !! r); intros [= _ <-]. Qed.
Lemma keeps_upd_drv d f : keeps all_stats_ok (upd_drv (A:=A) d f).
Proof. apply keeps_read_only. intros s x s'. unfold upd_drv. by destruct (drvs s !! d); intros [= _ <-]. Qed.
Lemma keeps_upd_req r f : keeps all_stats_ok (upd_req (A:=A) r f).
Proof. apply keeps_read_only. intros s x s'. unfold upd_req. by destruct (reqs s !! r); intros [= _ <-]. Qed.
Lemma keeps_upd_mgr f : keeps all_stats_ok (upd_mgr (A:=A) f).
Proof. apply keeps_read_only. by intros s x s' [= _ <-]. Qed.
Lemma keeps_upd_stats f : keeps all_stats_ok (upd_stats (A:=A) f).
Proof. apply keeps_upd_mgr. Qed.
Lemma keeps_add_by_type t n : keeps all_stats_ok (add_by_type (A:=A) t n).
Proof. unfold add_by_type. apply keeps_if; [apply keeps_upd_stats|apply keeps_fault]. Qed.
Lemma keeps_time : keeps all_stats_ok get_system_time_ms.
Proof. apply keeps_read_only. by intros s x s' [= _ <-]. Qed.
Lemma keeps_lift {X} (m : prog A X) : keeps all_stats_ok (lift_dalloc m).
Proof.
  apply keeps_read_only. intros s x s'. unfold lift_dalloc.
  by destruct (m (dalloc s)) as [[? ?]| | |]; intros [= _ <-].
Qed.
Lemma keeps_reqs f : keeps all_stats_ok (modify (λ s, s <| reqs := f s |>)).
Proof. apply keeps_read_only. by intros s x s' [= _ <-]. Qed.
Lemma keeps_call_dev f d : keeps all_stats_ok (call_dev f d).
Proof. apply keeps_calm. intros s x s'. apply modest_dev. Qed.
Lemma keeps_call_req f d r : keeps all_stats_ok (call_req f d r).
Proof. apply keeps_calm. intros s x s'. apply modest_req. Qed.
Lemma keeps_call_ioctl f d c a : keeps all_stats_ok (call_ioctl f d c a).
Proof. apply keeps_calm. intros s x s'. apply modest_ioctl. Qed.
Lemma keeps_call_irq f d v : keeps all_stats_ok (call_irq f d v).
Proof. apply keeps_calm. intros s x s'. apply modest_irq. Qed.
Lemma keeps_call_done f r : keeps all_stats_ok (call_done f r).
Proof. apply keeps_calm. intros s x s'. apply modest_done. Qed.

#[local] Hint Resolve keeps_ld_dev keeps_ld_drv keeps_ld_req keeps_upd_drv keeps_upd_req keeps_upd_mgr
  keeps_upd_stats keeps_add_by_type keeps_time keeps_lift keeps_reqs keeps_call_dev keeps_call_req
  keeps_call_ioctl keeps_call_irq keeps_call_done keeps_update_stats : keeps.
Ltac roam :=
  repeat lazymatch goal with
  | |- keeps _ (bind _ _) => apply keeps_bind; [|intros ?]
  | |- keeps _ (when _ _) => apply keeps_when
  | |- keeps _ (if _ then _ else _) => apply keeps_if
  | |- keeps _ (match ?c with Some _ => _ | None => _ end) => destruct c
  | |- keeps _ (upd_dev _ _) => apply keeps_upd_dev; intros ? Hm; first [exact Hm | by destruct (dv_stats _) | repeat split; cbn; lia]
  | |- keeps _ (upd_dstats _ _) => apply keeps_dstats; intros [] ?; first [assumption | done]
  | |- keeps _ _ => solve [auto 3 with keeps]
  end.

Lemma keeps_driver_op d op : keeps all_stats_ok (driver_op (A:=A) d op).
Proof. unfold driver_op. roam. Qed.
Lemma keeps_is_registered d : keeps all_stats_ok (is_registered (A:=A) d).
Proof. unfold is_registered. roam. Qed.
Lemma keeps_touch d : keeps all_stats_ok (touch d).
Proof. unfold touch. roam. Qed.
Lemma keeps_find_link ld fuel c t : (∀ c, keeps all_stats_ok (ld c)) → keeps all_stats_ok (find_link ld fuel c t).
Proof. intros Hld. revert c. induction fuel; intros c; cbn [find_link]; roam; auto. Qed.
Lemma keeps_find_driver fuel name d : keeps all_stats_ok (find_driver (A:=A) fuel name d).
Proof. revert d. induction fuel; intros d; cbn [find_driver]; roam; auto. Qed.
#[local] Hint Resolve keeps_driver_op keeps_is_registered keeps_touch keeps_find_driver : keeps.
Lemma keeps_drv_link c : keeps all_stats_ok (ld_drv_link (A:=A) c).
Proof. unfold ld_drv_link. roam. Qed.
Lemma keeps_dev_link c : keeps all_stats_ok (ld_dev_link (A:=A) c).
Proof. unfold ld_dev_link. roam. Qed.
Lemma keeps_complete r st : keeps all_stats_ok (complete_request r st).
Proof. unfold complete_request. roam. Qed.
Lemma keeps_stop d : keeps all_stats_ok (device_stop d).
Proof. unfold device_stop, enter_suspended. roam. Qed.
#[local] Hint Resolve keeps_find_link keeps_drv_link keeps_dev_link keeps_complete keeps_stop : keeps.
Lemma keeps_driver_unregister d : keeps all_stats_ok (device_driver_unregister (A:=A) d).
Proof. unfold device_driver_unregister, st_drv_link. roam. Qed.
Lemma keeps_unregister d : keeps all_stats_ok (device_unregister d).
Proof. unfold device_unregister, remove_device, unlink_device, st_dev_link. roam. Qed.
Lemma keeps_submit d r : keeps all_stats_ok (device_submit_request d r).
Proof. unfold device_submit_request, dispatch_request. roam. Qed.
#[local] Hint Resolve keeps_driver_unregister keeps_unregister keeps_submit : keeps.
Lemma keeps_shutdown_devices fuel d : keeps all_stats_ok (shutdown_devices fuel d).
Proof. revert d. induction fuel; intros d; cbn [shutdown_devices]; roam; auto. Qed.
Lemma keeps_shutdown_drivers fuel d : keeps all_stats_ok (shutdown_drivers (A:=A) fuel d).
Proof. revert d. induction fuel; intros d; cbn [shutdown_drivers]; roam; auto. Qed.
Lemma keeps_process_queue fuel d c : keeps all_stats_ok (process_queue fuel d c).
Proof. revert c. induction fuel; intros c; cbn [process_queue]; unfold ld_req_link, st_req_link; roam; auto. Qed.
#[local] Hint Resolve keeps_shutdown_devices keeps_shutdown_drivers keeps_process_queue : keeps.
Lemma keeps_process_devices fuel d : keeps all_stats_ok (process_devices fuel d).
Proof. revert d. induction fuel; intros d; cbn [process_devices]; roam; auto. Qed.

Lemma keeps_run_op o : keeps all_stats_ok (run_op o).
Proof.
  destruct o; cbn [run_op]; unfold device_init, device_shutdown, device_driver_register, validate_driver,
    device_driver_find, device_register, validate_device, enlist_device, init_device, device_start,
    device_reset, device_suspend, enter_suspended, device_resume, device_ioctl, device_set_state,
    device_handle_interrupt, device_get_stats, device_reset_stats; roam.
Qed.

(** Reading and writing, [arrivals] being what other code does while the caller waits. *)
Lemma keeps_transfer ty arrivals d off buf n :
  Forall (keeps all_stats_ok) arrivals → keeps all_stats_ok (device_transfer ty arrivals d off buf n).
Proof.
  intros Harr. assert (∀ r, keeps all_stats_ok (wait_request arrivals r)) as Hwait.
  { intros r. induction Harr as [|m l Hm _ IH]; cbn [wait_request]; roam; auto. }
  unfold device_transfer, device_create_request, device_free_request. roam; auto.
Qed.

(** A step of the I/O framework: a client call, a pass over the pending requests, or a synchronous
    transfer during which such steps arrive. *)
Inductive io_prog : prog (dstate A) () → Prop :=
  | io_op o : io_prog (run_op o ;;; ret ())
  | io_process : io_prog device_process_requests
  | io_read arrivals d off buf n :
      (∀ m, m ∈ arrivals → io_prog m) → io_prog (device_read arrivals d off buf n ;;; ret ())
  | io_write arrivals d off buf n :
      (∀ m, m ∈ arrivals → io_prog m) → io_prog (device_write arrivals d off buf n ;;; ret ()).
Definition io_step s s' : Prop := ∃ m, io_prog m ∧ m s = Ok ((), s').

Lemma keeps_io m : io_prog m → keeps all_stats_ok m.
Proof.
  induction 1 as [o| |arr d off buf n _ IH|arr d off buf n _ IH].
  - apply keeps_bind; [apply keeps_run_op|intros; apply keeps_ret].
  - unfold device_process_requests. apply keeps_bind; [apply keeps_get|intros; apply keeps_process_devices].
  - apply keeps_bind; [|intros; apply keeps_ret]. apply keeps_transfer. by apply Forall_forall.
  - apply keeps_bind; [|intros; apply keeps_ret]. apply keeps_transfer. by apply Forall_forall.
Qed.

(** C27: In every run of the framework (client calls, passes over the pending requests, reads and writes
    with other such code running while they wait), for every device the number of accounted requests is
    the number of successful ones plus the number of failed ones (modulo 2^64), the error count is the
    number of failed requests, and the average request time never exceeds the maximum, even where the
    32-bit sum of the moving average wraps around. *)
Theorem device_stats_consistent s s' :
  all_stats_ok s → rtc io_step s s' → all_stats_ok s'.
Proof.
  intros Hs Hrun. induction Hrun as [|s1 s2 s3 (m & Hm & Hr) _ IH]; [done|].
  apply IH. by apply (keeps_io m Hm s1 ()).
Qed.

(** *** Synchronous transfers *)

(** [d]'s queue starts with the live request [r]. *)
Definition queued (d r : Z) s : Prop :=
  (∃ x, devs s !! d = Some x ∧ dv_request_queue x = r) ∧
  ∃ q, reqs s !! r = Some q ∧ rq_callback q = 0.

Lemma keeps_queued_calm {X} d r (m : prog (dstate A) X) :
  (∀ s x s', m s = Ok (x, s') → calm s s') → keeps (queued d r) m.
Proof.
  intros Hm s x s' [(y & Hy & Hq) (q & Hr & Hcb)] Hrun. pose proof (Hm s x s' Hrun) as Hcalm.
  destruct (calm_dev s s' d y Hcalm Hy) as (y' & Hy' & Hb). apply but_data_fields in Hb.
  destruct Hcalm as (_ & _ & _ & Hrq). destruct (core_eq_some but_status _ _ r q Hrq Hr) as (q' & Hq' & Hbq).
  split; [exists y'; split; [done|]; naive_solver congruence|]. exists q'. split; [done|].
  destruct q, q'. unfold but_status in Hbq. cbn in *. by simplify_eq.
Qed.
Lemma keeps_queued_req d r f :
  (∀ q, rq_callback (f q) = rq_callback q) → keeps (queued d r) (upd_req (A:=A) r f).
Proof.
  intros Hf s [] s' [Hd (q & Hr & Hcb)]. unfold upd_req. rewrite Hr. intros [= <-]. split; [done|].
  cbn. exists (f q). rewrite lookup_insert_eq. by rewrite Hf.
Qed.
Lemma keeps_queued_dev d r e f :
  (∀ x, dv_request_queue (f x) = dv_request_queue x) → keeps (queued d r) (upd_dev (A:=A) e f).
Proof.
  intros Hf s [] s' [(y & Hy & Hq) Hr]. unfold upd_dev. destruct (devs s !! e) as [z|] eqn:Hz; [|done].
  intros [= <-]. split; [|done]. cbn. destruct (decide (d = e)) as [->|].
  - exists (f z). rewrite lookup_insert_eq, Hf. split; [done|]. congruence.
  - exists y. by rewrite lookup_insert_ne.
Qed.
Lemma keeps_queued_ro {X} d r (m : prog (dstate A) X) :
  (∀ s x s', m s = Ok (x, s') → devs s' = devs s ∧ reqs s' = reqs s) → keeps (queued d r) m.
Proof. intros Hm s x s' [Hd Hr] Hrun. destruct (Hm s x s' Hrun) as [Hd' Hr']. split; rewrite ?Hd', ?Hr'; done. Qed.
Lemma keeps_queued_ld {X} d r (f : dstate A → option X) :
  keeps (queued d r) (λ s, match f s with Some x => Ok (x, s) | None => Fault end).
Proof. apply keeps_queued_ro. intros s x s'. by destruct (f s); intros [= _ <-]. Qed.
Lemma keeps_queued_mgr d r f : keeps (queued d r) (upd_mgr (A:=A) f).
Proof. apply keeps_queued_ro. by intros s x s' [= _ <-]. Qed.
Lemma keeps_queued_time d r : keeps (queued d r) get_system_time_ms.
Proof. apply keeps_queued_ro. by intros s x s' [= _ <-]. Qed.

#[local] Hint Extern 1 (keeps (queued _ _) (ld_dev ?e)) => apply (keeps_queued_ld _ _ (λ s, devs s !! e)) : keeps.
#[local] Hint Extern 1 (keeps (queued _ _) (ld_drv ?e)) => apply (keeps_queued_ld _ _ (λ s, drvs s !! e)) : keeps.
#[local] Hint Extern 1 (keeps (queued _ _) (ld_req ?e)) => apply (keeps_queued_ld _ _ (λ s, reqs s !! e)) : keeps.
#[local] Hint Resolve keeps_queued_mgr keeps_queued_time : keeps.
Ltac queue_walk :=
  repeat lazymatch goal with
  | |- keeps _ (bind _ _) => apply keeps_bind; [|intros ?]
  | |- keeps _ (when _ _) => apply keeps_when
  | |- keeps _ (if _ then _ else _) => apply keeps_if
  | |- keeps _ (upd_dstats _ _) => apply keeps_queued_dev; intros ?; reflexivity
  | |- keeps _ (upd_dev _ _) => apply keeps_queued_dev; intros ?; reflexivity
  | |- keeps _ (upd_req _ _) => apply keeps_queued_req; intros ?; reflexivity
  | |- keeps _ (upd_stats _) => apply keeps_queued_mgr
  | |- keeps _ (call_dev _ _) => apply keeps_queued_calm; intros ? ? ?; apply modest_dev
  | |- keeps _ (call_req _ _ _) => apply keeps_queued_calm; intros ? ? ?; apply modest_req
  | |- keeps _ (call_ioctl _ _ _ _) => apply keeps_queued_calm; intros ? ? ?; apply modest_ioctl
  | |- keeps _ (call_done _ _) => apply keeps_queued_calm; intros ? ? ?; apply modest_done
  | |- keeps _ _ => solve [auto 3 with keeps]
  end.

Lemma queued_dispatch d r : keeps (queued d r) (dispatch_request d r).
Proof. unfold dispatch_request, driver_op. queue_walk. Qed.
Lemma queued_complete d r st : keeps (queued d r) (complete_request r st).
Proof. unfold complete_request, update_device_stats. queue_walk. Qed.

Lemma bind_inv {X Y} (m : prog (dstate A) X) (k : X → prog (dstate A) Y) s y s' :
  bind m k s = Ok (y, s') → ∃ x s1, m s = Ok (x, s1) ∧ k x s1 = Ok (y, s').
Proof. unfold bind. destruct (m s) as [[x s1]| | |] eqn:E; [|done..]. eauto. Qed.

(** The state in which [device_submit_request] hands the request to the driver. *)
Definition submit_state s d r (x : device) (q : device_io_request) : dstate A :=
  let m := mgr s in
  mk_dstate
    (m <| dm_next_request_id := u32 (dm_next_request_id m + 1) |>
       <| dm_stats := (dm_stats m) <| ms_total_requests := u64 (ms_total_requests (dm_stats m) + 1) |>
                                   <| ms_pending_requests := u64 (ms_pending_requests (dm_stats m) + 1) |> |>)
    (<[d := x <| dv_request_queue := r |>]> (devs s)) (drvs s)
    (<[r := q <| rq_request_id := dm_next_request_id m |> <| rq_device := d |>
              <| rq_status := DEVICE_IO_PENDING |> <| rq_timestamp := u64 (time_at (clock_reads s)) |>
              <| rq_next := dv_request_queue x |>]> (reqs s))
    (clock_reads s + 1) (dalloc s).

Lemma submit_run d r x q s :
  d ≠ 0 → r ≠ 0 → devs s !! d = Some x → dv_registered x = true → dv_state x = DEVICE_STATE_READY →
  reqs s !! r = Some q →
  device_submit_request d r s =
  (result <- dispatch_request d r ;;
   when (negb (result =? 0)) (complete_request r DEVICE_IO_ERROR) ;;; ret result) (submit_state s d r x q).
Proof.
  intros Hd Hr Hx Hreg Hst Hq. destruct s as [m ds drs rs cr al]. cbn in Hx, Hq.
  unfold device_submit_request. rewrite (proj2 (Z.eqb_neq d 0)), (proj2 (Z.eqb_neq r 0)) by done. cbn [orb].
  unfold bind, ld_dev, gets, upd_req, upd_stats, upd_mgr, upd_dev, modify, get_system_time_ms.
  generalize (dispatch_request d r), (complete_request r DEVICE_IO_ERROR). intros k1 k2.
  cbn. rewrite Hx, Hreg, Hst. cbn. rewrite Hq. cbn. do 4 (rewrite ?Hx, ?lookup_insert_eq; cbn).
  rewrite !insert_insert_eq. done.
Qed.

Lemma queued_wait d r arrivals :
  Forall (λ m, ∀ s x s', m s = Ok (x, s') → calm s s') arrivals → keeps (queued d r) (wait_request (A:=A) arrivals r).
Proof.
  induction 1 as [|m l Hm _ IH]; cbn [wait_request]; queue_walk.
  by apply keeps_queued_calm.
Qed.

(** The request structure that [device_create_request] returns. *)
Lemma create_run ty off buf n s r a :
  ka_malloc SIZEOF_REQUEST (dalloc s) = Ok (r, a) → r ≠ 0 →
  ∃ q, rq_callback q = 0 ∧ device_create_request ty off buf n 0 s =
    Ok (r, mk_dstate (mgr s) (devs s) (drvs s) (<[r := q]> (reqs s)) (clock_reads s) a).
Proof.
  intros Hm Hr. destruct s as [m ds drs rs cr al]. cbn in Hm. eexists. split.
  2:{ unfold device_create_request, bind, lift_dalloc. cbn. rewrite Hm. rewrite (proj2 (Z.eqb_neq r 0)) by done.
      unfold modify, upd_req. cbn. rewrite lookup_insert_eq. cbn. rewrite insert_insert_eq. reflexivity. }
  done.
Qed.

Lemma free_run s r (n : Z) s' : r ≠ 0 → (device_free_request r ;;; ret n) s = Ok (n, s') →
  devs s' = devs s ∧ reqs s' = delete r (reqs s) ∧ mgr s' = mgr s.
Proof.
  intros Hr. unfold device_free_request. rewrite (proj2 (Z.eqb_neq r 0)) by done. cbn [negb when].
  unfold bind, lift_dalloc, modify. destruct (ka_free r (dalloc s)) as [[? a]| | |]; [|done..]. by intros [= <-].
Qed.

(** Whatever the outcome of a synchronous read or write that got as far as submitting its request
    (success, a driver error, a missing entry point), the request is freed but stays at the head of the
    device's queue: the next pass over the pending requests dereferences the freed request as soon as it
    comes to this device. *)
Theorem device_transfer_leaves_dangling ty arrivals d off buf n s x r a res s' :
  d ≠ 0 → buf ≠ 0 → n ≠ 0 → devs s !! d = Some x → dv_registered x = true → dv_state x = DEVICE_STATE_READY →
  ka_malloc SIZEOF_REQUEST (dalloc s) = Ok (r, a) → r ≠ 0 →
  Forall (λ m, ∀ s x s', m s = Ok (x, s') → calm s s') arrivals →
  device_transfer ty arrivals d off buf n s = Ok (res, s') →
  (∃ x', devs s' !! d = Some x' ∧ dv_request_queue x' = r) ∧ reqs s' !! r = None ∧
  (∀ fuel, process_queue (S fuel) d None s' = Fault) ∧
  (dm_device_list (mgr s') = d → device_process_requests s' = Fault).
Proof.
  intros Hd Hb Hn Hx Hreg Hst Hal Hr Harr. unfold device_transfer.
  rewrite (proj2 (Z.eqb_neq d 0)), (proj2 (Z.eqb_neq buf 0)), (proj2 (Z.eqb_neq n 0)) by done. cbn [orb].
  destruct (create_run ty off buf n s r a Hal Hr) as (q & Hcb & Hcr).
  intros (r1 & s1 & Hc & Hrun)%bind_inv. rewrite Hcr in Hc. injection Hc as <- <-.
  rewrite (proj2 (Z.eqb_neq r 0)) in Hrun by done.
  apply bind_inv in Hrun as (result & s2 & Hsub & Hrun).
  assert (queued d r s2) as Hq2.
  { rewrite (submit_run d r x q) in Hsub; try done; [|cbn; by rewrite lookup_insert_eq].
    assert (keeps (queued d r) (result <- dispatch_request d r ;;
      when (negb (result =? 0)) (complete_request r DEVICE_IO_ERROR) ;;; ret result)) as Hk.
    { apply keeps_bind; [apply queued_dispatch|]. intros res'.
      apply keeps_bind; [apply keeps_when, queued_complete|intros; apply keeps_ret]. }
    apply (Hk _ _ _) in Hsub; [done|]. split; cbn.
    - eexists. by rewrite lookup_insert_eq.
    - eexists. by rewrite lookup_insert_eq. }
  assert (∃ s3, queued d r s3 ∧ devs s' = devs s3 ∧ reqs s' = delete r (reqs s3) ∧ mgr s' = mgr s3)
    as (s3 & [(x' & Hx' & Hqx) _] & Hdv & Hrq & Hmg).
  { destruct (result =? 0); cbn [negb] in Hrun.
    - apply bind_inv in Hrun as (? & s3 & Hw & Hrun).
      pose proof (queued_wait d r arrivals Harr s2 _ s3 Hq2 Hw) as Hq3.
      apply bind_inv in Hrun as (q' & s4 & Hld & Hrun). unfold ld_req in Hld.
      destruct (reqs s3 !! r); [|done]. injection Hld as <- <-. exists s3. split; [done|].
      assert (res = if rq_status d0 =? DEVICE_IO_SUCCESS then s64 n else - EIO) as ->.
      { apply bind_inv in Hrun as (? & ? & _ & Hret). by injection Hret as <-. }
      by apply free_run in Hrun.
    - exists s2. split; [done|]. assert (res = result) as ->.
      { apply bind_inv in Hrun as (? & ? & _ & Hret). by injection Hret as <-. }
      by apply free_run in Hrun. }
  assert (∀ fuel, process_queue (S fuel) d None s' = Fault) as Hfault.
  { intros fuel. cbn [process_queue ld_req_link]. unfold bind, ld_dev at 1. rewrite Hdv, Hx'. cbn [ret].
    rewrite Hqx, (proj2 (Z.eqb_neq r 0)) by done. unfold get_system_time_ms, ld_req. cbn.
    rewrite Hrq, lookup_delete_eq. done. }
  split_and!; [exists x'; by rewrite Hdv|by rewrite Hrq, lookup_delete_eq|done|].
  intros Hlist. unfold device_process_requests, bind, get. rewrite Hlist. cbn [dev_fuel process_devices].
  rewrite (proj2 (Z.eqb_neq d 0)) by done. unfold bind, get. by rewrite Hfault.
Qed.

(** Unregistering a device that failed to initialize leaves it counted as failed, because the state
    is overwritten before it is tested; and it decrements the reference count of its driver, which no
    registration increments: the count wraps around to 2^32 - 1, and from then on the driver cannot be
    unregistered. *)
Theorem device_unregister_leaks s l dl d x y :
  registry s l dl → dm_initialized (mgr s) = true → managed s d x DEVICE_STATE_ERROR [op_remove] →
  drvs s !! dv_driver x = Some y → dv_driver x ≠ 0 → dr_reference_count y = 0 →
  wp (device_unregister d)
     (λ r s', r = 0 ∧ registry s' (filter (λ e, e ≠ d) l) dl ∧
        ms_failed_devices (dm_stats (mgr s')) = ms_failed_devices (dm_stats (mgr s)) ∧
        (∃ y', drvs s' !! dv_driver x = Some y' ∧ dr_reference_count y' = 2 ^ 32 - 1) ∧
        device_driver_unregister (dv_driver x) s' = Ok (- EBUSY, s')) s.
Proof.
  intros Hrg Hi Hm Hy Hv Href. pose proof Hm as (Hd & Hx & Hreg & Hst & Hc & _).
  assert (d ∈ l) as Hdl by (by apply (rg_flag _ _ _ Hrg d x Hx)).
  unfold device_unregister. apply wp_bind, wp_gets. rewrite Hi. cbn [negb].
  apply (wp_guarded s d x DEVICE_STATE_ERROR [op_remove]); [done|]. cbn [negb].
  apply wp_bind, (wp_ld_dev _ x); [done|]. rewrite Hst. apply wp_bind, wp_ret, wp_bind.
  unfold remove_device. apply (wp_entry s d x DEVICE_STATE_ERROR [op_remove]); [done|set_solver|].
  intros f Hf. rewrite (proj2 (Z.eqb_neq f 0)) by done.
  apply wp_bind. eapply wp_mono; [by apply polite_dev|]. intros ? s1 Hcalm.
  destruct (calm_dev s s1 d x Hcalm Hx) as (x1 & Hx1 & Hb).
  apply but_data_fields in Hb as (_ & _ & _ & _ & _ & Hdr & _).
  apply wp_bind, (wp_ld_dev _ x1); [done|]. rewrite Hdr.
  pose proof Hcalm as (Hmg & Hdv & _). apply (wp_upd_drv _ _ y); [by rewrite Hdv|].
  set (y' := y <| dr_reference_count := _ |>).
  assert (dr_reference_count y' = 2 ^ 32 - 1) as Hy' by (unfold y'; cbn; by rewrite Href).
  assert (drv_core y' = drv_core y) as Hcore by done.
  clearbody y'. set (s2 := s1 <| drvs := <[dv_driver x := y']> (drvs s1) |>).
  assert (registry s2 l dl) as Hrg2.
  { apply (registry_same s1); [apply (registry_same s); [done|by apply calm_same]|].
    apply (same_upd_drv _ y); [by rewrite Hdv|done]. }
  apply list_elem_of_split in Hdl as (l1 & l2 & ->).
  pose proof (rg_nodup _ _ _ Hrg2) as (_ & Hdis & [Hd2 _]%NoDup_cons)%NoDup_app.
  assert (d ∉ l1) as Hd1 by (intros Hin; apply (Hdis d Hin); by left).
  assert (dm_initialized (mgr s2) = true) as Hi2 by (cbn; by rewrite Hmg).
  cbv beta. unfold wp. rewrite (unlink_found s2 l1 d l2 dl x1) by done. rewrite filter_out_mid by done.
  assert (drvs (unlink_state s2 (last l1) d x1) !! dv_driver x = Some y') as Hlook.
  { cbn. by rewrite lookup_insert_eq. }
  split_and!; [done|by apply registry_unlink| |by eauto|].
  - cbn. destruct (last l1); cbn; by rewrite Hmg.
  - unfold device_driver_unregister, bind at 1, get.
    replace (dm_initialized (mgr (unlink_state s2 (last l1) d x1))) with true
      by (cbn; destruct (last l1); cbn; congruence).
    rewrite (proj2 (Z.eqb_neq _ 0)) by done. cbn [negb orb]. unfold bind at 1, ld_drv at 1. by rewrite Hlook, Hy'.
Qed.
End properties.

(** ** Samples *)
Module Sample.

#[export] Instance errno : Errno :=
  {| ENOTINIT := 200; EINVAL := 22; EEXIST := 17; EBUSY := 16; ENOENT := 2; ENOSYS := 38;
     ENODEV := 19; ENOMEM := 12; EIO := 5 |}.
#[export] Instance errno_laws : ErrnoLaws.
Proof. by split. Qed.

(** A driver whose entry points succeed at once; a transfer is complete when it is submitted. *)
#[export] Instance env : DriverEnv heap :=
  {| call_dev _ _ := ret 0;
     call_req _ _ r := upd_req r (λ q, q <| rq_status := DEVICE_IO_SUCCESS |>) ;;; ret 0;
     call_ioctl _ _ _ _ := ret 0;
     call_irq _ _ _ := ret ();
     call_done _ _ := ret ();
     call_each _ _ _ := ret ();
     time_at n := n |}.

Lemma calm_refl {A} (s : dstate A) : calm s s.
Proof. done. Qed.
Lemma calm_status (s : dstate heap) r q :
  reqs s !! r = Some q →
  calm s (s <| reqs := <[r := q <| rq_status := DEVICE_IO_SUCCESS |>]> (reqs s) |>).
Proof.
  intros Hq. split_and!; [done..|]. intros r'. cbn. destruct (decide (r' = r)) as [->|].
  - by rewrite lookup_insert_eq, Hq.
  - by rewrite lookup_insert_ne.
Qed.

#[export] Instance polite : Polite heap.
Proof.
  split.
  - intros. apply wp_ret, calm_refl.
  - intros f d r s _ [q Hq]. apply wp_bind, (wp_upd_req _ _ q); [done|]. apply wp_ret. by apply calm_status.
  - intros. apply wp_ret, calm_refl.
  - intros. apply wp_ret, calm_refl.
  - intros. apply wp_ret, calm_refl.
  - intros. apply wp_ret, calm_refl.
  - intros f d s x s' [= _ <-]. apply calm_refl.
  - intros f d r s x s'. cbn. unfold bind, upd_req. destruct (reqs s !! r) as [q|] eqn:Hq; [|done].
    intros [= _ <-]. by apply calm_status.
  - intros f d cmd arg s x s' [= _ <-]. apply calm_refl.
  - intros f d v s x s' [= _ <-]. apply calm_refl.
  - intros f r s x s' [= _ <-]. apply calm_refl.
  - intros f d u s x s' [= _ <-]. apply calm_refl.
Qed.

Definition disk_ops : device_driver_ops := mk_ops 0 1 2 3 4 5 6 7 8 9 10 11.
Definition disk_driver : device_driver :=
  mk_driver [100] [49] [] [] 0 disk_ops 0 0 0 false.
Definition disk : device :=
  mk_device 0 1 0 (Z.lor 3 DEVICE_CAP_SUSPEND) (mk_device_info [104; 100; 97] [] [] [] [] [] 0 0 0 0 0)
    (mk_device_config 0 0 0 0 0 0 0 0 1000 0) zero_device_stats 0x2000 0 0 0 0 0 0 0 0 false.

(** A disk and its driver before the framework is initialized. *)
Definition off : dstate heap :=
  mk_dstate zero_manager {[0x1000 := disk]} {[0x2000 := disk_driver]} ∅ 0 sample_heap.
Definition after (o : dev_op) (s : dstate heap) : dstate heap :=
  match run_op o s with Ok (_, s') => s' | _ => s end.
Definition up : dstate heap := after (OpDriverRegister 0x2000) (after OpInit off).
Definition running : dstate heap := after (OpRegister 0x1000) up.
Definition failing : dstate heap := after (OpSetState 0x1000 DEVICE_STATE_ERROR) running.

Lemma off_cold : cold off.
Proof.
  split_and!; [done| |].
  - split; cbn; [|done]. intros d x [<- <-]%lookup_singleton_Some. right. by exists disk_driver.
  - cbn. intros d x [<- <-]%lookup_singleton_Some. done.
Qed.

Lemma after_represents o s a r :
  represents s a → op_args s o → (∃ s', run_op o s = Ok (r, s')) →
  ∃ a', reg_step o r a a' ∧ represents (after o s) a'.
Proof.
  intros Ha Ho [s' Hr]. destruct (proj1 (wp_run _ _ _) (run_op_spec s a o Ha Ho)) as (r' & s1 & Hr1 & a' & Hst & Ha').
  exists a'. unfold after. rewrite Hr1. split; [|done]. by assert (r' = r) as <- by congruence.
Qed.

Lemma run_after o s r : (∃ s', run_op o s = Ok (r, s')) → run_op o s = Ok (r, after o s).
Proof. intros [s' Hr]. unfold after. by rewrite Hr. Qed.

Lemma up_represents : represents up ([], [0x2000], true).
Proof.
  destruct (after_represents OpInit off _ 0 (cold_registry _ off_cold)) as (a1 & Hs1 & H1);
    [done|by eexists; vm_compute|]. cbn in Hs1. destruct Hs1 as [_ ->].
  destruct (after_represents (OpDriverRegister 0x2000) _ _ 0 H1) as (a2 & Hs2 & H2);
    [right; vm_compute; by eexists|by eexists; vm_compute|]. cbn in Hs2. subst a2. exact H2.
Qed.
Lemma running_represents : represents running ([0x1000], [0x2000], true).
Proof.
  destruct (after_represents (OpRegister 0x1000) _ _ 0 up_represents) as (a2 & Hs2 & H2);
    [right; vm_compute; by eexists|by eexists; vm_compute|]. cbn in Hs2. subst a2. exact H2.
Qed.
Lemma failing_represents : represents failing ([0x1000], [0x2000], true).
Proof.
  destruct (after_represents (OpSetState 0x1000 DEVICE_STATE_ERROR) _ _ 0 running_represents) as (a2 & Hs2 & H2);
    [right; vm_compute; by eexists|by eexists; vm_compute|]. cbn in Hs2. subst a2. exact H2.
Qed.
End Sample.

Import Sample.

Lemma running_dev : ∃ x, devs running !! 0x1000 = Some x ∧ dv_registered x = true ∧
  dv_state x = DEVICE_STATE_READY ∧ dv_driver x = 0x2000 ∧ has_bits (dv_capabilities x) DEVICE_CAP_SUSPEND = true.
Proof. eexists. split; [vm_compute; reflexivity|]. vm_compute. done. Qed.
Lemma running_managed ops x :
  devs running !! 0x1000 = Some x → Forall (λ op, entry running x op ≠ 0) ops →
  managed running 0x1000 x DEVICE_STATE_READY ops.
Proof.
  intros Hx Hops. destruct running_dev as (x' & Hx' & Hr & Hst & _). assert (x' = x) as -> by congruence.
  split_and!; [done..|apply running_represents|done].
Qed.

Lemma device_framework_refines_witness :
  cold off ∧ ∃ r s', run_op (OpRegister 0x1000) up = Ok (r, s').
Proof.
  split; [exact off_cold|].
  destruct (device_framework_refines off up off_cold) as (a & _ & Hnext & _).
  - apply rtc_l with (after OpInit off).
    + apply (dev_call OpInit 0); [exact I|]. apply run_after. by eexists; vm_compute.
    + apply rtc_once, (dev_call (OpDriverRegister 0x2000) 0); [right; vm_compute; by eexists|].
      apply run_after. by eexists; vm_compute.
  - destruct (Hnext (OpRegister 0x1000)) as (r & s' & _ & Hr & _); [right; vm_compute; by eexists|]. by exists r, s'.
Defined.

Lemma device_register_correct_witness :
  devs up !! 0x1000 = Some disk ∧ ∃ s', device_register 0x1000 up = Ok (0, s') ∧
  device_find_by_id 1 s' = Ok (0x1000, s').
Proof.
  assert (devs up !! 0x1000 = Some disk) as Hx by (vm_compute; reflexivity). split; [exact Hx|].
  destruct (device_register_correct up [] [0x2000] 0x1000 disk (proj1 up_represents) ltac:(lia) Hx)
    as (_ & _ & _ & Hok).
  destruct Hok as (s' & x' & Hr & _ & _ & _ & _ & _ & Hf & _);
    [vm_compute; reflexivity|split; [reflexivity|discriminate]|reflexivity|].
  exists s'. split; [exact Hr|]. exact Hf.
Defined.

Lemma device_cycles_count_witness :
  wp (times 3 (device_stop 0x1000 ;;; device_start 0x1000))
     (λ _ s', ms_suspended_devices (dm_stats (mgr s')) = 3) running.
Proof.
  destruct running_dev as (x & Hx & Hr & Hst & Hdr & Hcap).
  assert (managed running 0x1000 x DEVICE_STATE_READY [op_start; op_stop; op_suspend; op_resume]) as Hm.
  { apply running_managed; [exact Hx|]. repeat constructor; unfold entry; rewrite Hdr; by vm_compute. }
  destruct (device_cycles_count running 0x1000 x 3) as [_ Hcyc].
  - intros f d s _. apply wp_ret. split; [reflexivity|]. apply calm_refl.
  - exact Hm.
  - exact Hcap.
  - vm_compute. split; reflexivity.
  - vm_compute. split; [discriminate|reflexivity].
  - eapply wp_mono; [exact Hcyc|]. intros ? s' [Hst' _]. rewrite Hst'. vm_compute. reflexivity.
Defined.

Lemma device_stats_consistent_witness : all_stats_ok running ∧ all_stats_ok (after (OpReset 0x1000) running).
Proof.
  assert (all_stats_ok running) as Hok.
  { intros d x Hx. assert (d = 0x1000 ∨ devs running !! d = None) as [->|Hn].
    { destruct (decide (d = 0x1000)) as [|Hne]; [by left|right].
      apply not_elem_of_dom. intros Hd.
      assert (dom (devs running) = ({[0x1000]} : gset Z)) as Hdom by (vm_compute; reflexivity).
      rewrite Hdom in Hd. set_solver. }
    - vm_compute in Hx. injection Hx as <-. repeat split; cbn; lia.
    - congruence. }
  split; [exact Hok|]. apply (device_stats_consistent running); [exact Hok|]. apply rtc_once.
  exists (run_op (OpReset 0x1000) ;;; ret ()). split; [apply io_op|].
  unfold bind. rewrite (run_after (OpReset 0x1000) running 0); [reflexivity|]. by eexists; vm_compute.
Defined.

Lemma device_transfer_leaves_dangling_witness :
  ∃ res s', device_read [] 0x1000 0 0x5000 512 running = Ok (res, s') ∧ device_process_requests s' = Fault.
Proof.
  destruct running_dev as (x & Hx & Hr & Hst & _).
  assert (match ka_malloc SIZEOF_REQUEST (dalloc running) with Ok (r, _) => negb (r =? 0) | _ => false end = true)
    as Hal by (vm_compute; reflexivity).
  destruct (ka_malloc SIZEOF_REQUEST (dalloc running)) as [[r a]| | |] eqn:Hm; [|discriminate Hal..].
  assert (match device_read [] 0x1000 0 0x5000 512 running with
          | Ok (_, s') => dm_device_list (mgr s') =? 0x1000 | _ => false end = true)
    as Hrun by (vm_compute; reflexivity).
  destruct (device_read [] 0x1000 0 0x5000 512 running) as [[res s']| | |] eqn:Hd; [|discriminate Hrun..].
  exists res, s'. split; [reflexivity|]. apply Z.eqb_eq in Hrun.
  apply (device_transfer_leaves_dangling DEVICE_IO_READ [] 0x1000 0 0x5000 512 running x r a res s');
    [lia|lia|lia|exact Hx|exact Hr|exact Hst|exact Hm| |constructor|exact Hd|exact Hrun].
  intros ->. discriminate Hal.
Defined.

Lemma device_unregister_leaks_witness :
  wp (device_unregister 0x1000)
     (λ r s', device_driver_unregister 0x2000 s' = Ok (-16, s')) failing.
Proof.
  assert (∃ x, devs failing !! 0x1000 = Some x ∧ dv_registered x = true ∧
    dv_state x = DEVICE_STATE_ERROR ∧ dv_driver x = 0x2000) as (x & Hx & Hr & Hst & Hdr).
  { eexists. split; [vm_compute; reflexivity|]. vm_compute. done. }
  assert (∃ y, drvs failing !! 0x2000 = Some y ∧ dr_reference_count y = 0 ∧ op_remove (dr_ops y) = 7)
    as (y & Hy & Href & Hop).
  { eexists. split; [vm_compute; reflexivity|]. vm_compute. done. }
  assert (managed failing 0x1000 x DEVICE_STATE_ERROR [op_remove]) as Hm.
  { split_and!; [done..|apply failing_represents|]. repeat constructor. unfold entry. rewrite Hdr, Hy. cbn. by rewrite Hop. }
  eapply wp_mono.
  - apply (device_unregister_leaks failing [0x1000] [0x2000] 0x1000 x y);
      [apply failing_represents|vm_compute; reflexivity|exact Hm|rewrite Hdr; exact Hy|rewrite Hdr; lia|exact Href].
  - intros ? s' (_ & _ & _ & _ & Hbusy). rewrite Hdr in Hbusy. exact Hbusy.
Defined.
