(* ===== verification/Fs.v ===== *)
(** * File systems (fs/fs.c, fs/fgfs.c, fs/fat32.c, fs/ext4.c)

    The mount table, path resolution, the cache and journal bookkeeping, and the
    three file systems behind the operation tables.  Every structure that the code
    allocates is an object of one store keyed by its address; freeing removes it,
    and using an address that holds no object of the right kind is a [Fault].
    [hal_get_timestamp] and [fs_cache_flush], which no file of the repository
    defines, and the bytes that [kmalloc] leaves in a block, are the parameters of
    the class [FsEnv]. *)
From S2P Require Import Prelude.
From S2P Require Import Heap.
From S2P Require Import SchedState.
Local Open Scope Z_scope.

(** ** Constants of fs/fs.h and fs/fgfs.h *)
Definition MAX_FILENAME_LENGTH : Z := 255.
Definition MAX_PATH_LENGTH : Z := 4096.
Definition MAX_OPEN_FILES : Z := 1024.
Definition MAX_MOUNTED_FILESYSTEMS : Z := 64.
Definition DEFAULT_BLOCK_SIZE : Z := 4096.

Definition FS_TYPE_FGFS : Z := 1.
Definition FS_TYPE_FAT32 : Z := 2.
Definition FS_TYPE_NTFS : Z := 3.
Definition FS_TYPE_EXT4 : Z := 4.
Definition FS_TYPE_EXT3 : Z := 5.
Definition FS_TYPE_ISO9660 : Z := 6.
Definition FS_TYPE_TMPFS : Z := 7.
Definition FS_TYPE_PROCFS : Z := 8.
Definition FS_TYPE_DEVFS : Z := 9.

Definition FS_STATUS_INITIALIZING : Z := 1.
Definition FS_STATUS_READY : Z := 2.
Definition FS_STATUS_MOUNTED : Z := 3.
Definition FS_STATUS_UNMOUNTED : Z := 4.

Definition SEEK_SET : Z := 0.
Definition SEEK_CUR : Z := 1.
Definition SEEK_END : Z := 2.

Definition FILE_TYPE_REGULAR : Z := 0.
Definition FILE_TYPE_DIRECTORY : Z := 1.

Definition FGFS_MAGIC : Z := 0x46474653.
Definition FGFS_VERSION : Z := Z.lor (Z.lor (Z.shiftl 1 16) (Z.shiftl 0 8)) 0.
Definition FGFS_BLOCK_SIZE_MIN : Z := 512.
Definition FGFS_BLOCK_SIZE_MAX : Z := 65536.
Definition FGFS_BLOCK_SIZE_DEFAULT : Z := 4096.
Definition FGFS_BLOCKS_PER_GROUP_DEFAULT : Z := 8192.
Definition FGFS_INODES_PER_GROUP_DEFAULT : Z := 2048.
Definition FGFS_FEATURE_SPARSE_SUPER : Z := Z.shiftl 1 0.
Definition FGFS_FEATURE_LARGE_FILE : Z := Z.shiftl 1 1.
Definition FGFS_FEATURE_EXTENT : Z := Z.shiftl 1 2.
Definition FGFS_FEATURE_JOURNAL : Z := Z.shiftl 1 3.
Definition FGFS_FEATURE_CHECKSUMS : Z := Z.shiftl 1 6.
Definition FGFS_CHECKSUM_CRC32 : Z := 1.
Definition SIZEOF_FGFS_INODE : Z := 172.

(** ** Data *)

(** The operation tables that exist: the static [fgfs_ops], [fat32_ops] and
    [ext4_ops]. *)
Inductive fs_operations := fgfs_ops | fat32_ops | ext4_ops.
#[export] Instance fs_operations_eq_dec : EqDecision fs_operations.
Proof. solve_decision. Defined.

Record filesystem := mk_fs {
  f_type : Z; f_status : Z; f_name : list Z; f_device : list Z; f_superblock : Z;
  f_ops : fs_operations; f_private_data : Z; f_flags : Z; f_ref_count : Z; f_mount_point : Z
}.
#[export] Instance eta_fs : Eta filesystem := λ r,
  {| f_type := f_type r; f_status := f_status r; f_name := f_name r; f_device := f_device r;
     f_superblock := f_superblock r; f_ops := f_ops r; f_private_data := f_private_data r;
     f_flags := f_flags r; f_ref_count := f_ref_count r; f_mount_point := f_mount_point r |}.

(** [m_path] is the whole array, terminator and padding included. *)
Record mount_point := mk_mount {
  m_path : list Z; m_fs : Z; m_flags : Z; m_mount_time : Z; m_next : Z
}.
#[export] Instance eta_mount : Eta mount_point := λ r,
  {| m_path := m_path r; m_fs := m_fs r; m_flags := m_flags r; m_mount_time := m_mount_time r;
     m_next := m_next r |}.

Record fs_cache_entry := mk_entry {
  e_block_number : Z; e_data : Z; e_size : Z; e_dirty : bool; e_access_time : Z; e_ref_count : Z;
  e_next : Z; e_prev : Z
}.

Record fs_cache := mk_cache {
  c_entries : Z; c_size : Z; c_max_size : Z; c_block_size : Z; c_hits : Z; c_misses : Z;
  c_dirty_blocks : Z
}.
Definition zero_cache : fs_cache := mk_cache 0 0 0 0 0 0 0.

Record journal := mk_journal {
  j_start_block : Z; j_size : Z; j_sequence : Z; j_block_size : Z; j_enabled : bool; j_cache : Z;
  j_current_entry : Z
}.
#[export] Instance eta_journal : Eta journal := λ r,
  {| j_start_block := j_start_block r; j_size := j_size r; j_sequence := j_sequence r;
     j_block_size := j_block_size r; j_enabled := j_enabled r; j_cache := j_cache r;
     j_current_entry := j_current_entry r |}.
Definition zero_journal : journal := mk_journal 0 0 0 0 false 0 0.

Record file := mk_file {
  fl_fd : Z; fl_inode : Z; fl_mode : Z; fl_position : Z; fl_size : Z; fl_flags : Z; fl_fs : Z;
  fl_mount : Z; fl_private_data : Z; fl_ref_count : Z; fl_modified : bool
}.
#[export] Instance eta_file : Eta file := λ r,
  {| fl_fd := fl_fd r; fl_inode := fl_inode r; fl_mode := fl_mode r; fl_position := fl_position r;
     fl_size := fl_size r; fl_flags := fl_flags r; fl_fs := fl_fs r; fl_mount := fl_mount r;
     fl_private_data := fl_private_data r; fl_ref_count := fl_ref_count r; fl_modified := fl_modified r |}.
Definition zero_file : file := mk_file 0 0 0 0 0 0 0 0 0 0 false.

Record file_metadata := mk_metadata {
  md_inode : Z; md_type : Z; md_size : Z; md_uid : Z; md_gid : Z; md_permissions : Z;
  md_created_time : Z; md_modified_time : Z; md_accessed_time : Z; md_hard_links : Z;
  md_block_count : Z; md_flags : Z; md_name : list Z
}.

Record fgfs_superblock := mk_sb {
  sb_magic : Z; sb_version : Z; sb_block_count : Z; sb_free_blocks : Z; sb_inode_count : Z;
  sb_free_inodes : Z; sb_block_size : Z; sb_fragment_size : Z; sb_blocks_per_group : Z;
  sb_inodes_per_group : Z; sb_group_count : Z; sb_root_inode : Z; sb_lost_found_inode : Z;
  sb_journal_inode : Z; sb_first_data_block : Z; sb_max_mount_count : Z; sb_mount_count : Z;
  sb_last_mounted : Z; sb_last_written : Z; sb_last_checked : Z; sb_check_interval : Z;
  sb_state : Z; sb_errors : Z; sb_feature_compat : Z; sb_feature_incompat : Z;
  sb_feature_ro_compat : Z; sb_uuid : list Z; sb_volume_name : list Z; sb_last_mounted_on : list Z;
  sb_algorithm_usage_bitmap : Z; sb_default_mount_opts : Z; sb_first_meta_bg : Z; sb_mkfs_time : Z;
  sb_reserved : list Z; sb_checksum : Z
}.

Record fgfs_private := mk_fgfs {
  fp_superblock : Z; fp_group_descs : Z; fp_group_desc_count : Z; fp_block_size : Z;
  fp_inode_size : Z; fp_inodes_per_block : Z; fp_blocks_per_group : Z; fp_inodes_per_group : Z;
  fp_next_generation : Z; fp_has_journal : bool; fp_journal_inode : Z; fp_cache : Z; fp_journal : Z
}.
#[export] Instance eta_fgfs : Eta fgfs_private := λ r,
  {| fp_superblock := fp_superblock r; fp_group_descs := fp_group_descs r;
     fp_group_desc_count := fp_group_desc_count r; fp_block_size := fp_block_size r;
     fp_inode_size := fp_inode_size r; fp_inodes_per_block := fp_inodes_per_block r;
     fp_blocks_per_group := fp_blocks_per_group r; fp_inodes_per_group := fp_inodes_per_group r;
     fp_next_generation := fp_next_generation r; fp_has_journal := fp_has_journal r;
     fp_journal_inode := fp_journal_inode r; fp_cache := fp_cache r; fp_journal := fp_journal r |}.
Definition zero_fgfs : fgfs_private := mk_fgfs 0 0 0 0 0 0 0 0 0 false 0 0 0.

Record fat32_private := mk_fat32 {
  ft_boot_sector : Z; ft_fsinfo : Z; ft_fat_table : Z; ft_fat_start_sector : Z; ft_fat_size : Z;
  ft_data_start_sector : Z; ft_root_cluster : Z; ft_cluster_size : Z; ft_total_clusters : Z;
  ft_free_clusters : Z; ft_next_free_cluster : Z; ft_cache : Z
}.
Definition zero_fat32 : fat32_private := mk_fat32 0 0 0 0 0 0 0 0 0 0 0 0.

Record ext4_private := mk_ext4 {
  xp_superblock : Z; xp_group_descs : Z; xp_group_desc_count : Z; xp_block_size : Z;
  xp_inode_size : Z; xp_inodes_per_block : Z; xp_blocks_per_group : Z; xp_inodes_per_group : Z;
  xp_has_64bit : bool; xp_has_extents : bool; xp_cache : Z
}.
Definition zero_ext4 : ext4_private := mk_ext4 0 0 0 0 0 0 0 0 false false 0.

(** What an allocated block holds. *)
Inductive obj :=
  | OFs (x : filesystem) | OMount (x : mount_point) | OCache (x : fs_cache) | OEntry (x : fs_cache_entry)
  | OData | OJournal (x : journal) | OFile (x : file) | OSb (x : fgfs_superblock)
  | OFgfs (x : fgfs_private) | OFat (x : fat32_private) | OExt (x : ext4_private).

Definition as_fs (o : obj) : option filesystem := match o with OFs x => Some x | _ => None end.
Definition as_mount (o : obj) : option mount_point := match o with OMount x => Some x | _ => None end.
Definition as_cache (o : obj) : option fs_cache := match o with OCache x => Some x | _ => None end.
Definition as_entry (o : obj) : option fs_cache_entry := match o with OEntry x => Some x | _ => None end.
Definition as_journal (o : obj) : option journal := match o with OJournal x => Some x | _ => None end.
Definition as_file (o : obj) : option file := match o with OFile x => Some x | _ => None end.
Definition as_fgfs (o : obj) : option fgfs_private := match o with OFgfs x => Some x | _ => None end.
Definition as_fat (o : obj) : option fat32_private := match o with OFat x => Some x | _ => None end.
Definition as_ext (o : obj) : option ext4_private := match o with OExt x => Some x | _ => None end.

Record fs_manager := mk_fm {
  fm_filesystems : list Z; fm_mount_points : Z; fm_open_files : list Z; fm_next_fd : Z;
  fm_global_cache : Z; fm_global_journal : Z; fm_mounted_count : Z; fm_initialized : bool
}.
#[export] Instance eta_fm : Eta fs_manager := λ r,
  {| fm_filesystems := fm_filesystems r; fm_mount_points := fm_mount_points r;
     fm_open_files := fm_open_files r; fm_next_fd := fm_next_fd r;
     fm_global_cache := fm_global_cache r; fm_global_journal := fm_global_journal r;
     fm_mounted_count := fm_mounted_count r; fm_initialized := fm_initialized r |}.
Definition zero_fm : fs_manager :=
  mk_fm (replicate (Z.to_nat MAX_MOUNTED_FILESYSTEMS) 0) 0 (replicate (Z.to_nat MAX_OPEN_FILES) 0) 0 0 0 0 false.

(** The state: [fs_manager], [registered_fs], the allocated objects, how often
    the clock has been read, and the allocator. *)
Record fstate (A : Type) := mk_fstate {
  fm : fs_manager;
  registered_fs : list (option fs_operations);
  objs : gmap Z obj;
  stamps : Z;
  falloc : A
}.
#[global] Arguments mk_fstate {A}.
#[global] Arguments fm {A}.
#[global] Arguments registered_fs {A}.
#[global] Arguments objs {A}.
#[global] Arguments stamps {A}.
#[global] Arguments falloc {A}.
#[export] Instance eta_fstate {A} : Eta (fstate A) := λ r,
  {| fm := fm r; registered_fs := registered_fs r; objs := objs r; stamps := stamps r; falloc := falloc r |}.

Definition fs_boot {A} (a : A) : fstate A := mk_fstate zero_fm (replicate 10 None) ∅ 0 a.

(** What the file systems are linked with. *)
Class FsEnv (A : Type) := {
  timestamp_at : Z → Z;
  stale_byte : Z;
  cache_flush : Z → prog (fstate A) Z
}.

(** ** C strings in arrays

    A string argument is the list of its bytes before the terminator; an array is
    the list of all its bytes, and running off its end gives [None]. *)
Fixpoint strcmp_eq (arr s : list Z) : option bool :=
  match arr, s with
  | [], _ => None
  | a :: _, [] => Some (a =? 0)
  | a :: arr, c :: s => if a =? c then strcmp_eq arr s else Some false
  end.
Fixpoint strlen (arr : list Z) : option nat :=
  match arr with
  | [] => None
  | a :: arr => if a =? 0 then Some O else S <$> strlen arr
  end.

(** [strncpy(dst, s, n)] into the first [n] bytes of an array whose other bytes are [rest]. *)
Definition strncpy_into (s : list Z) (n : nat) (rest : list Z) : list Z :=
  take n s ++ replicate (n - length s) 0 ++ rest.

(** [strncmp(path, arr, n) == 0] for [n = strlen(arr)]. *)
Definition strncmp_eq (path arr : list Z) (n : nat) : bool := bool_decide (take n arr `prefix_of` path).

Definition str (s : string) : list Z := map (λ a, Z.of_N (Ascii.N_of_ascii a)) (String.list_ascii_of_string s).

Definition fs_type_to_string (type : Z) : string :=
  if type =? FS_TYPE_FGFS then "FGFS"
  else if type =? FS_TYPE_FAT32 then "FAT32"
  else if type =? FS_TYPE_NTFS then "NTFS"
  else if type =? FS_TYPE_EXT4 then "ext4"
  else if type =? FS_TYPE_EXT3 then "ext3"
  else if type =? FS_TYPE_ISO9660 then "ISO9660"
  else if type =? FS_TYPE_TMPFS then "tmpfs"
  else if type =? FS_TYPE_PROCFS then "procfs"
  else if type =? FS_TYPE_DEVFS then "devfs"
  else "unknown".

Definition fs_status_to_string (status : Z) : string :=
  if status =? 0 then "uninitialized"
  else if status =? FS_STATUS_INITIALIZING then "initializing"
  else if status =? FS_STATUS_READY then "ready"
  else if status =? FS_STATUS_MOUNTED then "mounted"
  else if status =? FS_STATUS_UNMOUNTED then "unmounted"
  else if status =? 5 then "error"
  else if status =? 6 then "read-only"
  else if status =? 7 then "corrupted"
  else "unknown".

Definition file_type_to_string (type : Z) : string :=
  if type =? FILE_TYPE_REGULAR then "regular"
  else if type =? FILE_TYPE_DIRECTORY then "directory"
  else if type =? 2 then "symlink"
  else if type =? 3 then "block device"
  else if type =? 4 then "character device"
  else if type =? 5 then "fifo"
  else if type =? 6 then "socket"
  else "unknown".

(** ** Checksums (fgfs.c) *)
Definition crc_step (checksum b : Z) : Z :=
  Z.lxor (Z.lxor (u32 (Z.shiftl checksum 8)) b) (Z.shiftr checksum 24).
Definition fgfs_calculate_checksum (data : option (list Z)) (type : Z) : Z :=
  match data with
  | None => 0
  | Some bytes =>
      if bool_decide (bytes = []) then 0
      else if type =? FGFS_CHECKSUM_CRC32 then foldl crc_step 0 bytes
      else foldl (λ c b, u32 (c + b)) 0 bytes
  end.
Definition fgfs_verify_checksum (data : option (list Z)) (checksum type : Z) : bool :=
  fgfs_calculate_checksum data type =? checksum.

Section fs.
Context {A : Type} `{KA : KAlloc A} `{!FsEnv A}.
Abbreviation M := (prog (fstate A)).

(** ** The store of objects *)
Definition ld {X} (as_x : obj → option X) (p : Z) : M X := λ s,
  match objs s !! p ≫= as_x with Some x => Ok (x, s) | None => Fault end.
Definition st (p : Z) (o : obj) : M () := modify (λ s, s <| objs := <[p := o]> (objs s) |>).
Definition upd_fs (p : Z) (f : filesystem → filesystem) : M () := x <- ld as_fs p ;; st p (OFs (f x)).
Definition upd_mount (p : Z) (f : mount_point → mount_point) : M () := x <- ld as_mount p ;; st p (OMount (f x)).
Definition upd_file (p : Z) (f : file → file) : M () := x <- ld as_file p ;; st p (OFile (f x)).
Definition upd_fm (f : fs_manager → fs_manager) : M () := modify (λ s, s <| fm := f (fm s) |>).

Definition lift_falloc {X} (m : prog A X) : M X := λ s,
  match m (falloc s) with
  | Ok (x, a) => Ok (x, s <| falloc := a |>)
  | Fault => Fault
  | Halted => Halted
  | Diverge => Diverge
  end.

(** [kmalloc] of a structure whose first contents are [o]; 0 when memory is exhausted. *)
Definition new (size : Z) (o : obj) : M Z :=
  p <- lift_falloc (ka_malloc size) ;;
  if p =? 0 then ret 0 else st p o ;;; ret p.
(** [kfree] of a structure. *)
Definition free (p : Z) : M () :=
  lift_falloc (ka_free p) ;;; modify (λ s, s <| objs := delete p (objs s) |>).

Definition hal_get_timestamp : M Z := λ s,
  Ok (u64 (timestamp_at (stamps s)), s <| stamps := stamps s + 1 |>).

(** A comparison that may run off its array. *)
Definition of_option {X} (o : option X) : M X := match o with Some x => ret x | None => fault end.

(** Sizes of the structures. *)
Definition SIZEOF_FS : Z := 144.
Definition SIZEOF_MOUNT : Z := 4128.
Definition SIZEOF_CACHE : Z := 48.
Definition SIZEOF_JOURNAL : Z := 48.
Definition SIZEOF_FILE : Z := 80.
Definition SIZEOF_SB : Z := 372.
Definition SIZEOF_FGFS : Z := 80.
Definition SIZEOF_FAT32 : Z := 64.
Definition SIZEOF_EXT4 : Z := 56.

(** ** Cache and journal (fs.c) *)
Definition fs_cache_init (cache max_size block_size : Z) : M Z :=
  if cache =? 0 then ret (-1)
  else
    ld as_cache cache ;;;
    st cache (OCache (mk_cache 0 0 max_size block_size 0 0 0)) ;;;
    ret 0.

(** "Free all cache entries". *)
Fixpoint free_entries (fuel : nat) (entry : Z) : M () :=
  match fuel with
  | O => diverge
  | S fuel =>
      if entry =? 0 then ret ()
      else
        e <- ld as_entry entry ;;
        let next := e_next e in
        when (negb (e_data e =? 0)) (free (e_data e)) ;;;
        free entry ;;;
        free_entries fuel next
  end.

Definition obj_fuel (s : fstate A) : nat := S (size (objs s)).

Definition fs_cache_destroy (cache : Z) : M () :=
  if cache =? 0 then ret ()
  else
    c <- ld as_cache cache ;;
    s <- get ;;
    free_entries (obj_fuel s) (c_entries c) ;;;
    st cache (OCache zero_cache).

Definition fs_journal_init (jn start_block size : Z) : M Z :=
  if jn =? 0 then ret (-1)
  else
    ld as_journal jn ;;;
    st jn (OJournal (mk_journal start_block size 1 DEFAULT_BLOCK_SIZE true 0 0)) ;;;
    ret 0.

Definition fs_journal_commit (jn : Z) : M Z :=
  if jn =? 0 then ret (-1)
  else
    x <- ld as_journal jn ;;
    if negb (j_enabled x) then ret (-1)
    else st jn (OJournal (x <| j_sequence := u32 (j_sequence x + 1) |>)) ;;; ret 0.

Definition fs_journal_destroy (jn : Z) : M () :=
  if jn =? 0 then ret ()
  else
    x <- ld as_journal jn ;;
    (if j_enabled x then fs_journal_commit jn ;;; ret () else ret ()) ;;;
    x <- ld as_journal jn ;;
    when (negb (j_cache x =? 0)) (fs_cache_destroy (j_cache x) ;;; free (j_cache x)) ;;;
    st jn (OJournal zero_journal).

(** ** FGFS (fgfs.c) *)

(** "For now, create a minimal superblock". *)
Definition minimal_superblock : fgfs_superblock :=
  mk_sb FGFS_MAGIC FGFS_VERSION 0 0 0 0 FGFS_BLOCK_SIZE_DEFAULT 0 FGFS_BLOCKS_PER_GROUP_DEFAULT
    FGFS_INODES_PER_GROUP_DEFAULT 0 2 0 0 0 0 0 0 0 0 0 0 0 0 0 0 (replicate 16 0) (replicate 16 0)
    (replicate 64 0) 0 0 0 0 (replicate 25 0) 0.

(** "Initialize private data", from the superblock [x] at [sb]. *)
Definition init_private (sb : Z) (x : fgfs_superblock) : fgfs_private :=
  mk_fgfs sb 0 (sb_group_count x) (sb_block_size x) SIZEOF_FGFS_INODE
    (sb_block_size x / SIZEOF_FGFS_INODE) (sb_blocks_per_group x) (sb_inodes_per_group x) 1
    (has_bits (sb_feature_incompat x) FGFS_FEATURE_JOURNAL) (sb_journal_inode x) 0 0.

Definition set_priv (p : Z) (f : fgfs_private → fgfs_private) : M () := x <- ld as_fgfs p ;; st p (OFgfs (f x)).

Definition fgfs_mount (fs : Z) (device : option (list Z)) (flags : Z) : M Z :=
  match device with
  | None => ret (-1)
  | Some _ =>
      if fs =? 0 then ret (-1)
      else
        priv <- new SIZEOF_FGFS (OFgfs zero_fgfs) ;;
        if priv =? 0 then ret (-1)
        else
          sb <- new SIZEOF_SB (OSb minimal_superblock) ;;
          if sb =? 0 then free priv ;;; ret (-1)
          else if negb (sb_magic minimal_superblock =? FGFS_MAGIC) then free sb ;;; free priv ;;; ret (-1)
          else
            set_priv priv (λ _, init_private sb minimal_superblock) ;;;
            cache <- new SIZEOF_CACHE (OCache zero_cache) ;;
            if cache =? 0 then free sb ;;; free priv ;;; ret (-1)
            else
              set_priv priv (λ x, x <| fp_cache := cache |>) ;;;
              p <- ld as_fgfs priv ;;
              r <- fs_cache_init cache 512 (fp_block_size p) ;;
              if negb (r =? 0) then free cache ;;; free sb ;;; free priv ;;; ret (-1)
              else
                r <- (if fp_has_journal p then
                        jn <- new SIZEOF_JOURNAL (OJournal zero_journal) ;;
                        if jn =? 0 then
                          fs_cache_destroy cache ;;; free cache ;;; free sb ;;; free priv ;;; ret (-1)
                        else
                          set_priv priv (λ x, x <| fp_journal := jn |>) ;;;
                          r <- fs_journal_init jn 1000 100 ;;
                          if negb (r =? 0) then
                            free jn ;;; fs_cache_destroy cache ;;; free cache ;;; free sb ;;; free priv ;;; ret (-1)
                          else ret 0
                      else ret 0) ;;
                if negb (r =? 0) then ret r
                else
                  upd_fs fs (λ x, x <| f_private_data := priv |> <| f_status := FS_STATUS_READY |>) ;;;
                  ret 0
  end.

Definition fgfs_unmount (fs : Z) : M Z :=
  if fs =? 0 then ret (-1)
  else
    x <- ld as_fs fs ;;
    let priv := f_private_data x in
    if priv =? 0 then ret (-1)
    else
      p <- ld as_fgfs priv ;;
      (if negb (fp_cache p =? 0) then cache_flush (fp_cache p) ;;; ret () else ret ()) ;;;
      p <- ld as_fgfs priv ;;
      when (negb (fp_journal p =? 0)) (fs_journal_destroy (fp_journal p) ;;; free (fp_journal p)) ;;;
      p <- ld as_fgfs priv ;;
      when (negb (fp_cache p =? 0)) (fs_cache_destroy (fp_cache p) ;;; free (fp_cache p)) ;;;
      p <- ld as_fgfs priv ;;
      when (negb (fp_group_descs p =? 0)) (free (fp_group_descs p)) ;;;
      p <- ld as_fgfs priv ;;
      when (negb (fp_superblock p =? 0)) (free (fp_superblock p)) ;;;
      free priv ;;;
      upd_fs fs (λ x, x <| f_private_data := 0 |> <| f_status := FS_STATUS_UNMOUNTED |>) ;;;
      ret 0.

(** [fgfs_open]: the status and what is stored in the caller's pointer, 0 for nothing. *)
Definition fgfs_open (fs : Z) (path : option (list Z)) (mode file : Z) : M (Z * Z) :=
  if (fs =? 0) || bool_decide (path = None) || (file =? 0) then ret (-1, 0)
  else
    x <- ld as_fs fs ;;
    if f_private_data x =? 0 then ret (-1, 0)
    else
      f <- new SIZEOF_FILE (OFile (zero_file <| fl_fd := 100 |> <| fl_inode := 2 |> <| fl_mode := mode |>
             <| fl_position := 0 |> <| fl_size := 0 |> <| fl_fs := fs |> <| fl_ref_count := 1 |>
             <| fl_modified := false |>)) ;;
      if f =? 0 then ret (-1, 0) else ret (0, f).

(** [fgfs_close], and the identical [fat32_close] and [ext4_close]. *)
Definition fgfs_close (file : Z) : M Z :=
  if file =? 0 then ret (-1)
  else
    upd_file file (λ x, x <| fl_ref_count := u32 (fl_ref_count x - 1) |>) ;;;
    x <- ld as_file file ;;
    (if fl_ref_count x =? 0 then free file else ret ()) ;;;
    ret 0.

Definition fgfs_read (file buffer size : Z) : M Z :=
  if (file =? 0) || (buffer =? 0) then ret (-1) else ret 0.

Definition fgfs_write (file buffer size : Z) : M Z :=
  if (file =? 0) || (buffer =? 0) then ret (-1)
  else upd_file file (λ x, x <| fl_modified := true |>) ;;; ret (s64 size).

(** [fgfs_seek], and the identical [fat32_seek] and [ext4_seek]: the sum is
    computed in [uint64_t] and read as [int64_t]. *)
Definition fgfs_seek (file offset origin : Z) : M Z :=
  if file =? 0 then ret (-1)
  else
    x <- ld as_file file ;;
    let target :=
      if origin =? SEEK_SET then Some offset
      else if origin =? SEEK_CUR then Some (s64 (fl_position x + offset))
      else if origin =? SEEK_END then Some (s64 (fl_size x + offset))
      else None in
    match target with
    | None => ret (-1)
    | Some new_pos =>
        if new_pos <? 0 then ret (-1)
        else upd_file file (λ x, x <| fl_position := u64 new_pos |>) ;;; ret new_pos
    end.

(** [fgfs_create], [fgfs_mkdir], [fgfs_unlink] and their FAT32 and ext4 versions check
    their arguments and report success. *)
Definition fgfs_create (fs : Z) (path : option (list Z)) (permissions : Z) : M Z :=
  if (fs =? 0) || bool_decide (path = None) then ret (-1) else ret 0.
Definition fgfs_mkdir (fs : Z) (path : option (list Z)) (permissions : Z) : M Z :=
  if (fs =? 0) || bool_decide (path = None) then ret (-1) else ret 0.
Definition fgfs_unlink (fs : Z) (path : option (list Z)) : M Z :=
  if (fs =? 0) || bool_decide (path = None) then ret (-1) else ret 0.

Definition fgfs_stat (fs : Z) (path : option (list Z)) (metadata : Z) : M (Z * option file_metadata) :=
  match path with
  | None => ret (-1, None)
  | Some path =>
      if (fs =? 0) || (metadata =? 0) then ret (-1, None)
      else
        t1 <- hal_get_timestamp ;;
        t2 <- hal_get_timestamp ;;
        t3 <- hal_get_timestamp ;;
        ret (0, Some (mk_metadata 2 FILE_TYPE_DIRECTORY 0 0 0 493 t1 t2 t3 0 0 0
                        (take (Z.to_nat (MAX_FILENAME_LENGTH - 1)) path)))
  end.

(** *** Formatting *)

(** The fields of the superblock that [fgfs_format] computes, at the widths of its
    variables; [now n] is the [n]-th reading of the clock. *)
Definition format_superblock (size block_size : Z) (label : option (list Z)) (now : nat → Z)
    (checksum : Z) : fgfs_superblock :=
  let total_blocks := size / block_size in
  let blocks_per_group := FGFS_BLOCKS_PER_GROUP_DEFAULT in
  let group_count := u32 (u64 (total_blocks + blocks_per_group - 1) / blocks_per_group) in
  let inodes_per_group := FGFS_INODES_PER_GROUP_DEFAULT in
  let total_inodes := u32 (group_count * inodes_per_group) in
  mk_sb FGFS_MAGIC FGFS_VERSION total_blocks (u64 (total_blocks - 100)) total_inodes
    (u64 (total_inodes - 10)) block_size block_size blocks_per_group inodes_per_group group_count
    2 11 8 1 100 0 (now 0%nat) (now 1%nat) 0 0 1 1
    (Z.lor FGFS_FEATURE_SPARSE_SUPER FGFS_FEATURE_LARGE_FILE)
    (Z.lor FGFS_FEATURE_EXTENT FGFS_FEATURE_JOURNAL) FGFS_FEATURE_CHECKSUMS
    (map (λ i, u8 (Z.shiftr (now (3 + i)%nat) (Z.of_nat i * 4))) (seq 0 16))
    (match label with
     | Some l => strncpy_into l 15 [0]
     | None => replicate 16 0
     end)
    (replicate 64 0) 0 0 0 (now 2%nat) (replicate 25 0) checksum.

(** The packed structure without its last field, little endian. *)
Fixpoint le (n : nat) (v : Z) : list Z :=
  match n with O => [] | S n => u8 v :: le n (Z.shiftr v 8) end.
Definition superblock_bytes (x : fgfs_superblock) : list Z :=
  le 4 (sb_magic x) ++ le 4 (sb_version x) ++ le 8 (sb_block_count x) ++ le 8 (sb_free_blocks x) ++
  le 8 (sb_inode_count x) ++ le 8 (sb_free_inodes x) ++ le 4 (sb_block_size x) ++ le 4 (sb_fragment_size x) ++
  le 4 (sb_blocks_per_group x) ++ le 4 (sb_inodes_per_group x) ++ le 4 (sb_group_count x) ++
  le 8 (sb_root_inode x) ++ le 8 (sb_lost_found_inode x) ++ le 8 (sb_journal_inode x) ++
  le 8 (sb_first_data_block x) ++ le 4 (sb_max_mount_count x) ++ le 4 (sb_mount_count x) ++
  le 8 (sb_last_mounted x) ++ le 8 (sb_last_written x) ++ le 8 (sb_last_checked x) ++
  le 8 (sb_check_interval x) ++ le 4 (sb_state x) ++ le 4 (sb_errors x) ++ le 4 (sb_feature_compat x) ++
  le 4 (sb_feature_incompat x) ++ le 4 (sb_feature_ro_compat x) ++ sb_uuid x ++ sb_volume_name x ++
  sb_last_mounted_on x ++ le 4 (sb_algorithm_usage_bitmap x) ++ le 4 (sb_default_mount_opts x) ++
  le 4 (sb_first_meta_bg x) ++ le 8 (sb_mkfs_time x) ++ concat (map (le 4) (sb_reserved x)).

(** [fgfs_format]: what it returns, and the superblock it built before freeing it. *)
Definition fgfs_format (device : option (list Z)) (size block_size : Z) (label : option (list Z))
    : M (Z * option fgfs_superblock) :=
  if bool_decide (device = None) || (block_size <? FGFS_BLOCK_SIZE_MIN) || (FGFS_BLOCK_SIZE_MAX <? block_size)
  then ret (-1, None)
  else
    sb <- new SIZEOF_SB (OSb minimal_superblock) ;;
    if sb =? 0 then ret (-1, None)
    else
      s <- get ;;
      let x := format_superblock size block_size label (λ n, u64 (timestamp_at (stamps s + Z.of_nat n))) in
      let checksum := fgfs_calculate_checksum (Some (superblock_bytes (x 0))) FGFS_CHECKSUM_CRC32 in
      modify (λ s, s <| stamps := stamps s + 19 |>) ;;;
      st sb (OSb (x checksum)) ;;;
      free sb ;;;
      ret (0, Some (x checksum)).

(** ** FAT32 and ext4 (fat32.c, ext4.c) *)
Definition fat32_mount (fs : Z) (device : option (list Z)) (flags : Z) : M Z :=
  if (fs =? 0) || bool_decide (device = None) then ret (-1)
  else
    priv <- new SIZEOF_FAT32 (OFat zero_fat32) ;;
    if priv =? 0 then ret (-1)
    else
      upd_fs fs (λ x, x <| f_private_data := priv |> <| f_status := FS_STATUS_READY |>) ;;; ret 0.
Definition ext4_mount (fs : Z) (device : option (list Z)) (flags : Z) : M Z :=
  if (fs =? 0) || bool_decide (device = None) then ret (-1)
  else
    priv <- new SIZEOF_EXT4 (OExt zero_ext4) ;;
    if priv =? 0 then ret (-1)
    else
      upd_fs fs (λ x, x <| f_private_data := priv |> <| f_status := FS_STATUS_READY |>) ;;; ret 0.

(** The tail of [fat32_unmount] and [ext4_unmount], [cache] the private structure's cache. *)
Definition drop_private (fs priv cache : Z) : M Z :=
  when (negb (cache =? 0)) (fs_cache_destroy cache ;;; free cache) ;;;
  free priv ;;;
  upd_fs fs (λ x, x <| f_private_data := 0 |> <| f_status := FS_STATUS_UNMOUNTED |>) ;;;
  ret 0.
Definition fat32_unmount (fs : Z) : M Z :=
  if fs =? 0 then ret (-1)
  else
    x <- ld as_fs fs ;;
    if f_private_data x =? 0 then ret (-1)
    else p <- ld as_fat (f_private_data x) ;; drop_private fs (f_private_data x) (ft_cache p).
Definition ext4_unmount (fs : Z) : M Z :=
  if fs =? 0 then ret (-1)
  else
    x <- ld as_fs fs ;;
    if f_private_data x =? 0 then ret (-1)
    else p <- ld as_ext (f_private_data x) ;; drop_private fs (f_private_data x) (xp_cache p).

Definition compat_open (fd fs : Z) (path : option (list Z)) (mode file : Z) : M (Z * Z) :=
  if (fs =? 0) || bool_decide (path = None) || (file =? 0) then ret (-1, 0)
  else
    f <- new SIZEOF_FILE (OFile (zero_file <| fl_fd := fd |> <| fl_mode := mode |> <| fl_fs := fs |>
           <| fl_ref_count := 1 |>)) ;;
    if f =? 0 then ret (-1, 0) else ret (0, f).
Definition fat32_open := compat_open 200.
Definition ext4_open := compat_open 300.
Definition fat32_close := fgfs_close.
Definition ext4_close := fgfs_close.
Definition fat32_read := fgfs_read.
Definition ext4_read := fgfs_read.
Definition fat32_write (file buffer size : Z) : M Z :=
  if (file =? 0) || (buffer =? 0) then ret (-1) else ret (s64 size).
Definition ext4_write := fat32_write.
Definition fat32_seek := fgfs_seek.
Definition ext4_seek := fgfs_seek.
Definition fat32_create := fgfs_create.
Definition ext4_create := fgfs_create.
Definition fat32_mkdir := fgfs_mkdir.
Definition ext4_mkdir := fgfs_mkdir.
Definition fat32_unlink := fgfs_unlink.
Definition ext4_unlink := fgfs_unlink.
Definition fat32_stat (fs : Z) (path : option (list Z)) (metadata : Z) : M (Z * option file_metadata) :=
  match path with
  | None => ret (-1, None)
  | Some path =>
      if (fs =? 0) || (metadata =? 0) then ret (-1, None)
      else
        ret (0, Some (mk_metadata 0 FILE_TYPE_REGULAR 0 0 0 0 0 0 0 0 0 0
                        (take (Z.to_nat (MAX_FILENAME_LENGTH - 1)) path)))
  end.
Definition ext4_stat := fat32_stat.

(** ** Dispatch through the operation table of a file system *)
Definition ops_mount (o : fs_operations) := match o with fgfs_ops => fgfs_mount | fat32_ops => fat32_mount | ext4_ops => ext4_mount end.
Definition ops_unmount (o : fs_operations) := match o with fgfs_ops => fgfs_unmount | fat32_ops => fat32_unmount | ext4_ops => ext4_unmount end.
Definition ops_open (o : fs_operations) := match o with fgfs_ops => fgfs_open | fat32_ops => fat32_open | ext4_ops => ext4_open end.
Definition ops_close (o : fs_operations) := match o with fgfs_ops => fgfs_close | fat32_ops => fat32_close | ext4_ops => ext4_close end.
Definition ops_read (o : fs_operations) := match o with fgfs_ops => fgfs_read | fat32_ops => fat32_read | ext4_ops => ext4_read end.
Definition ops_write (o : fs_operations) := match o with fgfs_ops => fgfs_write | fat32_ops => fat32_write | ext4_ops => ext4_write end.
Definition ops_seek (o : fs_operations) := match o with fgfs_ops => fgfs_seek | fat32_ops => fat32_seek | ext4_ops => ext4_seek end.
Definition ops_create (o : fs_operations) := match o with fgfs_ops => fgfs_create | fat32_ops => fat32_create | ext4_ops => ext4_create end.
Definition ops_mkdir (o : fs_operations) := match o with fgfs_ops => fgfs_mkdir | fat32_ops => fat32_mkdir | ext4_ops => ext4_mkdir end.
Definition ops_stat (o : fs_operations) := match o with fgfs_ops => fgfs_stat | fat32_ops => fat32_stat | ext4_ops => ext4_stat end.

(** ** The file system core (fs.c) *)
Definition fs_register_filesystem (type : Z) (ops : option fs_operations) : M Z :=
  match ops with
  | None => ret (-1)
  | Some ops =>
      if FS_TYPE_DEVFS + 1 <=? type then ret (-1)
      else modify (λ s, s <| registered_fs := <[Z.to_nat type := Some ops]> (registered_fs s) |>) ;;; ret 0
  end.
Definition fgfs_init : M Z := fs_register_filesystem FS_TYPE_FGFS (Some fgfs_ops).
Definition fat32_init : M Z := fs_register_filesystem FS_TYPE_FAT32 (Some fat32_ops).
Definition ext4_init : M Z := fs_register_filesystem FS_TYPE_EXT4 (Some ext4_ops).

Definition fs_init : M Z :=
  upd_fm (λ _, zero_fm) ;;;
  cache <- new SIZEOF_CACHE (OCache zero_cache) ;;
  upd_fm (λ m, m <| fm_global_cache := cache |>) ;;;
  if cache =? 0 then ret (-1)
  else
    r <- fs_cache_init cache 1024 DEFAULT_BLOCK_SIZE ;;
    if negb (r =? 0) then free cache ;;; ret (-1)
    else
      jn <- new SIZEOF_JOURNAL (OJournal zero_journal) ;;
      upd_fm (λ m, m <| fm_global_journal := jn |>) ;;;
      if jn =? 0 then fs_cache_destroy cache ;;; free cache ;;; ret (-1)
      else
        r <- fs_journal_init jn 1000 100 ;;
        if negb (r =? 0) then free jn ;;; fs_cache_destroy cache ;;; free cache ;;; ret (-1)
        else
          upd_fm (λ m, m <| fm_next_fd := 3 |> <| fm_mounted_count := 0 |> <| fm_mount_points := 0 |>) ;;;
          fgfs_init ;;;
          fat32_init ;;;
          ext4_init ;;;
          upd_fm (λ m, m <| fm_initialized := true |>) ;;;
          ret 0.

(** "Check if mount point already exists". *)
Fixpoint mounted_at (fuel : nat) (mount_point : list Z) (existing : Z) : M bool :=
  match fuel with
  | O => diverge
  | S fuel =>
      if existing =? 0 then ret false
      else
        x <- ld as_mount existing ;;
        eq <- of_option (strcmp_eq (m_path x) mount_point) ;;
        if eq then ret true else mounted_at fuel mount_point (m_next x)
  end.

(** [fs_manager.filesystems[i] = p]: past the array is a fault. *)
Definition set_filesystem (i p : Z) : M () :=
  if i <? MAX_MOUNTED_FILESYSTEMS
  then upd_fm (λ m, m <| fm_filesystems := <[Z.to_nat i := p]> (fm_filesystems m) |>)
  else fault.

(** "Create mount point structure" and all that follows a successful [ops->mount]. *)
Definition link_mount (fs : Z) (ops : fs_operations) (mount_point : list Z) (flags : Z) : M Z :=
  mount <- new SIZEOF_MOUNT (OMount (mk_mount (replicate (Z.to_nat MAX_PATH_LENGTH) stale_byte) 0 0 0 0)) ;;
  if mount =? 0 then ops_unmount ops fs ;;; free fs ;;; ret (-1)
  else
    upd_mount mount (λ x, x <| m_path := strncpy_into mount_point (Z.to_nat (MAX_PATH_LENGTH - 1))
                                           (drop (Z.to_nat (MAX_PATH_LENGTH - 1)) (m_path x)) |>
                            <| m_fs := fs |> <| m_flags := flags |>) ;;;
    t <- hal_get_timestamp ;;
    m <- gets fm ;;
    upd_mount mount (λ x, x <| m_mount_time := t |> <| m_next := fm_mount_points m |>) ;;;
    upd_fm (λ m, m <| fm_mount_points := mount |>) ;;;
    set_filesystem (fm_mounted_count m) fs ;;;
    upd_fm (λ m, m <| fm_mounted_count := u32 (fm_mounted_count m + 1) |>) ;;;
    upd_fs fs (λ x, x <| f_status := FS_STATUS_MOUNTED |> <| f_mount_point := mount |>) ;;;
    ret 0.

Definition fs_mount (device mount_point : option (list Z)) (type flags : Z) : M Z :=
  match device, mount_point with
  | Some device, Some mount_point =>
      if FS_TYPE_DEVFS + 1 <=? type then ret (-1)
      else
        s <- get ;;
        if negb (fm_initialized (fm s)) then ret (-1)
        else
          busy <- mounted_at (obj_fuel s) mount_point (fm_mount_points (fm s)) ;;
          if busy : bool then ret (-1)
          else
            match registered_fs s !! Z.to_nat type with
            | Some (Some ops) =>
                fs <- new SIZEOF_FS (OFs (mk_fs type FS_STATUS_INITIALIZING
                        (take 31 (str (fs_type_to_string type))) (take 63 device) 0 ops 0 flags 1 0)) ;;
                if fs =? 0 then ret (-1)
                else
                  result <- ops_mount ops fs (Some device) flags ;;
                  if negb (result =? 0) then free fs ;;; ret result
                  else link_mount fs ops mount_point flags
            | _ => ret (-1)
            end
  | _, _ => ret (-1)
  end.

(** "Find mount point": the mount and its predecessor. *)
Fixpoint find_mount (fuel : nat) (mount_point : list Z) (mount prev : Z) : M (Z * Z) :=
  match fuel with
  | O => diverge
  | S fuel =>
      if mount =? 0 then ret (0, prev)
      else
        x <- ld as_mount mount ;;
        eq <- of_option (strcmp_eq (m_path x) mount_point) ;;
        if eq then ret (mount, prev) else find_mount fuel mount_point (m_next x) mount
  end.

(** "Remove from filesystems array". *)
Definition remove_filesystem (fs : Z) (m : fs_manager) : fs_manager :=
  let n := fm_mounted_count m in
  let at_ (l : list Z) (i : Z) := nth (Z.to_nat i) l 0 in
  match find_up (Z.to_nat n) 0 (λ i, at_ (fm_filesystems m) i =? fs) with
  | None => m
  | Some i =>
      let l := for_loop (Z.to_nat (n - 1 - i)) i (λ j l, <[Z.to_nat j := at_ l (j + 1)]> l) (fm_filesystems m) in
      m <| fm_filesystems := <[Z.to_nat (n - 1) := 0]> l |> <| fm_mounted_count := n - 1 |>
  end.

Definition fs_unmount (mount_point : option (list Z)) : M Z :=
  match mount_point with
  | None => ret (-1)
  | Some mount_point =>
      s <- get ;;
      if negb (fm_initialized (fm s)) then ret (-1)
      else
        mp <- find_mount (obj_fuel s) mount_point (fm_mount_points (fm s)) 0 ;;
        let '(mount, prev) := mp in
        if mount =? 0 then ret (-1)
        else
          x <- ld as_mount mount ;;
          let fs := m_fs x in
          f <- ld as_fs fs ;;
          if 1 <? f_ref_count f then ret (-1)
          else
            result <- ops_unmount (f_ops f) fs ;;
            if negb (result =? 0) then ret result
            else
              x <- ld as_mount mount ;;
              (if negb (prev =? 0) then upd_mount prev (λ y, y <| m_next := m_next x |>)
               else upd_fm (λ m, m <| fm_mount_points := m_next x |>)) ;;;
              upd_fm (remove_filesystem fs) ;;;
              free fs ;;;
              free mount ;;;
              ret 0
  end.

(** "Unmount all file systems".  [fs_unmount] gets the array [mount->path]. *)
Fixpoint unmount_all (fuel : nat) (mount : Z) : M () :=
  match fuel with
  | O => diverge
  | S fuel =>
      if mount =? 0 then ret ()
      else
        x <- ld as_mount mount ;;
        let next := m_next x in
        n <- of_option (strlen (m_path x)) ;;
        fs_unmount (Some (take n (m_path x))) ;;;
        unmount_all fuel next
  end.

Definition fs_shutdown : M () :=
  s <- get ;;
  if negb (fm_initialized (fm s)) then ret ()
  else
    unmount_all (obj_fuel s) (fm_mount_points (fm s)) ;;;
    m <- gets fm ;;
    when (negb (fm_global_journal m =? 0))
      (fs_journal_destroy (fm_global_journal m) ;;; free (fm_global_journal m)) ;;;
    m <- gets fm ;;
    when (negb (fm_global_cache m =? 0))
      (fs_cache_destroy (fm_global_cache m) ;;; free (fm_global_cache m)) ;;;
    upd_fm (λ m, m <| fm_initialized := false |>).

(** "Find the longest matching mount point". *)
Fixpoint best_mount (fuel : nat) (path : list Z) (mount best_match : Z) (best_match_len : nat) : M Z :=
  match fuel with
  | O => diverge
  | S fuel =>
      if mount =? 0 then ret best_match
      else
        x <- ld as_mount mount ;;
        mount_len <- of_option (strlen (m_path x)) ;;
        if strncmp_eq path (m_path x) mount_len && bool_decide (best_match_len < mount_len)%nat
        then best_mount fuel path (m_next x) mount mount_len
        else best_mount fuel path (m_next x) best_match best_match_len
  end.

Definition fs_get_filesystem (path : option (list Z)) : M Z :=
  match path with
  | None => ret 0
  | Some path =>
      s <- get ;;
      if negb (fm_initialized (fm s)) then ret 0
      else
        best_match <- best_mount (obj_fuel s) path (fm_mount_points (fm s)) 0 0 ;;
        if best_match =? 0 then ret 0
        else x <- ld as_mount best_match ;; ret (m_fs x)
  end.

(** The file system of a path, or the error -1; then its operation. *)
Definition with_fs {X} (path : option (list Z)) (error : X) (k : Z → fs_operations → M X) : M X :=
  fs <- fs_get_filesystem path ;;
  if fs =? 0 then ret error
  else f <- ld as_fs fs ;; k fs (f_ops f).

Definition fs_open (path : option (list Z)) (mode file : Z) : M (Z * Z) :=
  if bool_decide (path = None) || (file =? 0) then ret (-1, 0)
  else with_fs path (-1, 0) (λ fs ops, ops_open ops fs path mode file).
Definition fs_create (path : option (list Z)) (permissions : Z) : M Z :=
  if bool_decide (path = None) then ret (-1)
  else with_fs path (-1) (λ fs ops, ops_create ops fs path permissions).
Definition fs_mkdir (path : option (list Z)) (permissions : Z) : M Z :=
  if bool_decide (path = None) then ret (-1)
  else with_fs path (-1) (λ fs ops, ops_mkdir ops fs path permissions).
Definition fs_stat (path : option (list Z)) (metadata : Z) : M (Z * option file_metadata) :=
  if bool_decide (path = None) || (metadata =? 0) then ret (-1, None)
  else with_fs path (-1, None) (λ fs ops, ops_stat ops fs path metadata).

(** The operations on an open file: [file->fs->ops]. *)
Definition file_ops (file : Z) : M (option fs_operations) :=
  x <- ld as_file file ;;
  if fl_fs x =? 0 then ret None
  else f <- ld as_fs (fl_fs x) ;; ret (Some (f_ops f)).
Definition fs_close (file : Z) : M Z :=
  if file =? 0 then ret (-1)
  else o <- file_ops file ;; match o with None => ret (-1) | Some o => ops_close o file end.
Definition fs_read (file buffer size : Z) : M Z :=
  if (file =? 0) || (buffer =? 0) then ret (-1)
  else o <- file_ops file ;; match o with None => ret (-1) | Some o => ops_read o file buffer size end.
Definition fs_write (file buffer size : Z) : M Z :=
  if (file =? 0) || (buffer =? 0) then ret (-1)
  else o <- file_ops file ;; match o with None => ret (-1) | Some o => ops_write o file buffer size end.
Definition fs_seek (file offset origin : Z) : M Z :=
  if file =? 0 then ret (-1)
  else o <- file_ops file ;; match o with None => ret (-1) | Some o => ops_seek o file offset origin end.
End fs.

(** ** Strings *)

(** A string argument that fits a path array: no NUL byte, shorter than the array. *)
Definition path_ok (p : list Z) : Prop := Forall (λ c, c ≠ 0) p ∧ Z.of_nat (length p) < MAX_PATH_LENGTH - 1.

(** The array that [link_mount] fills with the path [p]. *)
Definition path_array (stale : Z) (p : list Z) : list Z :=
  strncpy_into p (Z.to_nat (MAX_PATH_LENGTH - 1)) [stale].

Lemma strcmp_eq_spec p q rest :
  Forall (λ c, c ≠ 0) p → Forall (λ c, c ≠ 0) q →
  strcmp_eq (p ++ 0 :: rest) q = Some (bool_decide (p = q)).
Proof.
  intros Hp. revert q. induction Hp as [|a p Ha Hp IH]; intros [|c q] Hq; cbn [app strcmp_eq].
  - by rewrite bool_decide_true.
  - apply Forall_cons in Hq as [Hc _]. rewrite (proj2 (Z.eqb_neq 0 c)) by done. by rewrite bool_decide_false.
  - rewrite (proj2 (Z.eqb_neq a 0)) by done. by rewrite bool_decide_false.
  - apply Forall_cons in Hq as [_ Hq]. destruct (Z.eqb_spec a c) as [->|Hne].
    + rewrite IH by done. f_equal. apply bool_decide_ext. naive_solver.
    + rewrite bool_decide_false; [done|]. naive_solver.
Qed.

Lemma strlen_spec p rest : Forall (λ c, c ≠ 0) p → strlen (p ++ 0 :: rest) = Some (length p).
Proof.
  induction 1 as [|a p Ha Hp IH]; [done|]. cbn [app strlen]. rewrite (proj2 (Z.eqb_neq a 0)), IH by done. done.
Qed.

Lemma path_array_split stale p : path_ok p → ∃ rest, path_array stale p = p ++ 0 :: rest.
Proof.
  intros [_ Hlen]. unfold path_array, strncpy_into. rewrite take_ge by lia.
  destruct (Z.to_nat (MAX_PATH_LENGTH - 1) - length p)%nat as [|k] eqn:E; [lia|]. cbn. eauto.
Qed.

Lemma strcmp_path stale p q : path_ok p → Forall (λ c, c ≠ 0) q →
  strcmp_eq (path_array stale p) q = Some (bool_decide (p = q)).
Proof. intros Hp Hq. destruct (path_array_split stale p Hp) as [r ->]. apply strcmp_eq_spec; [apply Hp|done]. Qed.

Lemma strlen_path stale p : path_ok p → strlen (path_array stale p) = Some (length p).
Proof. intros Hp. destruct (path_array_split stale p Hp) as [r ->]. apply strlen_spec, Hp. Qed.

Lemma take_path stale p : path_ok p → take (length p) (path_array stale p) = p.
Proof. intros Hp. destruct (path_array_split stale p Hp) as [r ->]. by rewrite take_app_length. Qed.

(** ** wp rules *)
Section rules.
Context {A : Type} `{KA : KAlloc A} `{!FsEnv A}.
Implicit Types s : fstate A.
Implicit Types ob : gmap Z obj.

Lemma wp_ld {X} (as_x : obj → option X) p o x Q s :
  objs s !! p = Some o → as_x o = Some x → Q x s → wp (ld as_x p) Q s.
Proof. intros Ho Hx HQ. unfold wp, ld. rewrite Ho. cbn. by rewrite Hx. Qed.

Lemma wp_st p o Q m r ob t a :
  Q () (mk_fstate m r (<[p := o]> ob) t a) → wp (st p o) Q (mk_fstate m r ob t (a : A)).
Proof. done. Qed.

Lemma wp_upd_fs p x f Q m r ob t a :
  ob !! p = Some (OFs x) → Q () (mk_fstate m r (<[p := OFs (f x)]> ob) t a) →
  wp (upd_fs p f) Q (mk_fstate m r ob t (a : A)).
Proof. intros Hx HQ. apply wp_bind, (wp_ld _ _ (OFs x) x); [done..|]. by apply wp_st. Qed.

Lemma wp_upd_mount p x f Q m r ob t a :
  ob !! p = Some (OMount x) → Q () (mk_fstate m r (<[p := OMount (f x)]> ob) t a) →
  wp (upd_mount p f) Q (mk_fstate m r ob t (a : A)).
Proof. intros Hx HQ. apply wp_bind, (wp_ld _ _ (OMount x) x); [done..|]. by apply wp_st. Qed.

Lemma wp_set_priv p x f Q m r ob t a :
  ob !! p = Some (OFgfs x) → Q () (mk_fstate m r (<[p := OFgfs (f x)]> ob) t a) →
  wp (set_priv p f) Q (mk_fstate m r ob t (a : A)).
Proof. intros Hx HQ. apply wp_bind, (wp_ld _ _ (OFgfs x) x); [done..|]. by apply wp_st. Qed.

Lemma wp_upd_fm f Q m r ob t a :
  Q () (mk_fstate (f m) r ob t a) → wp (upd_fm f) Q (mk_fstate m r ob t (a : A)).
Proof. done. Qed.

Lemma wp_timestamp Q m r ob t a :
  Q (u64 (timestamp_at t)) (mk_fstate m r ob (t + 1) a) → wp hal_get_timestamp Q (mk_fstate m r ob t (a : A)).
Proof. done. Qed.

(** Allocation: nothing but the allocator changes, or a fresh object appears. *)
Lemma wp_new_run n o Q m r ob t a :
  ka_inv (dom ob) a → 0 < n < 2 ^ 63 →
  (∀ a', ka_malloc n a = Ok (0, a') → ka_inv (dom ob) a' → Q 0 (mk_fstate m r ob t a')) →
  (∀ p a', ka_malloc n a = Ok (p, a') → p ≠ 0 → ob !! p = None → ka_inv (dom (<[p := o]> ob)) a' →
     Q p (mk_fstate m r (<[p := o]> ob) t a')) →
  wp (new n o) Q (mk_fstate m r ob t a).
Proof.
  intros Ha Hn HQ0 HQ. unfold new. apply wp_bind.
  pose proof (ka_malloc_spec (dom ob) a n Ha Hn) as Hm. apply wp_run in Hm as (p & a' & Hm & Hp).
  unfold wp, lift_falloc. cbn. rewrite Hm. destruct Hp as [[-> Ha']|(Hp0 & Hp & Ha')].
  - by apply HQ0.
  - rewrite (proj2 (Z.eqb_neq p 0)) by done. apply HQ; [done|done| |by rewrite dom_insert_L].
    by apply not_elem_of_dom.
Qed.

Lemma wp_new n o Q m r ob t a :
  ka_inv (dom ob) a → 0 < n < 2 ^ 63 →
  (∀ a', ka_inv (dom ob) a' → Q 0 (mk_fstate m r ob t a')) →
  (∀ p a', p ≠ 0 → ob !! p = None → ka_inv (dom (<[p := o]> ob)) a' → Q p (mk_fstate m r (<[p := o]> ob) t a')) →
  wp (new n o) Q (mk_fstate m r ob t a).
Proof. intros Ha Hn HQ0 HQ. apply wp_new_run; auto. Qed.

Lemma wp_free p Q m r ob t a :
  ka_inv (dom ob) a → is_Some (ob !! p) →
  (∀ a', ka_inv (dom (delete p ob)) a' → Q () (mk_fstate m r (delete p ob) t a')) →
  wp (free p) Q (mk_fstate m r ob t a).
Proof.
  intros Ha Hp HQ. unfold free. apply wp_bind.
  pose proof (ka_free_spec (dom ob) a p Ha ltac:(by apply elem_of_dom)) as Hm.
  apply wp_run in Hm as (? & a' & Hm & Ha'). unfold wp at 1, lift_falloc. cbn. rewrite Hm.
  apply wp_modify. apply HQ. by rewrite dom_delete_L.
Qed.

(** Freeing what was just allocated restores the store. *)
Lemma dom_insert_same ob p o o' : ob !! p = Some o → dom (<[p := o']> ob) = dom ob.
Proof. intros Hp. by rewrite dom_insert_lookup_L. Qed.
End rules.

(** ** What a mounted file system owns

    [private_ok ops p l ob]: the private structure at [p] and all it points to are
    the live objects [l] of [ob], and hold nothing else. *)
Definition private_ok (ops : fs_operations) (p : Z) (l : list Z) (ob : gmap Z obj) : Prop :=
  match ops with
  | fgfs_ops => ∃ sb c priv sbx cx, l = [p; sb; c] ∧ ob !! p = Some (OFgfs priv) ∧
      fp_superblock priv = sb ∧ fp_cache priv = c ∧ fp_journal priv = 0 ∧ fp_group_descs priv = 0 ∧
      ob !! sb = Some (OSb sbx) ∧ ob !! c = Some (OCache cx) ∧ c_entries cx = 0
  | fat32_ops => ∃ priv, l = [p] ∧ ob !! p = Some (OFat priv) ∧ ft_cache priv = 0
  | ext4_ops => ∃ priv, l = [p] ∧ ob !! p = Some (OExt priv) ∧ xp_cache priv = 0
  end.

(** The flush of a cache returns and keeps the cache's entries. *)
Class FsLaws (A : Type) `{!FsEnv A} : Prop := {
  cache_flush_spec c cx m r ob t (a : A) (Q : Z → fstate A → Prop) :
    ob !! c = Some (OCache cx) →
    (∀ res cx', c_entries cx' = c_entries cx → Q res (mk_fstate m r (<[c := OCache cx']> ob) t a)) →
    wp (cache_flush c) Q (mk_fstate m r ob t a)
}.

(** Equality of stores that differ by allocations and frees at known addresses. *)
Ltac store_eq :=
  apply map_eq; intros ?; rewrite ?lookup_delete, ?lookup_insert;
  repeat case_decide; simplify_eq; congruence.

Lemma private_ok_ext ops p l (ob ob' : gmap Z obj) :
  (∀ a, a ∈ l → ob' !! a = ob !! a) → private_ok ops p l ob → private_ok ops p l ob'.
Proof.
  intros He. destruct ops; cbn.
  - intros (sb & c & priv & sbx & cx & -> & Hp & Hsb & Hc & Hj & Hg & Hsbx & Hcx & Hen).
    exists sb, c, priv, sbx, cx. rewrite !He by set_solver. done.
  - intros (priv & -> & Hp & Hc). exists priv. rewrite !He by set_solver. done.
  - intros (priv & -> & Hp & Hc). exists priv. rewrite !He by set_solver. done.
Qed.

Lemma fresh_ne (ob : gmap Z obj) p q o : ob !! p = None → ob !! q = Some o → q ≠ p.
Proof. intros Hp Hq ->. congruence. Qed.

Section drivers.
Context {A : Type} `{KA : KAlloc A} `{!FsEnv A} `{!FsLaws A}.
Implicit Types s : fstate A.
Implicit Types ob : gmap Z obj.

(** What a mount allocates for its private data. *)
Definition private_sizes (ops : fs_operations) : list Z :=
  match ops with
  | fgfs_ops => [SIZEOF_FGFS; SIZEOF_SB; SIZEOF_CACHE]
  | fat32_ops => [SIZEOF_FAT32]
  | ext4_ops => [SIZEOF_EXT4]
  end.

(** A mount either leaves no trace, because an allocation failed, or adds its private objects. *)
Definition mounts (ops : fs_operations) (fs : Z) (x : filesystem) (ob ob' : gmap Z obj) (l : list Z) : Prop :=
  ∃ p ob1, ob' = <[fs := OFs (x <| f_private_data := p |> <| f_status := FS_STATUS_READY |>)]> ob1 ∧
    p ≠ 0 ∧ private_ok ops p l ob1 ∧ NoDup l ∧ Forall (λ b, b ≠ 0) l ∧ (∀ a, a ∈ l → ob !! a = None) ∧
    (∀ a, a ∉ l → ob1 !! a = ob !! a).

Lemma simple_mount_spec ops n o fs x Q m r ob t a :
  (∀ p ob', ob' !! p = Some o → private_ok ops p [p] ob') → 0 < n < 2 ^ 63 →
  ob !! fs = Some (OFs x) → ka_inv (dom ob) a →
  (∀ a', (∀ ns, ¬ supplies (n :: ns) a) → ka_inv (dom ob) a' → Q (-1) (mk_fstate m r ob t a')) →
  (∀ l ob' a', (∀ ns, supplies (n :: ns) a ↔ supplies ns a') → mounts ops fs x ob ob' l →
     ka_inv (dom ob') a' → Q 0 (mk_fstate m r ob' t a')) →
  wp (priv <- new n o ;;
      if priv =? 0 then ret (-1)
      else upd_fs fs (λ x, x <| f_private_data := priv |> <| f_status := FS_STATUS_READY |>) ;;; ret 0)
    Q (mk_fstate m r ob t a).
Proof.
  intros Hpriv Hn Hfs Ha HQ1 HQ0. apply wp_bind, wp_new_run; [done..| |].
  - intros a' Hal Ha'. apply HQ1; [|done]. intros ns. by apply (supplies_fail _ _ _ a').
  - intros p a' Hal Hp0 Hp Ha'. rewrite (proj2 (Z.eqb_neq p 0)) by done.
    pose proof (fresh_ne ob p fs _ Hp Hfs) as Hne.
    apply wp_bind, (wp_upd_fs _ x); [by rewrite lookup_insert_ne|]. apply wp_ret. apply (HQ0 [p]).
    + intros ns. by apply (supplies_cons _ _ _ p).
    + exists p, (<[p := o]> ob). split_and!; [done|done| |by apply NoDup_singleton|by repeat constructor| |].
      * apply Hpriv. by rewrite lookup_insert_eq.
      * intros b ->%list_elem_of_singleton. done.
      * intros b Hb. rewrite lookup_insert_ne; [done|]. set_solver.
    + rewrite (dom_insert_same _ fs (OFs x)); [done|]. by rewrite lookup_insert_ne.
Qed.

Lemma fgfs_mount_spec fs x dev flags Q m r ob t a :
  fs ≠ 0 → ob !! fs = Some (OFs x) → ka_inv (dom ob) a →
  (∀ a', (∀ ns, ¬ supplies (private_sizes fgfs_ops ++ ns) a) → ka_inv (dom ob) a' → Q (-1) (mk_fstate m r ob t a')) →
  (∀ l ob' a', (∀ ns, supplies (private_sizes fgfs_ops ++ ns) a ↔ supplies ns a') → mounts fgfs_ops fs x ob ob' l →
     ka_inv (dom ob') a' → Q 0 (mk_fstate m r ob' t a')) →
  wp (fgfs_mount fs (Some dev) flags) Q (mk_fstate m r ob t a).
Proof.
  intros Hfs0 Hfs Ha HQ1 HQ0. unfold fgfs_mount. rewrite (proj2 (Z.eqb_neq fs 0)) by done.
  apply wp_bind, wp_new_run; [done|done| |].
  { intros a1 Hal Ha1. apply HQ1; [|done]. intros ns. by apply (supplies_fail _ _ _ a1). }
  intros p a1 Hal1 Hp0 Hp Ha1. rewrite (proj2 (Z.eqb_neq p 0)) by done.
  set (ob1 := <[p := _]> ob) in *. assert (ob1 !! p = Some (OFgfs zero_fgfs)) as Hp1 by apply lookup_insert_eq.
  apply wp_bind, wp_new_run; [done|done| |].
  { intros a2 Hal2 Ha2. apply wp_bind, wp_free; [done|by eexists|]. intros a3 Ha3. apply wp_ret.
    unfold ob1 in *. rewrite delete_insert_id in Ha3 |- * by done. apply HQ1; [|done]. intros ns. cbn [private_sizes app].
    rewrite (supplies_cons _ _ _ p a1) by done. by apply (supplies_fail _ _ _ a2). }
  intros sb a2 Hal2 Hsb0 Hsb Ha2. rewrite (proj2 (Z.eqb_neq sb 0)) by done.
  set (ob2 := <[sb := _]> ob1) in *.
  pose proof (fresh_ne _ _ _ _ Hsb Hp1) as Hpsb.
  assert (ob !! sb = None) as Hsbn by (unfold ob1 in Hsb; by rewrite lookup_insert_ne in Hsb by done).
  assert (ob2 !! p = Some (OFgfs zero_fgfs)) as Hp2 by (unfold ob2; by rewrite lookup_insert_ne).
  cbn [sb_magic minimal_superblock FGFS_MAGIC Z.eqb Pos.eqb negb].
  apply wp_bind, (wp_set_priv _ zero_fgfs); [done|].
  set (ob3 := <[p := _]> ob2).
  assert (dom ob3 = dom ob2) as Hd3 by (by apply (dom_insert_same _ _ (OFgfs zero_fgfs))).
  rewrite <- Hd3 in Ha2. assert (is_Some (ob3 !! sb)) as Hsb3.
  { unfold ob3, ob2. rewrite lookup_insert_ne, lookup_insert_eq by done. by eexists. }
  apply wp_bind, wp_new_run; [done|done| |].
  { intros a3 Hal3 Ha3. apply wp_bind, wp_free; [done|done|]. intros a4 Ha4.
    apply wp_bind, wp_free; [done| |].
    { rewrite lookup_delete_ne by done. unfold ob3. rewrite lookup_insert_eq. by eexists. }
    intros a5 Ha5. apply wp_ret.
    assert (delete p (delete sb ob3) = ob) as Hback by (unfold ob3, ob2, ob1 in *; store_eq).
    rewrite Hback in Ha5 |- *. apply HQ1; [|done]. intros ns. cbn [private_sizes app].
    rewrite (supplies_cons _ _ _ p a1), (supplies_cons _ _ _ sb a2) by done. by apply (supplies_fail _ _ _ a3). }
  intros c a3 Hal3 Hc0 Hc Ha3. rewrite (proj2 (Z.eqb_neq c 0)) by done.
  assert (c ≠ p ∧ c ≠ sb ∧ c ≠ fs ∧ p ≠ fs ∧ sb ≠ fs) as (Hcp & Hcsb & Hcfs & Hpfs & Hsbfs).
  { pose proof (fresh_ne ob p fs _ Hp Hfs) as Hn1. pose proof (fresh_ne ob sb fs _ Hsbn Hfs) as Hn2.
    assert (ob3 !! fs = Some (OFs x)) as Hfs3 by (unfold ob3, ob2, ob1; by rewrite !lookup_insert_ne by done).
    destruct Hsb3 as [o3 Hsb3]. pose proof (fresh_ne _ _ _ _ Hc Hsb3) as Hn3.
    pose proof (fresh_ne _ _ _ _ Hc Hfs3) as Hn4.
    pose proof (fresh_ne _ _ _ _ Hc (lookup_insert_eq ob2 p _)) as Hn5. by split_and!. }
  apply wp_bind, (wp_set_priv _ (init_private sb minimal_superblock)).
  { rewrite lookup_insert_ne by done. apply lookup_insert_eq. }
  set (ob5 := <[p := _]> (<[c := _]> ob3)).
  apply wp_bind. eapply wp_ld; [apply lookup_insert_eq|reflexivity|].
  apply wp_bind. unfold fs_cache_init. rewrite (proj2 (Z.eqb_neq c 0)) by done.
  apply wp_bind, (wp_ld _ _ (OCache zero_cache) zero_cache);
    [unfold ob5; cbn; by rewrite lookup_insert_ne, lookup_insert_eq|done|].
  apply wp_bind, wp_st, wp_ret. cbn [Z.eqb negb]. apply wp_bind, wp_ret. cbn [Z.eqb negb].
  set (ob6 := <[c := _]> ob5).
  assert (ob6 !! fs = Some (OFs x)) as Hfs6.
  { unfold ob6, ob5, ob3, ob2, ob1. by rewrite !lookup_insert_ne by done. }
  assert (dom ob6 = dom (<[c := OCache zero_cache]> ob3)) as Hd6.
  { unfold ob6, ob5. rewrite !dom_insert_L. unfold ob3. rewrite dom_insert_L. set_solver. }
  apply wp_bind, (wp_upd_fs _ x); [done|]. apply wp_ret. apply (HQ0 [p; sb; c]).
  - intros ns. cbn [private_sizes app].
    by rewrite (supplies_cons _ _ _ p a1), (supplies_cons _ _ _ sb a2), (supplies_cons _ _ _ c a3) by done.
  - exists p, ob6. split_and!; [done|done| | |by repeat constructor| |].
    + eexists sb, c, _, _, _. unfold ob6, ob5, ob3, ob2. split_and!; [done|..].
      * rewrite lookup_insert_ne, lookup_insert_eq by done. done.
      * done.
      * done.
      * done.
      * done.
      * by rewrite !lookup_insert_ne, lookup_insert_eq by done.
      * by rewrite lookup_insert_eq.
      * done.
    + repeat constructor; set_solver.
    + intros b. rewrite !elem_of_cons. intros [->|[->|[->|[]%not_elem_of_nil]]]; [done|..].
      * done.
      * unfold ob3, ob2, ob1 in Hc. by rewrite !lookup_insert_ne in Hc by done.
    + intros b Hb. unfold ob6, ob5, ob3, ob2, ob1. rewrite !lookup_insert_ne by set_solver. done.
  - rewrite (dom_insert_same _ fs (OFs x)) by done. by rewrite Hd6.
Qed.

(** An unmount removes exactly the private objects. *)
Definition unmounts (fs : Z) (l : list Z) (ob ob' : gmap Z obj) : Prop :=
  (∀ b, b ∈ l → ob' !! b = None) ∧ (∀ b, b ∉ l → b ≠ fs → ob' !! b = ob !! b) ∧
  ∃ x, ob' !! fs = Some (OFs x).

Lemma wp_cache_destroy c cx Q m r ob t a :
  c ≠ 0 → ob !! c = Some (OCache cx) → c_entries cx = 0 →
  Q () (mk_fstate m r (<[c := OCache zero_cache]> ob) t a) →
  wp (fs_cache_destroy c) Q (mk_fstate m r ob t (a : A)).
Proof.
  intros Hc0 Hc He HQ. unfold fs_cache_destroy. rewrite (proj2 (Z.eqb_neq c 0)) by done.
  apply wp_bind, (wp_ld _ _ (OCache cx) cx); [done..|]. apply wp_bind, wp_get, wp_bind.
  rewrite He. cbn [obj_fuel free_entries Z.eqb]. apply wp_ret. by apply wp_st.
Qed.

Lemma fgfs_unmount_spec fs x l Q m r ob t a :
  fs ≠ 0 → ob !! fs = Some (OFs x) → f_private_data x ≠ 0 → private_ok fgfs_ops (f_private_data x) l ob →
  NoDup l → fs ∉ l → Forall (λ b, b ≠ 0) l → ka_inv (dom ob) a →
  (∀ ob' a', unmounts fs l ob ob' → ka_inv (dom ob') a' → Q 0 (mk_fstate m r ob' t a')) →
  wp (fgfs_unmount fs) Q (mk_fstate m r ob t a).
Proof.
  intros Hfs0 Hfs Hp0 (sb & c & priv & sbx & cx & -> & Hp & Hsb & Hc & Hj & Hg & Hsbx & Hcx & Hen) Hnd Hfsl Hnz Ha HQ.
  set (p := f_private_data x) in *.
  assert (c ≠ 0 ∧ sb ≠ 0) as [Hc0 Hsb0].
  { rewrite Forall_forall in Hnz. split; apply Hnz; set_solver. }
  assert (p ≠ sb ∧ p ≠ c ∧ sb ≠ c ∧ fs ≠ p ∧ fs ≠ sb ∧ fs ≠ c) as (Hpsb & Hpc & Hsbc & Hfp & Hfsb & Hfc).
  { apply NoDup_cons in Hnd as [Hn1 [Hn2 _]%NoDup_cons]. split_and!; set_solver. }
  unfold fgfs_unmount. rewrite (proj2 (Z.eqb_neq fs 0)) by done.
  apply wp_bind, (wp_ld _ _ (OFs x) x); [done..|]. cbv zeta. fold p. rewrite (proj2 (Z.eqb_neq p 0)) by done.
  apply wp_bind, (wp_ld _ _ (OFgfs priv) priv); [done..|]. rewrite Hc, (proj2 (Z.eqb_neq c 0)) by done. cbn [negb].
  apply wp_bind, wp_bind, (cache_flush_spec c cx); [done|]. intros res cx' Hen'. apply wp_ret.
  set (ob1 := <[c := OCache cx']> ob).
  assert (ob1 !! p = Some (OFgfs priv)) as Hp1 by (unfold ob1; by rewrite lookup_insert_ne).
  apply wp_bind, (wp_ld _ _ (OFgfs priv) priv); [done..|]. rewrite Hj. apply wp_bind, wp_ret.
  apply wp_bind, (wp_ld _ _ (OFgfs priv) priv); [done..|]. rewrite Hc, (proj2 (Z.eqb_neq c 0)) by done. cbn [negb when].
  apply wp_bind, wp_bind, (wp_cache_destroy c cx'); [done|apply lookup_insert_eq|congruence|].
  set (ob2 := <[c := OCache zero_cache]> ob1).
  assert (dom ob2 = dom ob) as Hd2.
  { unfold ob2, ob1. rewrite !dom_insert_L. assert (c ∈ dom ob) by (apply elem_of_dom; eauto). set_solver. }
  rewrite <- Hd2 in Ha. apply wp_free; [done|unfold ob2; rewrite lookup_insert_eq; eauto|].
  intros a1 Ha1. set (ob3 := delete c ob2) in *.
  assert (ob3 !! p = Some (OFgfs priv)) as Hp3.
  { unfold ob3, ob2, ob1. by rewrite lookup_delete_ne, !lookup_insert_ne by done. }
  apply wp_bind, (wp_ld _ _ (OFgfs priv) priv); [done..|]. rewrite Hg. apply wp_bind, wp_ret.
  apply wp_bind, (wp_ld _ _ (OFgfs priv) priv); [done..|]. rewrite Hsb, (proj2 (Z.eqb_neq sb 0)) by done. cbn [negb when].
  apply wp_bind, wp_free; [done| |].
  { unfold ob3, ob2, ob1. rewrite lookup_delete_ne, !lookup_insert_ne by done. eauto. }
  intros a2 Ha2. set (ob4 := delete sb ob3) in *. apply wp_bind, wp_free; [done| |].
  { unfold ob4. rewrite lookup_delete_ne by done. eauto. }
  intros a3 Ha3. set (ob5 := delete p ob4) in *.
  assert (ob5 !! fs = Some (OFs x)) as Hfs5.
  { unfold ob5, ob4, ob3, ob2, ob1. by rewrite !lookup_delete_ne, !lookup_insert_ne by done. }
  apply wp_bind, (wp_upd_fs _ x); [done|]. apply wp_ret. apply HQ.
  - unfold ob5, ob4, ob3, ob2, ob1. split_and!.
    + intros b Hb. rewrite !elem_of_cons in Hb. rewrite !lookup_insert, !lookup_delete, !lookup_insert.
      destruct Hb as [->|[->|[->|[]%not_elem_of_nil]]]; repeat case_decide; congruence.
    + intros b Hb Hbf. rewrite !lookup_insert, !lookup_delete, !lookup_insert.
      repeat case_decide; try congruence; set_solver.
    + rewrite lookup_insert_eq. eauto.
  - by rewrite (dom_insert_same _ fs (OFs x)).
Qed.

Lemma drop_private_spec fs x p Q m r ob t a :
  ob !! fs = Some (OFs x) → is_Some (ob !! p) → fs ≠ p → ka_inv (dom ob) a →
  (∀ ob' a', unmounts fs [p] ob ob' → ka_inv (dom ob') a' → Q 0 (mk_fstate m r ob' t a')) →
  wp (drop_private fs p 0) Q (mk_fstate m r ob t a).
Proof.
  intros Hfs Hp Hne Ha HQ. unfold drop_private. apply wp_bind, wp_ret.
  apply wp_bind, wp_free; [done..|]. intros a1 Ha1.
  assert (delete p ob !! fs = Some (OFs x)) as Hfs1 by (by rewrite lookup_delete_ne).
  apply wp_bind, (wp_upd_fs _ x); [done|]. apply wp_ret. apply HQ.
  - split_and!.
    + intros b ->%list_elem_of_singleton. rewrite lookup_insert_ne by done. apply lookup_delete_eq.
    + intros b Hb Hbf. rewrite lookup_insert_ne, lookup_delete_ne by set_solver. done.
    + rewrite lookup_insert_eq. eauto.
  - by rewrite (dom_insert_same _ fs (OFs x)).
Qed.

(** Both directions through the operation table. *)
Lemma ops_mount_spec ops fs x dev flags Q m r ob t a :
  fs ≠ 0 → ob !! fs = Some (OFs x) → ka_inv (dom ob) a →
  (∀ a', (∀ ns, ¬ supplies (private_sizes ops ++ ns) a) → ka_inv (dom ob) a' → Q (-1) (mk_fstate m r ob t a')) →
  (∀ l ob' a', (∀ ns, supplies (private_sizes ops ++ ns) a ↔ supplies ns a') → mounts ops fs x ob ob' l →
     ka_inv (dom ob') a' → Q 0 (mk_fstate m r ob' t a')) →
  wp (ops_mount ops fs (Some dev) flags) Q (mk_fstate m r ob t a).
Proof.
  intros Hfs0 Hfs Ha HQ1 HQ0. destruct ops; cbn [ops_mount].
  - by apply (fgfs_mount_spec fs x).
  - unfold fat32_mount. rewrite (proj2 (Z.eqb_neq fs 0)) by done.
    apply (simple_mount_spec fat32_ops _ _ fs x); [|done..]. intros p ob' Hp. by eexists.
  - unfold ext4_mount. rewrite (proj2 (Z.eqb_neq fs 0)) by done.
    apply (simple_mount_spec ext4_ops _ _ fs x); [|done..]. intros p ob' Hp. by eexists.
Qed.

Lemma ops_unmount_spec ops fs x l Q m r ob t a :
  fs ≠ 0 → ob !! fs = Some (OFs x) → f_private_data x ≠ 0 → private_ok ops (f_private_data x) l ob →
  NoDup l → fs ∉ l → Forall (λ b, b ≠ 0) l → ka_inv (dom ob) a →
  (∀ ob' a', unmounts fs l ob ob' → ka_inv (dom ob') a' → Q 0 (mk_fstate m r ob' t a')) →
  wp (ops_unmount ops fs) Q (mk_fstate m r ob t a).
Proof.
  intros Hfs0 Hfs Hp0 Hpriv Hnd Hfsl Hnz Ha HQ. destruct ops; cbn [ops_unmount].
  - by apply (fgfs_unmount_spec fs x l).
  - destruct Hpriv as (priv & -> & Hp & Hc). unfold fat32_unmount.
    rewrite (proj2 (Z.eqb_neq fs 0)) by done. apply wp_bind, (wp_ld _ _ (OFs x) x); [done..|].
    rewrite (proj2 (Z.eqb_neq (f_private_data x) 0)) by done.
    apply wp_bind, (wp_ld _ _ (OFat priv) priv); [done..|]. rewrite Hc.
    apply (drop_private_spec fs x); [done|eauto|set_solver|done|done].
  - destruct Hpriv as (priv & -> & Hp & Hc). unfold ext4_unmount.
    rewrite (proj2 (Z.eqb_neq fs 0)) by done. apply wp_bind, (wp_ld _ _ (OFs x) x); [done..|].
    rewrite (proj2 (Z.eqb_neq (f_private_data x) 0)) by done.
    apply wp_bind, (wp_ld _ _ (OExt priv) priv); [done..|]. rewrite Hc.
    apply (drop_private_spec fs x); [done|eauto|set_solver|done|done].
Qed.
End drivers.
