(* ===== verification/Mounts.v ===== *)
(** * The mount table of fs/fs.c

    The invariant of [fs_manager]: the list of mount points, the array of file
    systems, and what each mounted file system owns in the store.  [fs_mount] adds
    exactly one entry or leaves no trace, [fs_unmount] removes exactly what a mount
    added, and path resolution finds the longest mount path. *)
From S2P Require Import Prelude.
From S2P Require Import Heap.
From S2P Require Import SchedState.
From S2P Require Import Fs.
Local Open Scope Z_scope.

(** ** The mount table *)

(** One mounted file system: its mount point structure, its [filesystem_t], the
    private objects, the path and the operation table. *)
Record mrec := mk_mrec {
  r_mount : Z; r_fs : Z; r_own : list Z; r_path : list Z; r_ops : fs_operations
}.
Definition addrs (mr : mrec) : list Z := r_mount mr :: r_fs mr :: r_own mr.

Section table.
Context (stale : Z).

(** What the store holds for [mr]; [next] is the link of its mount point. *)
Definition entry_ok (ob : gmap Z obj) (mr : mrec) (next : Z) : Prop :=
  ∃ x f, ob !! r_mount mr = Some (OMount x) ∧ m_next x = next ∧ m_fs x = r_fs mr ∧
    m_path x = path_array stale (r_path mr) ∧ path_ok (r_path mr) ∧
    ob !! r_fs mr = Some (OFs f) ∧ f_ref_count f = 1 ∧ f_ops f = r_ops mr ∧
    f_private_data f ≠ 0 ∧ private_ok (r_ops mr) (f_private_data f) (r_own mr) ob.

Definition head (ms : list mrec) : Z := match ms with [] => 0 | mr :: _ => r_mount mr end.

(** The mount points [ms], newest first, are linked from [head ms] to [tl]. *)
Fixpoint chain (ob : gmap Z obj) (ms : list mrec) (tl : Z) : Prop :=
  match ms with
  | [] => True
  | mr :: ms => entry_ok ob mr (match ms with [] => tl | _ => head ms end) ∧ chain ob ms tl
  end.

Lemma entry_ext ob ob' mr next :
  (∀ a, a ∈ addrs mr → ob' !! a = ob !! a) → entry_ok ob mr next → entry_ok ob' mr next.
Proof.
  intros He (x & f & Hx & Hn & Hfs & Hp & Hpo & Hf & Hrc & Hops & Hp0 & Hpr).
  exists x, f. rewrite !He by (unfold addrs; set_solver). split_and!; try done.
  eapply private_ok_ext; [|done]. intros a Ha. apply He. unfold addrs. set_solver.
Qed.

Lemma chain_ext ob ob' ms tl :
  (∀ a, a ∈ concat (map addrs ms) → ob' !! a = ob !! a) → chain ob ms tl → chain ob' ms tl.
Proof.
  induction ms as [|mr ms IH]; [done|]. cbn [map concat chain]. intros He [H1 H2]. split.
  - eapply entry_ext; [|done]. intros a Ha. apply He. set_solver.
  - apply IH; [|done]. intros a Ha. apply He. set_solver.
Qed.

Lemma head_app l1 l2 tl : (match l1 ++ l2 with [] => tl | _ => head (l1 ++ l2) end) =
  match l1 with [] => match l2 with [] => tl | _ => head l2 end | _ => head l1 end.
Proof. by destruct l1. Qed.

Lemma chain_app ob l1 l2 tl :
  chain ob (l1 ++ l2) tl ↔ chain ob l1 (match l2 with [] => tl | _ => head l2 end) ∧ chain ob l2 tl.
Proof.
  induction l1 as [|mr l1 IH]; cbn [app chain]; [tauto|]. rewrite IH.
  replace (match l1 ++ l2 with [] => tl | _ => head (l1 ++ l2) end)
    with (match l1 with [] => match l2 with [] => tl | _ => head l2 end | _ => head l1 end)
    by (symmetry; apply head_app). tauto.
Qed.

Lemma chain_elem ob ms tl mr : chain ob ms tl → mr ∈ ms → ∃ next, entry_ok ob mr next.
Proof.
  induction ms as [|mr' ms IH]; [set_solver|]. cbn [chain]. intros [H1 H2] [->|Hin]%elem_of_cons; eauto.
Qed.
End table.

Lemma private_live ops p l ob b : private_ok ops p l ob → b ∈ l → is_Some (ob !! b).
Proof.
  destruct ops; cbn.
  - intros (sb & c & priv & sbx & cx & -> & Hp & _ & _ & _ & _ & Hsb & Hc & _).
    rewrite !elem_of_cons. intros [->|[->|[->|[]%not_elem_of_nil]]]; eauto.
  - intros (priv & -> & Hp & _) ->%list_elem_of_singleton. eauto.
  - intros (priv & -> & Hp & _) ->%list_elem_of_singleton. eauto.
Qed.

Record fs_inv {A} `{KA : KAlloc A} `{!FsEnv A} (s : fstate A) (ms : list mrec) : Prop := {
  fi_init : fm_initialized (fm s) = true;
  fi_head : fm_mount_points (fm s) = head ms;
  fi_chain : chain stale_byte (objs s) ms 0;
  fi_nodup : NoDup (concat (map addrs ms));
  fi_paths : NoDup (map r_path ms);
  fi_count : fm_mounted_count (fm s) = Z.of_nat (length ms);
  fi_max : (length ms ≤ 64)%nat;
  fi_array : fm_filesystems (fm s) = map r_fs (reverse ms) ++ replicate (64 - length ms) 0;
  fi_alloc : ka_inv (dom (objs s)) (falloc s);
  fi_null : objs s !! 0 = None
}.

(** Two managers that differ at most in the mount table. *)
Definition table_only (m m' : fs_manager) : Prop :=
  fm_open_files m' = fm_open_files m ∧ fm_next_fd m' = fm_next_fd m ∧
  fm_global_cache m' = fm_global_cache m ∧ fm_global_journal m' = fm_global_journal m ∧
  fm_initialized m' = fm_initialized m.

Section mount.
Context {A : Type} `{KA : KAlloc A} `{!FsEnv A} `{!FsLaws A}.
Implicit Types s : fstate A.
Implicit Types ob : gmap Z obj.

Lemma addrs_live s ms a : fs_inv s ms → a ∈ concat (map addrs ms) → a ≠ 0 ∧ is_Some (objs s !! a).
Proof.
  intros Hi Ha. assert (is_Some (objs s !! a)) as Hs.
  { apply list_elem_of_In, in_concat in Ha as (l & Hl & Ha). apply in_map_iff in Hl as (mr & <- & Hmr).
    apply list_elem_of_In in Hmr, Ha.
    destruct (chain_elem _ _ _ _ mr (fi_chain _ _ Hi) Hmr)
      as (next & x & f & Hx & _ & _ & _ & _ & Hf & _ & _ & _ & Hpr).
    unfold addrs in Ha. rewrite !elem_of_cons in Ha. destruct Ha as [->|[->|Ha]]; [by eauto..|].
    by eapply private_live. }
  split; [|done]. intros ->. rewrite (fi_null _ _ Hi) in Hs. by destruct Hs.
Qed.

Lemma mounts_length s ms : fs_inv s ms → (length ms < obj_fuel s)%nat.
Proof.
  intros Hi. unfold obj_fuel. assert (length ms ≤ size (objs s))%nat; [|lia].
  rewrite <- (size_dom (objs s)), <- (length_map r_mount ms).
  assert (NoDup (map r_mount ms)) as Hnd.
  { pose proof (fi_nodup _ _ Hi) as Hnd. clear -Hnd. induction ms as [|mr ms IH]; [constructor|].
    cbn [map concat] in *. apply NoDup_app in Hnd as (_ & Hdis & Hnd). constructor; [|by apply IH].
    intros Hin. apply (Hdis (r_mount mr)); [unfold addrs; set_solver|].
    clear -Hin. induction ms as [|mr' ms IH]; [set_solver|]. cbn [map concat] in *. unfold addrs at 1. set_solver. }
  rewrite <- (size_list_to_set (C := gset Z) (map r_mount ms)) by done.
  apply subseteq_size. intros a Ha%elem_of_list_to_set. apply elem_of_dom, (addrs_live s ms a Hi).
  clear -Ha. induction ms as [|mr ms IH]; [set_solver|]. cbn [map concat] in *. unfold addrs at 1. set_solver.
Qed.

Lemma chain_next stale ob mr ms : chain stale ob (mr :: ms) 0 → entry_ok stale ob mr (head ms) ∧ chain stale ob ms 0.
Proof. cbn [chain]. by destruct ms. Qed.

(** Addresses of the mount points are not null. *)
Definition nonnull (ms : list mrec) : Prop := Forall (λ mr, r_mount mr ≠ 0) ms.

Lemma inv_nonnull s ms : fs_inv s ms → nonnull ms.
Proof.
  intros Hi. apply Forall_forall. intros mr Hmr. apply (addrs_live s ms _ Hi).
  apply list_elem_of_In, in_concat. exists (addrs mr). split; [|by left].
  apply in_map, list_elem_of_In, Hmr.
Qed.

(** The search for a path over a well-formed list. *)
Lemma mounted_at_spec fuel q ms Q s :
  chain stale_byte (objs s) ms 0 → nonnull ms → Forall (λ c, c ≠ 0) q → (length ms < fuel)%nat →
  Q (bool_decide (q ∈ map r_path ms)) s → wp (mounted_at fuel q (head ms)) Q s.
Proof.
  revert ms. induction fuel as [|fuel IH]; intros ms Hc Hn Hq Hf HQ; [lia|].
  cbn [mounted_at]. destruct ms as [|mr ms]; [by apply wp_ret|]. cbn [head].
  apply Forall_cons in Hn as [Hn0 Hn]. rewrite (proj2 (Z.eqb_neq _ 0)) by done.
  apply chain_next in Hc as [(x & f & Hx & Hnx & Hfs & Hp & Hpo & _) Hc].
  apply wp_bind, (wp_ld _ _ (OMount x) x); [done..|].
  rewrite Hp, strcmp_path by done. apply wp_bind, wp_ret. cbn [map] in HQ.
  destruct (decide (r_path mr = q)) as [E|E].
  - rewrite (bool_decide_true (r_path mr = q)) by done. apply wp_ret.
    rewrite bool_decide_true in HQ by set_solver. done.
  - rewrite (bool_decide_false (r_path mr = q)), Hnx by done. apply IH; [done..|cbn in Hf; lia|].
    erewrite bool_decide_ext; [exact HQ|]. set_solver.
Qed.

(** The new file system and its private objects, next to the mounts [ms] of [ob]. *)
Lemma mounted_objects ops fs f0 ob obm l :
  ob !! 0 = None → fs ≠ 0 → ob !! fs = None → mounts ops fs f0 (<[fs := OFs f0]> ob) obm l →
  ∃ p, p ≠ 0 ∧ obm !! fs = Some (OFs (f0 <| f_private_data := p |> <| f_status := FS_STATUS_READY |>)) ∧
    private_ok ops p l obm ∧ NoDup (fs :: l) ∧ Forall (λ b, b ≠ 0) (fs :: l) ∧
    (∀ b, b ∈ fs :: l → ob !! b = None) ∧ (∀ b, b ∉ fs :: l → obm !! b = ob !! b).
Proof.
  intros H0' Hfs0 Hfs (p & ob1 & -> & Hp0 & Hpr & Hnd & Hnz & Hfr & Hot).
  assert (fs ∉ l) as Hfl by (intros Hin; specialize (Hfr _ Hin); by rewrite lookup_insert_eq in Hfr).
  exists p. split_and!.
  - done.
  - apply lookup_insert_eq.
  - eapply private_ok_ext; [|done]. intros b Hb. rewrite lookup_insert_ne by (intros ->; done). done.
  - by constructor.
  - by constructor.
  - intros b [->|Hb]%elem_of_cons; [done|]. specialize (Hfr _ Hb).
    rewrite lookup_insert_ne in Hfr by (intros ->; done). done.
  - intros b [Hbf Hbl]%not_elem_of_cons. rewrite lookup_insert_ne, Hot, lookup_insert_ne by done. done.
Qed.

Lemma array_push ms (fs : Z) :
  (length ms < 64)%nat →
  <[length ms := fs]> (map r_fs (reverse ms) ++ replicate (64 - length ms) 0) =
  map r_fs (reverse ms) ++ fs :: replicate (64 - S (length ms)) 0.
Proof.
  intros Hl. replace (64 - length ms)%nat with (S (64 - S (length ms))) by lia. cbn [replicate].
  replace (length ms) with (length (map r_fs (reverse ms)) + 0)%nat at 1
    by (rewrite length_map, length_reverse; lia).
  by rewrite insert_app_r.
Qed.

(** A new entry in front of the list. *)
Lemma inv_push mr ms ob ob' m r t0 a0 t a :
  fs_inv (mk_fstate m r ob t0 a0) ms → (r_path mr ∉ map r_path ms) → (length ms < 64)%nat →
  entry_ok stale_byte ob' mr (head ms) → NoDup (addrs mr) → Forall (λ b, b ≠ 0) (addrs mr) →
  (∀ b, b ∈ addrs mr → ob !! b = None) → (∀ b, (b ∉ addrs mr) → ob' !! b = ob !! b) → ka_inv (dom ob') a →
  fs_inv (mk_fstate (m <| fm_mount_points := r_mount mr |>
                       <| fm_filesystems := <[Z.to_nat (fm_mounted_count m) := r_fs mr]> (fm_filesystems m) |>
                       <| fm_mounted_count := u32 (fm_mounted_count m + 1) |>) r ob' t a) (mr :: ms).
Proof.
  intros Hi Hnew Hlen He Hnd Hnz Hfr Hot Ha.
  assert (∀ b, b ∈ concat (map addrs ms) → b ∉ addrs mr) as Hdis.
  { intros b Hb Hin. destruct (addrs_live _ _ _ Hi Hb) as [_ [o Ho]]. cbn [objs] in Ho.
    rewrite (Hfr _ Hin) in Ho. done. }
  destruct Hi as [Hin Hh Hc Hndc Hpths Hcnt Hmax Harr Hal Hnull]. cbn [fm objs falloc] in *.
  split; cbn [fm objs falloc fm_initialized fm_mount_points fm_mounted_count fm_filesystems fset].
  - done.
  - done.
  - assert (chain stale_byte ob' ms 0) as Hc'.
    { eapply chain_ext; [|exact Hc]. intros b Hb. by apply Hot, Hdis. }
    cbn [chain]. split; [|done]. by destruct ms.
  - cbn [map concat]. apply NoDup_app. split_and!; [done| |done]. intros b Hb Hb'. by apply (Hdis b).
  - cbn [map]. by constructor.
  - unfold fset. cbn. rewrite Hcnt, u32_small by lia. lia.
  - cbn. lia.
  - unfold fset. cbn [fm_filesystems]. rewrite Hcnt, Nat2Z.id, Harr, array_push by done.
    rewrite reverse_cons, map_app, <- app_assoc. done.
  - done.
  - rewrite Forall_forall in Hnz. rewrite Hot; [done|]. intros Hin0. by apply (Hnz 0).
Qed.

Lemma link_mount_spec fs ops q flags ms l f0 ob obm Q m r t0 a0 t a :
  fs_inv (mk_fstate m r ob t0 a0) ms → path_ok q → (q ∉ map r_path ms) → (length ms < 64)%nat →
  fs ≠ 0 → ob !! fs = None → f_ops f0 = ops → f_ref_count f0 = 1 →
  mounts ops fs f0 (<[fs := OFs f0]> ob) obm l → ka_inv (dom obm) a →
  (∀ a', ¬ supplies [SIZEOF_MOUNT] a → ka_inv (dom ob) a' → Q (-1) (mk_fstate m r ob t a')) →
  (∀ mr s', supplies [SIZEOF_MOUNT] a → r_path mr = q → r_ops mr = ops → fs_inv s' (mr :: ms) → registered_fs s' = r → table_only m (fm s') →
     (∀ b, b ∈ addrs mr → ob !! b = None) → (∀ b, (b ∉ addrs mr) → objs s' !! b = ob !! b) → Q 0 s') →
  wp (link_mount fs ops q flags) Q (mk_fstate m r obm t a).
Proof.
  intros Hi Hq Hnew Hlen Hfs0 Hfs Hops Hrc Hm Ha HQ1 HQ0.
  destruct (mounted_objects _ _ _ _ _ _ (fi_null _ _ Hi) Hfs0 Hfs Hm) as (p & Hp0 & Hfsm & Hpr & Hnd & Hnz & Hfr & Hot).
  cbn [objs] in Hfr, Hot. apply NoDup_cons in Hnd as [Hfl Hnd]. apply Forall_cons in Hnz as [_ Hnz].
  unfold link_mount. apply wp_bind, wp_new_run; [done|done| |].
  - intros a1 Hal Ha1. apply wp_bind. eapply (ops_unmount_spec ops fs _ l); [done|done|done|done|done|done|done|done|].
    intros ob1 a2 (Hu1 & Hu2 & x & Hux) Ha2. apply wp_bind, wp_free; [done|eauto|]. intros a3 Ha3. apply wp_ret.
    assert (delete fs ob1 = ob) as Heq.
    { apply map_eq. intros b. destruct (decide (b = fs)) as [->|Hb]; [by rewrite lookup_delete_eq, Hfs|].
      rewrite lookup_delete_ne by done. destruct (decide (b ∈ l)) as [Hbl|Hbl].
      - rewrite Hu1, Hfr by set_solver. done.
      - rewrite Hu2, Hot by set_solver. done. }
    rewrite Heq in Ha3 |- *. apply HQ1; [by apply (supplies_fail _ _ _ a1)|done].
  - intros mt a1 Hal Hmt0 Hmt Ha1. rewrite (proj2 (Z.eqb_neq mt 0)) by done.
    set (ob1 := <[mt := _]> obm) in *.
    apply wp_bind. eapply wp_upd_mount; [apply lookup_insert_eq|].
    apply wp_bind, wp_timestamp, wp_bind, wp_gets. cbn [fm].
    apply wp_bind. eapply wp_upd_mount; [apply lookup_insert_eq|].
    apply wp_bind, wp_upd_fm. pose proof (fi_count _ _ Hi) as Hcnt. cbn [fm] in Hcnt. unfold set_filesystem.
    rewrite (proj2 (Z.ltb_lt _ _)) by (rewrite Hcnt; unfold MAX_MOUNTED_FILESYSTEMS; lia).
    apply wp_bind, wp_upd_fm, wp_bind, wp_upd_fm, wp_bind.
    assert (mt ≠ fs) as Hmtfs by congruence.
    eapply wp_upd_fs; [unfold ob1; rewrite !lookup_insert_ne by done; exact Hfsm|]. apply wp_ret.
    assert (mt ∉ l) as Hmtl.
    { intros Hin. destruct (private_live _ _ _ _ _ Hpr Hin) as [o Ho]. congruence. }
    assert (NoDup (mt :: fs :: l)) as Hnd'.
    { constructor; [|by constructor]. apply not_elem_of_cons. done. }
    assert (ob !! mt = None) as Hmtn.
    { rewrite <- (Hot mt); [done|]. apply not_elem_of_cons. done. }
    assert (∀ b, b ∈ mt :: fs :: l → ob !! b = None) as Hfr'.
    { intros b [->|Hb]%elem_of_cons; [done|]. by apply Hfr. }
    unfold ob1. rewrite !insert_insert_eq. set (obf := <[fs := _]> (<[mt := _]> obm)).
    assert (∀ b, (b ∉ mt :: fs :: l) → obf !! b = ob !! b) as Hot'.
    { intros b [Hb1 Hb2]%not_elem_of_cons. pose proof Hb2 as [Hb3 _]%not_elem_of_cons. unfold obf.
      rewrite !lookup_insert_ne by congruence. by apply Hot. }
    apply (HQ0 (mk_mrec mt fs l q ops)); [by apply (supplies_cons _ _ _ mt a1)|done|done| |done..].
    refine (inv_push (mk_mrec mt fs l q ops) ms ob obf m r t0 a0 _ _ Hi Hnew Hlen _ Hnd' _ Hfr' Hot' _).
    + eexists _, _. unfold obf. cbn [r_mount r_fs r_path r_ops r_own].
      rewrite lookup_insert_eq, (lookup_insert_ne _ fs mt), lookup_insert_eq by done.
      split_and!; try done; [by rewrite <- (fi_head _ _ Hi)|].
      eapply private_ok_ext; [|exact Hpr]. intros b Hb. rewrite !lookup_insert_ne by (intros ->; done). done.
    + by repeat constructor.
    + unfold obf. erewrite dom_insert_same by (rewrite lookup_insert_ne by done; exact Hfsm).
      unfold ob1 in Ha1. rewrite dom_insert_L in Ha1 |- *. done.
Qed.

Lemma inv_alloc m r ob t a t' a' ms :
  fs_inv (mk_fstate m r ob t a) ms → ka_inv (dom ob) a' → fs_inv (mk_fstate m r ob t' a') ms.
Proof. intros [] Ha. by split. Qed.

(** What a call of [fs_mount] did: one more mount, or nothing. *)
Definition mount_outcome (s : fstate A) (ms : list mrec) (path : list Z) (type res : Z) (s' : fstate A) : Prop :=
  (res = 0 ∧ ∃ mr, r_path mr = path ∧ (path ∉ map r_path ms) ∧
     registered_fs s !! Z.to_nat type = Some (Some (r_ops mr)) ∧ fs_inv s' (mr :: ms) ∧ table_only (fm s) (fm s') ∧
     (∀ b, b ∈ addrs mr → objs s !! b = None) ∧ (∀ b, (b ∉ addrs mr) → objs s' !! b = objs s !! b)) ∨
  (res = -1 ∧ objs s' = objs s ∧ fm s' = fm s ∧ fs_inv s' ms).

(** When mounting succeeds: the type is known and registered, the path is free, and the
    allocator supplies the file system, its private data and the mount point. *)
Definition mountable (s : fstate A) (ms : list mrec) (path : list Z) (type : Z) : Prop :=
  type ≤ FS_TYPE_DEVFS ∧ (path ∉ map r_path ms) ∧
  ∃ ops, registered_fs s !! Z.to_nat type = Some (Some ops) ∧
    supplies (SIZEOF_FS :: private_sizes ops ++ [SIZEOF_MOUNT]) (falloc s).

Lemma fs_mount_spec s ms device path type flags :
  fs_inv s ms → path_ok path → (length ms < 64)%nat →
  wp (fs_mount (Some device) (Some path) type flags)
    (λ res s', registered_fs s' = registered_fs s ∧ mount_outcome s ms path type res s' ∧
       (res = 0 ↔ mountable s ms path type)) s.
Proof.
  intros Hi Hpath Hlen.
  assert (mount_outcome s ms path type (-1) s) as Hfail by (right; done).
  unfold fs_mount. destruct (Z.leb_spec (FS_TYPE_DEVFS + 1) type) as [Hty|Hty].
  { apply wp_ret. split_and!; [done..|]. split; [done|]. intros [? _]. lia. }
  apply wp_bind, wp_get. rewrite (fi_init _ _ Hi). cbn [negb].
  apply wp_bind. rewrite (fi_head _ _ Hi).
  apply mounted_at_spec; [apply (fi_chain _ _ Hi)|by eapply inv_nonnull|apply Hpath|by eapply mounts_length|].
  case_bool_decide as Hin.
  { apply wp_ret. split_and!; [done..|]. split; [done|]. by intros (_ & ? & _). }
  destruct (registered_fs s !! Z.to_nat type) as [[ops|]|] eqn:Hreg.
  2,3: apply wp_ret; split_and!; [done..|]; (split; [done|]); intros (_ & _ & ops & Hops & _); congruence.
  destruct s as [m r ob t a]. cbn [fm registered_fs objs stamps falloc] in *.
  assert (¬ supplies (SIZEOF_FS :: private_sizes ops ++ [SIZEOF_MOUNT]) a → ∀ a', ka_inv (dom ob) a' →
    r = r ∧ mount_outcome (mk_fstate m r ob t a) ms path type (-1) (mk_fstate m r ob t a') ∧
    (-1 = 0 ↔ mountable (mk_fstate m r ob t a) ms path type)) as Hback.
  { intros Hno a' Ha'. split_and!; [done| |split; [done|]].
    - right. split_and!; [done..|by eapply inv_alloc].
    - intros (_ & _ & ops' & Hops & Hs). cbn in Hops, Hs. rewrite Hreg in Hops. injection Hops as <-. done. }
  apply wp_bind, wp_new_run; [apply (fi_alloc _ _ Hi)|done| |].
  { intros a1 Hal Ha1. apply wp_ret, Hback; [by apply (supplies_fail _ _ _ a1)|done]. }
  intros fs a1 Hal Hfs0 Hfs Ha1. rewrite (proj2 (Z.eqb_neq fs 0)) by done. apply wp_bind.
  rewrite (supplies_cons _ _ _ fs a1) in Hback by done.
  eapply (ops_mount_spec ops fs); [done|apply lookup_insert_eq|done| |].
  - intros a2 Hno Ha2. apply wp_bind, wp_free; [done|rewrite lookup_insert_eq; eauto|].
    intros a3 Ha3. rewrite delete_insert_id in Ha3 |- * by done. by apply wp_ret, Hback.
  - intros l ob' a2 Hsup Hm Ha2. rewrite Hsup in Hback. cbn [Z.eqb negb].
    eapply link_mount_spec; [exact Hi|done..|exact Hfs| | |exact Hm|done| |]; [done|done|intros a' Hno; by apply Hback|].
    intros mr s' Hmt Hp Ho Hi' Hr Htab Hfr Hot. split_and!; [done| |split; [|done]].
    + left. split; [done|]. exists mr. subst ops. by split_and!.
    + intros _. split_and!; [lia|done|]. exists ops. split; [done|]. cbn [falloc].
      rewrite (supplies_cons _ _ _ fs a1) by done. by apply Hsup.
Qed.

(** C6: mounting.  A NULL argument or a file system layer that is not initialized gives -1 and
    changes nothing.  On a well-formed mount table with a free slot (fewer than 64 mounts; one
    more is [mount_past_array]) and a path that fits the mount point's array, [fs_mount]
    returns 0 exactly when the type is in range and registered, the path is not mounted and the
    allocator supplies the structures of the mount, and -1 otherwise.  On 0 the table
    has exactly one more entry at the front whose objects were all free before and are the
    only ones that changed; on -1 every object it allocated on the way, in the
    file system's own mount included, has been freed. *)
Theorem fs_mount_correct s ms device path type flags :
  (∀ dev mp, dev = None ∨ mp = None ∨ fm_initialized (fm s) = false →
     fs_mount dev mp type flags s = Ok (-1, s)) ∧
  (fs_inv s ms → path_ok path → (length ms < 64)%nat →
   ∃ res s', fs_mount (Some device) (Some path) type flags s = Ok (res, s') ∧
     registered_fs s' = registered_fs s ∧ mount_outcome s ms path type res s' ∧
     (res = 0 ↔ mountable s ms path type)).
Proof.
  split; [|intros Hi Hpath Hlen; by apply (wp_run (fs_mount _ _ _ _)), fs_mount_spec].
  intros [dev|] [mp|] H; try done. destruct H as [?|[?|H]]; [done..|]. unfold fs_mount, bind, get.
  destruct (_ <=? _); [done|]. by rewrite H.
Qed.

(** *** Removal from the array of file systems *)
Lemma shift_down (l1 l2 pad : list Z) (x i : Z) :
  i = Z.of_nat (length l1) →
  ∃ y, for_loop (length l2) i (λ j l, <[Z.to_nat j := nth (Z.to_nat (j + 1)) l 0]> l) (l1 ++ x :: l2 ++ pad) =
       l1 ++ l2 ++ y :: pad.
Proof.
  revert l1 x i. induction l2 as [|z l2 IH]; intros l1 x i ->; [by exists x|]. cbn [length for_loop].
  replace (nth _ _ _) with z.
  2: { replace (Z.to_nat _) with (length l1 + 1)%nat by lia. rewrite app_nth2_plus. done. }
  rewrite Nat2Z.id. assert (∀ r, <[length l1 := z]> (l1 ++ x :: r) = l1 ++ z :: r) as ->.
  { intros r. by rewrite <- (Nat.add_0_r (length l1)), insert_app_r. }
  destruct (IH (l1 ++ [z]) z (Z.of_nat (length l1) + 1)) as [y Hy]; [rewrite length_app; cbn; lia|].
  exists y. rewrite <- !app_assoc in Hy. exact Hy.
Qed.

Lemma remove_filesystem_spec fs l1 l2 pad m :
  fm_filesystems m = l1 ++ fs :: l2 ++ pad → (fs ∉ l1) →
  fm_mounted_count m = Z.of_nat (length (l1 ++ fs :: l2)) →
  remove_filesystem fs m = m <| fm_filesystems := l1 ++ l2 ++ 0 :: pad |>
                             <| fm_mounted_count := Z.of_nat (length (l1 ++ l2)) |>.
Proof.
  intros Harr Hfs Hcnt. unfold remove_filesystem. rewrite Hcnt, Harr. rewrite !length_app. cbn [length].
  replace (find_up _ _ _) with (Some (Z.of_nat (length l1))).
  2: { symmetry. destruct (find_up _ 0 _) as [j|] eqn:E.
       - apply find_up_Some in E as (Hj & Hp & Hmin). apply Z.eqb_eq in Hp.
         destruct (decide (j < Z.of_nat (length l1))) as [Hlt|Hge].
         + rewrite app_nth1 in Hp by lia. exfalso. apply Hfs. rewrite <- Hp.
           apply list_elem_of_In, nth_In. lia.
         + f_equal. destruct (decide (j = Z.of_nat (length l1))) as [|Hne]; [done|].
           specialize (Hmin (Z.of_nat (length l1)) ltac:(lia)). cbn beta in Hmin.
           rewrite Nat2Z.id, nth_middle, Z.eqb_refl in Hmin. done.
       - exfalso. rewrite find_up_None in E. specialize (E (Z.of_nat (length l1)) ltac:(lia)).
         cbn beta in E. rewrite Nat2Z.id, nth_middle, Z.eqb_refl in E. done. }
  replace (Z.to_nat (_ - 1 - _)) with (length l2) by lia.
  destruct (shift_down l1 l2 pad fs _ eq_refl) as [y ->].
  replace (Z.to_nat _) with (length (l1 ++ l2) + 0)%nat by (rewrite length_app; lia).
  rewrite app_assoc, insert_app_r, <- app_assoc. cbn [insert list_insert].
  replace (Z.of_nat (length l1 + S (length l2)) - 1) with (Z.of_nat (length l1 + length l2)) by lia. done.
Qed.

(** *** Unlinking *)
Lemma concat_app_split l1 mr l2 :
  NoDup (concat (map addrs (l1 ++ mr :: l2))) →
  NoDup (addrs mr) ∧ NoDup (concat (map addrs (l1 ++ l2))) ∧
  (∀ b, b ∈ addrs mr → b ∉ concat (map addrs (l1 ++ l2))).
Proof.
  rewrite !map_app, !concat_app. cbn [map concat]. rewrite !NoDup_app.
  intros (Hn1 & Hd1 & Hn2 & Hd2 & Hn3). split_and!; [done|done| |done|].
  - intros b Hb1 Hb2. apply (Hd1 b); set_solver.
  - intros b Hb. specialize (Hd2 b Hb). assert (b ∉ concat (map addrs l1)) by (intros Hb1; apply (Hd1 b Hb1); set_solver).
    set_solver.
Qed.

Lemma entry_relink stale ob ob' pr next next' y :
  entry_ok stale ob pr next → ob !! r_mount pr = Some (OMount y) →
  ob' !! r_mount pr = Some (OMount (y <| m_next := next' |>)) →
  (∀ b, b ∈ r_fs pr :: r_own pr → ob' !! b = ob !! b) → entry_ok stale ob' pr next'.
Proof.
  intros (x & f & Hx & Hn & Hfs & Hp & Hpo & Hf & Hrc & Hops & Hp0 & Hpr) Hy Hy' He.
  simplify_eq. eexists _, f. rewrite (He (r_fs pr)) by set_solver.
  split_and!; [exact Hy'|done..|]. eapply private_ok_ext; [|done]. intros b Hb. apply He. set_solver.
Qed.

Lemma chain_unlink stale ob ob' l1 mr l2 :
  chain stale ob (l1 ++ mr :: l2) 0 → NoDup (concat (map addrs (l1 ++ mr :: l2))) →
  (∀ b, (b ∉ addrs mr) → Some b ≠ r_mount <$> last l1 → ob' !! b = ob !! b) →
  (∀ pr, last l1 = Some pr → ∃ y, ob !! r_mount pr = Some (OMount y) ∧
     ob' !! r_mount pr = Some (OMount (y <| m_next := head l2 |>))) →
  chain stale ob' (l1 ++ l2) 0.
Proof.
  intros Hc Hnd Hot Hpr. destruct (concat_app_split _ _ _ Hnd) as (_ & Hnd' & Hdis).
  rewrite map_app, concat_app in Hnd', Hdis. apply NoDup_app in Hnd' as (Hnd1 & Hd12 & Hnd2).
  apply chain_app in Hc as [Hc1 Hc2]. apply chain_next in Hc2 as [_ Hc2].
  apply chain_app. replace (match l2 with [] => 0 | _ => head l2 end) with (head l2) by (by destruct l2).
  split.
  - destruct l1 as [|pr l1 _] using rev_ind; [done|]. rewrite last_snoc in Hot, Hpr.
    destruct (Hpr pr eq_refl) as (y & Hy & Hy'). rewrite map_app, concat_app in Hnd1, Hdis, Hd12.
    cbn [map concat] in Hnd1, Hdis, Hd12. rewrite app_nil_r in Hnd1, Hdis, Hd12.
    apply NoDup_app in Hnd1 as (_ & Hd1 & Hndp).
    apply chain_app in Hc1 as [Hc1 [He _]]. apply chain_app. split.
    + eapply chain_ext; [|exact Hc1]. intros b Hb. apply Hot.
      * intros Hb'. apply (Hdis b Hb'). set_solver.
      * intros [= ->]. apply (Hd1 _ Hb). unfold addrs. set_solver.
    + cbn [chain]. split; [|done]. eapply entry_relink; [exact He|exact Hy|exact Hy'|].
      intros b Hb. apply Hot.
      * intros Hb'. apply (Hdis b Hb'). unfold addrs at 2. set_solver.
      * intros [= ->]. apply NoDup_cons in Hndp as [Hndp _]. by apply Hndp.
  - eapply chain_ext; [|exact Hc2]. intros b Hb. apply Hot.
    + intros Hb'. apply (Hdis b Hb'). set_solver.
    + intros E. destruct (last l1) as [pr|] eqn:El; [|done]. apply (f_equal (from_option id 0)) in E. cbn in E. subst b.
      apply last_Some_elem_of in El. apply (Hd12 (r_mount pr)); [|done].
      apply list_elem_of_In, in_concat. exists (addrs pr). split; [|by left]. by apply in_map, list_elem_of_In.
Qed.

(** The search of [fs_unmount]: the first mount at the path and the one before it. *)
Lemma find_mount_found fuel q l1 mr l2 prev Q s :
  chain stale_byte (objs s) (l1 ++ mr :: l2) 0 → nonnull (l1 ++ mr :: l2) → Forall (λ c, c ≠ 0) q →
  r_path mr = q → (q ∉ map r_path l1) → (length (l1 ++ mr :: l2) < fuel)%nat →
  Q (r_mount mr, default prev (r_mount <$> last l1)) s → wp (find_mount fuel q (head (l1 ++ mr :: l2)) prev) Q s.
Proof.
  revert l1 prev. induction fuel as [|fuel IH]; intros l1 prev Hc Hn Hq Hmr Hl1 Hf HQ; [lia|].
  destruct l1 as [|m1 l1]; cbn [app head find_mount] in *; apply Forall_cons in Hn as [Hn0 Hn];
    rewrite (proj2 (Z.eqb_neq _ 0)) by done;
    apply chain_next in Hc as [(x & f & Hx & Hnx & Hfs & Hp & Hpo & _) Hc];
    apply wp_bind, (wp_ld _ _ (OMount x) x); [done..| |done|done|];
    rewrite Hp, strcmp_path by done; apply wp_bind, wp_ret.
  - rewrite bool_decide_true by done. by apply wp_ret.
  - cbn [map] in Hl1. apply not_elem_of_cons in Hl1 as [Hm1 Hl1].
    rewrite bool_decide_false by congruence. rewrite Hnx.
    apply IH; [done..|cbn in Hf; lia|]. destruct l1; [done|]. cbn [last] in *.
    by destruct (last (m :: l1)) eqn:E; [|apply last_None in E].
Qed.

Lemma find_mount_absent fuel q ms prev Q s :
  chain stale_byte (objs s) ms 0 → nonnull ms → Forall (λ c, c ≠ 0) q →
  (q ∉ map r_path ms) → (length ms < fuel)%nat →
  (∀ p, Q (0, p) s) → wp (find_mount fuel q (head ms) prev) Q s.
Proof.
  revert ms prev. induction fuel as [|fuel IH]; intros ms prev Hc Hn Hq Hms Hf HQ; [lia|].
  cbn [find_mount]. destruct ms as [|mr ms]; [apply wp_ret, HQ|]. cbn [head].
  apply Forall_cons in Hn as [Hn0 Hn]. rewrite (proj2 (Z.eqb_neq _ 0)) by done.
  apply chain_next in Hc as [(x & f & Hx & Hnx & Hfs & Hp & Hpo & _) Hc].
  apply wp_bind, (wp_ld _ _ (OMount x) x); [done..|].
  rewrite Hp, strcmp_path by done. apply wp_bind, wp_ret. cbn [map] in Hms.
  apply not_elem_of_cons in Hms as [Hm1 Hms]. rewrite bool_decide_false by congruence. rewrite Hnx.
  apply IH; [done..|cbn in Hf; lia|done].
Qed.

(** The table without [mr]: what [fs_unmount] has to leave behind. *)
Lemma inv_pop l1 mr l2 ob ob' m r t a t' a' :
  fs_inv (mk_fstate m r ob t a) (l1 ++ mr :: l2) →
  (∀ b, b ∈ addrs mr → ob' !! b = None) →
  (∀ b, (b ∉ addrs mr) → Some b ≠ r_mount <$> last l1 → ob' !! b = ob !! b) →
  (∀ pr, last l1 = Some pr → ∃ y, ob !! r_mount pr = Some (OMount y) ∧
     ob' !! r_mount pr = Some (OMount (y <| m_next := head l2 |>))) →
  ka_inv (dom ob') a' →
  fs_inv (mk_fstate (remove_filesystem (r_fs mr) (m <| fm_mount_points := head (l1 ++ l2) |>)) r ob' t' a') (l1 ++ l2).
Proof.
  intros Hi Hgone Hot Hpr Ha'. pose proof (inv_nonnull _ _ Hi) as Hnn.
  destruct Hi as [Hin Hh Hc Hnd Hpths Hcnt Hmax Harr Hal Hnull]. cbn [fm objs falloc] in *.
  destruct (concat_app_split _ _ _ Hnd) as (Hndm & Hnd' & Hdis).
  rewrite (remove_filesystem_spec (r_fs mr) (map r_fs (reverse l2)) (map r_fs (reverse l1))
             (replicate (64 - length (l1 ++ mr :: l2)) 0)).
  - split; cbn [fm objs falloc].
    + done.
    + done.
    + by eapply chain_unlink.
    + done.
    + rewrite !map_app in Hpths |- *. cbn [map] in Hpths. apply NoDup_app in Hpths as (Hp1 & Hp2 & Hp3).
      apply NoDup_app. apply NoDup_cons in Hp3 as [_ Hp3]. split_and!; [done| |done].
      intros q Hq1 Hq2. apply (Hp2 q Hq1). set_solver.
    + unfold fset. cbn. rewrite !length_app, !length_map, !length_reverse. lia.
    + rewrite length_app in Hmax |- *. cbn in Hmax. lia.
    + unfold fset. cbn. rewrite reverse_app, map_app, <- app_assoc.
      rewrite !length_app in *. cbn [length] in *.
      replace (64 - (length l1 + length l2))%nat with (S (64 - (length l1 + S (length l2)))) by lia. done.
    + done.
    + destruct (decide (0 ∈ addrs mr)) as [Hin0|Hout]; [by apply Hgone|]. rewrite Hot; [done..|].
      intros E. destruct (last l1) as [pr|] eqn:El; [|done]. cbn in E.
      apply last_Some_elem_of in El. unfold nonnull in Hnn. rewrite Forall_forall in Hnn.
      apply (Hnn pr); [set_solver|]. congruence.
  - unfold fset. cbn. rewrite Harr, reverse_app, reverse_cons, !map_app, <- !app_assoc. done.
  - intros Hin2. apply list_elem_of_In, in_map_iff in Hin2 as (mr' & E & Hmr').
    apply list_elem_of_In, elem_of_reverse in Hmr'.
    apply (Hdis (r_fs mr)); [unfold addrs; set_solver|]. apply list_elem_of_In, in_concat. exists (addrs mr').
    split; [apply in_map, list_elem_of_In; set_solver|]. rewrite <- E. unfold addrs. by right; left.
  - unfold fset. cbn. rewrite Hcnt. f_equal. rewrite !length_app. cbn [length]. rewrite !length_map, !length_reverse. lia.
Qed.

(** What one successful unmount of [mr] does to the state. *)
Record unmounted (s s' : fstate A) (l1 : list mrec) (mr : mrec) (l2 : list mrec) : Prop := {
  um_inv : fs_inv s' (l1 ++ l2);
  um_reg : registered_fs s' = registered_fs s;
  um_dom : dom (objs s') = dom (objs s) ∖ list_to_set (addrs mr);
  um_frame : ∀ b, (b ∉ addrs mr) → Some b ≠ r_mount <$> last l1 → objs s' !! b = objs s !! b;
  um_fm : table_only (fm s) (fm s')
}.

Lemma remove_keeps fs m k : table_only m (remove_filesystem fs (m <| fm_mount_points := k |>)).
Proof. unfold remove_filesystem. by destruct (find_up _ _ _). Qed.

(** The objects of a mount are live, not null, pairwise distinct and apart from the others. *)
Lemma mount_objects s l1 mr l2 :
  fs_inv s (l1 ++ mr :: l2) →
  (∀ b, b ∈ addrs mr → b ≠ 0 ∧ is_Some (objs s !! b)) ∧ NoDup (addrs mr) ∧
  (∀ b, b ∈ addrs mr → b ∉ concat (map addrs (l1 ++ l2))) ∧
  (∀ b, b ∈ addrs mr → Some b ≠ r_mount <$> last l1).
Proof.
  intros Hi. destruct (concat_app_split _ _ _ (fi_nodup _ _ Hi)) as (Hndm & Hnd' & Hdis). split_and!; [|done|done|].
  - intros b Hb. eapply addrs_live; [done|]. rewrite map_app, concat_app. cbn [map concat]. set_solver.
  - intros b Hb E. apply (Hdis b Hb). destruct (last l1) as [pr|] eqn:El; [|done]. cbn in E.
    apply last_Some_elem_of in El. simplify_eq. apply list_elem_of_In, in_concat. exists (addrs pr).
    split; [apply in_map, list_elem_of_In; set_solver|by left].
Qed.

(** The end of [fs_unmount], after the relinking, whatever the position of the mount. *)
Lemma unmount_finish l1 mr l2 ob ob1 ob2 Q m r t a a1 :
  fs_inv (mk_fstate m r ob t a) (l1 ++ mr :: l2) → unmounts (r_fs mr) (r_own mr) ob ob1 →
  dom ob2 = dom ob1 → (∀ b, Some b ≠ r_mount <$> last l1 → ob2 !! b = ob1 !! b) →
  (∀ pr, last l1 = Some pr → ∃ y, ob !! r_mount pr = Some (OMount y) ∧
     ob2 !! r_mount pr = Some (OMount (y <| m_next := head l2 |>))) →
  ka_inv (dom ob2) a1 →
  (∀ s', unmounted (mk_fstate m r ob t a) s' l1 mr l2 → Q 0 s') →
  wp (upd_fm (remove_filesystem (r_fs mr)) ;;; free (r_fs mr) ;;; free (r_mount mr) ;;; ret 0) Q
    (mk_fstate (m <| fm_mount_points := head (l1 ++ l2) |>) r ob2 t a1).
Proof.
  intros Hi (Hu1 & Hu2 & fx & Hfx) Hd2 Hsame Hrel Ha1 HQ.
  destruct (mount_objects _ _ _ _ Hi) as (Hlive & Hndm & Hdis & Hnl). cbn [objs] in Hlive.
  unfold addrs in Hndm. apply NoDup_cons in Hndm as [Hn1 _]. apply not_elem_of_cons in Hn1 as [Hmf Hn1].
  assert (∀ b, (b ∉ addrs mr) → ob1 !! b = ob !! b) as Hout.
  { intros b Hb. unfold addrs in Hb. apply Hu2; set_solver. }
  apply wp_bind, wp_upd_fm, wp_bind, wp_free; [done|rewrite Hsame by (apply Hnl; unfold addrs; set_solver); eauto|].
  intros a2 Ha2. apply wp_bind, wp_free; [done| |].
  { rewrite lookup_delete_ne, Hsame, Hu2 by (done || apply Hnl; unfold addrs; set_solver).
    apply Hlive. unfold addrs. set_solver. }
  intros a3 Ha3. apply wp_ret. set (ob4 := delete (r_mount mr) (delete (r_fs mr) ob2)) in *.
  assert (∀ b, b ∈ addrs mr → ob4 !! b = None) as Hgone.
  { intros b Hb. unfold ob4. rewrite !lookup_delete. repeat case_decide; try done.
    rewrite (Hsame b (Hnl b Hb)). apply Hu1. unfold addrs in Hb. set_solver. }
  assert (∀ b, (b ∉ addrs mr) → ob4 !! b = ob2 !! b) as Hkeep.
  { intros b Hb. unfold ob4, addrs in *. rewrite !lookup_delete_ne by set_solver. done. }
  apply HQ. split.
  - eapply (inv_pop l1 mr l2 ob ob4 m r t a t a3); [done|done| | |done].
    + intros b Hb Hbl. rewrite Hkeep, Hsame by done. by apply Hout.
    + intros pr Hlast. destruct (Hrel pr Hlast) as (y & Hy & Hy'). exists y. split; [done|].
      rewrite Hkeep; [done|]. intros Hin. apply (Hnl _ Hin). by rewrite Hlast.
  - done.
  - cbn [objs]. apply set_eq. intros b. rewrite elem_of_difference, elem_of_list_to_set.
    destruct (decide (b ∈ addrs mr)) as [Hb|Hb].
    + pose proof (proj2 (not_elem_of_dom ob4 b) (Hgone b Hb)). tauto.
    + rewrite !elem_of_dom, Hkeep by done. rewrite <- !elem_of_dom, Hd2, !elem_of_dom, Hout by done. tauto.
  - cbn [objs]. intros b Hb Hl. by rewrite Hkeep, Hsame, Hout.
  - apply remove_keeps.
Qed.

Lemma fs_unmount_spec l1 mr l2 Q s :
  fs_inv s (l1 ++ mr :: l2) → (∀ s', unmounted s s' l1 mr l2 → Q 0 s') → wp (fs_unmount (Some (r_path mr))) Q s.
Proof.
  intros Hi HQ. pose proof (inv_nonnull _ _ Hi) as Hnn. pose proof (mounts_length _ _ Hi) as Hlen.
  destruct (mount_objects _ _ _ _ Hi) as (Hlive & Hndm & Hdis & Hnl).
  pose proof (fi_chain _ _ Hi) as Hc. pose proof (proj1 (chain_app _ _ _ _ _) Hc) as [Hc1 Hc2].
  apply chain_next in Hc2 as [(x & f & Hx & Hnx & Hfs & Hpx & Hpo & Hf & Hrc & Hops & Hp0 & Hpr) _].
  unfold fs_unmount. apply wp_bind, wp_get. rewrite (fi_init _ _ Hi). cbn [negb].
  apply wp_bind. rewrite (fi_head _ _ Hi).
  eapply find_mount_found; [done|done|apply Hpo|done| |done|].
  { pose proof (fi_paths _ _ Hi) as Hp. rewrite map_app in Hp. apply NoDup_app in Hp as (_ & Hp & _).
    intros Hin. apply (Hp _ Hin). cbn [map]. set_solver. }
  cbn beta iota. rewrite (proj2 (Z.eqb_neq (r_mount mr) 0)) by (apply Hlive; unfold addrs; set_solver).
  apply wp_bind, (wp_ld _ _ (OMount x) x); [done..|]. rewrite Hfs.
  apply wp_bind, (wp_ld _ _ (OFs f) f); [done..|]. rewrite Hrc, Hops. cbn [Z.ltb Z.compare Pos.compare Pos.compare_cont].
  destruct s as [m r ob t a]. cbn [fm registered_fs objs stamps falloc] in *.
  unfold addrs in Hndm. apply NoDup_cons in Hndm as [Hn1 Hndm]. apply NoDup_cons in Hndm as [Hn2 Hndm].
  apply not_elem_of_cons in Hn1 as [Hmf Hn1].
  apply wp_bind. eapply (ops_unmount_spec _ _ f (r_own mr)); [|done..| |apply (fi_alloc _ _ Hi)|].
  { apply Hlive. unfold addrs. set_solver. }
  { apply Forall_forall. intros b Hb. apply Hlive. unfold addrs. set_solver. }
  intros ob1 a1 Hun Ha1. pose proof Hun as (Hu1 & Hu2 & fx & Hfx). cbn [Z.eqb negb].
  apply wp_bind, (wp_ld _ _ (OMount x) x); [cbn [objs]; by rewrite Hu2|done|]. rewrite Hnx. apply wp_bind.
  destruct l1 as [|pr l1 _] using rev_ind.
  - cbn [last fmap option_fmap option_map default from_option negb Z.eqb]. apply wp_upd_fm.
    by eapply (unmount_finish [] mr l2 ob ob1 ob1).
  - rewrite last_snoc in Hnl |- *. change (default 0 (r_mount <$> Some pr)) with (r_mount pr).
    apply chain_app in Hc1 as [_ [(y & fy & Hy & _) _]].
    assert (r_mount pr ∉ addrs mr) as Hpm by (intros Hin; by apply (Hnl _ Hin)). unfold addrs in Hpm.
    assert (ob1 !! r_mount pr = Some (OMount y)) as Hy1 by (rewrite Hu2; [done|set_solver..]).
    rewrite (proj2 (Z.eqb_neq (r_mount pr) 0)).
    2: { unfold nonnull in Hnn. rewrite Forall_forall in Hnn. apply Hnn. set_solver. }
    cbn [negb]. eapply wp_upd_mount; [exact Hy1|].
    replace m with (m <| fm_mount_points := head ((l1 ++ [pr]) ++ l2) |>).
    2: { replace (head ((l1 ++ [pr]) ++ l2)) with (fm_mount_points m); [by destruct m|].
         pose proof (fi_head _ _ Hi) as Hh. cbn [fm] in Hh. rewrite Hh, <- !app_assoc. by destruct l1. }
    eapply (unmount_finish _ mr l2 ob ob1); [done..| | | | |done].
    + by apply (dom_insert_same _ _ (OMount y)).
    + intros b Hb. rewrite last_snoc in Hb. rewrite lookup_insert_ne; [done|]. intros <-. by apply Hb.
    + intros pr'. rewrite last_snoc. intros [= <-]. exists y. by rewrite lookup_insert_eq.
    + by rewrite (dom_insert_same _ _ (OMount y)).
Qed.

(** C7: unmounting.  On a well-formed table, [fs_unmount] of a mounted path returns 0,
    removes exactly that mount from the list and from the array, keeps the others in
    order, and frees exactly the objects that belong to it; for any other path it
    returns -1 and changes nothing. *)
Theorem fs_unmount_correct s ms path :
  fs_inv s ms → Forall (λ c, c ≠ 0) path →
  (∃ l1 mr l2 s', ms = l1 ++ mr :: l2 ∧ r_path mr = path ∧
     fs_unmount (Some path) s = Ok (0, s') ∧ unmounted s s' l1 mr l2) ∨
  ((path ∉ map r_path ms) ∧ fs_unmount (Some path) s = Ok (-1, s)).
Proof.
  intros Hi Hq. destruct (decide (path ∈ map r_path ms)) as [Hin|Hout].
  - left. apply list_elem_of_In, in_map_iff in Hin as (mr & <- & Hin). apply list_elem_of_In in Hin.
    apply list_elem_of_split in Hin as (l1 & l2 & ->).
    destruct (proj1 (wp_run (fs_unmount (Some (r_path mr))) (λ res s', res = 0 ∧ unmounted s s' l1 mr l2) s))
      as (res & s' & Hr & -> & Hu); [by apply (fs_unmount_spec l1 mr l2); eauto|].
    exists l1, mr, l2, s'. done.
  - right. split; [done|].
    destruct (proj1 (wp_run (fs_unmount (Some path)) (λ res s', res = -1 ∧ s' = s) s)) as (res & s' & -> & -> & ->); [|done].
    unfold fs_unmount. apply wp_bind, wp_get. rewrite (fi_init _ _ Hi). cbn [negb]. apply wp_bind.
    rewrite (fi_head _ _ Hi). apply find_mount_absent; [apply (fi_chain _ _ Hi)|by eapply inv_nonnull|done|done|by eapply mounts_length|].
    intros p. by apply wp_ret.
Qed.

(** C23: a mount followed by the unmount of the same path is the identity: every
    object and every field of [fs_manager] is what it was, the mount list and the
    array of file systems included. *)
Theorem fs_mount_unmount_roundtrip s ms device path type flags s' :
  fs_inv s ms → path_ok path → (length ms < 64)%nat →
  fs_mount (Some device) (Some path) type flags s = Ok (0, s') →
  ∃ s'', fs_unmount (Some path) s' = Ok (0, s'') ∧ objs s'' = objs s ∧ fm s'' = fm s.
Proof.
  intros Hi Hpath Hlen Hrun.
  destruct (proj1 (wp_run _ _ _) (fs_mount_spec s ms device path type flags Hi Hpath Hlen)) as (res & s1 & Hrun' & _ & Hout & _).
  rewrite Hrun' in Hrun. simplify_eq.
  destruct Hout as [(_ & mr & Hp & Hnew & _ & Hi' & Htab & Hfr & Hot)|(? & _)]; [|done].
  destruct (proj1 (wp_run (fs_unmount (Some (r_path mr))) (λ res s'', res = 0 ∧ unmounted s' s'' [] mr ms) s'))
    as (res & s2 & Hr & -> & Hu); [by apply (fs_unmount_spec [] mr ms); eauto|].
  exists s2. subst path. split_and!; [done| |].
  - apply map_eq. intros b. destruct (decide (b ∈ addrs mr)) as [Hb|Hb].
    + rewrite (Hfr b Hb). apply not_elem_of_dom. rewrite (um_dom _ _ _ _ _ Hu). set_solver.
    + rewrite (um_frame _ _ _ _ _ Hu b Hb) by done. by apply Hot.
  - destruct Htab as (T1 & T2 & T3 & T4 & T5). destruct (um_fm _ _ _ _ _ Hu) as (U1 & U2 & U3 & U4 & U5).
    pose proof (um_inv _ _ _ _ _ Hu) as Hi2. cbn [app] in Hi2.
    destruct Hi as [_ I1 _ _ _ I2 _ I3 _ _], Hi2 as [_ J1 _ _ _ J2 _ J3 _ _].
    destruct (fm s2), (fm s). cbn in *. congruence.
Qed.

(** *** Path resolution *)

(** [mr] is a mount whose path is a nonempty prefix of [path], and none is longer. *)
Definition resolves (ms : list mrec) (path : list Z) (mr : mrec) : Prop :=
  mr ∈ ms ∧ r_path mr ≠ [] ∧ r_path mr `prefix_of` path ∧
  ∀ mr', mr' ∈ ms → r_path mr' `prefix_of` path → (length (r_path mr') ≤ length (r_path mr))%nat.

Lemma resolves_unique ms path mr mr' :
  NoDup (map r_path ms) → resolves ms path mr' → resolves ms path mr → mr' = mr.
Proof.
  intros Hnd (Hin' & _ & Hp' & Hmax') (Hin & _ & Hp & Hmax).
  assert (r_path mr = r_path mr') as E.
  { specialize (Hmax mr' Hin' Hp'). specialize (Hmax' mr Hin Hp).
    destruct Hp as [k ->], Hp' as [k' E]. apply app_inj_1 in E as [E _]; [done|lia]. }
  clear Hmax Hmax'. induction ms as [|m0 ms IH]; [set_solver|]. cbn [map] in Hnd.
  apply NoDup_cons in Hnd as [Hn Hnd].
  apply elem_of_cons in Hin as [->|Hin], Hin' as [->|Hin']; [done|..|by apply IH].
  - exfalso. apply Hn. rewrite E. by apply list_elem_of_In, in_map, list_elem_of_In.
  - exfalso. apply Hn. rewrite <- E. by apply list_elem_of_In, in_map, list_elem_of_In.
Qed.

Lemma best_mount_spec fuel path ms best len Q s :
  chain stale_byte (objs s) ms 0 → nonnull ms → (length ms < fuel)%nat →
  ((∀ mr, mr ∈ ms → r_path mr `prefix_of` path → (length (r_path mr) ≤ len)%nat) → Q best s) →
  (∀ mr, mr ∈ ms → r_path mr `prefix_of` path → (len < length (r_path mr))%nat →
     (∀ mr', mr' ∈ ms → r_path mr' `prefix_of` path → (length (r_path mr') ≤ length (r_path mr))%nat) →
     Q (r_mount mr) s) →
  wp (best_mount fuel path (head ms) best len) Q s.
Proof.
  revert ms best len. induction fuel as [|fuel IH]; intros ms best len Hc Hn Hf HQ1 HQ2; [lia|].
  cbn [best_mount]. destruct ms as [|mr ms]; [apply wp_ret, HQ1; set_solver|]. cbn [head].
  apply Forall_cons in Hn as [Hn0 Hn]. rewrite (proj2 (Z.eqb_neq _ 0)) by done.
  apply chain_next in Hc as [(x & f & Hx & Hnx & Hfs & Hp & Hpo & _) Hc].
  apply wp_bind, (wp_ld _ _ (OMount x) x); [done..|].
  rewrite Hp, strlen_path by done. apply wp_bind, wp_ret. unfold strncmp_eq. rewrite take_path, Hnx by done.
  case_bool_decide as Hpre; [case_bool_decide as Hlt|]; cbn [andb]; (apply IH; [done|done|cbn in Hf; lia|..]).
  - intros Hall. apply HQ2; [by left|done|done|]. intros mr' [->|Hin]%elem_of_cons Hp'; [lia|by apply Hall].
  - intros mr1 Hin1 Hp1 Hlt1 Hall. apply HQ2; [by right|done|lia|].
    intros mr' [->|Hin]%elem_of_cons Hp'; [lia|by apply Hall].
  - intros Hall. apply HQ1. intros mr' [->|Hin]%elem_of_cons Hp'; [lia|by apply Hall].
  - intros mr1 Hin1 Hp1 Hlt1 Hall. apply HQ2; [by right|done|lia|].
    intros mr' [->|Hin]%elem_of_cons Hp'; [lia|by apply Hall].
  - intros Hall. apply HQ1. intros mr' [->|Hin]%elem_of_cons Hp'; [done|by apply Hall].
  - intros mr1 Hin1 Hp1 Hlt1 Hall. apply HQ2; [by right|done|lia|].
    intros mr' [->|Hin]%elem_of_cons Hp'; [done|by apply Hall].
Qed.

Lemma get_filesystem_spec path ms Q s :
  fs_inv s ms →
  (∀ mr, resolves ms path mr → Q (r_fs mr) s) →
  ((∀ mr, mr ∈ ms → r_path mr `prefix_of` path → r_path mr = []) → Q 0 s) →
  wp (fs_get_filesystem (Some path)) Q s.
Proof.
  intros Hi HQ HQ0. unfold fs_get_filesystem. apply wp_bind, wp_get. rewrite (fi_init _ _ Hi). cbn [negb].
  apply wp_bind. rewrite (fi_head _ _ Hi). pose proof (inv_nonnull _ _ Hi) as Hnn.
  apply (best_mount_spec _ _ ms); [apply (fi_chain _ _ Hi)|done|by eapply mounts_length|..].
  - intros Hall. cbn [Z.eqb]. apply wp_ret, HQ0. intros mr Hin Hp. specialize (Hall mr Hin Hp).
    destruct (r_path mr); [done|cbn in Hall; lia].
  - intros mr Hin Hp Hlt Hall. unfold nonnull in Hnn. rewrite Forall_forall in Hnn.
    rewrite (proj2 (Z.eqb_neq _ 0)) by (by apply Hnn).
    destruct (chain_elem _ _ _ _ mr (fi_chain _ _ Hi) Hin) as (next & x & f & Hx & _ & Hfs & _).
    apply wp_bind, (wp_ld _ _ (OMount x) x); [done..|]. apply wp_ret. rewrite Hfs. apply HQ.
    split_and!; try done. intros E. rewrite E in Hlt. cbn in Hlt. lia.
Qed.

(** C22: path resolution.  [fs_get_filesystem] returns the file system of the mount whose
    path is the longest nonempty string prefix of the argument, which is unique, and NULL
    when no mount path is one; it changes nothing. *)
Theorem fs_get_filesystem_longest s ms path :
  fs_inv s ms →
  ∃ res, fs_get_filesystem (Some path) s = Ok (res, s) ∧
    ((∃ mr, resolves ms path mr ∧ res = r_fs mr ∧ ∀ mr', resolves ms path mr' → mr' = mr) ∨
     (res = 0 ∧ ∀ mr, mr ∈ ms → r_path mr `prefix_of` path → r_path mr = [])).
Proof.
  intros Hi. destruct (proj1 (wp_run (fs_get_filesystem (Some path)) (λ res s', s' = s ∧
    ((∃ mr, resolves ms path mr ∧ res = r_fs mr) ∨
     (res = 0 ∧ ∀ mr, mr ∈ ms → r_path mr `prefix_of` path → r_path mr = []))) s))
    as (res & s' & Hr & -> & Hout); [apply (get_filesystem_spec _ ms); naive_solver|].
  exists res. split; [done|]. destruct Hout as [(mr & Hres & ->)|Hno]; [left|by right].
  exists mr. split_and!; [done|done|]. intros mr' Hres'. eapply resolves_unique; [apply (fi_paths _ _ Hi)|done..].
Qed.

(** *** Initialization and shutdown *)

(** The global cache and journal next to the mount table. *)
Record fs_live (s : fstate A) (ms : list mrec) : Prop := {
  fl_inv : fs_inv s ms;
  fl_cache : ∃ cx, objs s !! fm_global_cache (fm s) = Some (OCache cx) ∧ c_entries cx = 0;
  fl_jn : ∃ jx, objs s !! fm_global_journal (fm s) = Some (OJournal jx) ∧ j_cache jx = 0;
  fl_apart : (fm_global_cache (fm s) ∉ concat (map addrs ms)) ∧ (fm_global_journal (fm s) ∉ concat (map addrs ms))
}.

Lemma live_push s s' ms mr :
  fs_live s ms → fs_inv s' (mr :: ms) → table_only (fm s) (fm s') →
  (∀ b, b ∈ addrs mr → objs s !! b = None) → (∀ b, (b ∉ addrs mr) → objs s' !! b = objs s !! b) →
  fs_live s' (mr :: ms).
Proof.
  intros [_ (cx & Hc & He) (jx & Hj & Hjc) [Hac Haj]] Hi (_ & _ & Hgc & Hgj & _) Hfr Hot.
  assert (∀ b o, objs s !! b = Some o → b ∉ addrs mr) as Hne.
  { intros b o Hb Hin. specialize (Hfr _ Hin). congruence. }
  split; [done|..]; rewrite ?Hgc, ?Hgj.
  - exists cx. rewrite Hot; [done|by eapply Hne].
  - exists jx. rewrite Hot; [done|by eapply Hne].
  - cbn [map concat]. split; apply not_elem_of_app; split; [by eapply Hne|done|by eapply Hne|done].
Qed.

Lemma unmount_all_spec fuel ms Q s :
  fs_inv s ms → (length ms < fuel)%nat →
  (∀ s', fs_inv s' [] → table_only (fm s) (fm s') →
     (∀ b, objs s' !! b = if decide (b ∈ concat (map addrs ms)) then None else objs s !! b) → Q () s') →
  wp (unmount_all fuel (head ms)) Q s.
Proof.
  revert ms s. induction fuel as [|fuel IH]; intros ms s Hi Hf HQ; [lia|].
  cbn [unmount_all]. destruct ms as [|mr ms].
  { apply wp_ret, HQ; [done|done|]. intros b. by rewrite decide_False by set_solver. }
  pose proof (inv_nonnull _ _ Hi) as Hnn. apply Forall_cons in Hnn as [Hn0 _]. cbn [head].
  rewrite (proj2 (Z.eqb_neq _ 0)) by done.
  destruct (chain_next _ _ _ _ (fi_chain _ _ Hi)) as [(x & f & Hx & Hnx & Hfs & Hp & Hpo & _) _].
  apply wp_bind, (wp_ld _ _ (OMount x) x); [done..|].
  rewrite Hp, strlen_path by done. apply wp_bind, wp_ret. rewrite take_path, Hnx by done.
  apply wp_bind, (fs_unmount_spec [] mr ms); [done|]. intros s1 [Hi1 _ Hdom Hfr Hfm].
  apply IH; [done|cbn in Hf; lia|]. intros s' Hi' Htab Hobj. apply HQ; [done| |].
  - destruct Htab as (?&?&?&?&?), Hfm as (?&?&?&?&?). unfold table_only. by split_and!; congruence.
  - intros b. rewrite Hobj. cbn [map concat app] in *. destruct (decide (b ∈ concat (map addrs ms))) as [Hb|Hb].
    + by rewrite decide_True by set_solver.
    + destruct (decide (b ∈ addrs mr)) as [Hb'|Hb'].
      * rewrite decide_True by set_solver. apply not_elem_of_dom. rewrite Hdom. set_solver.
      * rewrite decide_False by set_solver. by apply Hfr.
Qed.

Lemma wp_journal_destroy jn jx Q m r ob t a :
  jn ≠ 0 → ob !! jn = Some (OJournal jx) → j_cache jx = 0 →
  Q () (mk_fstate m r (<[jn := OJournal zero_journal]> ob) t a) →
  wp (fs_journal_destroy jn) Q (mk_fstate m r ob t (a : A)).
Proof.
  intros Hj0 Hj Hc HQ. unfold fs_journal_destroy, fs_journal_commit. rewrite (proj2 (Z.eqb_neq jn 0)) by done.
  apply wp_bind, (wp_ld _ _ (OJournal jx) jx); [done..|]. apply wp_bind. destruct (j_enabled jx) eqn:E.
  - apply wp_bind, wp_bind, (wp_ld _ _ (OJournal jx) jx); [done..|]. rewrite E. cbn [negb].
    apply wp_bind, wp_st, wp_ret, wp_ret, wp_bind. eapply wp_ld; [apply lookup_insert_eq|done|].
    unfold fset. cbn [j_cache]. rewrite Hc. apply wp_bind, wp_ret, wp_st. by rewrite insert_insert_eq.
  - apply wp_ret, wp_bind, (wp_ld _ _ (OJournal jx) jx); [done..|]. rewrite Hc. apply wp_bind, wp_ret. by apply wp_st.
Qed.

(** C28: shutdown.  From any state with mounts, [fs_shutdown] returns, unmounts every file
    system, and frees exactly the objects of the mounts, the global journal and the global
    cache; every other object is untouched and the subsystem is no longer initialized. *)
Theorem fs_shutdown_correct s ms :
  fs_live s ms →
  ∃ s', fs_shutdown s = Ok ((), s') ∧ fm_initialized (fm s') = false ∧
    fm_mount_points (fm s') = 0 ∧ fm_mounted_count (fm s') = 0 ∧
    ∀ b, objs s' !! b =
      if decide (b ∈ fm_global_cache (fm s) :: fm_global_journal (fm s) :: concat (map addrs ms))
      then None else objs s !! b.
Proof.
  intros [Hi (cx & Hcx & Hce) (jx & Hjx & Hjc) [Hac Haj]].
  set (gc := fm_global_cache (fm s)) in *. set (gj := fm_global_journal (fm s)) in *.
  assert (gc ≠ gj) as Hne by congruence.
  assert (gc ≠ 0 ∧ gj ≠ 0) as [Hc0 Hj0] by (pose proof (fi_null _ _ Hi); split; congruence).
  destruct (proj1 (wp_run fs_shutdown (λ _ s', fm_initialized (fm s') = false ∧
    fm_mount_points (fm s') = 0 ∧ fm_mounted_count (fm s') = 0 ∧ ∀ b, objs s' !! b =
      if decide (b ∈ gc :: gj :: concat (map addrs ms)) then None else objs s !! b) s)) as ([] & s' & Hr & HP);
    [|by exists s'].
  unfold fs_shutdown. apply wp_bind, wp_get. rewrite (fi_init _ _ Hi). cbn [negb].
  apply wp_bind. rewrite (fi_head _ _ Hi). apply (unmount_all_spec _ ms); [done|by apply mounts_length|].
  intros [m r ob t a] Hi' (_ & _ & Hgc & Hgj & _) Hobj. cbn [fm objs] in *. fold gc in Hgc. fold gj in Hgj.
  assert (ob !! gj = Some (OJournal jx) ∧ ob !! gc = Some (OCache cx)) as [Hj Hc].
  { rewrite !Hobj, !decide_False by done. done. }
  apply wp_bind, wp_gets. cbn [fm]. rewrite Hgj, (proj2 (Z.eqb_neq gj 0)) by done. cbn [negb when].
  apply wp_bind, wp_bind, (wp_journal_destroy gj jx); [done..|].
  apply wp_free; [rewrite (dom_insert_same _ _ (OJournal jx)) by done; apply (fi_alloc _ _ Hi')|rewrite lookup_insert_eq; eauto|].
  intros a1 Ha1. rewrite delete_insert_eq in Ha1 |- *.
  apply wp_bind, wp_gets. cbn [fm]. rewrite Hgc, (proj2 (Z.eqb_neq gc 0)) by done. cbn [negb when].
  assert (delete gj ob !! gc = Some (OCache cx)) as Hc' by (by rewrite lookup_delete_ne).
  apply wp_bind, wp_bind, (wp_cache_destroy gc cx); [done..|].
  apply wp_free; [by rewrite (dom_insert_same _ _ (OCache cx))|rewrite lookup_insert_eq; eauto|].
  intros a2 Ha2. rewrite delete_insert_eq in Ha2 |- *. apply wp_upd_fm.
  destruct Hi' as [_ Hh _ _ _ Hn _ _ _ _]. split_and!; [done|exact Hh|exact Hn|].
  intros b. cbn [objs]. rewrite !lookup_delete, Hobj.
  repeat case_decide; try done; set_solver.
Qed.

Lemma inv_empty m r ob t a :
  fm_initialized m = true → fm_mount_points m = 0 → fm_mounted_count m = 0 → fm_filesystems m = replicate 64 0 →
  ka_inv (dom ob) a → ob !! 0 = None → fs_inv (mk_fstate m r ob t a) [].
Proof. intros Hin Hh Hn Harr Ha H0'. split; cbn [fm objs falloc]; try done; [constructor..|cbn; lia]. Qed.

Lemma wp_register type ops Q m r ob t a :
  type < 10 → Q 0 (mk_fstate m (<[Z.to_nat type := Some ops]> r) ob t a) →
  wp (fs_register_filesystem type (Some ops)) Q (mk_fstate m r ob t (a : A)).
Proof.
  intros Hty HQ. unfold fs_register_filesystem. rewrite (proj2 (Z.leb_gt _ _)) by (unfold FS_TYPE_DEVFS; lia).
  by apply wp_bind, wp_modify, wp_ret.
Qed.

Lemma wp_cache_init c cx max bs Q m r ob t a :
  c ≠ 0 → ob !! c = Some (OCache cx) →
  Q 0 (mk_fstate m r (<[c := OCache (mk_cache 0 0 max bs 0 0 0)]> ob) t a) →
  wp (fs_cache_init c max bs) Q (mk_fstate m r ob t (a : A)).
Proof.
  intros Hc0 Hc HQ. unfold fs_cache_init. rewrite (proj2 (Z.eqb_neq c 0)) by done.
  apply wp_bind, (wp_ld _ _ (OCache cx) cx); [done..|]. by apply wp_bind, wp_st, wp_ret.
Qed.

Lemma wp_journal_init j jx start size Q m r ob t a :
  j ≠ 0 → ob !! j = Some (OJournal jx) →
  Q 0 (mk_fstate m r (<[j := OJournal (mk_journal start size 1 DEFAULT_BLOCK_SIZE true 0 0)]> ob) t a) →
  wp (fs_journal_init j start size) Q (mk_fstate m r ob t (a : A)).
Proof.
  intros Hj0 Hj HQ. unfold fs_journal_init. rewrite (proj2 (Z.eqb_neq j 0)) by done.
  apply wp_bind, (wp_ld _ _ (OJournal jx) jx); [done..|]. by apply wp_bind, wp_st, wp_ret.
Qed.

(** What a call of [fs_init] did. *)
Definition init_outcome (s : fstate A) (res : Z) (s' : fstate A) : Prop :=
    ((res = 0 ∧ fs_live s' [] ∧
      registered_fs s' !! 1%nat = Some (Some fgfs_ops) ∧ registered_fs s' !! 2%nat = Some (Some fat32_ops) ∧
      registered_fs s' !! 4%nat = Some (Some ext4_ops) ∧
      objs s !! fm_global_cache (fm s') = None ∧ objs s !! fm_global_journal (fm s') = None ∧
      ∀ b, b ≠ fm_global_cache (fm s') → b ≠ fm_global_journal (fm s') → objs s' !! b = objs s !! b) ∨
     (res = -1 ∧ objs s' = objs s ∧ fm_initialized (fm s') = false)).

Lemma fs_init_spec s :
  ka_inv (dom (objs s)) (falloc s) → objs s !! 0 = None → length (registered_fs s) = 10%nat →
  wp fs_init (init_outcome s) s.
Proof.
  intros Ha Hnull Hreg. unfold init_outcome.
  destruct s as [m r ob t a]. cbn [fm objs registered_fs falloc] in *. unfold fs_init.
  assert (fm_filesystems zero_fm = replicate 64 0 ∧ fm_initialized zero_fm = false) as [Hz1 Hz2] by done.
  generalize dependent zero_fm. intros z0 Hz1 Hz2.
  apply wp_bind, wp_upd_fm, wp_bind, wp_new; [done|done| |].
  { intros a1 Ha1. apply wp_bind, wp_upd_fm. by apply wp_ret; right. }
  intros gc a1 Hgc0 Hgc Ha1. apply wp_bind, wp_upd_fm. rewrite (proj2 (Z.eqb_neq gc 0)) by done.
  apply wp_bind, (wp_cache_init _ zero_cache); [done|apply lookup_insert_eq|]. cbn [Z.eqb negb].
  rewrite insert_insert_eq.
  set (cx := mk_cache _ _ _ _ _ _ _). set (ob1 := <[gc := OCache cx]> ob).
  assert (ka_inv (dom ob1) a1) as Ha1' by (unfold ob1; rewrite dom_insert_L in Ha1 |- *; done). clear Ha1.
  apply wp_bind, wp_new; [done|done| |].
  { intros a2 Ha2. apply wp_bind, wp_upd_fm. cbn [Z.eqb].
    apply wp_bind, (wp_cache_destroy gc cx); [done|apply lookup_insert_eq|done|].
    unfold ob1. rewrite insert_insert_eq.
    apply wp_bind, wp_free; [unfold ob1 in Ha2; rewrite dom_insert_L in Ha2 |- *; done|rewrite lookup_insert_eq; eauto|].
    intros a3 Ha3. rewrite delete_insert_id by done. by apply wp_ret; right. }
  intros gj a2 Hgj0 Hgj Ha2. apply wp_bind, wp_upd_fm. rewrite (proj2 (Z.eqb_neq gj 0)) by done.
  apply wp_bind, (wp_journal_init _ zero_journal); [done|apply lookup_insert_eq|]. cbn [Z.eqb negb].
  rewrite insert_insert_eq.
  set (jx := mk_journal _ _ _ _ _ _ _). set (ob2 := <[gj := OJournal jx]> ob1).
  apply wp_bind, wp_upd_fm.
  pose proof (fresh_ne ob1 gj gc _ Hgj (lookup_insert_eq _ _ _)) as Hne.
  unfold ob1 in Hgj. rewrite lookup_insert_ne in Hgj by done.
  do 3 (apply wp_bind, wp_register; [done|]).
  apply wp_bind, wp_upd_fm, wp_ret. left. split; [done|]. split.
  - split; unfold fset; cbn -[replicate].
    + apply inv_empty; unfold fset; cbn -[replicate]; [done..|exact Hz1| |].
      * unfold ob2. rewrite dom_insert_L in Ha2 |- *. done.
      * unfold ob2, ob1. by rewrite !lookup_insert_ne.
    + exists cx. unfold ob2, ob1. by rewrite lookup_insert_ne, lookup_insert_eq.
    + exists jx. unfold ob2. by rewrite lookup_insert_eq.
    + split; set_solver.
  - unfold fset. cbn -[replicate].
    change (Z.to_nat FS_TYPE_EXT4) with 4%nat. change (Z.to_nat FS_TYPE_FAT32) with 2%nat.
    change (Z.to_nat FS_TYPE_FGFS) with 1%nat.
    split_and!; [..|done|done|intros b Hb1 Hb2; unfold ob2, ob1; by rewrite !lookup_insert_ne].
    + rewrite list_lookup_insert_ne, list_lookup_insert_ne, list_lookup_insert_eq by lia. done.
    + rewrite list_lookup_insert_ne, list_lookup_insert_eq by (rewrite ?length_insert; lia). done.
    + rewrite list_lookup_insert_eq by (rewrite !length_insert; lia). done.
Qed.

(** Initialization.  [fs_init] returns; it either returns 0 with an empty mount table,
    a fresh global cache and journal as the only new objects and the three drivers
    registered, or returns -1 having freed whatever it allocated, and is not initialized. *)
Theorem fs_init_correct s :
  ka_inv (dom (objs s)) (falloc s) → objs s !! 0 = None → length (registered_fs s) = 10%nat →
  ∃ res s', fs_init s = Ok (res, s') ∧
    init_outcome s res s'.
Proof. intros Ha Hnull Hreg. by apply (wp_run fs_init), fs_init_spec. Qed.

End mount.

(** ** A sample: FGFS mounted at /mnt *)
Module Sample.

#[export] Instance env : FsEnv heap := {| timestamp_at n := 1000 + n; stale_byte := 255; cache_flush _ := ret 0 |}.
#[export] Instance laws : FsLaws heap.
Proof.
  split. intros c cx m r ob t a Q Hc HQ. apply wp_ret.
  rewrite <- (insert_id ob c (OCache cx)) by done. by apply HQ.
Qed.

Definition after {X} (o : prog (fstate heap) X) (s : fstate heap) : fstate heap :=
  match o s with Ok (_, s') => s' | _ => s end.
Definition off : fstate heap := fs_boot sample_heap.
Definition up : fstate heap := after fs_init off.
Definition mnt : list Z := str "/mnt".
Definition mounted : fstate heap := after (fs_mount (Some (str "sda")) (Some mnt) FS_TYPE_FGFS 0) up.

Lemma mnt_ok : path_ok mnt.
Proof. split; [repeat constructor; done|done]. Qed.

Lemma off_alloc : ka_inv (dom (objs off)) (falloc off).
Proof. cbn. rewrite dom_empty_L. exists [mk_blk 8192 false]. split; [exact sample_heap_ok|done]. Qed.

Lemma up_run : fs_init off = Ok (0, up).
Proof. vm_compute. reflexivity. Qed.
Lemma up_live : fs_live up [].
Proof.
  pose proof (fs_init_spec off off_alloc ltac:(done) ltac:(done)) as Hup. unfold wp in Hup. rewrite up_run in Hup.
  destruct Hup as [(_ & Hl & _)|(? & _)]; done.
Qed.

Lemma mounted_run : fs_mount (Some (str "sda")) (Some mnt) FS_TYPE_FGFS 0 up = Ok (0, mounted).
Proof. vm_compute. reflexivity. Qed.
Lemma mounted_live : ∃ mr, r_path mr = mnt ∧ r_ops mr = fgfs_ops ∧ fs_live mounted [mr].
Proof.
  pose proof (fs_mount_spec up [] (str "sda") mnt FS_TYPE_FGFS 0 (fl_inv _ _ up_live) mnt_ok ltac:(cbn; lia)) as Hm.
  unfold wp in Hm. rewrite mounted_run in Hm.
  destruct Hm as (_ & [(_ & mr & Hp & _ & Hreg & Hi & Htab & Hfr & Hot)|(? & _)] & _); [|done].
  assert (registered_fs up !! Z.to_nat FS_TYPE_FGFS = Some (Some fgfs_ops)) as Hfg by (vm_compute; reflexivity).
  exists mr. split_and!; [done|congruence|].
  by apply (live_push up mounted []); [exact up_live|..].
Qed.
End Sample.
Import Sample.

Lemma fs_init_correct_witness : ∃ res s', fs_init off = Ok (res, s').
Proof. destruct (fs_init_correct off off_alloc eq_refl eq_refl) as (res & s' & Hr & _). eauto. Defined.

Lemma fs_mount_correct_witness : ∃ s', fs_mount (Some (str "sda")) (Some mnt) FS_TYPE_EXT4 0 up = Ok (0, s').
Proof.
  destruct (fs_mount_correct up [] (str "sda") mnt FS_TYPE_EXT4 0) as [_ Hok].
  destruct (Hok (fl_inv _ _ up_live) mnt_ok ltac:(cbn; lia)) as (res & s' & Hr & _ & _ & Hiff).
  assert (res = 0) as Hres.
  { apply Hiff. split; [vm_compute; discriminate|]. split; [intros Hin; inversion Hin|].
    exists ext4_ops. split; [vm_compute; reflexivity|].
    vm_compute. exact I. }
  rewrite Hres in Hr. exists s'. exact Hr.
Defined.

Lemma fs_unmount_correct_witness : ∃ res s', fs_unmount (Some mnt) mounted = Ok (res, s').
Proof.
  destruct mounted_live as (mr & _ & _ & Hl).
  destruct (fs_unmount_correct mounted [mr] mnt (fl_inv _ _ Hl) (proj1 mnt_ok)) as [(l1 & ? & l2 & s' & _ & _ & Hr & _)|[_ Hr]]; eauto.
Defined.

Lemma fs_mount_unmount_roundtrip_witness : ∃ s'', fs_unmount (Some mnt) mounted = Ok (0, s'') ∧ objs s'' = objs up.
Proof.
  destruct (fs_mount_unmount_roundtrip up [] (str "sda") mnt FS_TYPE_FGFS 0 mounted (fl_inv _ _ up_live) mnt_ok
    ltac:(cbn; lia) mounted_run) as (s'' & Hr & Ho & _). eauto.
Defined.

Lemma fs_get_filesystem_longest_witness : ∃ res, fs_get_filesystem (Some (str "/mnt/file")) mounted = Ok (res, mounted).
Proof.
  destruct mounted_live as (mr & _ & _ & Hl).
  destruct (fs_get_filesystem_longest mounted [mr] (str "/mnt/file") (fl_inv _ _ Hl)) as (res & Hr & _). eauto.
Defined.

Lemma fs_shutdown_correct_witness : ∃ s', fs_shutdown mounted = Ok ((), s').
Proof.
  destruct mounted_live as (mr & _ & _ & Hl). destruct (fs_shutdown_correct mounted [mr] Hl) as (s' & Hr & _). eauto.
Defined.

(** A path that merely starts with the characters of a mount point resolves to it. *)
Example prefix_without_separator :
  ∃ fs, fs ≠ 0 ∧ fs_get_filesystem (Some (str "/mnt2/file")) mounted = Ok (fs, mounted) ∧
        fs_get_filesystem (Some (str "/mnt/file")) mounted = Ok (fs, mounted).
Proof. eexists. split; [|split; vm_compute; reflexivity]. done. Qed.

(** With 64 mounts counted, the next one writes past [filesystems]. *)
Example mount_past_array :
  fs_mount (Some []) (Some mnt) FS_TYPE_FAT32 0 (up <| fm := (fm up) <| fm_mounted_count := 64 |> |>) = Fault.
Proof. vm_compute. reflexivity. Qed.
