(* ===== verification/FsFiles.v ===== *)
(** * Open files, formatting and checksums (fs/fs.c, fs/fgfs.c)

    Seeking, the life of an open file across an unmount, what [fgfs_format] computes
    and leaves behind, and the checksum of the superblock. *)
From S2P Require Import Prelude.
From S2P Require Import Heap.
From S2P Require Import SchedState.
From S2P Require Import Fs.
From S2P Require Import Mounts.
Local Open Scope Z_scope.

Section files.
Context {A : Type} `{KA : KAlloc A} `{!FsEnv A} `{!FsLaws A}.
Implicit Types s : fstate A.
Implicit Types ob : gmap Z obj.

Lemma wp_upd_file p x f Q m r ob t a :
  ob !! p = Some (OFile x) → Q () (mk_fstate m r (<[p := OFile (f x)]> ob) t a) →
  wp (upd_file p f) Q (mk_fstate m r ob t (a : A)).
Proof. intros Hx HQ. apply wp_bind, (wp_ld _ _ (OFile x) x); [done..|]. by apply wp_st. Qed.

(** The operation table of an open file whose file system is live. *)
Lemma wp_file_ops p x g Q s :
  objs s !! p = Some (OFile x) → fl_fs x ≠ 0 → objs s !! fl_fs x = Some (OFs g) →
  Q (Some (f_ops g)) s → wp (file_ops p) Q s.
Proof.
  intros Hx Hfs Hg HQ. apply wp_bind, (wp_ld _ _ (OFile x) x); [done..|].
  rewrite (proj2 (Z.eqb_neq _ 0)) by done. apply wp_bind, (wp_ld _ _ (OFs g) g); [done..|]. by apply wp_ret.
Qed.

(** A file position or size that [seek] keeps: below the sign bit of [int64_t]. *)
Definition file_ok (x : file) : Prop := 0 ≤ fl_position x < 2 ^ 63 ∧ 0 ≤ fl_size x < 2 ^ 63.

(** What the offset of a seek is relative to. *)
Definition seek_base (x : file) (origin : Z) : option Z :=
  if origin =? SEEK_SET then Some 0
  else if origin =? SEEK_CUR then Some (fl_position x)
  else if origin =? SEEK_END then Some (fl_size x)
  else None.

(** Reading an unsigned sum back as [int64_t]. *)
Lemma s64_sum v : - 2 ^ 63 ≤ v < 2 ^ 64 → s64 v = if v <? 2 ^ 63 then v else v - 2 ^ 64.
Proof.
  intros Hv. unfold s64. cbv zeta. destruct (decide (0 ≤ v)) as [H1|H1].
  - rewrite (u64_small v) by lia. destruct (Z.ltb_spec v (2 ^ 63)); done.
  - assert (u64 v = v + 2 ^ 64) as ->; [|repeat case_match; lia].
    unfold u64. symmetry. apply (Z.mod_unique _ _ (-1)); lia.
Qed.

Lemma seek_target x offset origin :
  file_ok x → - 2 ^ 63 ≤ offset < 2 ^ 63 →
  (if origin =? SEEK_SET then Some offset
   else if origin =? SEEK_CUR then Some (s64 (fl_position x + offset))
   else if origin =? SEEK_END then Some (s64 (fl_size x + offset)) else None) =
  (λ b, s64 (b + offset)) <$> seek_base x origin.
Proof.
  intros [Hp Hs] Ho. unfold seek_base. destruct (origin =? SEEK_SET).
  - cbn [fmap option_fmap option_map]. rewrite Z.add_0_l, s64_sum by lia. destruct (Z.ltb_spec offset (2 ^ 63)); [done|lia].
  - destruct (origin =? SEEK_CUR); [done|]. by destruct (origin =? SEEK_END).
Qed.

Lemma fgfs_seek_eq s p x offset origin :
  p ≠ 0 → objs s !! p = Some (OFile x) → file_ok x → - 2 ^ 63 ≤ offset < 2 ^ 63 →
  fgfs_seek p offset origin s =
  match seek_base x origin with
  | Some b => let t := s64 (b + offset) in
      if t <? 0 then Ok (-1, s)
      else Ok (t, s <| objs := <[p := OFile (x <| fl_position := u64 t |>)]> (objs s) |>)
  | None => Ok (-1, s)
  end.
Proof.
  intros Hp0 Hx Hok Ho. unfold fgfs_seek. rewrite (proj2 (Z.eqb_neq p 0)) by done.
  unfold bind at 1, ld at 1. rewrite Hx. cbn [mbind option_bind as_file].
  rewrite seek_target by done. destruct (seek_base x origin) as [b|]; [|done].
  cbn [fmap option_fmap option_map]. cbv zeta. destruct (s64 (b + offset) <? 0); [done|].
  unfold upd_file, bind, ld, st, modify. by rewrite Hx.
Qed.

(** C29: seeking, through the operation table of any of the three file systems.  With
    position and size below 2^63, [fs_seek] moves to base + offset exactly when that
    is in [0, 2^63), with the mathematical sum and no wrap-around, and returns it; in
    every other case (a negative or too large target, an unknown origin) it returns -1
    and changes nothing.  The position stays below 2^63. *)
Theorem fs_seek_correct s p x g offset origin :
  p ≠ 0 → objs s !! p = Some (OFile x) → fl_fs x ≠ 0 → objs s !! fl_fs x = Some (OFs g) →
  file_ok x → - 2 ^ 63 ≤ offset < 2 ^ 63 →
  match seek_base x origin with
  | Some b =>
      if (0 <=? b + offset) && (b + offset <? 2 ^ 63)
      then fs_seek p offset origin s =
             Ok (b + offset, s <| objs := <[p := OFile (x <| fl_position := b + offset |>)]> (objs s) |>) ∧
           file_ok (x <| fl_position := b + offset |>)
      else fs_seek p offset origin s = Ok (-1, s)
  | None => fs_seek p offset origin s = Ok (-1, s)
  end.
Proof.
  intros Hp0 Hx Hfs Hg Hok Ho.
  assert (fs_seek p offset origin s = fgfs_seek p offset origin s) as ->.
  { unfold fs_seek. rewrite (proj2 (Z.eqb_neq p 0)) by done.
    assert (file_ops p s = Ok (Some (f_ops g), s)) as E.
    { destruct (proj1 (wp_run (file_ops p) (λ o s', o = Some (f_ops g) ∧ s' = s) s)) as (? & ? & -> & -> & ->); [|done].
      by eapply wp_file_ops. }
    unfold bind at 1. rewrite E. by destruct (f_ops g). }
  rewrite (fgfs_seek_eq s p x) by done. destruct (seek_base x origin) as [b|] eqn:Hb; [|done].
  assert (0 ≤ b < 2 ^ 63) as Hbr.
  { destruct Hok. unfold seek_base in Hb. repeat case_match; simplify_eq; lia. }
  rewrite s64_sum by lia. destruct (Z.leb_spec 0 (b + offset)) as [Hlo|Hlo], (Z.ltb_spec (b + offset) (2 ^ 63)) as [Hhi|Hhi];
    cbn [andb]; [|rewrite (proj2 (Z.ltb_lt _ 0)) by lia; done..].
  rewrite (proj2 (Z.ltb_ge _ 0)) by lia. split; [|destruct Hok; split; cbn; [lia|done]].
  by rewrite u64_small by lia.
Qed.

(** *** Files of an unmounted file system *)

(** Adding an object outside the table. *)
Lemma inv_insert m r ob t a ms p o t' a' :
  fs_inv (mk_fstate m r ob t a) ms → p ≠ 0 → ob !! p = None → ka_inv (dom (<[p := o]> ob)) a' →
  fs_inv (mk_fstate m r (<[p := o]> ob) t' a') ms.
Proof.
  intros Hi Hp0 Hp Ha'. assert (∀ b, b ∈ concat (map addrs ms) → b ≠ p) as Hne.
  { intros b Hb ->. destruct (addrs_live _ _ _ Hi Hb) as [_ [o' Ho']]. cbn [objs] in Ho'. congruence. }
  destruct Hi as [Hin Hh Hc Hnd Hpths Hcnt Hmax Harr Hal Hnull]. cbn [fm objs falloc] in *.
  split; cbn [fm objs falloc]; try done; [|by rewrite lookup_insert_ne].
  eapply chain_ext; [|done]. intros b Hb. rewrite lookup_insert_ne; [done|]. intros ->. by apply (Hne b).
Qed.

Lemma ops_open_spec ops fs g path mode file Q m r ob t a :
  fs ≠ 0 → file ≠ 0 → ob !! fs = Some (OFs g) → f_private_data g ≠ 0 → ka_inv (dom ob) a →
  (∀ a', ka_inv (dom ob) a' → Q (-1, 0) (mk_fstate m r ob t a')) →
  (∀ p x a', p ≠ 0 → ob !! p = None → fl_fs x = fs → ka_inv (dom (<[p := OFile x]> ob)) a' →
     Q (0, p) (mk_fstate m r (<[p := OFile x]> ob) t a')) →
  wp (ops_open ops fs (Some path) mode file) Q (mk_fstate m r ob t a).
Proof.
  intros Hfs Hfile Hg Hp Ha HQ1 HQ0.
  assert (∀ x, fl_fs x = fs → wp (f <- new SIZEOF_FILE (OFile x) ;; if f =? 0 then ret (-1, 0) else ret (0, f)) Q
    (mk_fstate m r ob t a)) as Hnew.
  { intros x Hx. apply wp_bind, wp_new; [done|done|intros a' Ha'; by apply wp_ret, HQ1|].
    intros p a' Hp0 Hpn Ha'. rewrite (proj2 (Z.eqb_neq p 0)) by done. by apply wp_ret, HQ0. }
  destruct ops; cbn [ops_open]; unfold fgfs_open, fat32_open, ext4_open, compat_open;
    rewrite (proj2 (Z.eqb_neq fs 0)), (proj2 (Z.eqb_neq file 0)), bool_decide_false by done; cbn [orb].
  - apply wp_bind, (wp_ld _ _ (OFs g) g); [done..|]. rewrite (proj2 (Z.eqb_neq _ 0)) by done. by apply Hnew.
  - by apply Hnew.
  - by apply Hnew.
Qed.

(** The result of an [fs_open] on a path that resolves: an error, or a new file object
    that points to the mount's file system. *)
Lemma fs_open_spec ms path mr mode file Q s :
  fs_inv s ms → resolves ms path mr → file ≠ 0 →
  (∀ s', fs_inv s' ms → Q (-1, 0) s') →
  (∀ p x s', p ≠ 0 → (p ∉ concat (map addrs ms)) → objs s' !! p = Some (OFile x) → fl_fs x = r_fs mr →
     fs_inv s' ms → Q (0, p) s') →
  wp (fs_open (Some path) mode file) Q s.
Proof.
  intros Hi Hres Hfile HQ1 HQ0. unfold fs_open. rewrite (proj2 (Z.eqb_neq file 0)), bool_decide_false by done. cbn [orb].
  unfold with_fs. apply wp_bind, (get_filesystem_spec _ ms); [done| |].
  2: { intros Hno. destruct Hres as (Hin & Hne & Hp & _). by destruct Hne; apply Hno. }
  intros mr' Hres'. assert (mr' = mr) as -> by (eapply resolves_unique; [apply (fi_paths _ _ Hi)|done..]).
  destruct Hres as (Hin & _ & _ & _). assert (r_fs mr ≠ 0) as Hfs0.
  { apply (addrs_live s ms _ Hi). apply list_elem_of_In, in_concat. exists (addrs mr).
    split; [by apply in_map, list_elem_of_In|by right; left]. }
  rewrite (proj2 (Z.eqb_neq _ 0)) by done.
  destruct (chain_elem _ _ _ _ mr (fi_chain _ _ Hi) Hin) as (next & x & g & _ & _ & _ & _ & _ & Hg & _ & _ & Hp & _).
  apply wp_bind, (wp_ld _ _ (OFs g) g); [done..|]. destruct s as [m r ob t a]. cbn [objs] in *.
  eapply ops_open_spec; [done|done|done|done|apply (fi_alloc _ _ Hi)| |].
  - intros a' Ha'. by eapply HQ1, inv_alloc.
  - intros p y a' Hp0 Hpn Hy Ha'. eapply (HQ0 p y); [done| |apply lookup_insert_eq|done|by eapply inv_insert].
    intros Hb. destruct (addrs_live _ _ _ Hi Hb) as [_ [o' Ho']]. cbn [objs] in Ho'. congruence.
Qed.

Lemma file_ops_dangling s p x :
  objs s !! p = Some (OFile x) → fl_fs x ≠ 0 → objs s !! fl_fs x = None → file_ops p s = Fault.
Proof.
  intros Hx Hf Hn. unfold file_ops, bind, ld. rewrite Hx. cbn [mbind option_bind as_file].
  rewrite (proj2 (Z.eqb_neq _ 0)) by done. by rewrite Hn.
Qed.

(** C39: opening a file does not hold its file system.  Whenever [fs_open] succeeds on a
    path, [fs_unmount] of the mount it resolved to still succeeds, since the open did not
    raise [ref_count]; the file keeps its pointer to the freed [filesystem_t], and each of the four
    operations on an open file, [fs_read] and [fs_write] with a buffer, [fs_seek] and [fs_close],
    then dereferences freed memory. *)
Theorem fs_unmount_with_open_file s ms path mr mode file p s1 :
  fs_inv s ms → resolves ms path mr → file ≠ 0 →
  fs_open (Some path) mode file s = Ok ((0, p), s1) →
  ∃ s2, fs_unmount (Some (r_path mr)) s1 = Ok (0, s2) ∧
    (∃ x, objs s2 !! p = Some (OFile x) ∧ fl_fs x = r_fs mr) ∧
    fs_close p s2 = Fault ∧ (∀ b n, b ≠ 0 → fs_read p b n s2 = Fault ∧ fs_write p b n s2 = Fault) ∧
    (∀ offset origin, fs_seek p offset origin s2 = Fault).
Proof.
  intros Hi Hres Hfile Hrun.
  assert (wp (fs_open (Some path) mode file) (λ res s', res.1 = 0 → res.2 ≠ 0 ∧ (res.2 ∉ concat (map addrs ms)) ∧
    fs_inv s' ms ∧ ∃ x, objs s' !! res.2 = Some (OFile x) ∧ fl_fs x = r_fs mr) s) as Hwp.
  { apply (fs_open_spec ms path mr); [done..| |]; [intros ? ? E; cbn in E; lia|intros; cbn; eauto 10]. }
  apply wp_run in Hwp as (res & s' & Hrun' & HP).
  rewrite Hrun' in Hrun. simplify_eq. cbn [fst snd] in HP. destruct (HP eq_refl) as (Hp0 & Hpn & Hi1 & x & Hx & Hfx).
  destruct Hres as (Hin & _). apply list_elem_of_split in Hin as (l1 & l2 & ->).
  destruct (proj1 (wp_run (fs_unmount (Some (r_path mr))) (λ res s'', res = 0 ∧ unmounted s1 s'' l1 mr l2) s1))
    as (res & s2 & Hr & -> & Hu); [by apply (fs_unmount_spec l1 mr l2); eauto|].
  destruct (mount_objects _ _ _ _ Hi1) as (Hlive & _).
  assert (objs s2 !! p = Some (OFile x)) as Hx2.
  { rewrite map_app, concat_app in Hpn. cbn [map concat] in Hpn. rewrite (um_frame _ _ _ _ _ Hu); [done|set_solver|].
    intros E. destruct (last l1) as [pr|] eqn:El; [|done]. apply last_Some_elem_of in El. cbn in E. simplify_eq.
    apply Hpn. apply elem_of_app. left. apply list_elem_of_In, in_concat. exists (addrs pr).
    split; [by apply in_map, list_elem_of_In|by left]. }
  assert (file_ops p s2 = Fault) as Hfault.
  { apply (file_ops_dangling _ _ x); [done|rewrite Hfx; apply Hlive; unfold addrs; set_solver|].
    rewrite Hfx. apply not_elem_of_dom. rewrite (um_dom _ _ _ _ _ Hu). unfold addrs. set_solver. }
  exists s2. split_and!; [done|by exists x| | |].
  - unfold fs_close, bind. rewrite (proj2 (Z.eqb_neq p 0)) by done. cbn [orb]. by rewrite Hfault.
  - intros b n Hb. unfold fs_read, fs_write, bind.
    rewrite (proj2 (Z.eqb_neq p 0)), (proj2 (Z.eqb_neq b 0)) by done. cbn [orb]. by rewrite Hfault.
  - intros offset origin. unfold fs_seek, bind. rewrite (proj2 (Z.eqb_neq p 0)) by done. by rewrite Hfault.
Qed.

(** *** Formatting *)

(** The counts of a superblock for a device of [blocks] blocks, with [groups] groups of
    8192 blocks, the last one possibly partial: the 32-bit variables of the group and inode
    counts wrap, and the two subtractions of 64-bit values do below 100 blocks and at 0
    inodes. *)
Record format_counts (blocks : Z) (x : fgfs_superblock) : Prop := {
  fc_blocks : sb_block_count x = blocks;
  fc_free : sb_free_blocks x = if 100 <=? blocks then blocks - 100 else blocks - 100 + 2 ^ 64;
  fc_groups : sb_group_count x = ((blocks + 8191) / 8192) mod 2 ^ 32;
  fc_inodes : sb_inode_count x = (2048 * ((blocks + 8191) / 8192)) mod 2 ^ 32;
  fc_free_inodes : sb_free_inodes x =
    if sb_inode_count x =? 0 then 2 ^ 64 - 10 else sb_inode_count x - 10;
  fc_wrap : sb_inode_count x = 2048 * ((blocks + 8191) / 8192) ↔ (blocks + 8191) / 8192 < 2 ^ 21;
  fc_none : sb_inode_count x = 0 ↔ ((blocks + 8191) / 8192) mod 2 ^ 21 = 0
}.

Lemma u64_neg v : - 2 ^ 64 ≤ v < 0 → u64 v = v + 2 ^ 64.
Proof. intros Hv. unfold u64. symmetry. apply (Z.mod_unique _ _ (-1)); lia. Qed.

Lemma format_counts_hold size bs label now c :
  0 ≤ size < 2 ^ 64 → 512 ≤ bs ≤ 65536 → format_counts (size / bs) (format_superblock size bs label now c).
Proof.
  intros Hs Hb. assert (0 ≤ size / bs < 2 ^ 55) as Ht.
  { split; [apply Z.div_pos; lia|]. apply Z.div_lt_upper_bound; lia. }
  set (n := size / bs) in *. assert (u64 (n + 8192 - 1) = n + 8191) as Hu by (rewrite u64_small; lia).
  set (g := (n + 8191) / 8192). assert (0 ≤ g < 2 ^ 43) as Hg by (unfold g; Z.to_euclidean_division_equations; lia).
  assert (u32 (u32 g * 2048) = (2048 * g) mod 2 ^ 32) as Hin.
  { unfold u32. rewrite Z.mul_mod_idemp_l by lia. f_equal. lia. }
  split; cbn [format_superblock sb_block_count sb_free_blocks sb_group_count sb_inode_count sb_free_inodes]; fold n;
    unfold FGFS_BLOCKS_PER_GROUP_DEFAULT, FGFS_INODES_PER_GROUP_DEFAULT; rewrite ?Hu; fold g.
  - done.
  - destruct (Z.leb_spec 100 n); [apply u64_small; lia|apply u64_neg; lia].
  - done.
  - exact Hin.
  - rewrite Hin. set (i := (2048 * g) mod 2 ^ 32) in *. destruct (Z.eqb_spec i 0) as [->|Hi]; [done|].
    apply u64_small. unfold i in *. Z.to_euclidean_division_equations; lia.
  - rewrite Hin. Z.to_euclidean_division_equations; lia.
  - rewrite Hin. Z.to_euclidean_division_equations; lia.
Qed.

(** C40: what [fgfs_format] computes.  It succeeds exactly when there is a device name, the
    block size is between 512 and 65536 and the allocator supplies the superblock, and
    returns -1 otherwise.  The superblock then has size / block_size blocks and verifies
    against its own checksum; with g groups of 8192 blocks, rounded up, the group count is g
    modulo 2^32 and the inode count 2048 * g modulo 2^32, so it is right below 2^21 groups
    only and 0 when g is a multiple of 2^21 (also for an empty device); the free-block
    count is 100 less than the block count and wraps below 100 blocks; the
    free-inode count is 10 less than the inode count and is 2^64 - 10 when that is 0.
    Nothing of it survives the call: every object is as before, whether it returns 0 or -1. *)
Theorem fgfs_format_counts s device size bs label :
  ka_inv (dom (objs s)) (falloc s) → 0 ≤ size < 2 ^ 64 →
  let accepted := device ≠ None ∧ 512 ≤ bs ≤ 65536 ∧ supplies [SIZEOF_SB] (falloc s) in
  ∃ res built s', fgfs_format device size bs label s = Ok ((res, built), s') ∧
    objs s' = objs s ∧ fm s' = fm s ∧
    ((accepted ∧ res = 0 ∧ ∃ x, built = Some x ∧ format_counts (size / bs) x ∧
        fgfs_verify_checksum (Some (superblock_bytes x)) (sb_checksum x) FGFS_CHECKSUM_CRC32 = true) ∨
     (¬ accepted ∧ res = -1 ∧ built = None)).
Proof.
  intros Ha Hs accepted. assert (wp (fgfs_format device size bs label) (λ res s', objs s' = objs s ∧ fm s' = fm s ∧
    ((accepted ∧ res.1 = 0 ∧ ∃ x, res.2 = Some x ∧ format_counts (size / bs) x ∧
        fgfs_verify_checksum (Some (superblock_bytes x)) (sb_checksum x) FGFS_CHECKSUM_CRC32 = true) ∨
     (¬ accepted ∧ res.1 = -1 ∧ res.2 = None))) s) as Hwp;
    [|apply wp_run in Hwp as ([res built] & s' & Hr & HP); by exists res, built, s'].
  unfold fgfs_format. destruct (bool_decide_reflect (device = None)) as [->|Hd]; cbn [orb].
  { apply wp_ret. split_and!; [done..|]. right. split_and!; [|done..]. by intros [? _]. }
  destruct (Z.ltb_spec bs FGFS_BLOCK_SIZE_MIN) as [Hlo|Hlo]; cbn [orb].
  { apply wp_ret. split_and!; [done..|]. right. split_and!; [|done..]. unfold FGFS_BLOCK_SIZE_MIN in Hlo. intros (_ & ? & _). lia. }
  destruct (Z.ltb_spec FGFS_BLOCK_SIZE_MAX bs) as [Hhi|Hhi].
  { apply wp_ret. split_and!; [done..|]. right. split_and!; [|done..]. unfold FGFS_BLOCK_SIZE_MAX in Hhi. intros (_ & ? & _). lia. }
  unfold FGFS_BLOCK_SIZE_MIN, FGFS_BLOCK_SIZE_MAX in Hlo, Hhi.
  destruct s as [m r ob t a]. unfold accepted. clear accepted. cbn [objs fm falloc] in *.
  apply wp_bind, wp_new_run; [done|done| |].
  { intros a1 Hal Ha1. apply wp_ret. split_and!; [done..|]. right. split_and!; [|done..].
    intros (_ & _ & Hsup). by apply (supplies_fail _ [] _ a1) in Hal. }
  intros sb a1 Hal Hsb0 Hsb Ha1. rewrite (proj2 (Z.eqb_neq sb 0)) by done.
  apply wp_bind, wp_get. cbn [stamps]. cbv zeta. apply wp_bind, wp_modify. unfold fset. cbn [fm registered_fs objs stamps falloc].
  apply wp_bind, wp_st. rewrite insert_insert_eq. apply wp_bind, wp_free.
  - rewrite dom_insert_L in Ha1 |- *. done.
  - rewrite lookup_insert_eq. eauto.
  - intros a2 Ha2. apply wp_ret. cbn [objs fm fst snd]. rewrite delete_insert_id by done. split_and!; [done..|].
    left. split_and!; [done|lia|lia|by apply (supplies_cons _ [] _ sb a1)|done|].
    eexists. split; [done|]. split.
    + apply format_counts_hold; lia.
    + unfold fgfs_verify_checksum. apply Z.eqb_eq. done.
Qed.

End files.

(** ** The checksum is a rotation, not a cyclic redundancy check *)

(** The 32-bit rotation by a byte that [crc_step] applies. *)
Definition rotl8 (c : Z) : Z := Z.lxor (u32 (Z.shiftl c 8)) (Z.shiftr c 24).

Lemma crc_step_rotl8 c b : crc_step c b = Z.lxor (rotl8 c) b.
Proof. unfold crc_step, rotl8. by rewrite !Z.lxor_assoc, (Z.lxor_comm b). Qed.

Lemma rotl8_bit c i : 0 ≤ c < 2 ^ 32 → 0 ≤ i →
  Z.testbit (rotl8 c) i = if i <? 8 then Z.testbit c (i + 24) else if i <? 32 then Z.testbit c (i - 8) else false.
Proof.
  intros Hc Hi. unfold rotl8, u32. rewrite Z.lxor_spec, Z.shiftr_spec by lia.
  destruct (Z.ltb_spec i 32) as [H32|H32].
  - rewrite Z.mod_pow2_bits_low, Z.shiftl_spec by lia. destruct (Z.ltb_spec i 8) as [H8|H8].
    + rewrite (Z.testbit_neg_r c (i - 8)) by lia. by rewrite xorb_false_l.
    + rewrite (testbit_above 32 c (i + 24)) by lia. by rewrite xorb_false_r.
  - rewrite Z.mod_pow2_bits_high by lia. destruct (Z.ltb_spec i 8); [lia|].
    rewrite (testbit_above 32 c (i + 24)) by lia. done.
Qed.

Lemma lxor_u32 a b : 0 ≤ a < 2 ^ 32 → 0 ≤ b < 2 ^ 32 → 0 ≤ Z.lxor a b < 2 ^ 32.
Proof.
  intros Ha Hb. assert (Z.lxor a b = Z.lxor a b mod 2 ^ 32) as ->; [|apply Z.mod_pos_bound; lia].
  apply Z.bits_inj'. intros i Hi. rewrite mod_pow2_testbit by lia. case_bool_decide; [done|].
  by rewrite Z.lxor_spec, (testbit_above 32 a), (testbit_above 32 b) by lia.
Qed.

Lemma rotl8_range c : 0 ≤ c < 2 ^ 32 → 0 ≤ rotl8 c < 2 ^ 32.
Proof.
  intros Hc. apply lxor_u32; [apply u32_range|]. rewrite Z.shiftr_div_pow2 by lia.
  split; [apply Z.div_pos; lia|apply Z.div_lt_upper_bound; lia].
Qed.

Lemma rotl8_lxor a b : 0 ≤ a < 2 ^ 32 → 0 ≤ b < 2 ^ 32 → rotl8 (Z.lxor a b) = Z.lxor (rotl8 a) (rotl8 b).
Proof.
  intros Ha Hb. pose proof (lxor_u32 a b Ha Hb). apply Z.bits_inj'. intros i Hi.
  rewrite Z.lxor_spec, !rotl8_bit, !Z.lxor_spec by lia. by repeat case_match.
Qed.

Lemma rotl8_four c : 0 ≤ c < 2 ^ 32 → rotl8 (rotl8 (rotl8 (rotl8 c))) = c.
Proof.
  intros Hc. pose proof (rotl8_range c Hc) as H1. pose proof (rotl8_range _ H1) as H2. pose proof (rotl8_range _ H2) as H3.
  apply Z.bits_inj'. intros i Hi. symmetry.
  repeat match goal with |- context [Z.testbit (rotl8 ?d) ?j] =>
    rewrite (rotl8_bit d j) by lia; destruct (Z.ltb_spec j 8); [|destruct (Z.ltb_spec j 32)]; try lia end;
    (f_equal; lia) || apply (testbit_above 32); lia.
Qed.

Create HintDb crc.
#[local] Hint Resolve rotl8_range lxor_u32 : crc.

(** Four bytes later a byte has been rotated back to its place. *)
Lemma crc_four c x b1 b2 b3 :
  0 ≤ c < 2 ^ 32 → 0 ≤ x < 2 ^ 32 → 0 ≤ b1 < 2 ^ 32 → 0 ≤ b2 < 2 ^ 32 → 0 ≤ b3 < 2 ^ 32 →
  rotl8 (foldl crc_step (Z.lxor c x) [b1; b2; b3]) = Z.lxor (rotl8 (foldl crc_step c [b1; b2; b3])) x.
Proof.
  intros Hc Hx H1 H2 H3. cbn [foldl]. rewrite !crc_step_rotl8.
  rewrite !rotl8_lxor by eauto 10 with crc. rewrite (rotl8_four x) by done.
  apply Z.bits_inj'. intros i Hi. rewrite !Z.lxor_spec. destruct (Z.testbit x i);
    repeat match goal with |- context [Z.testbit ?v i] => destruct (Z.testbit v i) end; done.
Qed.

Lemma foldl_ends {X Y} (f : X → Y → X) c u b1 b2 b3 v :
  foldl f c [u; b1; b2; b3; v] = f (foldl f (f c u) [b1; b2; b3]) v.
Proof. done. Qed.

Lemma crc_range c l : 0 ≤ c < 2 ^ 32 → Forall (λ b, 0 ≤ b < 256) l → 0 ≤ foldl crc_step c l < 2 ^ 32.
Proof.
  intros Hc Hl. revert c Hc. induction Hl as [|b l Hb Hl IH]; intros c Hc; [done|]. cbn [foldl]. apply IH.
  rewrite crc_step_rotl8. apply lxor_u32; [by apply rotl8_range|lia].
Qed.

(** What [FGFS_CHECKSUM_CRC32] detects.  The checksum of a block does not change when
    two bytes four positions apart are exchanged, whatever surrounds them: the loop rotates
    and xors, and so is not the CRC-32 its name promises. *)
Theorem fgfs_checksum_swap l1 x b1 b2 b3 y l2 :
  Forall (λ b, 0 ≤ b < 256) (l1 ++ [x; b1; b2; b3; y] ++ l2) →
  fgfs_calculate_checksum (Some (l1 ++ [x; b1; b2; b3; y] ++ l2)) FGFS_CHECKSUM_CRC32 =
  fgfs_calculate_checksum (Some (l1 ++ [y; b1; b2; b3; x] ++ l2)) FGFS_CHECKSUM_CRC32.
Proof.
  intros Hb. unfold fgfs_calculate_checksum. rewrite !bool_decide_false by (by destruct l1). cbn [Z.eqb Pos.eqb FGFS_CHECKSUM_CRC32].
  rewrite !foldl_app. f_equal. apply Forall_app in Hb as [Hl1 Hb]. apply Forall_app in Hb as [Hb _].
  rewrite !Forall_cons in Hb. destruct Hb as (Hx & H1 & H2 & H3 & Hy & _).
  pose proof (rotl8_range _ (crc_range 0 l1 ltac:(lia) Hl1)) as Hc. set (c := foldl crc_step 0 l1) in *.
  assert (∀ u v, 0 ≤ u < 256 → foldl crc_step c [u; b1; b2; b3; v] =
    Z.lxor (Z.lxor (rotl8 (foldl crc_step (rotl8 c) [b1; b2; b3])) u) v) as Hstep.
  { intros u v Hu. rewrite foldl_ends, (crc_step_rotl8 c u), crc_step_rotl8, crc_four by lia. done. }
  rewrite !Hstep by done. rewrite !Z.lxor_assoc. f_equal. apply Z.lxor_comm.
Qed.

(** ** Witnesses *)
Import Sample.

Definition opened : fstate heap := after (fs_open (Some (str "/mnt/file")) 1 8) mounted.
Definition opened_file : Z :=
  match fs_open (Some (str "/mnt/file")) 1 8 mounted with Ok ((_, p), _) => p | _ => 0 end.
Lemma opened_run : fs_open (Some (str "/mnt/file")) 1 8 mounted = Ok ((0, opened_file), opened).
Proof. vm_compute. reflexivity. Qed.

Lemma fs_seek_correct_witness : ∃ s', fs_seek opened_file 10 SEEK_CUR opened = Ok (10, s').
Proof.
  assert (∃ x g, objs opened !! opened_file = Some (OFile x) ∧ fl_fs x ≠ 0 ∧ fl_position x = 0 ∧ fl_size x = 0 ∧
    objs opened !! fl_fs x = Some (OFs g)) as (x & g & Hx & Hf & Hp & Hz & Hg).
  { eexists _, _. split; [vm_compute; reflexivity|]. split; [vm_compute; discriminate|].
    split; [reflexivity|]. split; [reflexivity|]. vm_compute. reflexivity. }
  pose proof (fs_seek_correct opened opened_file x g 10 SEEK_CUR ltac:(vm_compute; discriminate) Hx Hf Hg
    ltac:(split; lia) ltac:(lia)) as Hs. cbn [seek_base SEEK_CUR SEEK_SET Z.eqb Pos.eqb] in Hs.
  unfold seek_base in Hs. cbn [SEEK_CUR SEEK_SET Z.eqb Pos.eqb] in Hs. rewrite Hp in Hs. cbn in Hs.
  destruct Hs as [Hs _]. eexists. exact Hs.
Defined.

Lemma fs_unmount_with_open_file_witness :
  ∃ s2, fs_unmount (Some mnt) opened = Ok (0, s2) ∧ fs_close opened_file s2 = Fault.
Proof.
  destruct mounted_live as (mr & Hp & _ & Hl).
  destruct (fs_unmount_with_open_file mounted [mr] (str "/mnt/file") mr 1 8 opened_file opened (fl_inv _ _ Hl)) as (s2 & Hu & _ & Hc & _).
  - split_and!; [set_solver|rewrite Hp; discriminate|rewrite Hp; by exists (str "/file")|].
    intros mr' ->%list_elem_of_singleton _. lia.
  - discriminate.
  - exact opened_run.
  - exists s2. rewrite <- Hp. split; [exact Hu|exact Hc].
Defined.

Lemma fgfs_format_counts_witness :
  ∃ x s', fgfs_format (Some (str "sda")) 40960 512 None off = Ok ((0, Some x), s') ∧ sb_inode_count x = 2048.
Proof.
  destruct (fgfs_format_counts off (Some (str "sda")) 40960 512 None off_alloc ltac:(lia))
    as (res & built & s' & Hr & _ & _ & [(_ & Hres & x & Hx & Hc & _)|[Hno _]]).
  - rewrite Hres, Hx in Hr. exists x, s'. split; [exact Hr|]. rewrite (fc_inodes _ _ Hc). reflexivity.
  - exfalso. apply Hno. split; [discriminate|]. split; [lia|]. vm_compute. exact I.
Defined.

(** Eighty blocks: the count of free blocks wraps. *)
Example format_free_blocks_wrap :
  ∃ x s', fgfs_format (Some (str "sda")) 40960 512 None off = Ok ((0, Some x), s') ∧
    sb_block_count x = 80 ∧ sb_free_blocks x = 2 ^ 64 - 20.
Proof. eexists _, _. split; [vm_compute; reflexivity|]. done. Qed.

Lemma fgfs_checksum_swap_witness :
  fgfs_calculate_checksum (Some [1; 2; 3; 4; 5]) FGFS_CHECKSUM_CRC32 =
  fgfs_calculate_checksum (Some [5; 2; 3; 4; 1]) FGFS_CHECKSUM_CRC32.
Proof. apply (fgfs_checksum_swap [] 1 2 3 4 5 []). repeat constructor; lia. Defined.
