(* ===== verification/Pci.v ===== *)
(** * PCI bus driver (drivers/bus/pci.c)

    Configuration space access through ports 0xCF8 and 0xCFC, enumeration of all
    functions, BAR probing, and the calls into the device framework of Device.v.
    A [pci_device_t] begins with its [device_t]: the framework's part of the block
    lives in [devs] at the same address as the PCI part in [pdevs], and freeing the
    block removes both.  The port instructions, which no file of the repository
    defines, are the class [Ports]; what the hardware behind them does is the class
    [ConfigMechanism]. *)
From S2P Require Import Prelude.
From S2P Require Import Heap.
From S2P Require Import SchedState.
From S2P Require Import Device.
Local Open Scope Z_scope.

(** ** Registers and bits of pci.h *)
Definition PCI_CONFIG_ADDRESS : Z := 0xCF8.
Definition PCI_CONFIG_DATA : Z := 0xCFC.
Definition PCI_CONFIG_ENABLE : Z := Z.shiftl 1 31.

Definition PCI_CONFIG_VENDOR_ID : Z := 0x00.
Definition PCI_CONFIG_DEVICE_ID : Z := 0x02.
Definition PCI_CONFIG_COMMAND : Z := 0x04.
Definition PCI_CONFIG_STATUS : Z := 0x06.
Definition PCI_CONFIG_REVISION_ID : Z := 0x08.
Definition PCI_CONFIG_PROG_IF : Z := 0x09.
Definition PCI_CONFIG_SUBCLASS : Z := 0x0A.
Definition PCI_CONFIG_CLASS : Z := 0x0B.
Definition PCI_CONFIG_CACHE_LINE_SIZE : Z := 0x0C.
Definition PCI_CONFIG_LATENCY_TIMER : Z := 0x0D.
Definition PCI_CONFIG_HEADER_TYPE : Z := 0x0E.
Definition PCI_CONFIG_BIST : Z := 0x0F.
Definition PCI_CONFIG_BAR0 : Z := 0x10.
Definition PCI_CONFIG_CARDBUS_CIS : Z := 0x28.
Definition PCI_CONFIG_SUBSYSTEM_VID : Z := 0x2C.
Definition PCI_CONFIG_SUBSYSTEM_ID : Z := 0x2E.
Definition PCI_CONFIG_ROM_ADDRESS : Z := 0x30.
Definition PCI_CONFIG_CAPABILITIES : Z := 0x34.
Definition PCI_CONFIG_INTERRUPT_LINE : Z := 0x3C.
Definition PCI_CONFIG_INTERRUPT_PIN : Z := 0x3D.
Definition PCI_CONFIG_MIN_GRANT : Z := 0x3E.
Definition PCI_CONFIG_MAX_LATENCY : Z := 0x3F.

Definition PCI_COMMAND_IO : Z := Z.shiftl 1 0.
Definition PCI_COMMAND_MEMORY : Z := Z.shiftl 1 1.
Definition PCI_COMMAND_MASTER : Z := Z.shiftl 1 2.
Definition PCI_HEADER_TYPE_MULTIFUNCTION : Z := 0x80.
Definition PCI_BAR_TYPE_IO : Z := 0x01.

Definition PCI_CLASS_MASS_STORAGE : Z := 0x01.
Definition PCI_CLASS_NETWORK : Z := 0x02.
Definition PCI_CLASS_DISPLAY : Z := 0x03.
Definition PCI_CLASS_MULTIMEDIA : Z := 0x04.
Definition PCI_CLASS_INPUT : Z := 0x09.
Definition PCI_CLASS_SERIAL : Z := 0x0C.

Definition DEVICE_TYPE_STORAGE : Z := 1.
Definition DEVICE_TYPE_NETWORK : Z := 2.
Definition DEVICE_TYPE_INPUT : Z := 3.
Definition DEVICE_TYPE_AUDIO : Z := 5.
Definition DEVICE_TYPE_PCI : Z := 7.
Definition DEVICE_TYPE_SERIAL : Z := 8.
Definition DEVICE_TYPE_GRAPHICS : Z := 10.
Definition DEVICE_CAP_READ : Z := Z.shiftl 1 0.
Definition DEVICE_CAP_WRITE : Z := Z.shiftl 1 1.
Definition DEVICE_CAP_CONFIG : Z := Z.shiftl 1 8.

Definition SIZEOF_PCI_DEVICE : Z := 760.

(** ** Data *)
Record pci_location := mk_loc { l_bus : Z; l_device : Z; l_function : Z }.
#[export] Instance pci_location_eq_dec : EqDecision pci_location.
Proof. solve_decision. Defined.

Record pci_config := mk_config {
  pc_vendor_id : Z; pc_device_id : Z; pc_command : Z; pc_status : Z; pc_revision_id : Z;
  pc_prog_if : Z; pc_subclass : Z; pc_class_code : Z; pc_cache_line_size : Z; pc_latency_timer : Z;
  pc_header_type : Z; pc_bist : Z; pc_bar : list Z; pc_cardbus_cis : Z; pc_subsystem_vendor_id : Z;
  pc_subsystem_id : Z; pc_rom_address : Z; pc_capabilities_ptr : Z; pc_interrupt_line : Z;
  pc_interrupt_pin : Z; pc_min_grant : Z; pc_max_latency : Z
}.
#[export] Instance eta_config : Eta pci_config := λ r,
  {| pc_vendor_id := pc_vendor_id r; pc_device_id := pc_device_id r; pc_command := pc_command r;
     pc_status := pc_status r; pc_revision_id := pc_revision_id r; pc_prog_if := pc_prog_if r;
     pc_subclass := pc_subclass r; pc_class_code := pc_class_code r;
     pc_cache_line_size := pc_cache_line_size r; pc_latency_timer := pc_latency_timer r;
     pc_header_type := pc_header_type r; pc_bist := pc_bist r; pc_bar := pc_bar r;
     pc_cardbus_cis := pc_cardbus_cis r; pc_subsystem_vendor_id := pc_subsystem_vendor_id r;
     pc_subsystem_id := pc_subsystem_id r; pc_rom_address := pc_rom_address r;
     pc_capabilities_ptr := pc_capabilities_ptr r; pc_interrupt_line := pc_interrupt_line r;
     pc_interrupt_pin := pc_interrupt_pin r; pc_min_grant := pc_min_grant r; pc_max_latency := pc_max_latency r |}.
Definition zero_config : pci_config := mk_config 0 0 0 0 0 0 0 0 0 0 0 0 (replicate 6 0) 0 0 0 0 0 0 0 0 0.

(** The fields after the embedded [device_t]. *)
Record pci_device := mk_pci {
  pd_location : pci_location; pd_config : pci_config; pd_bar_sizes : list Z; pd_bar_is_io : list bool;
  pd_bar_is_64bit : list bool; pd_next : Z
}.
#[export] Instance eta_pci : Eta pci_device := λ r,
  {| pd_location := pd_location r; pd_config := pd_config r; pd_bar_sizes := pd_bar_sizes r;
     pd_bar_is_io := pd_bar_is_io r; pd_bar_is_64bit := pd_bar_is_64bit r; pd_next := pd_next r |}.

Record pci_bus_stats := mk_pstats {
  ps_total_buses : Z; ps_total_devices : Z; ps_total_functions : Z; ps_devices_by_class : list Z;
  ps_config_reads : Z; ps_config_writes : Z; ps_enumeration_time_ms : Z
}.
#[export] Instance eta_pstats : Eta pci_bus_stats := λ r,
  {| ps_total_buses := ps_total_buses r; ps_total_devices := ps_total_devices r;
     ps_total_functions := ps_total_functions r; ps_devices_by_class := ps_devices_by_class r;
     ps_config_reads := ps_config_reads r; ps_config_writes := ps_config_writes r;
     ps_enumeration_time_ms := ps_enumeration_time_ms r |}.
Definition zero_pstats : pci_bus_stats := mk_pstats 0 0 0 (replicate 256 0) 0 0 0.

Record pci_manager := mk_pm {
  pm_device_list : Z; pm_stats : pci_bus_stats; pm_initialized : bool; pm_enumeration_start : Z
}.
#[export] Instance eta_pm : Eta pci_manager := λ r,
  {| pm_device_list := pm_device_list r; pm_stats := pm_stats r; pm_initialized := pm_initialized r;
     pm_enumeration_start := pm_enumeration_start r |}.
Definition zero_pm : pci_manager := mk_pm 0 zero_pstats false 0.

(** The state: [pci_manager], the PCI parts of the allocated devices, the device
    framework with the allocator, and the hardware. *)
Record pstate (A H : Type) := mk_pstate {
  pm : pci_manager; pdevs : gmap Z pci_device; dst : dstate A; hw : H
}.
#[global] Arguments mk_pstate {A H}.
#[global] Arguments pm {A H}.
#[global] Arguments pdevs {A H}.
#[global] Arguments dst {A H}.
#[global] Arguments hw {A H}.
#[export] Instance eta_pstate {A H} : Eta (pstate A H) := λ r,
  {| pm := pm r; pdevs := pdevs r; dst := dst r; hw := hw r |}.

(** The port instructions on the hardware state. *)
Class Ports (H : Type) := {
  outl : Z → Z → H → H;
  outw : Z → Z → H → H;
  outb : Z → Z → H → H;
  inl : Z → H → Z * H;
  inw : Z → H → Z * H;
  inb : Z → H → Z * H
}.

(** ** Names *)
Definition pci_vendors : list (Z * string) :=
  [(0x8086, "Intel Corporation"); (0x1022, "Advanced Micro Devices"); (0x10DE, "NVIDIA Corporation");
   (0x1002, "Advanced Micro Devices"); (0x15AD, "VMware"); (0x1234, "QEMU"); (0x1AF4, "Red Hat, Inc.");
   (0x1013, "Cirrus Logic"); (0x5853, "XenSource, Inc."); (0x80EE, "InnoTek Systemberatung GmbH");
   (0x0000, "Unknown Vendor")]%string.
Definition pci_class_names : list (Z * string) :=
  [(0x00, "Unclassified Device"); (0x01, "Mass Storage Controller"); (0x02, "Network Controller");
   (0x03, "Display Controller"); (0x04, "Multimedia Controller"); (0x05, "Memory Controller");
   (0x06, "Bridge Device"); (0x07, "Communication Controller"); (0x08, "System Peripheral");
   (0x09, "Input Device Controller"); (0x0A, "Docking Station"); (0x0B, "Processor");
   (0x0C, "Serial Bus Controller"); (0x0D, "Wireless Controller"); (0x0E, "Intelligent Controller");
   (0x0F, "Satellite Controller"); (0x10, "Encryption Controller"); (0x11, "Signal Processing Controller");
   (0x12, "Processing Accelerator"); (0x13, "Non-Essential Instrumentation"); (0x40, "Coprocessor");
   (0xFF, "Unassigned Class")]%string.
Fixpoint table_find (k : Z) (t : list (Z * string)) (default : string) : string :=
  match t with [] => default | (k', v) :: t => if k' =? k then v else table_find k t default end.
Definition pci_get_class_name (class_code : Z) : string := table_find class_code pci_class_names "Unknown Class".
Definition pci_get_vendor_name (vendor_id : Z) : string := table_find vendor_id pci_vendors "Unknown Vendor".

Definition bytes (s : string) : list Z := map (λ a, Z.of_N (Ascii.N_of_ascii a)) (String.list_ascii_of_string s).
(** [%0nx] and [%0nX] of a number below [16 ^ n]. *)
Definition hex_digit (upper : bool) (d : Z) : Z := if d <? 10 then 48 + d else if upper then 55 + d else 87 + d.
Fixpoint hex (upper : bool) (n : nat) (v : Z) : list Z :=
  match n with O => [] | S n => hex upper n (Z.shiftr v 4) ++ [hex_digit upper (Z.land v 15)] end.

Definition pci_class_to_device_type (class_code : Z) : Z :=
  if class_code =? PCI_CLASS_MASS_STORAGE then DEVICE_TYPE_STORAGE
  else if class_code =? PCI_CLASS_NETWORK then DEVICE_TYPE_NETWORK
  else if class_code =? PCI_CLASS_DISPLAY then DEVICE_TYPE_GRAPHICS
  else if class_code =? PCI_CLASS_MULTIMEDIA then DEVICE_TYPE_AUDIO
  else if class_code =? PCI_CLASS_INPUT then DEVICE_TYPE_INPUT
  else if class_code =? PCI_CLASS_SERIAL then DEVICE_TYPE_SERIAL
  else DEVICE_TYPE_PCI.

Definition pci_make_address (bus device function offset : Z) : Z :=
  Z.lor (Z.lor (Z.lor (Z.lor PCI_CONFIG_ENABLE (Z.shiftl bus 16)) (Z.shiftl (Z.land device 0x1F) 11))
           (Z.shiftl (Z.land function 0x07) 8)) (Z.land offset 0xFC).

Section pci.
Context {A H : Type} `{KA : KAlloc A} `{!Errno} `{!DriverEnv A} `{!Ports H}.
Abbreviation M := (prog (pstate A H)).

Definition ld_pci (p : Z) : M pci_device := λ s,
  match pdevs s !! p with Some x => Ok (x, s) | None => Fault end.
Definition upd_pci (p : Z) (f : pci_device → pci_device) : M () := λ s,
  match pdevs s !! p with Some x => Ok ((), s <| pdevs := <[p := f x]> (pdevs s) |>) | None => Fault end.
Definition upd_pm (f : pci_manager → pci_manager) : M () := modify (λ s, s <| pm := f (pm s) |>).
Definition upd_pstats (f : pci_bus_stats → pci_bus_stats) : M () :=
  upd_pm (λ m, m <| pm_stats := f (pm_stats m) |>).
(** A call into the device framework. *)
Definition framework {X} (m : prog (dstate A) X) : M X := λ s,
  match m (dst s) with
  | Ok (x, d) => Ok (x, s <| dst := d |>)
  | Fault => Fault
  | Halted => Halted
  | Diverge => Diverge
  end.
Definition port_out (f : H → H) : M () := modify (λ s, s <| hw := f (hw s) |>).
Definition port_in (f : H → Z * H) : M Z := λ s, let '(v, h) := f (hw s) in Ok (v, s <| hw := h |>).

(** [uint32_t t = get_system_time_ms()]. *)
Definition time32 : M Z := t <- framework get_system_time_ms ;; ret (u32 t).

Definition pci_init : M Z :=
  m <- gets pm ;;
  if pm_initialized m then ret 0
  else
    upd_pm (λ _, zero_pm) ;;;
    upd_pm (λ m, m <| pm_initialized := true |>) ;;;
    t <- time32 ;;
    upd_pm (λ m, m <| pm_enumeration_start := t |>) ;;;
    ret 0.

(** [kfree] of a whole [pci_device_t]. *)
Definition free_pci (p : Z) : M () :=
  framework (lift_dalloc (ka_free p)) ;;;
  modify (λ s, s <| pdevs := delete p (pdevs s) |> <| dst := (dst s) <| devs := delete p (devs (dst s)) |> |>).

Fixpoint free_devices (fuel : nat) (device : Z) : M () :=
  match fuel with
  | O => diverge
  | S fuel =>
      if device =? 0 then ret ()
      else
        x <- ld_pci device ;;
        let next := pd_next x in
        free_pci device ;;;
        free_devices fuel next
  end.

Definition pci_fuel (s : pstate A H) : nat := S (size (pdevs s)).

Definition pci_shutdown : M () :=
  s <- get ;;
  if negb (pm_initialized (pm s)) then ret ()
  else
    free_devices (pci_fuel s) (pm_device_list (pm s)) ;;;
    upd_pm (λ m, m <| pm_initialized := false |>).

(** ** Configuration space *)
Definition bad_access (m : pci_manager) (size : Z) : bool :=
  negb (pm_initialized m) || (4 <? size) || negb (Z.land size (size - 1) =? 0).

Definition pci_config_read (location : pci_location) (offset size : Z) : M Z :=
  m <- gets pm ;;
  if bad_access m size then ret 0xFFFFFFFF
  else
    let offset := Z.land offset (Z.lnot (size - 1)) in
    let address := pci_make_address (l_bus location) (l_device location) (l_function location) offset in
    port_out (outl PCI_CONFIG_ADDRESS address) ;;;
    data <- (if size =? 1 then port_in (inb (PCI_CONFIG_DATA + Z.land offset 3))
             else if size =? 2 then port_in (inw (PCI_CONFIG_DATA + Z.land offset 2))
             else if size =? 4 then port_in (inl PCI_CONFIG_DATA)
             else ret 0xFFFFFFFF) ;;
    upd_pstats (λ t, t <| ps_config_reads := u32 (ps_config_reads t + 1) |>) ;;;
    ret data.

Definition pci_config_write (location : pci_location) (offset value size : Z) : M () :=
  m <- gets pm ;;
  if bad_access m size then ret ()
  else
    let offset := Z.land offset (Z.lnot (size - 1)) in
    let address := pci_make_address (l_bus location) (l_device location) (l_function location) offset in
    port_out (outl PCI_CONFIG_ADDRESS address) ;;;
    (if size =? 1 then port_out (outb (PCI_CONFIG_DATA + Z.land offset 3) (u8 value))
     else if size =? 2 then port_out (outw (PCI_CONFIG_DATA + Z.land offset 2) (u16 value))
     else if size =? 4 then port_out (outl PCI_CONFIG_DATA value)
     else ret ()) ;;;
    upd_pstats (λ t, t <| ps_config_writes := u32 (ps_config_writes t + 1) |>).

Definition pci_config_read8 (location : pci_location) (offset : Z) : M Z :=
  v <- pci_config_read location offset 1 ;; ret (u8 v).
Definition pci_config_read16 (location : pci_location) (offset : Z) : M Z :=
  v <- pci_config_read location offset 2 ;; ret (u16 v).
Definition pci_config_read32 (location : pci_location) (offset : Z) : M Z := pci_config_read location offset 4.
Definition pci_config_write8 (location : pci_location) (offset value : Z) : M () := pci_config_write location offset value 1.
Definition pci_config_write16 (location : pci_location) (offset value : Z) : M () := pci_config_write location offset value 2.
Definition pci_config_write32 (location : pci_location) (offset value : Z) : M () := pci_config_write location offset value 4.

(** ** Lookup *)
Fixpoint find_pci (fuel : nat) (vendor_id device_id device : Z) : M Z :=
  match fuel with
  | O => diverge
  | S fuel =>
      if device =? 0 then ret 0
      else
        x <- ld_pci device ;;
        if (pc_vendor_id (pd_config x) =? vendor_id) && (pc_device_id (pd_config x) =? device_id) then ret device
        else find_pci fuel vendor_id device_id (pd_next x)
  end.
Definition pci_find_device (vendor_id device_id : Z) : M Z :=
  s <- get ;;
  if negb (pm_initialized (pm s)) then ret 0
  else find_pci (pci_fuel s) vendor_id device_id (pm_device_list (pm s)).

(** The devices stored in the caller's array, in order. *)
Fixpoint collect_class (fuel : nat) (class_code : Z) (room : nat) (device : Z) : M (list Z) :=
  match fuel with
  | O => diverge
  | S fuel =>
      if device =? 0 then ret []
      else
        match room with
        | O => ret []
        | S room' =>
            x <- ld_pci device ;;
            if pc_class_code (pd_config x) =? class_code
            then l <- collect_class fuel class_code room' (pd_next x) ;; ret (device :: l)
            else collect_class fuel class_code room (pd_next x)
        end
  end.
Definition pci_find_devices_by_class (class_code devices max_devices : Z) : M (Z * list Z) :=
  s <- get ;;
  if negb (pm_initialized (pm s)) || (devices =? 0) || (max_devices =? 0) then ret (0, [])
  else
    l <- collect_class (pci_fuel s) class_code (Z.to_nat max_devices) (pm_device_list (pm s)) ;;
    ret (Z.of_nat (length l), l).

(** ** The command register *)
Definition set_command (device command : Z) : M () :=
  x <- ld_pci device ;;
  pci_config_write16 (pd_location x) PCI_CONFIG_COMMAND command ;;;
  upd_pci device (λ x, x <| pd_config := (pd_config x) <| pc_command := command |> |>).

Definition pci_enable_device (device : Z) : M Z :=
  if device =? 0 then ret (- EINVAL)
  else
    x <- ld_pci device ;;
    set_command device (Z.lor (pc_command (pd_config x)) (Z.lor PCI_COMMAND_IO PCI_COMMAND_MEMORY)) ;;;
    ret 0.
Definition pci_disable_device (device : Z) : M Z :=
  if device =? 0 then ret (- EINVAL)
  else
    x <- ld_pci device ;;
    set_command device (Z.land (pc_command (pd_config x))
      (Z.lnot (Z.lor (Z.lor PCI_COMMAND_IO PCI_COMMAND_MEMORY) PCI_COMMAND_MASTER))) ;;;
    ret 0.
Definition pci_set_master (device : Z) (enable : bool) : M Z :=
  if device =? 0 then ret (- EINVAL)
  else
    x <- ld_pci device ;;
    let command := pc_command (pd_config x) in
    set_command device (if enable then Z.lor command PCI_COMMAND_MASTER
                        else Z.land command (Z.lnot PCI_COMMAND_MASTER)) ;;;
    ret 0.
Definition pci_allocate_resources (device : Z) : M Z :=
  if device =? 0 then ret (- EINVAL) else pci_enable_device device.
Definition pci_free_resources (device : Z) : M () :=
  if device =? 0 then ret () else pci_disable_device device ;;; ret ().

(** ** Base address registers *)
Definition bar_address (x : pci_device) (bar_index : Z) : Z :=
  let i := Z.to_nat bar_index in
  let bar := nth i (pc_bar (pd_config x)) 0 in
  if nth i (pd_bar_is_io x) false then Z.land bar (Z.lnot 0x3)
  else if nth i (pd_bar_is_64bit x) false && (bar_index <? 5)
  then Z.lor (Z.land bar (Z.lnot 0xF)) (Z.shiftl (nth (S i) (pc_bar (pd_config x)) 0) 32)
  else Z.land bar (Z.lnot 0xF).
Definition pci_get_bar_address (device bar_index : Z) : M Z :=
  if (device =? 0) || (6 <=? bar_index) then ret 0 else x <- ld_pci device ;; ret (bar_address x bar_index).
Definition pci_get_bar_size (device bar_index : Z) : M Z :=
  if (device =? 0) || (6 <=? bar_index) then ret 0
  else x <- ld_pci device ;; ret (nth (Z.to_nat bar_index) (pd_bar_sizes x) 0).
Definition pci_bar_is_io (device bar_index : Z) : M bool :=
  if (device =? 0) || (6 <=? bar_index) then ret false
  else x <- ld_pci device ;; ret (nth (Z.to_nat bar_index) (pd_bar_is_io x) false).
Definition pci_bar_is_64bit (device bar_index : Z) : M bool :=
  if (device =? 0) || (6 <=? bar_index) then ret false
  else x <- ld_pci device ;; ret (nth (Z.to_nat bar_index) (pd_bar_is_64bit x) false).

(** ** Statistics *)
Definition pci_get_stats : M (option pci_bus_stats) :=
  m <- gets pm ;; if negb (pm_initialized m) then ret None else ret (Some (pm_stats m)).
Definition pci_reset_stats : M () :=
  m <- gets pm ;; if negb (pm_initialized m) then ret () else upd_pstats (λ _, zero_pstats).

(** [pci_enumerate]: [callback] is the function the caller passes, [None] for NULL. *)
Fixpoint each_pci (fuel : nat) (callback : Z → M ()) (device : Z) : M () :=
  match fuel with
  | O => diverge
  | S fuel =>
      if device =? 0 then ret ()
      else callback device ;;; x <- ld_pci device ;; each_pci fuel callback (pd_next x)
  end.
Definition pci_enumerate (callback : option (Z → M ())) : M () :=
  s <- get ;;
  match callback with
  | None => ret ()
  | Some f =>
      if negb (pm_initialized (pm s)) then ret ()
      else each_pci (pci_fuel s) f (pm_device_list (pm s))
  end.

(** ** Probing *)
Definition zero_device : device :=
  mk_device 0 0 0 0 (mk_device_info [] [] [] [] [] [] 0 0 0 0 0) (mk_device_config 0 0 0 0 0 0 0 0 0 0)
    zero_device_stats 0 0 0 0 0 0 0 0 0 false.

Definition pci_create_device (location : pci_location) : M Z :=
  p <- framework (lift_dalloc (ka_malloc SIZEOF_PCI_DEVICE)) ;;
  if p =? 0 then ret 0
  else
    modify (λ s, s <| pdevs := <[p := mk_pci location zero_config (replicate 6 0) (replicate 6 false)
                                      (replicate 6 false) 0]> (pdevs s) |>
                   <| dst := (dst s) <| devs := <[p := zero_device
                        <| dv_type := DEVICE_TYPE_PCI |> <| dv_state := DEVICE_STATE_INITIALIZING |>
                        <| dv_capabilities := Z.lor (Z.lor DEVICE_CAP_READ DEVICE_CAP_WRITE) DEVICE_CAP_CONFIG |>]>
                        (devs (dst s)) |> |>) ;;;
    ret p.

(** "Read configuration space", in the order of the code; [bar] is not read here. *)
Definition read_config (loc : pci_location) (bar : list Z) : M pci_config :=
  vendor_id <- pci_config_read16 loc PCI_CONFIG_VENDOR_ID ;;
  device_id <- pci_config_read16 loc PCI_CONFIG_DEVICE_ID ;;
  command <- pci_config_read16 loc PCI_CONFIG_COMMAND ;;
  status <- pci_config_read16 loc PCI_CONFIG_STATUS ;;
  revision_id <- pci_config_read8 loc PCI_CONFIG_REVISION_ID ;;
  prog_if <- pci_config_read8 loc PCI_CONFIG_PROG_IF ;;
  subclass <- pci_config_read8 loc PCI_CONFIG_SUBCLASS ;;
  class_code <- pci_config_read8 loc PCI_CONFIG_CLASS ;;
  cache_line_size <- pci_config_read8 loc PCI_CONFIG_CACHE_LINE_SIZE ;;
  latency_timer <- pci_config_read8 loc PCI_CONFIG_LATENCY_TIMER ;;
  header_type <- pci_config_read8 loc PCI_CONFIG_HEADER_TYPE ;;
  bist <- pci_config_read8 loc PCI_CONFIG_BIST ;;
  cardbus_cis <- pci_config_read32 loc PCI_CONFIG_CARDBUS_CIS ;;
  subsystem_vendor_id <- pci_config_read16 loc PCI_CONFIG_SUBSYSTEM_VID ;;
  subsystem_id <- pci_config_read16 loc PCI_CONFIG_SUBSYSTEM_ID ;;
  rom_address <- pci_config_read32 loc PCI_CONFIG_ROM_ADDRESS ;;
  capabilities_ptr <- pci_config_read8 loc PCI_CONFIG_CAPABILITIES ;;
  interrupt_line <- pci_config_read8 loc PCI_CONFIG_INTERRUPT_LINE ;;
  interrupt_pin <- pci_config_read8 loc PCI_CONFIG_INTERRUPT_PIN ;;
  min_grant <- pci_config_read8 loc PCI_CONFIG_MIN_GRANT ;;
  max_latency <- pci_config_read8 loc PCI_CONFIG_MAX_LATENCY ;;
  ret (mk_config vendor_id device_id command status revision_id prog_if subclass class_code cache_line_size
         latency_timer header_type bist bar cardbus_cis subsystem_vendor_id subsystem_id rom_address
         capabilities_ptr interrupt_line interrupt_pin min_grant max_latency).

(** "Initialize device info", "Set device type based on class", "Set configuration". *)
Definition describe (loc : pci_location) (c : pci_config) (base : Z) (x : device) : device :=
  let i := dv_info x in
  let g := dv_config x in
  x <| dv_info := mk_device_info
         (bytes "PCI_" ++ hex false 2 (l_bus loc) ++ bytes ":" ++ hex false 2 (l_device loc) ++ bytes "." ++
          hex false 1 (l_function loc))
         (take 127 (bytes (pci_get_class_name (pc_class_code c))))
         (take 63 (bytes (pci_get_vendor_name (pc_vendor_id c))))
         (bytes "Device_" ++ hex true 4 (pc_device_id c))
         (di_serial_number i) (di_firmware_version i)
         (pc_vendor_id c) (pc_device_id c) (pc_revision_id c) (pc_class_code c) (pc_subclass c) |>
    <| dv_type := pci_class_to_device_type (pc_class_code c) |>
    <| dv_config := mk_device_config (u32 base) (dc_memory_mapped_base g) (dc_memory_size g) (pc_interrupt_line c)
         (dc_dma_channel g) (dc_clock_frequency g) (dc_max_transfer_size g) (dc_alignment_requirement g)
         (dc_timeout_ms g) (dc_retry_count g) |>.

Definition pci_init_device_info (p : Z) : M () :=
  x <- ld_pci p ;;
  let loc := pd_location x in
  c <- read_config loc (pc_bar (pd_config x)) ;;
  upd_pci p (λ x, x <| pd_config := c |>) ;;;
  base <- pci_get_bar_address p 0 ;;
  framework (upd_dev p (describe loc c base)).

(** One iteration of the loop of [pci_probe_bars]: the next index. *)
Definition probe_bar (p : Z) (loc : pci_location) (i : Z) : M Z :=
  let set_bar j v := upd_pci p (λ x, x <| pd_config := (pd_config x) <| pc_bar := <[Z.to_nat j := v]> (pc_bar (pd_config x)) |> |>) in
  let bar_offset := u8 (PCI_CONFIG_BAR0 + i * 4) in
  bar <- pci_config_read32 loc bar_offset ;;
  set_bar i bar ;;;
  if bar =? 0 then ret (i + 1)
  else
    (if has_bits bar PCI_BAR_TYPE_IO
     then upd_pci p (λ x, x <| pd_bar_is_io := <[Z.to_nat i := true]> (pd_bar_is_io x) |>)
     else
       upd_pci p (λ x, x <| pd_bar_is_io := <[Z.to_nat i := false]> (pd_bar_is_io x) |>) ;;;
       when (Z.land (Z.shiftr bar 1) 0x3 =? 2)
         (upd_pci p (λ x, x <| pd_bar_is_64bit := <[Z.to_nat i := true]> (pd_bar_is_64bit x) |>))) ;;;
    pci_config_write32 loc bar_offset 0xFFFFFFFF ;;;
    size_mask <- pci_config_read32 loc bar_offset ;;
    pci_config_write32 loc bar_offset bar ;;;
    x <- ld_pci p ;;
    let set_size mask := upd_pci p (λ x, x <| pd_bar_sizes := <[Z.to_nat i := u32 (Z.lnot mask + 1)]> (pd_bar_sizes x) |>) in
    if nth (Z.to_nat i) (pd_bar_is_io x) false then
      set_size (Z.land size_mask (Z.lnot 0x3)) ;;; ret (i + 1)
    else
      set_size (Z.land size_mask (Z.lnot 0xF)) ;;;
      if nth (Z.to_nat i) (pd_bar_is_64bit x) false && (i <? 5) then
        high <- pci_config_read32 loc (u8 (PCI_CONFIG_BAR0 + (i + 1) * 4)) ;;
        set_bar (i + 1) high ;;;
        ret (i + 2)
      else ret (i + 1).

Fixpoint probe_bars_from (fuel : nat) (p : Z) (loc : pci_location) (i : Z) : M () :=
  match fuel with
  | O => diverge
  | S fuel => if i <? 6 then j <- probe_bar p loc i ;; probe_bars_from fuel p loc j else ret ()
  end.
Definition pci_probe_bars (p : Z) : M () :=
  x <- ld_pci p ;; probe_bars_from 7 p (pd_location x) 0.

Definition absent (vendor_id : Z) : bool := (vendor_id =? 0xFFFF) || (vendor_id =? 0x0000).

Definition pci_probe_device (location : pci_location) : M Z :=
  vendor_id <- pci_config_read16 location PCI_CONFIG_VENDOR_ID ;;
  if absent vendor_id then ret (- ENODEV)
  else
    p <- pci_create_device location ;;
    if p =? 0 then ret (- ENOMEM)
    else
      pci_init_device_info p ;;;
      pci_probe_bars p ;;;
      m <- gets pm ;;
      upd_pci p (λ x, x <| pd_next := pm_device_list m |>) ;;;
      upd_pm (λ m, m <| pm_device_list := p |>) ;;;
      x <- ld_pci p ;;
      upd_pstats (λ t, t <| ps_total_devices := u32 (ps_total_devices t + 1) |>
                         <| ps_total_functions := u32 (ps_total_functions t + 1) |>
                         <| ps_devices_by_class := alter (λ n, u32 (n + 1)) (Z.to_nat (pc_class_code (pd_config x)))
                                                     (ps_devices_by_class t) |>) ;;;
      framework (device_register p) ;;;
      ret 0.

(** ** Enumeration *)

(** [for (i = a; i < a + n; i++)] with an accumulator. *)
Fixpoint for_acc {X} (n : nat) (i : Z) (body : Z → X → M X) (x : X) : M X :=
  match n with O => ret x | S n => y <- body i x ;; for_acc n (i + 1) body y end.

Definition probe_counted (location : pci_location) (device_count : Z) : M Z :=
  r <- pci_probe_device location ;; ret (if r =? 0 then u32 (device_count + 1) else device_count).

Definition scan_function (bus device function device_count : Z) : M Z :=
  let location := mk_loc bus device function in
  vendor_id <- pci_config_read16 location PCI_CONFIG_VENDOR_ID ;;
  if absent vendor_id then ret device_count else probe_counted location device_count.

Definition scan_device (bus device device_count : Z) : M Z :=
  let location := mk_loc bus device 0 in
  vendor_id <- pci_config_read16 location PCI_CONFIG_VENDOR_ID ;;
  if absent vendor_id then ret device_count
  else
    n <- probe_counted location device_count ;;
    header_type <- pci_config_read8 location PCI_CONFIG_HEADER_TYPE ;;
    if has_bits header_type PCI_HEADER_TYPE_MULTIFUNCTION
    then for_acc 7 1 (scan_function bus device) n
    else ret n.

Definition scan_bus (bus device_count : Z) : M Z :=
  upd_pstats (λ t, t <| ps_total_buses := u32 (ps_total_buses t + 1) |>) ;;;
  for_acc 32 0 (scan_device bus) device_count.

Definition pci_enumerate_devices : M Z :=
  m <- gets pm ;;
  if negb (pm_initialized m) then ret 0
  else
    start_time <- time32 ;;
    device_count <- for_acc 256 0 scan_bus 0 ;;
    t <- framework get_system_time_ms ;;
    upd_pstats (λ st, st <| ps_enumeration_time_ms := u32 (t - start_time) |>) ;;;
    ret device_count.
End pci.

(** ** Addresses *)
Definition loc_ok (loc : pci_location) : Prop :=
  0 ≤ l_bus loc < 256 ∧ 0 ≤ l_device loc < 32 ∧ 0 ≤ l_function loc < 8.

Lemma land_mask x k : 0 ≤ k → 0 ≤ x < 2 ^ k → Z.land x (Z.ones k) = x.
Proof. intros Hk Hx. rewrite Z.land_ones by done. by apply Z.mod_small. Qed.

Lemma land_fc off : 0 ≤ off < 256 → Z.land off 0xFC = off - off mod 4.
Proof.
  intros Ho. transitivity (Z.land off (Z.lnot (Z.ones 2))).
  - apply Z.bits_inj'. intros i Hi. rewrite !Z.land_spec, Z.lnot_spec by done.
    destruct (decide (i < 8)) as [Hi8|Hi8]; [|by rewrite (testbit_above 8 off i) by lia].
    assert (i = 0 ∨ i = 1 ∨ i = 2 ∨ i = 3 ∨ i = 4 ∨ i = 5 ∨ i = 6 ∨ i = 7) as Hc by lia.
    f_equal. by repeat destruct Hc as [->|Hc]; subst.
  - by rewrite land_lnot_ones.
Qed.

(** The address register as a sum: the fields do not overlap. *)
Lemma make_address_sum loc off :
  loc_ok loc → 0 ≤ off < 256 →
  pci_make_address (l_bus loc) (l_device loc) (l_function loc) off =
  2 ^ 31 + l_bus loc * 2 ^ 16 + l_device loc * 2 ^ 11 + l_function loc * 2 ^ 8 + (off - off mod 4).
Proof.
  destruct loc as [b d f]. cbn [l_bus l_device l_function]. intros (Hb & Hd & Hf) Ho. unfold pci_make_address.
  cbn [l_bus l_device l_function] in *.
  change (Z.land d 0x1F) with (Z.land d (Z.ones 5)). change (Z.land f 0x07) with (Z.land f (Z.ones 3)).
  rewrite (land_mask d 5), (land_mask f 3), land_fc by lia. unfold PCI_CONFIG_ENABLE. rewrite !Z.shiftl_mul_pow2 by lia.
  pose proof (Z.mod_pos_bound off 4 ltac:(lia)).
  pose proof (Z.mod_le off 4 ltac:(lia) ltac:(lia)).
  assert (∀ x k n, x = k * n → 0 < n → x mod n = 0) as Hm by (intros x k n -> ?; by apply Z_mod_mult).
  rewrite (lor_add_low (1 * 2 ^ 31) (b * 2 ^ 16) 31) by (lia || by apply (Hm _ 1); lia).
  rewrite (lor_add_low _ (d * 2 ^ 11) 16) by (lia || by apply (Hm _ (2 ^ 15 + b)); lia).
  rewrite (lor_add_low _ (f * 2 ^ 8) 11) by (lia || by apply (Hm _ (2 ^ 20 + b * 2 ^ 5 + d)); lia).
  rewrite (lor_add_low _ (off - off mod 4) 8) by (lia || by apply (Hm _ (2 ^ 23 + b * 2 ^ 8 + d * 2 ^ 3 + f)); lia).
  lia.
Qed.

(** Configuration addresses.  Every function's every register has its own address:
    for locations in range, two address words are equal only if bus, device, function
    and the 32-bit register are, and the word has the enable bit and clear low bits. *)
Theorem pci_make_address_injective loc off loc' off' :
  loc_ok loc → loc_ok loc' → 0 ≤ off < 256 → 0 ≤ off' < 256 →
  (pci_make_address (l_bus loc) (l_device loc) (l_function loc) off =
   pci_make_address (l_bus loc') (l_device loc') (l_function loc') off' ↔ loc = loc' ∧ off / 4 = off' / 4).
Proof.
  intros Hl Hl' Ho Ho'. rewrite !make_address_sum by done.
  pose proof (Z.div_mod off 4 ltac:(lia)). pose proof (Z.div_mod off' 4 ltac:(lia)).
  pose proof (Z.mod_pos_bound off 4 ltac:(lia)). pose proof (Z.mod_pos_bound off' 4 ltac:(lia)).
  destruct loc as [b d f], loc' as [b' d' f'], Hl as (Hb & Hd & Hf), Hl' as (Hb' & Hd' & Hf').
  cbn [l_bus l_device l_function] in *. split.
  - intros E. assert (b = b' ∧ d = d' ∧ f = f' ∧ off / 4 = off' / 4) as (-> & -> & -> & ->) by lia. done.
  - intros [[= -> -> ->] E]. lia.
Qed.

(** ** The hardware behind the ports

    Configuration mechanism 1: a write to 0xCF8 latches the address of a 32-bit
    register, 0xCFC to 0xCFF are its byte lanes.  Reading changes nothing; writing the
    whole register leaves [settle a old new] in it, which says which bits are writable. *)
Class ConfigMechanism (H : Type) `{!Ports H} := {
  latch : H → Z;
  reg : H → Z → Z;
  settle : Z → Z → Z → Z;
  reg_range h a : 0 ≤ reg h a < 2 ^ 32;
  outl_address a h : latch (outl PCI_CONFIG_ADDRESS a h) = a ∧ ∀ b, reg (outl PCI_CONFIG_ADDRESS a h) b = reg h b;
  inl_data h : let '(v, h') := inl PCI_CONFIG_DATA h in v = reg h (latch h) ∧ ∀ b, reg h' b = reg h b;
  inw_data k h : k = 0 ∨ k = 2 →
    let '(v, h') := inw (PCI_CONFIG_DATA + k) h in
    v = u16 (Z.shiftr (reg h (latch h)) (8 * k)) ∧ ∀ b, reg h' b = reg h b;
  inb_data k h : 0 ≤ k < 4 →
    let '(v, h') := inb (PCI_CONFIG_DATA + k) h in
    v = u8 (Z.shiftr (reg h (latch h)) (8 * k)) ∧ ∀ b, reg h' b = reg h b;
  outl_data v h b :
    reg (outl PCI_CONFIG_DATA v h) b = if decide (b = latch h) then settle b (reg h b) v else reg h b
}.

Section access.
Context {A H : Type} `{KA : KAlloc A} `{!Errno} `{!DriverEnv A} `{!Ports H} `{!ConfigMechanism H}.
Implicit Types s : pstate A H.

(** The 32-bit register of a function that holds the byte at [off]. *)
Definition cfg (h : H) (loc : pci_location) (off : Z) : Z :=
  reg h (pci_make_address (l_bus loc) (l_device loc) (l_function loc) off).
(** The [size] bytes at [off], little endian. *)
Definition field (h : H) (loc : pci_location) (off size : Z) : Z :=
  Z.shiftr (cfg h loc off) (8 * (off mod 4)) mod 2 ^ (8 * size).

(** The manager without its access counters. *)
Definition but_counters (m : pci_manager) : pci_manager :=
  m <| pm_stats := (pm_stats m) <| ps_config_reads := 0 |> <| ps_config_writes := 0 |> |>.
(** Nothing changed but the access counters and registers outside [P]. *)
Definition quiet (P : Z → Prop) s s' : Prop :=
  pdevs s' = pdevs s ∧ dst s' = dst s ∧ but_counters (pm s') = but_counters (pm s) ∧
  ∀ b, P b → reg (hw s') b = reg (hw s) b.

Lemma quiet_refl P s : quiet P s s.
Proof. done. Qed.
Lemma quiet_trans P s1 s2 s3 : quiet P s1 s2 → quiet P s2 s3 → quiet P s1 s3.
Proof.
  intros (A1 & A2 & A3 & A4) (B1 & B2 & B3 & B4). split_and!; [congruence..|].
  intros b Hb. by rewrite B4, A4.
Qed.
Lemma quiet_weaken (P P' : Z → Prop) s s' : (∀ b, P' b → P b) → quiet P s s' → quiet P' s s'.
Proof. intros Hw (A1 & A2 & A3 & A4). split_and!; [done..|]. auto. Qed.
Lemma quiet_init P s s' : quiet P s s' → pm_initialized (pm s') = pm_initialized (pm s).
Proof.
  intros (_ & _ & Hm & _). unfold but_counters, fset in Hm. cbn in Hm.
  by apply (f_equal pm_initialized) in Hm.
Qed.
Lemma quiet_list P s s' : quiet P s s' → pm_device_list (pm s') = pm_device_list (pm s).
Proof.
  intros (_ & _ & Hm & _). unfold but_counters, fset in Hm. cbn in Hm.
  by apply (f_equal pm_device_list) in Hm.
Qed.

(** A legal access size. *)
Definition size_ok (size : Z) : Prop := size = 1 ∨ size = 2 ∨ size = 4.

Lemma align_offset off size : 0 ≤ off < 256 → size_ok size →
  Z.land off (Z.lnot (size - 1)) = off - off mod size ∧ (off - off mod size) mod size = 0 ∧
  0 ≤ off - off mod size < 256 ∧ bad_access (zero_pm <| pm_initialized := true |>) size = false.
Proof.
  intros Ho Hs. pose proof (Z.mod_pos_bound off size ltac:(destruct Hs as [->|[->| ->]]; lia)).
  pose proof (Z.mod_le off size ltac:(lia) ltac:(destruct Hs as [->|[->| ->]]; lia)).
  split_and!; [| |lia|lia|].
  - destruct Hs as [->|[->| ->]].
    + exact (land_lnot_ones off 0 ltac:(lia)).
    + exact (land_lnot_ones off 1 ltac:(lia)).
    + exact (land_lnot_ones off 2 ltac:(lia)).
  - rewrite Zminus_mod_idemp_r, Z.sub_diag. apply Z.mod_0_l. destruct Hs as [->|[->| ->]]; lia.
  - by destruct Hs as [->|[->| ->]].
Qed.

(** Reading [size] bytes at [off]. *)
Lemma config_read_spec loc off size Q s :
  pm_initialized (pm s) = true → 0 ≤ off < 256 → size_ok size →
  (∀ s', quiet (λ _, True) s s' →
     ps_config_reads (pm_stats (pm s')) = u32 (ps_config_reads (pm_stats (pm s)) + 1) →
     ps_config_writes (pm_stats (pm s')) = ps_config_writes (pm_stats (pm s)) →
     Q (field (hw s) loc (off - off mod size) size) s') →
  wp (pci_config_read loc off size) Q s.
Proof.
  intros Hi Ho Hs HQ. destruct (align_offset off size Ho Hs) as (Ha & Ham & Har & Hb).
  unfold pci_config_read. apply wp_bind, wp_gets.
  replace (bad_access (pm s) size) with false by (unfold bad_access in *; by rewrite Hi).
  cbv zeta. rewrite Ha. set (o := off - off mod size) in *. apply wp_bind, wp_modify.
  set (a := pci_make_address _ _ _ _). destruct (outl_address a (hw s)) as [Hl Hr].
  set (s1 := s <| hw := outl PCI_CONFIG_ADDRESS a (hw s) |>).
  assert (∀ v h', v = field (hw s) loc o size → (∀ b, reg h' b = reg (hw s1) b) →
    wp (upd_pstats (λ t, t <| ps_config_reads := u32 (ps_config_reads t + 1) |>) ;;; ret v) Q (s1 <| hw := h' |>)) as Hend.
  { intros v h' -> Hh. apply wp_bind, wp_modify, wp_ret, HQ; [|done..]. split_and!; [done..|].
    intros b _. cbn. by rewrite Hh, <- (Hr b). }
  apply wp_bind. destruct Hs as [->|[->| ->]]; cbn [Z.eqb Pos.eqb].
  - pose proof (Z.mod_pos_bound o 4 ltac:(lia)). change (Z.land o 3) with (Z.land o (Z.ones 2)). rewrite Z.land_ones by lia.
    change (2 ^ 2) with 4. pose proof (inb_data (o mod 4) (hw s1) ltac:(lia)) as Hd. unfold wp, port_in.
    destruct (inb _ (hw s1)) as [v h']. destruct Hd as [Hv Hh]. apply Hend; [|done]. rewrite Hv. cbn [s1 hw].
    unfold s1, fset. cbn. by rewrite Hl, Hr.
  - assert (Z.land o 2 = o mod 4 ∧ (o mod 4 = 0 ∨ o mod 4 = 2)) as [-> Hk].
    { assert (o mod 4 = 0 ∨ o mod 4 = 2) as Hk.
      { pose proof (Z.div_mod o 4 ltac:(lia)). pose proof (Z.div_mod o 2 ltac:(lia)).
        pose proof (Z.mod_pos_bound o 4 ltac:(lia)). lia. }
      split; [|done].
      change (Z.land o 2) with (Z.land o (Z.land (Z.ones 2) 2)). rewrite Z.land_assoc, Z.land_ones by lia.
      change (2 ^ 2) with 4. by destruct Hk as [-> | ->]. }
    pose proof (inw_data (o mod 4) (hw s1) Hk) as Hd. unfold wp, port_in.
    destruct (inw _ (hw s1)) as [v h']. destruct Hd as [Hv Hh]. apply Hend; [|done]. rewrite Hv.
    unfold s1, fset. cbn. by rewrite Hl, Hr.
  - pose proof (inl_data (hw s1)) as Hd. unfold wp, port_in.
    destruct (inl _ (hw s1)) as [v h']. destruct Hd as [Hv Hh]. apply Hend; [|done]. rewrite Hv.
    unfold field, s1, fset. cbn. rewrite Ham, Hl, Hr. cbn. rewrite Z.shiftr_0_r, Z.mod_small; [done|apply reg_range].
Qed.

(** C17: configuration reads.  In an initialized driver, a read of 1, 2 or 4 bytes returns
    exactly the little-endian bytes of the addressed function's register at the offset
    rounded down to the size, counts one read and changes nothing else; a size of 3 or
    above 4, or a driver that is not initialized, reads nothing and returns all ones. *)
Theorem pci_config_read_correct s loc off size :
  0 ≤ off < 256 →
  (pm_initialized (pm s) = true → size_ok size →
   ∃ s', pci_config_read loc off size s = Ok (field (hw s) loc (off - off mod size) size, s') ∧
     quiet (λ _, True) s s' ∧
     ps_config_reads (pm_stats (pm s')) = u32 (ps_config_reads (pm_stats (pm s)) + 1)) ∧
  (pm_initialized (pm s) = false ∨ size = 3 ∨ 4 < size → pci_config_read loc off size s = Ok (0xFFFFFFFF, s)).
Proof.
  intros Ho. split.
  - intros Hi Hs. destruct (proj1 (wp_run (pci_config_read loc off size) (λ v s',
      v = field (hw s) loc (off - off mod size) size ∧ quiet (λ _, True) s s' ∧
      ps_config_reads (pm_stats (pm s')) = u32 (ps_config_reads (pm_stats (pm s)) + 1)) s)) as (v & s' & Hr & -> & Hq & Hc).
    + apply config_read_spec; [done..|]. auto.
    + eauto.
  - intros Hbad. unfold pci_config_read, bind, gets.
    replace (bad_access (pm s) size) with true; [done|]. unfold bad_access. symmetry.
    destruct Hbad as [->|[->|Hs]]; [done|by rewrite !orb_true_r|].
    rewrite (proj2 (Z.ltb_lt 4 size)) by done. by rewrite orb_true_r.
Qed.

Lemma read8_spec loc off Q s :
  pm_initialized (pm s) = true → 0 ≤ off < 256 →
  (∀ s', quiet (λ _, True) s s' → Q (field (hw s) loc off 1) s') → wp (pci_config_read8 loc off) Q s.
Proof.
  intros Hi Ho HQ. apply wp_bind, config_read_spec; [done|done|by left|]. intros s' Hq _ _. apply wp_ret.
  rewrite Z.mod_1_r, Z.sub_0_r. unfold u8. unfold field. rewrite Z.mod_mod by done. by apply HQ.
Qed.
Lemma read16_spec loc off Q s :
  pm_initialized (pm s) = true → 0 ≤ off < 256 → off mod 2 = 0 →
  (∀ s', quiet (λ _, True) s s' → Q (field (hw s) loc off 2) s') → wp (pci_config_read16 loc off) Q s.
Proof.
  intros Hi Ho Hm HQ. apply wp_bind, config_read_spec; [done|done|by right; left|]. intros s' Hq _ _. apply wp_ret.
  rewrite Hm, Z.sub_0_r. unfold u16. unfold field. rewrite Z.mod_mod by done. by apply HQ.
Qed.
Lemma read32_spec loc off Q s :
  pm_initialized (pm s) = true → 0 ≤ off < 256 → off mod 4 = 0 →
  (∀ s', quiet (λ _, True) s s' → Q (cfg (hw s) loc off) s') → wp (pci_config_read32 loc off) Q s.
Proof.
  intros Hi Ho Hm HQ. apply config_read_spec; [done|done|by right; right|]. intros s' Hq _ _.
  rewrite Hm, Z.sub_0_r. unfold field. rewrite Hm, Z.mul_0_r, Z.shiftr_0_r, Z.mod_small by apply reg_range. by apply HQ.
Qed.

(** Writing a whole register. *)
Lemma write32_spec loc off v Q s :
  let a := pci_make_address (l_bus loc) (l_device loc) (l_function loc) off in
  pm_initialized (pm s) = true → 0 ≤ off < 256 → off mod 4 = 0 →
  (∀ s', quiet (λ b, b ≠ a) s s' → cfg (hw s') loc off = settle a (cfg (hw s) loc off) v → Q () s') →
  wp (pci_config_write32 loc off v) Q s.
Proof.
  intros a Hi Ho Hm HQ. destruct (align_offset off 4 Ho ltac:(by right; right)) as (Ha & _ & _ & Hb).
  unfold pci_config_write32, pci_config_write. apply wp_bind, wp_gets.
  replace (bad_access (pm s) 4) with false by (unfold bad_access in *; by rewrite Hi).
  cbv zeta. rewrite Ha, Hm, Z.sub_0_r. fold a. destruct (outl_address a (hw s)) as [Hl Hr].
  apply wp_bind, wp_modify. cbn [Z.eqb Pos.eqb]. apply wp_bind, wp_modify, wp_modify, HQ.
  - split_and!; [done..|]. intros b Hb'. unfold fset. cbn. rewrite outl_data, Hl, decide_False by done. apply Hr.
  - unfold cfg, fset. fold a. cbn. rewrite outl_data, Hl, decide_True by done. by rewrite Hr.
Qed.
End access.
