(* ===== verification/PciBars.v ===== *)
(** * Base address registers (drivers/bus/pci.c, [pci_probe_bars])

    What a device's base address registers are, as the PCI specification has them, and
    that the probe recovers every address, size and kind and restores the registers. *)
From S2P Require Import Prelude.
From S2P Require Import Heap.
From S2P Require Import SchedState.
From S2P Require Import Device.
From S2P Require Import Pci.
Local Open Scope Z_scope.

(** ** Layouts

    A region of [2 ^ k] bytes at [base], in I/O or memory space; a 64-bit region takes
    two registers. *)
Inductive region :=
  | NoRegion
  | IoRegion (k base : Z)
  | Mem32 (k base : Z) (prefetch : bool)
  | Mem64 (k base : Z) (prefetch : bool).

Definition flags (r : region) : Z :=
  match r with
  | NoRegion => 0
  | IoRegion _ _ => 1
  | Mem32 _ _ pf => if pf then 8 else 0
  | Mem64 _ _ pf => if pf then 12 else 4
  end.
Definition values (r : region) : list Z :=
  match r with
  | NoRegion => [0]
  | IoRegion _ base | Mem32 _ base _ => [base + flags r]
  | Mem64 _ base _ => [base mod 2 ^ 32 + flags r; base / 2 ^ 32]
  end.
Definition sizes (r : region) : list Z :=
  match r with
  | NoRegion => [0]
  | IoRegion k _ | Mem32 k _ _ => [2 ^ k]
  | Mem64 k _ _ => [u32 (2 ^ k); 0]
  end.
Definition ios (r : region) : list bool :=
  match r with IoRegion _ _ => [true] | Mem64 _ _ _ => [false; false] | _ => [false] end.
Definition wides (r : region) : list bool := match r with Mem64 _ _ _ => [true; false] | _ => [false] end.
Definition slots (r : region) : nat := match r with Mem64 _ _ _ => 2 | _ => 1 end.
Definition nslots (l : list region) : nat := list_sum (map slots l).
Definition base_of (r : region) : Z :=
  match r with NoRegion => 0 | IoRegion _ base | Mem32 _ base _ | Mem64 _ base _ => base end.

(** Alignment, and an address assigned by the firmware. *)
Definition region_ok (r : region) : Prop :=
  match r with
  | NoRegion => True
  | IoRegion k base => 2 ≤ k < 32 ∧ 0 ≤ base < 2 ^ 32 ∧ base mod 2 ^ k = 0
  | Mem32 k base _ => 4 ≤ k < 32 ∧ 0 < base < 2 ^ 32 ∧ base mod 2 ^ k = 0
  | Mem64 k base _ => 4 ≤ k < 64 ∧ 0 < base < 2 ^ 64 ∧ base mod 2 ^ k = 0
  end.
(** The bits of the first register that are not part of the address. *)
Definition low_bits (r : region) : Z :=
  match r with NoRegion => 32 | IoRegion k _ | Mem32 k _ _ => k | Mem64 k _ _ => Z.min k 32 end.

Section bars.
Context {A H : Type} `{KA : KAlloc A} `{!Errno} `{!DriverEnv A} `{!Ports H} `{!ConfigMechanism H}.
Implicit Types s : pstate A H.

Definition bar_off (i : nat) : Z := PCI_CONFIG_BAR0 + Z.of_nat i * 4.
Definition bar_addr (loc : pci_location) (i : nat) : Z :=
  pci_make_address (l_bus loc) (l_device loc) (l_function loc) (bar_off i).

(** The registers of [loc] from number [i] on implement [r]: they hold its values, and
    the address bits of the first one, and only these, can be written. *)
Definition implements (h : H) (loc : pci_location) (i : nat) (r : region) : Prop :=
  region_ok r ∧ (∀ j v, values r !! j = Some v → cfg h loc (bar_off (i + j)) = v) ∧
  (∀ old v, 0 ≤ v < 2 ^ 32 → settle (bar_addr loc i) old v = v - v mod 2 ^ low_bits r + flags r).

Fixpoint layout_at (h : H) (loc : pci_location) (i : nat) (l : list region) : Prop :=
  match l with [] => True | r :: l => implements h loc i r ∧ layout_at h loc (i + slots r) l end.

(** The device after the regions [l] have been recorded. *)
Definition lay {X} (f : region → list X) (pad : X) (l : list region) : list X :=
  concat (map f l) ++ replicate (6 - nslots l) pad.
Definition recorded (x : pci_device) (l : list region) : pci_device :=
  x <| pd_config := (pd_config x) <| pc_bar := lay values 0 l |> |> <| pd_bar_sizes := lay sizes 0 l |>
    <| pd_bar_is_io := lay ios false l |> <| pd_bar_is_64bit := lay wides false l |>.

Lemma concat_length {X} (f : region → list X) l :
  (∀ r, length (f r) = slots r) → length (concat (map f l)) = nslots l.
Proof.
  intros Hf. induction l as [|r l IH]; [done|]. cbn [map concat]. rewrite length_app, Hf, IH. done.
Qed.

Lemma values_slots r : length (values r) = slots r.
Proof. by destruct r. Qed.
Lemma sizes_slots r : length (sizes r) = slots r.
Proof. by destruct r. Qed.
Lemma ios_slots r : length (ios r) = slots r.
Proof. by destruct r. Qed.
Lemma wides_slots r : length (wides r) = slots r.
Proof. by destruct r. Qed.

Lemma nslots_snoc l r : nslots (l ++ [r]) = (nslots l + slots r)%nat.
Proof. unfold nslots. rewrite map_app, list_sum_app. cbn. lia. Qed.

(** Writing the entries of the next region into a padded array. *)
Lemma lay_insert {X} (f : region → list X) pad l r v :
  (∀ r, length (f r) = slots r) → f r = [v] → (nslots l < 6)%nat →
  <[nslots l := v]> (lay f pad l) = lay f pad (l ++ [r]).
Proof.
  intros Hf Hr Hl. assert (slots r = 1%nat) as Hs by (by rewrite <- Hf, Hr). unfold lay.
  rewrite nslots_snoc, Hs, map_app, concat_app. cbn [map concat]. rewrite Hr, app_nil_r, <- app_assoc.
  rewrite <- (concat_length f l Hf) at 1. rewrite <- (Nat.add_0_r (length _)), insert_app_r.
  replace (6 - nslots l)%nat with (S (6 - (nslots l + 1))) by lia. done.
Qed.
Lemma lay_insert2 {X} (f : region → list X) pad l r v w :
  (∀ r, length (f r) = slots r) → f r = [v; w] → (nslots l < 5)%nat →
  <[S (nslots l) := w]> (<[nslots l := v]> (lay f pad l)) = lay f pad (l ++ [r]).
Proof.
  intros Hf Hr Hl. assert (slots r = 2%nat) as Hs by (by rewrite <- Hf, Hr). unfold lay.
  rewrite nslots_snoc, Hs, map_app, concat_app. cbn [map concat]. rewrite Hr, app_nil_r, <- app_assoc.
  rewrite <- (concat_length f l Hf) at 1 2. rewrite <- (Nat.add_0_r (length _)) at 2. rewrite insert_app_r.
  rewrite <- Nat.add_1_r, insert_app_r.
  replace (6 - nslots l)%nat with (S (S (6 - (nslots l + 2)))) by lia. done.
Qed.
Lemma lay_pad {X} (f : region → list X) pad l r :
  (∀ r, length (f r) = slots r) → f r = replicate (slots r) pad → (nslots l + slots r ≤ 6)%nat →
  lay f pad (l ++ [r]) = lay f pad l.
Proof.
  intros Hf Hr Hl. unfold lay. rewrite nslots_snoc, map_app, concat_app. cbn [map concat].
  rewrite Hr, app_nil_r, <- app_assoc, <- replicate_add. do 2 f_equal. lia.
Qed.

(** ** Arithmetic of the probe *)
Lemma ones_write k fl : 0 ≤ k ≤ 32 → 0xFFFFFFFF - 0xFFFFFFFF mod 2 ^ k + fl = 2 ^ 32 - 2 ^ k + fl.
Proof.
  intros Hk. assert (0xFFFFFFFF mod 2 ^ k = 2 ^ k - 1) as ->; [|lia].
  symmetry. apply (Z.mod_unique _ _ (2 ^ (32 - k) - 1)).
  - left. pose proof (Z.pow_pos_nonneg 2 k ltac:(lia) ltac:(lia)). lia.
  - assert (2 ^ k * 2 ^ (32 - k) = 2 ^ 32) as E by (rewrite <- Z.pow_add_r by lia; f_equal; lia). lia.
Qed.

(** [~(mask & ~(2^n - 1)) + 1] for the read-back of a region of [2 ^ k] bytes. *)
Lemma mask_size n k fl :
  0 ≤ n ≤ k → k ≤ 32 → 0 ≤ fl < 2 ^ n →
  u32 (Z.lnot (Z.land (2 ^ 32 - 2 ^ k + fl) (Z.lnot (Z.ones n))) + 1) = u32 (2 ^ k).
Proof.
  intros Hn Hk Hf. rewrite land_lnot_ones by lia.
  assert ((2 ^ 32 - 2 ^ k + fl) mod 2 ^ n = fl) as ->.
  { symmetry. apply (Z.mod_unique _ _ (2 ^ (32 - n) - 2 ^ (k - n))); [lia|].
    rewrite Z.mul_sub_distr_l, <- !Z.pow_add_r by lia.
    replace (n + (32 - n)) with 32 by lia. replace (n + (k - n)) with k by lia. lia. }
  replace (Z.lnot (2 ^ 32 - 2 ^ k + fl - fl) + 1) with (2 ^ k + (-1) * 2 ^ 32) by (unfold Z.lnot; lia).
  unfold u32. by rewrite Z.mod_add by lia.
Qed.

Lemma kind_io base k : 2 ≤ k → base mod 2 ^ k = 0 → has_bits (base + 1) PCI_BAR_TYPE_IO = true.
Proof.
  intros Hk Hb. unfold has_bits, PCI_BAR_TYPE_IO. change 1 with (Z.ones 1) at 2. rewrite Z.land_ones by lia.
  apply Z.mod_divide in Hb as [q ->]; [|apply Z.pow_nonzero; lia].
  replace k with (1 + (k - 1)) by lia. rewrite Z.pow_add_r by lia. change (2 ^ 1) with 2.
  replace (q * (2 * 2 ^ (k - 1)) + 1) with (1 + q * 2 ^ (k - 1) * 2) by lia. by rewrite Z.mod_add by lia.
Qed.

(** A memory base is a multiple of 16, so the low four bits are the flags. *)
Lemma kind_mem base k fl :
  4 ≤ k → base mod 2 ^ k = 0 → fl = 0 ∨ fl = 4 ∨ fl = 8 ∨ fl = 12 →
  has_bits (base + fl) PCI_BAR_TYPE_IO = false ∧
  (Z.land (Z.shiftr (base + fl) 1) 0x3 =? 2) = bool_decide (fl = 4 ∨ fl = 12).
Proof.
  intros Hk Hb Hf. apply Z.mod_divide in Hb as [q ->]; [|apply Z.pow_nonzero; lia].
  replace k with (4 + (k - 4)) by lia. rewrite Z.pow_add_r by lia. change (2 ^ 4) with 16.
  set (m := q * 2 ^ (k - 4)). replace (q * (16 * 2 ^ (k - 4))) with (16 * m) by lia. split.
  - unfold has_bits, PCI_BAR_TYPE_IO. change 1 with (Z.ones 1). rewrite Z.land_ones by lia. change (2 ^ 1) with 2.
    replace (16 * m + fl) with (fl + (8 * m) * 2) by lia. rewrite Z.mod_add by lia.
    by destruct Hf as [->|[->|[->| ->]]].
  - change 0x3 with (Z.ones 2). rewrite Z.land_ones, Z.shiftr_div_pow2 by lia. change (2 ^ 1) with 2. change (2 ^ 2) with 4.
    replace (16 * m + fl) with (fl + (8 * m) * 2) by lia. rewrite Z.div_add by lia.
    replace (fl / 2 + 8 * m) with (fl / 2 + (2 * m) * 4) by lia. rewrite Z.mod_add by lia.
    by destruct Hf as [->|[->|[->| ->]]].
Qed.

(** ** One register *)
Lemma wp_ld_pci p x Q s : pdevs s !! p = Some x → Q x s → wp (ld_pci p) Q s.
Proof. intros Hx HQ. unfold wp, ld_pci. by rewrite Hx. Qed.
Lemma wp_upd_pci p f x Q s :
  pdevs s !! p = Some x → Q () (s <| pdevs := <[p := f x]> (pdevs s) |>) → wp (upd_pci p f) Q s.
Proof. intros Hx HQ. unfold wp, upd_pci. by rewrite Hx. Qed.

(** The device at [p] became [y]; the framework, the manager and the registers of [P] are
    as before. *)
Definition probed (P : Z → Prop) (p : Z) (y : pci_device) s s' : Prop :=
  pdevs s' = <[p := y]> (pdevs s) ∧ dst s' = dst s ∧ but_counters (pm s') = but_counters (pm s) ∧
  ∀ b, P b → reg (hw s') b = reg (hw s) b.

Lemma probed_quiet P p x s s' : pdevs s !! p = Some x → quiet P s s' → probed P p x s s'.
Proof. intros Hx (H1 & H2 & H3 & H4). split_and!; [|done..]. by rewrite H1, insert_id. Qed.
Lemma probed_trans P p y z s1 s2 s3 : probed P p y s1 s2 → probed P p z s2 s3 → probed P p z s1 s3.
Proof.
  intros (A1 & A2 & A3 & A4) (B1 & B2 & B3 & B4). split_and!; [by rewrite B1, A1, insert_insert_eq|congruence..|].
  intros b Hb. by rewrite B4, A4.
Qed.
Lemma probed_lookup P p y s s' : probed P p y s s' → pdevs s' !! p = Some y.
Proof. intros (-> & _). by rewrite lookup_insert_eq. Qed.
Lemma probed_init P p y s s' : probed P p y s s' → pm_initialized (pm s') = pm_initialized (pm s).
Proof.
  intros (_ & _ & Hm & _). unfold but_counters, fset in Hm. cbn in Hm. by apply (f_equal pm_initialized) in Hm.
Qed.

(** Reads, writes and updates of the device, as steps of [probed]. *)
Lemma step_read32 (P : Z → Prop) p y s0 loc off Q s :
  probed P p y s0 s → pm_initialized (pm s0) = true → 0 ≤ off < 256 → off mod 4 = 0 →
  (∀ s', probed P p y s0 s' → (∀ b, reg (hw s') b = reg (hw s) b) → Q (cfg (hw s) loc off) s') →
  wp (pci_config_read32 loc off) Q s.
Proof.
  intros Hp Hi Ho Hm HQ. apply read32_spec; [by rewrite (probed_init _ _ _ _ _ Hp)|done..|]. intros s' Hq.
  apply HQ; [|intros b; by apply Hq]. eapply probed_trans; [exact Hp|].
  apply probed_quiet; [by eapply probed_lookup|eapply (quiet_weaken (λ _, True)); [done|exact Hq]].
Qed.
Lemma step_write32 p y s0 loc i v Q s :
  let P b := b ≠ bar_addr loc i in
  probed P p y s0 s → pm_initialized (pm s0) = true → 0 ≤ bar_off i < 256 → bar_off i mod 4 = 0 →
  (∀ s', probed P p y s0 s' → cfg (hw s') loc (bar_off i) = settle (bar_addr loc i) (cfg (hw s) loc (bar_off i)) v → Q () s') →
  wp (pci_config_write32 loc (bar_off i) v) Q s.
Proof.
  intros P Hp Hi Ho Hm HQ. apply write32_spec; [by rewrite (probed_init _ _ _ _ _ Hp)|done..|]. intros s' Hq Hc.
  apply HQ; [|done]. eapply probed_trans; [exact Hp|]. apply probed_quiet; [by eapply probed_lookup|done].
Qed.
Lemma step_upd (P : Z → Prop) p y s0 f Q s :
  probed P p y s0 s → (∀ s', probed P p (f y) s0 s' → (∀ b, reg (hw s') b = reg (hw s) b) → Q () s') → wp (upd_pci p f) Q s.
Proof.
  intros Hp HQ. eapply wp_upd_pci; [by eapply probed_lookup|]. apply HQ; [|done].
  eapply probed_trans; [exact Hp|]. done.
Qed.
Lemma step_ld (P : Z → Prop) p y s0 Q s : probed P p y s0 s → Q y s → wp (ld_pci p) Q s.
Proof. intros Hp HQ. eapply wp_ld_pci; [by eapply probed_lookup|done]. Qed.

Lemma bar_off_ok i : (i < 6)%nat → 0 ≤ bar_off i < 256 ∧ bar_off i mod 4 = 0 ∧ u8 (PCI_CONFIG_BAR0 + Z.of_nat i * 4) = bar_off i.
Proof.
  intros Hi. unfold bar_off, PCI_CONFIG_BAR0, u8. split_and!; [lia|lia| |apply Z.mod_small; lia].
  replace (0x10 + Z.of_nat i * 4) with ((4 + Z.of_nat i) * 4) by lia. apply Z_mod_mult.
Qed.

(** The updates of one iteration. *)
Definition put_bar (i : nat) (v : Z) (x : pci_device) : pci_device :=
  x <| pd_config := (pd_config x) <| pc_bar := <[i := v]> (pc_bar (pd_config x)) |> |>.
Definition put_io (i : nat) (v : bool) (x : pci_device) : pci_device := x <| pd_bar_is_io := <[i := v]> (pd_bar_is_io x) |>.
Definition put_wide (i : nat) (x : pci_device) : pci_device := x <| pd_bar_is_64bit := <[i := true]> (pd_bar_is_64bit x) |>.
Definition put_size (i : nat) (v : Z) (x : pci_device) : pci_device := x <| pd_bar_sizes := <[i := v]> (pd_bar_sizes x) |>.

(** A register that reads as [bar] <> 0, reads back as [mask] after all ones have been
    written, and can be restored. *)
Lemma probe_bar_active p x loc i bar mask wide Q s :
  let io := has_bits bar PCI_BAR_TYPE_IO in
  let size := u32 (Z.lnot (Z.land mask (Z.lnot (if io then 0x3 else 0xF))) + 1) in
  let w := if wide : bool then put_wide i else id in
  let y := put_size i size (w (put_io i io (put_bar i bar x))) in
  pm_initialized (pm s) = true → (i < 6)%nat → pdevs s !! p = Some x →
  length (pd_bar_is_io x) = 6%nat → length (pd_bar_is_64bit x) = 6%nat → nth i (pd_bar_is_64bit x) false = false →
  cfg (hw s) loc (bar_off i) = bar → bar ≠ 0 →
  wide = negb io && (Z.land (Z.shiftr bar 1) 0x3 =? 2) →
  (∀ old, settle (bar_addr loc i) old 0xFFFFFFFF = mask) → (∀ old, settle (bar_addr loc i) old bar = bar) →
  (∀ s', probed (λ _, True) p y s s' →
     wp (if wide && (Z.of_nat i <? 5) then
           high <- pci_config_read32 loc (u8 (PCI_CONFIG_BAR0 + (Z.of_nat i + 1) * 4)) ;;
           upd_pci p (λ x, x <| pd_config := (pd_config x) <| pc_bar := <[Z.to_nat (Z.of_nat i + 1) := high]> (pc_bar (pd_config x)) |> |>) ;;;
           ret (Z.of_nat i + 2)
         else ret (Z.of_nat i + 1)) Q s') →
  wp (probe_bar p loc (Z.of_nat i)) Q s.
Proof.
  intros io size w y Hi Hi6 Hx Hlio Hl64 Hn64 Hbar Hb0 Hwide Hmask Hback HQ.
  destruct (bar_off_ok i Hi6) as (Ho & Hm & Hu). unfold probe_bar. cbv zeta. rewrite Hu, Nat2Z.id.
  set (P := λ b, b ≠ bar_addr loc i).
  assert (probed P p x s s) as H0' by (apply probed_quiet; [done|apply quiet_refl]).
  apply wp_bind, (step_read32 P p x s); [done..|]. intros s1 H1 R1. rewrite Hbar.
  apply wp_bind, (step_upd P p x s); [done|]. intros s2 H2 R2. fold (put_bar i bar x) in H2.
  rewrite (proj2 (Z.eqb_neq bar 0)) by done. apply wp_bind. fold io.
  apply (wp_mono _ (λ _ s3, probed P p (w (put_io i io (put_bar i bar x))) s s3)).
  { unfold w. destruct io; cbn [negb andb] in Hwide.
    - subst wide. apply (step_upd P p (put_bar i bar x) s); [exact H2|]. intros s3 H3 _. exact H3.
    - apply wp_bind, (step_upd P p (put_bar i bar x) s); [exact H2|]. intros s3 H3 _. rewrite <- Hwide.
      destruct wide; cbn [when]; [|by apply wp_ret]. apply (step_upd P p (put_io i false (put_bar i bar x)) s); [exact H3|]. intros s4 H4 _. exact H4. }
  intros _ s3 H3. set (z := w _) in *.
  apply wp_bind, (step_write32 p z s); [done..|]. intros s4 H4 C4. rewrite Hmask in C4.
  apply wp_bind, (step_read32 P p z s); [done..|]. intros s5 H5 R5. rewrite C4.
  apply wp_bind, (step_write32 p z s); [done..|]. intros s6 H6 C6. rewrite Hback in C6.
  apply wp_bind, (step_ld P p z s); [done|].
  assert (nth i (pd_bar_is_io z) false = io ∧ nth i (pd_bar_is_64bit z) false = wide) as [Eio Ewide].
  { assert (∀ (v : bool) l, length l = 6%nat → nth i (<[i:=v]> l) false = v) as Hnth.
    { intros v l Hl. apply nth_lookup_Some with (d := false). apply list_lookup_insert_eq. lia. }
    unfold z, w. destruct wide; unfold id, put_wide, put_io, put_bar, fset; cbn;
      rewrite ?Hnth by done; [done|]. by rewrite Hn64. }
  rewrite Eio, Ewide.
  assert (∀ s7, probed P p y s s7 → reg (hw s7) (bar_addr loc i) = reg (hw s6) (bar_addr loc i) → probed (λ _, True) p y s s7) as Hfull.
  { intros s7 (B1 & B2 & B3 & B4) E. split_and!; [done..|]. intros b _.
    destruct (decide (b = bar_addr loc i)) as [->|Hne]; [|by apply B4]. rewrite E. unfold cfg in C6, Hbar. unfold bar_addr. congruence. }
  destruct io eqn:Eio'; cbn [negb andb] in Hwide.
  - apply wp_bind, (step_upd P p z s); [done|]. intros s7 H7 R7. specialize (HQ s7). rewrite Hwide in HQ. cbn [andb] in HQ.
    apply HQ, Hfull; [exact H7|apply R7].
  - apply wp_bind, (step_upd P p z s); [done|]. intros s7 H7 R7. apply HQ, Hfull; [exact H7|apply R7].
Qed.

(** ** One region *)

Definition with_arrays (x : pci_device) (a b : list Z) (c d : list bool) : pci_device :=
  x <| pd_config := (pd_config x) <| pc_bar := a |> |> <| pd_bar_sizes := b |> <| pd_bar_is_io := c |> <| pd_bar_is_64bit := d |>.

Lemma lay_length {X} (f : region → list X) pad l :
  (∀ r, length (f r) = slots r) → (nslots l ≤ 6)%nat → length (lay f pad l) = 6%nat.
Proof. intros Hf Hl. unfold lay. rewrite length_app, length_replicate, concat_length by done. lia. Qed.

Lemma lay_next {X} (f : region → list X) pad l :
  (∀ r, length (f r) = slots r) → nth (nslots l) (lay f pad l) pad = pad.
Proof.
  intros Hf. unfold lay. rewrite <- (concat_length f l Hf) at 1.
  rewrite app_nth2 by lia. rewrite Nat.sub_diag. destruct (6 - nslots l)%nat; done.
Qed.

(** The same arrays after a region of one register. *)
Lemma recorded_one x l r v z io :
  (nslots l < 6)%nat → values r = [v] → sizes r = [z] → ios r = [io] → wides r = [false] →
  put_size (nslots l) z (put_io (nslots l) io (put_bar (nslots l) v (recorded x l))) = recorded x (l ++ [r]).
Proof.
  intros Hl Hv Hz Hio Hw.
  change (put_size _ _ _) with (with_arrays x (<[nslots l := v]> (lay values 0 l)) (<[nslots l := z]> (lay sizes 0 l))
    (<[nslots l := io]> (lay ios false l)) (lay wides false l)).
  rewrite (lay_insert values 0 l r), (lay_insert sizes 0 l r), (lay_insert ios false l r) by
    (done || apply values_slots || apply sizes_slots || apply ios_slots).
  rewrite <- (lay_pad wides false l r); [done|apply wides_slots| |].
  - by rewrite <- wides_slots, Hw.
  - rewrite <- wides_slots, Hw. cbn [length]. lia.
Qed.
Lemma recorded_none x l : (nslots l < 6)%nat → put_bar (nslots l) 0 (recorded x l) = recorded x (l ++ [NoRegion]).
Proof.
  intros Hl. change (put_bar _ _ _) with (with_arrays x (<[nslots l := 0]> (lay values 0 l)) (lay sizes 0 l) (lay ios false l) (lay wides false l)).
  rewrite (lay_insert values 0 l NoRegion) by (done || apply values_slots).
  assert (nslots l + slots NoRegion ≤ 6)%nat as Hn by (cbn [slots]; lia).
  rewrite <- (lay_pad sizes 0 l NoRegion sizes_slots eq_refl Hn), <- (lay_pad ios false l NoRegion ios_slots eq_refl Hn),
    <- (lay_pad wides false l NoRegion wides_slots eq_refl Hn). done.
Qed.
Lemma recorded_wide x l r v w z :
  (nslots l < 5)%nat → values r = [v; w] → sizes r = [z; 0] → ios r = [false; false] → wides r = [true; false] →
  put_bar (S (nslots l)) w (put_size (nslots l) z (put_wide (nslots l) (put_io (nslots l) false (put_bar (nslots l) v (recorded x l))))) =
  recorded x (l ++ [r]).
Proof.
  intros Hl Hv Hz Hio Hw.
  assert (∀ {X} (f : region → list X) pad, (∀ r, length (f r) = slots r) → <[S (nslots l) := pad]> (lay f pad l) = lay f pad l) as Hid.
  { intros X f pad Hf. apply list_insert_id. unfold lay. rewrite lookup_app_r by (rewrite (concat_length f l Hf); lia).
    rewrite (concat_length f l Hf). apply lookup_replicate. split; [done|lia]. }
  assert (∀ {X} (f : region → list X) pad u, (∀ r, length (f r) = slots r) → f r = [u; pad] → <[nslots l := u]> (lay f pad l) = lay f pad (l ++ [r])) as Hone.
  { intros X f pad u Hf Hr. rewrite <- (lay_insert2 f pad l r u pad) by done. rewrite list_insert_insert_ne by lia. by rewrite Hid. }
  change (put_bar _ _ (put_size _ _ _)) with (with_arrays x (<[S (nslots l) := w]> (<[nslots l := v]> (lay values 0 l)))
    (<[nslots l := z]> (lay sizes 0 l)) (<[nslots l := false]> (lay ios false l)) (<[nslots l := true]> (lay wides false l))).
  rewrite (lay_insert2 values 0 l r) by (done || apply values_slots).
  rewrite (Hone _ sizes 0), (Hone _ ios false), (Hone _ wides false); try done;
    apply sizes_slots || apply ios_slots || apply wides_slots.
Qed.

Lemma mod_pow_down base k d : 0 ≤ d ≤ k → base mod 2 ^ k = 0 → base mod 2 ^ d = 0.
Proof.
  intros Hd Hb. apply Z.mod_divide in Hb as [q ->]; [|apply Z.pow_nonzero; lia].
  replace k with (k - d + d) by lia. rewrite Z.pow_add_r, Z.mul_assoc by lia. apply Z_mod_mult.
Qed.

Lemma region_value r : region_ok r → r ≠ NoRegion →
  ∃ v, values r !! 0%nat = Some v ∧ 0 < v < 2 ^ 32 ∧ v mod 2 ^ low_bits r = flags r ∧ 0 ≤ flags r < 16 ∧ 0 ≤ low_bits r ≤ 32 ∧
  has_bits v PCI_BAR_TYPE_IO = hd false (ios r) ∧
  (negb (hd false (ios r)) && (Z.land (Z.shiftr v 1) 0x3 =? 2)) = hd false (wides r).
Proof.
  assert (∀ base k fl, 0 ≤ fl < 2 ^ k → base mod 2 ^ k = 0 → (base + fl) mod 2 ^ k = fl) as Hmod.
  { intros base k fl Hfl Hb. rewrite Z.add_mod, Hb, Z.add_0_l, Z.mod_mod by lia. by apply Z.mod_small. }
  assert (∀ k, 4 ≤ k → 16 ≤ 2 ^ k) as H16.
  { intros k Hk. change 16 with (2 ^ 4). apply Z.pow_le_mono_r; lia. }
  pose proof mod_pow_down as Hdown.
  intros Hok Hne. destruct r as [|k base|k base pf|k base pf]; [done|..]; cbn [values region_ok ios wides hd low_bits] in *.
  - destruct Hok as (Hk & Hb & Hm). exists (base + 1). cbn [flags].
    assert (1 < 2 ^ k) by (apply Z.pow_gt_1; lia).
    assert (base + 1 < 2 ^ 32).
    { pose proof (Hdown base k 1 ltac:(lia) Hm) as D1. change (2 ^ 1) with 2 in D1.
      pose proof (Z.div_mod base 2 ltac:(lia)). lia. }
    split_and!; [done|lia|lia|apply Hmod; lia|lia|lia|lia|lia|by eapply kind_io; [|exact Hm]; lia|done].
  - destruct Hok as (Hk & Hb & Hm). pose proof (H16 k ltac:(lia)).
    assert (0 ≤ flags (Mem32 k base pf) ≤ 8 ∧ (flags (Mem32 k base pf) = 0 ∨ flags (Mem32 k base pf) = 8)) as [Hf Hf'] by (destruct pf; cbn; lia).
    set (fl := flags (Mem32 k base pf)) in *.
    destruct (kind_mem base k fl ltac:(lia) Hm ltac:(lia)) as [K1 K2]. exists (base + fl).
    assert (base + fl < 2 ^ 32).
    { pose proof (Hdown base k 4 ltac:(lia) Hm) as D1. change (2 ^ 4) with 16 in D1. pose proof (Z.div_mod base 16 ltac:(lia)). lia. }
    rewrite K1, K2. split_and!; [done|lia|lia|apply Hmod; [lia|done]|lia|lia|lia|lia|done|].
    cbn [negb andb]. apply bool_decide_false. lia.
  - destruct Hok as (Hk & Hb & Hm). set (lo := base mod 2 ^ 32).
    assert (0 ≤ flags (Mem64 k base pf) < 16 ∧ (flags (Mem64 k base pf) = 4 ∨ flags (Mem64 k base pf) = 12)) as [Hf Hf'] by (destruct pf; cbn; lia).
    set (fl := flags (Mem64 k base pf)) in *.
    assert (0 < 2 ^ Z.min k 32) by (apply Z.pow_pos_nonneg; lia).
    assert (lo mod 2 ^ Z.min k 32 = 0) as Hlo.
    { unfold lo. rewrite (Z.mod_eq base (2 ^ 32)) by lia. apply Z.mod_divide; [lia|]. apply Z.divide_sub_r.
      - apply Z.mod_divide; [lia|]. apply (Hdown base k); [lia|done].
      - apply Z.divide_mul_l. exists (2 ^ (32 - Z.min k 32)). rewrite <- Z.pow_add_r by lia. f_equal. lia. }
    assert (0 ≤ lo < 2 ^ 32) as Hlor by (apply Z.mod_pos_bound; lia).
    pose proof (H16 (Z.min k 32) ltac:(lia)).
    destruct (kind_mem lo (Z.min k 32) fl ltac:(lia) Hlo ltac:(lia)) as [K1 K2]. exists (lo + fl).
    assert (lo + fl < 2 ^ 32).
    { pose proof (Hdown lo (Z.min k 32) 4 ltac:(lia) Hlo) as D1. change (2 ^ 4) with 16 in D1.
      pose proof (Z.div_mod lo 16 ltac:(lia)). lia. }
    rewrite K1, K2. split_and!; [done|lia|lia|apply Hmod; [lia|done]|lia|lia|lia|lia|done|].
    cbn [negb andb]. apply bool_decide_true. lia.
Qed.

Lemma u32_pow2 k : 0 ≤ k < 32 → u32 (2 ^ k) = 2 ^ k.
Proof. intros Hk. apply u32_small. split; [lia|]. apply Z.pow_lt_mono_r; lia. Qed.
Lemma u32_pow2_min k : 0 ≤ k → u32 (2 ^ Z.min k 32) = u32 (2 ^ k).
Proof.
  intros Hk. destruct (Z.min_spec k 32) as [[_ ->]|[Hge ->]]; [done|]. unfold u32. rewrite Z_mod_same_full.
  symmetry. apply Z.mod_divide; [lia|]. exists (2 ^ (k - 32)). rewrite <- Z.pow_add_r by lia. f_equal. lia.
Qed.

(** The probe of one region that the hardware implements. *)
Lemma probe_region p x loc l r Q s :
  let i := nslots l in
  pm_initialized (pm s) = true → (i + slots r ≤ 6)%nat → pdevs s !! p = Some (recorded x l) →
  implements (hw s) loc i r →
  (∀ s', probed (λ _, True) p (recorded x (l ++ [r])) s s' → Q (Z.of_nat (i + slots r)) s') →
  wp (probe_bar p loc (Z.of_nat i)) Q s.
Proof.
  intros i Hi Hfit Hx (Hok & Hval & Hset) HQ.
  assert (r = NoRegion ∨ r ≠ NoRegion) as [->|Hne] by (destruct r; eauto).
  - destruct (bar_off_ok i ltac:(cbn in Hfit; lia)) as (Ho & Hm & Hu). unfold probe_bar. cbv zeta. rewrite Hu.
    assert (probed (λ _, True) p (recorded x l) s s) as H0' by (apply probed_quiet; [done|apply quiet_refl]).
    apply wp_bind, (step_read32 (λ _, True) p (recorded x l) s); [done..|]. intros s1 H1 _.
    pose proof (Hval 0%nat 0 eq_refl) as Hz. rewrite Nat.add_0_r in Hz. rewrite Hz.
    apply wp_bind, (step_upd (λ _, True) p (recorded x l) s); [done|]. intros s2 H2 _. rewrite Nat2Z.id in H2.
    cbn [Z.eqb]. apply wp_ret. replace (Z.of_nat i + 1) with (Z.of_nat (i + slots NoRegion)) by (cbn; lia). apply HQ.
    rewrite <- recorded_none by (cbn in Hfit; lia). exact H2.
  - destruct (region_value r Hok Hne) as (v & Hv & Hvr & Hvm & Hfl & Hlb & Hio & Hw).
    pose proof (Hval 0%nat v Hv) as Hc. rewrite Nat.add_0_r in Hc.
    assert (i < 6)%nat as Hi6 by (destruct r; cbn in Hfit; lia).
    apply (probe_bar_active p (recorded x l) loc i v (2 ^ 32 - 2 ^ low_bits r + flags r) (hd false (wides r))); try done.
    + cbn. apply lay_length; [apply ios_slots|lia].
    + cbn. apply lay_length; [apply wides_slots|lia].
    + cbn. apply lay_next, wides_slots.
    + lia.
    + by rewrite Hio.
    + intros old. rewrite Hset by done. by apply ones_write.
    + intros old. rewrite Hset by lia. lia.
    + intros s' Hs'. rewrite Hio in Hs'. clear Hset.
      destruct r as [|k base|k base pf|k base pf]; [done|..]; cbn [ios wides hd andb low_bits values lookup list_lookup] in *; injection Hv as Hv; rewrite <- Hv in Hs'.
      * destruct Hok as (Hk & _). change 3 with (Z.ones 2) in Hs'.
        rewrite mask_size, u32_pow2 in Hs' by (lia || (cbn; lia)).
        apply wp_ret. replace (Z.of_nat i + 1) with (Z.of_nat (i + slots (IoRegion k base))) by (cbn; lia). apply HQ.
        rewrite <- (recorded_one x l _ (base + 1) (2 ^ k) true) by done. exact Hs'.
      * destruct Hok as (Hk & _). change 15 with (Z.ones 4) in Hs'.
        rewrite mask_size, u32_pow2 in Hs' by (lia || done).
        apply wp_ret. replace (Z.of_nat i + 1) with (Z.of_nat (i + slots (Mem32 k base pf))) by (cbn; lia). apply HQ.
        rewrite <- (recorded_one x l (Mem32 k base pf) (base + flags (Mem32 k base pf)) (2 ^ k) false) by done. exact Hs'.
      * destruct Hok as (Hk & _). change 15 with (Z.ones 4) in Hs'.
        rewrite mask_size, u32_pow2_min in Hs' by (lia || done). cbn [slots] in Hfit.
        rewrite (proj2 (Z.ltb_lt _ _)) by lia.
        destruct (bar_off_ok (S i) ltac:(lia)) as (Ho & Hm & Hu).
        replace (Z.of_nat i + 1) with (Z.of_nat (S i)) by lia. rewrite Hu, Nat2Z.id.
        set (y := put_size _ _ _) in Hs'.
        apply wp_bind, (step_read32 (λ _, True) p y s); [done..|]. intros s1 H1 _.
        assert (cfg (hw s') loc (bar_off (S i)) = base / 2 ^ 32) as ->.
        { unfold cfg. destruct Hs' as (_ & _ & _ & Hr). rewrite Hr by done.
          pose proof (Hval 1%nat _ eq_refl) as Hh. rewrite Nat.add_1_r in Hh. exact Hh. }
        apply wp_bind, (step_upd (λ _, True) p y s); [done|]. intros s2 H2 _. apply wp_ret.
        replace (Z.of_nat i + 2) with (Z.of_nat (i + slots (Mem64 k base pf))) by (cbn; lia). apply HQ.
        rewrite <- (recorded_wide x l (Mem64 k base pf) (base mod 2 ^ 32 + flags (Mem64 k base pf)) (base / 2 ^ 32) (u32 (2 ^ k)));
          [exact H2|unfold i in Hfit; lia|done..].
Qed.

(** ** The whole device *)
Lemma layout_ext h h' loc i l : (∀ b, reg h' b = reg h b) → layout_at h loc i l → layout_at h' loc i l.
Proof.
  intros Hr. revert i. induction l as [|r l IH]; intros i; [done|]. cbn [layout_at]. intros [(Hok & Hv & Hs) Hl].
  split; [|by apply IH]. split_and!; [done| |done]. intros j v Hj. unfold cfg. rewrite Hr. by apply Hv.
Qed.

Lemma probe_layout fuel p x loc l rest Q s :
  pm_initialized (pm s) = true → (nslots l + nslots rest = 6)%nat → pdevs s !! p = Some (recorded x l) →
  layout_at (hw s) loc (nslots l) rest → (length rest < fuel)%nat →
  (∀ s', probed (λ _, True) p (recorded x (l ++ rest)) s s' → Q () s') →
  wp (probe_bars_from fuel p loc (Z.of_nat (nslots l))) Q s.
Proof.
  revert l rest s. induction fuel as [|fuel IH]; intros l rest s Hi Hn Hx Hl Hf HQ; [lia|]. cbn [probe_bars_from].
  destruct rest as [|r rest].
  - replace (nslots l) with 6%nat by (cbn in Hn; lia). apply wp_ret, HQ. rewrite app_nil_r.
    apply probed_quiet; [done|apply quiet_refl].
  - assert (nslots (r :: rest) = slots r + nslots rest)%nat as Hc by done. rewrite Hc in Hn.
    assert (0 < slots r)%nat as Hs0 by (destruct r; cbn; lia).
    rewrite (proj2 (Z.ltb_lt _ _)) by lia. destruct Hl as [Hr Hl].
    apply wp_bind, (probe_region p x loc l r); [done|lia|done|done|]. intros s1 H1.
    rewrite <- nslots_snoc in Hl |- *. apply (IH (l ++ [r]) rest).
    + by rewrite (probed_init _ _ _ _ _ H1).
    + rewrite nslots_snoc. lia.
    + by eapply probed_lookup.
    + eapply layout_ext; [|done]. intros b. by apply H1.
    + cbn in Hf. lia.
    + intros s' Hs'. apply HQ. rewrite <- (app_assoc l [r] rest) in Hs'. by eapply probed_trans.
Qed.

Lemma lay_lookup {X} (f : region → list X) pad l1 r l2 j v :
  (∀ r, length (f r) = slots r) → f r !! j = Some v → nth (nslots l1 + j) (lay f pad (l1 ++ r :: l2)) pad = v.
Proof.
  intros Hf Hj. apply nth_lookup_Some with (d := pad). unfold lay. rewrite map_app, concat_app. cbn [map concat].
  rewrite <- !app_assoc, lookup_app_r by (rewrite (concat_length f l1 Hf); lia). rewrite (concat_length f l1 Hf).
  replace (nslots l1 + j - nslots l1)%nat with j by lia. apply lookup_app_l_Some. done.
Qed.

Lemma drop_flags base k n fl :
  0 ≤ fl < 2 ^ n → 0 ≤ n ≤ k → base mod 2 ^ k = 0 → Z.land (base + fl) (Z.lnot (Z.ones n)) = base.
Proof.
  intros Hf Hn Hb. rewrite land_lnot_ones by lia. pose proof (mod_pow_down base k n ltac:(lia) Hb) as Hd.
  rewrite Z.add_mod, Hd, Z.add_0_l, Z.mod_mod by lia. rewrite Z.mod_small by done. lia.
Qed.
Lemma mod_pow_mod base d k : 0 ≤ d ≤ k → base mod 2 ^ d = (base mod 2 ^ k) mod 2 ^ d.
Proof.
  intros Hd. apply Z.bits_inj'. intros i Hi. rewrite !mod_pow2_testbit by lia.
  repeat case_bool_decide; try done; lia.
Qed.
Lemma layout_slots l : (length l ≤ nslots l)%nat.
Proof. induction l as [|r l IH]; [done|]. assert (nslots (r :: l) = slots r + nslots l)%nat as -> by done. destruct r; cbn [slots length]; lia. Qed.

(** The address that the driver reports for a recorded region. *)
Lemma recorded_address x l1 r l2 :
  region_ok r → (nslots (l1 ++ r :: l2) ≤ 6)%nat →
  bar_address (recorded x (l1 ++ r :: l2)) (Z.of_nat (nslots l1)) = base_of r.
Proof.
  intros Hok Hn. assert (nslots (l1 ++ r :: l2) = nslots l1 + slots r + nslots l2)%nat as Hc.
  { unfold nslots. rewrite map_app, list_sum_app. cbn [map list_sum foldr]. unfold list_sum. cbn [foldr]. lia. }
  assert (∀ X (f : region → list X) pad v, (∀ r, length (f r) = slots r) → f r !! 0%nat = Some v →
    nth (nslots l1) (lay f pad (l1 ++ r :: l2)) pad = v) as H0'.
  { intros X f pad v Hf Hv. rewrite <- (Nat.add_0_r (nslots l1)). by apply lay_lookup. }
  unfold bar_address. cbv zeta. rewrite Nat2Z.id. cbn [recorded pd_bar_is_io pd_bar_is_64bit pd_config pc_bar fset].
  unfold recorded, fset. cbn [pd_bar_is_io pd_bar_is_64bit pd_config pc_bar].
  destruct r as [|k base|k base pf|k base pf]; cbn [region_ok base_of] in *.
  - rewrite (H0' _ ios false false), (H0' _ wides false false), (H0' _ values 0 0) by
      (done || apply ios_slots || apply wides_slots || apply values_slots). done.
  - rewrite (H0' _ ios false true), (H0' _ values 0 (base + 1)) by (done || apply ios_slots || apply values_slots).
    change 3 with (Z.ones 2). rewrite (drop_flags base k 2 1); [done|lia|lia|apply Hok].
  - rewrite (H0' _ ios false false), (H0' _ wides false false), (H0' _ values 0 (base + flags (Mem32 k base pf))) by
      (done || apply ios_slots || apply wides_slots || apply values_slots).
    cbn [andb]. change 15 with (Z.ones 4). apply (drop_flags base k); [destruct pf; cbn; lia|lia|apply Hok].
  - rewrite (H0' _ ios false false), (H0' _ wides false true), (H0' _ values 0 (base mod 2 ^ 32 + flags (Mem64 k base pf))) by
      (done || apply ios_slots || apply wides_slots || apply values_slots).
    rewrite (proj2 (Z.ltb_lt _ _)) by (cbn [slots] in Hc; lia). cbn [andb].
    rewrite <- Nat.add_1_r, (lay_lookup values 0 l1 _ l2 1 (base / 2 ^ 32)) by (done || apply values_slots).
    destruct Hok as (Hk & Hb & Hm). change 15 with (Z.ones 4).
    rewrite (drop_flags (base mod 2 ^ 32) 4); [|destruct pf; cbn; lia|lia|].
    + rewrite Z.shiftl_mul_pow2, Z.lor_comm, (lor_add_low _ _ 32) by (lia || apply Z_mod_mult || (apply Z.mod_pos_bound; lia)).
      pose proof (Z.div_mod base (2 ^ 32) ltac:(lia)). lia.
    + rewrite <- (mod_pow_mod base 4 32) by lia. by apply (mod_pow_down base k); [lia|].
Qed.

(** C8: BAR probing.  For a function whose six base address registers implement a layout
    of I/O, 32-bit and 64-bit memory regions, as the PCI specification describes them,
    [pci_probe_bars] returns, records exactly the kind, the size and the value of every
    region (the size modulo 2^32, so a 64-bit region of 4 GiB or more is reported with size
    0), reports every region's address exactly, and leaves every register of every device
    as it was. *)
Theorem pci_probe_bars_correct s p x layout :
  pm_initialized (pm s) = true → pdevs s !! p = Some (recorded x []) →
  nslots layout = 6%nat → layout_at (hw s) (pd_location x) 0 layout →
  ∃ s', pci_probe_bars p s = Ok ((), s') ∧ probed (λ _, True) p (recorded x layout) s s' ∧
    ∀ l1 r l2, layout = l1 ++ r :: l2 →
      bar_address (recorded x layout) (Z.of_nat (nslots l1)) = base_of r.
Proof.
  intros Hi Hx Hn Hl.
  destruct (proj1 (wp_run (pci_probe_bars p) (λ _ s', probed (λ _, True) p (recorded x layout) s s') s)) as ([] & s' & Hr & Hp).
  - apply wp_bind, (wp_ld_pci _ (recorded x [])); [done|].
    apply (probe_layout 7 p x (pd_location x) [] layout); [done|exact Hn|done|done| |done].
    pose proof (layout_slots layout). lia.
  - exists s'. split_and!; [done|done|]. intros l1 r l2 ->. apply recorded_address; [|lia].
    clear -Hl. revert Hl. generalize 0%nat. induction l1 as [|r1 l1 IH]; intros n; cbn [app layout_at].
    + intros [[Hok _] _]. exact Hok.
    + intros [_ Hl]. by apply (IH (n + slots r1)%nat).
Qed.

End bars.
