(* ===== verification/PciScan.v ===== *)
(** * PCI enumeration and the device framework (drivers/bus/pci.c)

    What one probe does to the driver, the device framework and the hardware, that the
    scan of all buses finds exactly the functions that are present, and what is left of
    the devices after [pci_shutdown]. *)
From S2P Require Import Prelude.
From S2P Require Import Heap.
From S2P Require Import SchedState.
From S2P Require Import Device.
From S2P Require Import Pci.
From S2P Require Import PciBars.
Local Open Scope Z_scope.

Section probe.
Context {A H : Type} `{KA : KAlloc A} `{!Errno} `{!DriverEnv A} `{!Polite A} `{!Ports H} `{!ConfigMechanism H}.
Implicit Types s : pstate A H.

(** ** Probing the BARs of any hardware *)

(** All registers but the six BARs of [loc]. *)
Definition not_bar (loc : pci_location) (b : Z) : Prop := ∀ i, (i < 6)%nat → b ≠ bar_addr loc i.

(** The fields of a PCI device that the BAR probe does not touch. *)
Definition but_bars (x : pci_device) : pci_location * pci_config * Z :=
  (pd_location x, (pd_config x) <| pc_bar := [] |>, pd_next x).

(** Some device with the same fields otherwise. *)
Definition rebarred (p : Z) (x : pci_device) s s' : Prop :=
  ∃ y, probed (not_bar (pd_location x)) p y s s' ∧ but_bars y = but_bars x.

Lemma rebarred_upd p x y f s0 Q s :
  probed (not_bar (pd_location x)) p y s0 s → but_bars y = but_bars x → (∀ y, but_bars (f y) = but_bars y) →
  (∀ s' z, probed (not_bar (pd_location x)) p z s0 s' → but_bars z = but_bars x → Q () s') → wp (upd_pci p f) Q s.
Proof.
  intros Hp Hy Hf HQ. eapply step_upd; [exact Hp|]. intros s' Hs' _. eapply HQ; [exact Hs'|]. by rewrite Hf.
Qed.

Lemma probe_bar_any p x i Q s0 s :
  pm_initialized (pm s0) = true → (i < 6)%nat → rebarred p x s0 s →
  (∀ j s', (i < j ≤ i + 2)%nat → rebarred p x s0 s' → Q (Z.of_nat j) s') →
  wp (probe_bar p (pd_location x) (Z.of_nat i)) Q s.
Proof.
  intros Hi Hi6 (y & Hp & Hy) HQ. set (loc := pd_location x) in *. set (P := not_bar loc) in *.
  destruct (bar_off_ok i Hi6) as (Ho & Hm & Hu). unfold probe_bar. cbv zeta. rewrite Hu.
  assert (∀ s y v Q, probed P p y s0 s → but_bars y = but_bars x →
    (∀ s', probed P p y s0 s' → Q () s') → wp (pci_config_write32 loc (bar_off i) v) Q s) as Hwrite.
  { intros s1 y1 v Q1 H1 Hy1 HQ1. apply write32_spec; [by rewrite (probed_init _ _ _ _ _ H1)|done..|]. intros s2 Hq _.
    apply HQ1. eapply probed_trans; [exact H1|]. apply probed_quiet; [by eapply probed_lookup|].
    eapply quiet_weaken; [|exact Hq]. intros b Hb. by apply Hb. }
  assert (∀ s z, probed P p z s0 s → but_bars z = but_bars x → Q (Z.of_nat i + 1) s) as Hnext.
  { intros s1 z H1 Hz. replace (Z.of_nat i + 1) with (Z.of_nat (S i)) by lia. apply HQ; [lia|]. by exists z. }
  apply wp_bind, (step_read32 P p y s0); [done..|]. intros s1 H1 _.
  apply wp_bind, (rebarred_upd p x y _ s0); [done|done|done|]. intros s2 y2 H2 Hy2.
  destruct (_ =? 0); [by apply wp_ret; eapply Hnext|]. apply wp_bind.
  apply (wp_mono _ (λ _ s3, ∃ y3, probed P p y3 s0 s3 ∧ but_bars y3 = but_bars x)).
  { destruct (has_bits _ _).
    - apply (rebarred_upd p x y2 _ s0); [done..|]. eauto.
    - apply wp_bind, (rebarred_upd p x y2 _ s0); [done..|]. intros s3 y3 H3 Hy3.
      destruct (_ =? 2); cbn [when]; [|apply wp_ret; eauto]. apply (rebarred_upd p x y3 _ s0); [done..|]. eauto. }
  intros _ s3 (y3 & H3 & Hy3). apply wp_bind, (Hwrite s3 y3); [done..|]. intros s4 H4.
  apply wp_bind, (step_read32 P p y3 s0); [done..|]. intros s5 H5 _.
  apply wp_bind, (Hwrite s5 y3); [done..|]. intros s6 H6. apply wp_bind, (step_ld P p y3 s0); [done|].
  destruct (nth _ (pd_bar_is_io y3) false).
  - apply wp_bind, (rebarred_upd p x y3 _ s0); [done..|]. intros s7 y7 H7 Hy7. by apply wp_ret; eapply Hnext.
  - apply wp_bind, (rebarred_upd p x y3 _ s0); [done..|]. intros s7 y7 H7 Hy7.
    destruct (nth _ _ _ && _) eqn:Ew; [|by apply wp_ret; eapply Hnext].
    apply andb_true_iff in Ew as [_ Hlt%Z.ltb_lt]. destruct (bar_off_ok (S i) ltac:(lia)) as (Ho' & Hm' & Hu').
    replace (Z.of_nat i + 1) with (Z.of_nat (S i)) by lia. rewrite Hu'.
    apply wp_bind, (step_read32 P p y7 s0); [done..|]. intros s8 H8 _.
    apply wp_bind, (rebarred_upd p x y7 _ s0); [done..|]. intros s9 y9 H9 Hy9. apply wp_ret.
    replace (Z.of_nat i + 2) with (Z.of_nat (i + 2)) by lia. apply HQ; [lia|]. by exists y9.
Qed.

(** Whatever the hardware answers, the probe ends and touches only the BARs of its device. *)
Lemma probe_bars_any p x Q s :
  pm_initialized (pm s) = true → pdevs s !! p = Some x → (∀ s', rebarred p x s s' → Q () s') → wp (pci_probe_bars p) Q s.
Proof.
  intros Hi Hx HQ. apply wp_bind, (wp_ld_pci _ x); [done|].
  assert (rebarred p x s s) as Hs.
  { exists x. split; [|done]. apply probed_quiet; [done|apply quiet_refl]. }
  assert (∀ fuel i s1, rebarred p x s s1 → (6 < fuel + i)%nat → (0 < fuel)%nat →
    wp (probe_bars_from fuel p (pd_location x) (Z.of_nat i)) Q s1) as Hloop; [|by apply (Hloop 7%nat 0%nat); [..|lia|lia]].
  induction fuel as [|fuel IH]; intros i s1 H1 Hf Hf0; [lia|]. cbn [probe_bars_from].
  destruct (Z.ltb_spec (Z.of_nat i) 6) as [Hlt|Hge]; [|by apply wp_ret, HQ].
  apply wp_bind, (probe_bar_any p x i _ s); [done|lia|done|]. intros j s2 Hj H2. apply IH; [done|lia|lia].
Qed.

(** ** Reading the configuration *)
Abbreviation still := (quiet (λ _, True)).

Lemma still_field s s' loc off n : still s s' → field (hw s') loc off n = field (hw s) loc off n.
Proof. intros (_ & _ & _ & Hr). unfold field, cfg. by rewrite Hr. Qed.

(** Reads while nothing has changed since [s0]. *)
Lemma acc_read8 s0 loc off Q s :
  still s0 s → pm_initialized (pm s0) = true → 0 ≤ off < 256 →
  (∀ s', still s0 s' → Q (field (hw s0) loc off 1) s') → wp (pci_config_read8 loc off) Q s.
Proof.
  intros Hq Hi Ho HQ. apply read8_spec; [by rewrite (quiet_init _ _ _ Hq)|done|]. intros s' Hq'.
  rewrite (still_field s0 s) by done. apply HQ. by eapply quiet_trans.
Qed.
Lemma acc_read16 s0 loc off Q s :
  still s0 s → pm_initialized (pm s0) = true → 0 ≤ off < 256 → off mod 2 = 0 →
  (∀ s', still s0 s' → Q (field (hw s0) loc off 2) s') → wp (pci_config_read16 loc off) Q s.
Proof.
  intros Hq Hi Ho Hm HQ. apply read16_spec; [by rewrite (quiet_init _ _ _ Hq)|done..|]. intros s' Hq'.
  rewrite (still_field s0 s) by done. apply HQ. by eapply quiet_trans.
Qed.
Lemma acc_read32 s0 loc off Q s :
  still s0 s → pm_initialized (pm s0) = true → 0 ≤ off < 256 → off mod 4 = 0 →
  (∀ s', still s0 s' → Q (cfg (hw s0) loc off) s') → wp (pci_config_read32 loc off) Q s.
Proof.
  intros Hq Hi Ho Hm HQ. apply read32_spec; [by rewrite (quiet_init _ _ _ Hq)|done..|]. intros s' Hq'.
  assert (cfg (hw s) loc off = cfg (hw s0) loc off) as -> by (unfold cfg; by apply Hq). apply HQ. by eapply quiet_trans.
Qed.

(** The header of a function, as the driver reads it. *)
Definition config_of (h : H) (loc : pci_location) (bar : list Z) : pci_config :=
  mk_config (field h loc PCI_CONFIG_VENDOR_ID 2) (field h loc PCI_CONFIG_DEVICE_ID 2) (field h loc PCI_CONFIG_COMMAND 2)
    (field h loc PCI_CONFIG_STATUS 2) (field h loc PCI_CONFIG_REVISION_ID 1) (field h loc PCI_CONFIG_PROG_IF 1)
    (field h loc PCI_CONFIG_SUBCLASS 1) (field h loc PCI_CONFIG_CLASS 1) (field h loc PCI_CONFIG_CACHE_LINE_SIZE 1)
    (field h loc PCI_CONFIG_LATENCY_TIMER 1) (field h loc PCI_CONFIG_HEADER_TYPE 1) (field h loc PCI_CONFIG_BIST 1) bar
    (cfg h loc PCI_CONFIG_CARDBUS_CIS) (field h loc PCI_CONFIG_SUBSYSTEM_VID 2) (field h loc PCI_CONFIG_SUBSYSTEM_ID 2)
    (cfg h loc PCI_CONFIG_ROM_ADDRESS) (field h loc PCI_CONFIG_CAPABILITIES 1) (field h loc PCI_CONFIG_INTERRUPT_LINE 1)
    (field h loc PCI_CONFIG_INTERRUPT_PIN 1) (field h loc PCI_CONFIG_MIN_GRANT 1) (field h loc PCI_CONFIG_MAX_LATENCY 1).

Ltac read_step s0 :=
  apply wp_bind; first [apply (acc_read8 s0); [done|done|done|] | apply (acc_read16 s0); [done|done|done|done|]
                       | apply (acc_read32 s0); [done|done|done|done|]]; intros ? ?.

Lemma read_config_spec loc bar Q s :
  pm_initialized (pm s) = true → (∀ s', still s s' → Q (config_of (hw s) loc bar) s') → wp (read_config loc bar) Q s.
Proof.
  intros Hi HQ. pose proof (quiet_refl (λ _, True) s) as H0'. unfold read_config. repeat read_step s.
  apply wp_ret. by apply HQ.
Qed.

(** The device after [pci_init_device_info]: its BARs have not been read yet. *)
Lemma init_info_spec p x d Q s :
  p ≠ 0 → pm_initialized (pm s) = true → pdevs s !! p = Some x → devs (dst s) !! p = Some d →
  let c := config_of (hw s) (pd_location x) (pc_bar (pd_config x)) in
  let y := x <| pd_config := c |> in
  (∀ s', pdevs s' = <[p := y]> (pdevs s) →
     dst s' = (dst s) <| devs := <[p := describe (pd_location x) c (bar_address y 0) d]> (devs (dst s)) |> →
     but_counters (pm s') = but_counters (pm s) → (∀ b, reg (hw s') b = reg (hw s) b) → Q () s') →
  wp (pci_init_device_info p) Q s.
Proof.
  intros Hp0 Hi Hx Hd c y HQ. apply wp_bind, (wp_ld_pci _ x); [done|]. cbv zeta.
  apply wp_bind, read_config_spec; [done|]. intros s1 (E1 & E2 & E3 & E4). fold c.
  apply wp_bind, (wp_upd_pci _ _ x); [by rewrite E1|]. unfold pci_get_bar_address.
  rewrite (proj2 (Z.eqb_neq p 0)) by done. cbn [orb Z.leb Z.compare].
  apply wp_bind, wp_bind, (wp_ld_pci _ y); [unfold fset; cbn; by rewrite lookup_insert_eq|]. apply wp_ret.
  unfold framework, upd_dev, wp. unfold fset at 1. cbn [dst]. rewrite E2, Hd. apply HQ; unfold fset; cbn.
  - by rewrite E1.
  - by rewrite E2.
  - exact E3.
  - intros b. by apply E4.
Qed.

(** ** The driver's list and the framework's registry *)

(** [l] is the list of PCI devices, newest first, [rl] and [dl] the registries of the
    framework; every PCI block is on the list, known to the framework and allocated. *)
Record pci_inv s (l rl dl : list Z) : Prop := {
  pi_init : pm_initialized (pm s) = true;
  pi_list : linked pd_next (pdevs s) (pm_device_list (pm s)) l;
  pi_nodup : NoDup l;
  pi_dom : dom (pdevs s) = list_to_set l;
  pi_reg : registry (dst s) rl dl;
  pi_mgr : dm_initialized (mgr (dst s)) = true;
  pi_alloc : ∃ L, ka_inv L (dalloc (dst s)) ∧ dom (pdevs s) ⊆ L ∧ dom (devs (dst s)) ⊆ L;
  pi_devs : dom (pdevs s) ⊆ dom (devs (dst s))
}.

(** The next [k] allocations of a PCI device succeed. *)
Definition spare (k : nat) (a : A) : bool := supplies (replicate k SIZEOF_PCI_DEVICE) a.

Lemma registry_insert (ds : dstate A) l dl p x :
  registry ds l dl → (p ∉ l) → dv_registered x = false → 0 ≤ dv_type x → dv_driver x = 0 →
  registry (ds <| devs := <[p := x]> (devs ds) |>) l dl.
Proof.
  intros Hrg Hp Hreg Ht Hdrv. destruct Hrg. split; unfold fset; cbn -[list_filter]; try done.
  - by apply lseg_insert_other.
  - intros d y [[<- <-]|[Hne Hy]]%lookup_insert_Some; [|by apply rg_flag]. split; [congruence|done].
  - intros d y [[<- <-]|[Hne Hy]]%lookup_insert_Some; [|by apply rg_type]. done.
  - intros t Hty. rewrite rg_by_type by done. do 4 f_equal. apply filter_ext_in. intros e He. unfold has_type.
    rewrite lookup_insert_ne; [done|]. by intros ->.
  - destruct rg_closed as [Hc1 Hc2]. split; cbn.
    + intros d y [[<- <-]|[Hne Hy]]%lookup_insert_Some; [by left|by apply (Hc1 d)].
    + intros r q Hq. destruct (Hc2 r q Hq) as [?|Hs]; [by left|right].
      apply lookup_insert_is_Some. destruct (decide (p = rq_device q)); eauto.
Qed.

(** Registering a device that has no driver. *)
Lemma register_fresh (ds : dstate A) p x :
  dm_initialized (mgr ds) = true → p ≠ 0 → devs ds !! p = Some x → 0 ≤ dv_type x < DEVICE_TYPE_MAX →
  di_name (dv_info x) ≠ [] → dv_registered x = false → dv_driver x = 0 →
  device_register p ds = Ok (0, enlist_state ds p x).
Proof.
  intros Hi Hp0 Hx Ht Hname Hreg Hdrv.
  destruct (proj1 (wp_run (device_register p) (λ r ds', r = 0 ∧ ds' = enlist_state ds p x) ds)) as (? & ? & -> & -> & ->); [|done].
  unfold device_register. apply wp_bind, wp_gets. rewrite Hi. cbn [negb].
  apply wp_bind. unfold validate_device. rewrite (proj2 (Z.eqb_neq p 0)) by done. apply wp_bind, (wp_ld_dev _ x); [done|].
  rewrite (proj2 (Z.leb_gt _ _)), bool_decide_false by (done || lia). apply wp_ret. cbn [Z.eqb negb].
  apply wp_bind, (wp_ld_dev _ x); [done|]. rewrite Hreg. apply wp_bind. unfold wp at 1. rewrite (enlist_run ds p x) by done.
  unfold init_device, driver_op. apply wp_bind, wp_bind, wp_bind.
  eapply wp_ld_dev; [cbn; apply lookup_insert_eq|]. cbn [enlisted dv_driver fset]. unfold fset. cbn [dv_driver]. rewrite Hdrv.
  apply wp_ret. cbn [Z.eqb]. apply wp_ret. by apply wp_ret.
Qed.

(** ** One function *)

Definition vendor (h : H) (loc : pci_location) : Z := field h loc PCI_CONFIG_VENDOR_ID 2.
Definition class (h : H) (loc : pci_location) : Z := field h loc PCI_CONFIG_CLASS 1.

(** What the driver knows about a function: the header it read, and the framework's device
    with the type of the class and, since the BARs are read only later, base address 0. *)
Definition known (h : H) (loc : pci_location) (x : pci_device) (d : device) : Prop :=
  pd_location x = loc ∧ (pd_config x) <| pc_bar := [] |> = config_of h loc [] ∧
  dv_registered d = true ∧ dv_type d = pci_class_to_device_type (class h loc) ∧
  di_vendor_id (dv_info d) = vendor h loc ∧ di_device_id (dv_info d) = field h loc PCI_CONFIG_DEVICE_ID 2 ∧
  dc_irq_line (dv_config d) = field h loc PCI_CONFIG_INTERRUPT_LINE 1 ∧ dc_base_address (dv_config d) = 0.

(** A new device [p] for [loc] in front of the lists. *)
Definition added (s : pstate A H) (loc : pci_location) (p : Z) (s' : pstate A H) : Prop :=
  ∃ x d, pdevs s' = <[p := x]> (pdevs s) ∧ devs (dst s') = <[p := d]> (devs (dst s)) ∧ known (hw s) loc x d ∧
    pdevs s !! p = None ∧ devs (dst s) !! p = None ∧
    ps_total_devices (pm_stats (pm s')) = u32 (ps_total_devices (pm_stats (pm s)) + 1) ∧
    ps_total_functions (pm_stats (pm s')) = u32 (ps_total_functions (pm_stats (pm s)) + 1) ∧
    ∀ b, not_bar loc b → reg (hw s') b = reg (hw s) b.

Lemma class_type_range c : 0 ≤ pci_class_to_device_type c < DEVICE_TYPE_MAX.
Proof. unfold pci_class_to_device_type. repeat case_match; done. Qed.

Lemma still_inv s s' l rl dl : still s s' → pci_inv s l rl dl → pci_inv s' l rl dl.
Proof.
  intros Hq [I1 I2 I3 I4 I5 I6 I7 I8]. pose proof (quiet_init _ _ _ Hq). pose proof (quiet_list _ _ _ Hq).
  destruct Hq as (E1 & E2 & E3 & E4). split; rewrite ?E1, ?E2; try done; congruence.
Qed.

(** The two halves of the block that [pci_create_device] returns. *)
Definition blank_pci (loc : pci_location) : pci_device :=
  mk_pci loc zero_config (replicate 6 0) (replicate 6 false) (replicate 6 false) 0.
Definition blank_dev : device :=
  zero_device <| dv_type := DEVICE_TYPE_PCI |> <| dv_state := DEVICE_STATE_INITIALIZING |>
    <| dv_capabilities := Z.lor (Z.lor DEVICE_CAP_READ DEVICE_CAP_WRITE) DEVICE_CAP_CONFIG |>.

Lemma create_spec loc L Q s :
  ka_inv L (dalloc (dst s)) →
  (∀ a', (∀ k, ¬ spare (S k) (dalloc (dst s))) → ka_inv L a' → Q 0 (s <| dst := (dst s) <| dalloc := a' |> |>)) →
  (∀ p a', p ≠ 0 → (p ∉ L) → ka_inv ({[p]} ∪ L) a' → (∀ k, spare (S k) (dalloc (dst s)) → spare k a') →
     Q p (s <| pdevs := <[p := blank_pci loc]> (pdevs s) |>
            <| dst := (dst s) <| devs := <[p := blank_dev]> (devs (dst s)) |> <| dalloc := a' |> |>)) →
  wp (pci_create_device loc) Q s.
Proof.
  intros Ha HQ0 HQ. unfold pci_create_device. apply wp_bind.
  pose proof (ka_malloc_spec L _ SIZEOF_PCI_DEVICE Ha ltac:(done)) as Hm. apply wp_run in Hm as (p & a' & Hm & Hp).
  unfold wp, framework, lift_dalloc. rewrite Hm. destruct s as [m pd [g dv dr rq ck al] h]. cbn in *.
  destruct Hp as [[-> Ha']|(Hp0 & Hp & Ha')].
  - cbn. apply HQ0; [|done]. intros k. by apply (supplies_fail _ _ _ a').
  - rewrite (proj2 (Z.eqb_neq p 0)) by done. apply HQ; [done..|]. intros k. by apply (supplies_cons _ _ _ p).
Qed.

(** Nothing but the allocator and the access counters changed. *)
Definition unmoved s s' : Prop :=
  pdevs s' = pdevs s ∧ devs (dst s') = devs (dst s) ∧
  ps_total_devices (pm_stats (pm s')) = ps_total_devices (pm_stats (pm s)) ∧
  ps_total_functions (pm_stats (pm s')) = ps_total_functions (pm_stats (pm s)) ∧
  ∀ b, reg (hw s') b = reg (hw s) b.

Lemma counters_totals m m' : but_counters m' = but_counters m →
  ps_total_devices (pm_stats m') = ps_total_devices (pm_stats m) ∧
  ps_total_functions (pm_stats m') = ps_total_functions (pm_stats m) ∧
  pm_initialized m' = pm_initialized m ∧ pm_device_list m' = pm_device_list m.
Proof.
  unfold but_counters, fset. cbn. intros E. injection E as E1 E2 E3 E4 E5 E6 E7. done.
Qed.

Lemma still_dst s s' : still s s' → dst s' = dst s.
Proof. by intros (_ & ? & _). Qed.
Lemma still_unmoved s s' : still s s' → unmoved s s'.
Proof.
  intros (E1 & E2 & E3 & E4). destruct (counters_totals _ _ E3) as (T1 & T2 & _).
  split_and!; [done|by rewrite E2|done|done|]. intros b. by apply E4.
Qed.

(** The registry with the described device in front. *)
Lemma registry_described (ds : dstate A) rl dl p d a' :
  registry ds rl dl → dm_initialized (mgr ds) = true → p ≠ 0 → devs ds !! p = None →
  dv_registered d = false → 0 ≤ dv_type d < DEVICE_TYPE_MAX → dv_driver d = 0 →
  registry (enlist_state (ds <| devs := <[p := d]> (devs ds) |> <| dalloc := a' |>) p d) (p :: rl) dl.
Proof.
  intros Hrg Hi Hp0 Hp Hreg Ht Hdrv.
  assert (p ∉ rl) as Hprl.
  { intros Hin. destruct (lseg_inv _ _ _ _ _ _ (rg_list _ _ _ Hrg) Hin) as [_ [y Hy]]. congruence. }
  pose proof (registry_insert ds rl dl p d Hrg Hprl Hreg ltac:(lia) Hdrv) as Hrg1.
  apply registry_enlist; try done; [|by unfold fset; cbn; rewrite lookup_insert_eq|lia].
  eapply registry_same; [exact Hrg1|]. unfold fset. split_and!; cbn; try done; apply core_eq_refl.
Qed.

(** From "Add to device list" on. *)
Lemma link_device_spec s s4 l rl dl p z d a' L Q :
  pci_inv s l rl dl → p ≠ 0 → (p ∉ L) → dom (pdevs s) ⊆ L → dom (devs (dst s)) ⊆ L → ka_inv ({[p]} ∪ L) a' →
  pdevs s4 = <[p := z]> (pdevs s) → dst s4 = (dst s) <| devs := <[p := d]> (devs (dst s)) |> <| dalloc := a' |> →
  but_counters (pm s4) = but_counters (pm s) →
  dv_registered d = false → 0 ≤ dv_type d < DEVICE_TYPE_MAX → dv_driver d = 0 → di_name (dv_info d) ≠ [] →
  (∀ s' id t n, pci_inv s' (p :: l) (p :: rl) dl →
     pdevs s' = <[p := z <| pd_next := pm_device_list (pm s) |>]> (pdevs s) →
     devs (dst s') = <[p := enlisted d id t n]> (devs (dst s)) →
     ps_total_devices (pm_stats (pm s')) = u32 (ps_total_devices (pm_stats (pm s)) + 1) →
     ps_total_functions (pm_stats (pm s')) = u32 (ps_total_functions (pm_stats (pm s)) + 1) → hw s' = hw s4 →
     dalloc (dst s') = a' → Q 0 s') →
  wp (m <- gets pm ;;
      upd_pci p (λ x, x <| pd_next := pm_device_list m |>) ;;;
      upd_pm (λ m, m <| pm_device_list := p |>) ;;;
      x <- ld_pci p ;;
      upd_pstats (λ t, t <| ps_total_devices := u32 (ps_total_devices t + 1) |>
                         <| ps_total_functions := u32 (ps_total_functions t + 1) |>
                         <| ps_devices_by_class := alter (λ n, u32 (n + 1)) (Z.to_nat (pc_class_code (pd_config x)))
                                                     (ps_devices_by_class t) |>) ;;;
      framework (device_register p) ;;;
      ret 0) Q s4.
Proof.
  intros [I1 I2 I3 I4 I5 I6 I7 I8] Hp0 HpL HL1 HL2 Ha E1 E2 E3 Hreg Ht Hdrv Hname HQ.
  destruct (counters_totals _ _ E3) as (T1 & T2 & T3 & T4).
  assert (pdevs s !! p = None ∧ devs (dst s) !! p = None) as [Hpp Hpd].
  { split; apply not_elem_of_dom; set_solver. }
  assert (p ∉ l) as Hpl by (intros Hin; apply (not_elem_of_dom (pdevs s) p) in Hpp; apply Hpp; rewrite I4; set_solver).
  apply wp_bind, wp_gets, wp_bind, (wp_upd_pci _ _ z); [by rewrite E1, lookup_insert_eq|].
  apply wp_bind, wp_modify, wp_bind. eapply wp_ld_pci; [unfold fset; cbn; apply lookup_insert_eq|].
  apply wp_bind, wp_modify, wp_bind. unfold wp at 1, framework.
  erewrite register_fresh; [|unfold fset; cbn; rewrite E2; done|done|unfold fset; cbn; rewrite E2; cbn; apply lookup_insert_eq|done..].
  apply wp_ret. unfold fset. cbn [dst pm pdevs hw]. rewrite E1, E2, insert_insert_eq.
  pose proof (registry_described (dst s) rl dl p d a' I5 I6 Hp0 Hpd Hreg Ht Hdrv) as Hrg.
  eapply HQ; cbn; rewrite ?T1, ?T2, ?T4; [|done|by rewrite insert_insert_eq|done..].
  split; cbn.
  - by rewrite ?T3.
  - rewrite ?T4. split_and!; [done|done|]. eexists. rewrite lookup_insert_eq. split; [done|].
    by apply lseg_insert_other.
  - by constructor.
  - rewrite dom_insert_L, I4. set_solver.
  - exact Hrg.
  - exact I6.
  - exists ({[p]} ∪ L). rewrite !dom_insert_L. split_and!; [done|set_solver|set_solver].
  - rewrite !dom_insert_L. set_solver.
Qed.

(** What the header of [loc] is in a state where nothing changed. *)
Lemma config_still s s' loc bar : still s s' → config_of (hw s') loc bar = config_of (hw s) loc bar.
Proof. intros (_ & _ & _ & Hr). unfold config_of, field, cfg. by rewrite !Hr. Qed.

Lemma known_described h loc z a d id t n nx :
  pd_location z = loc → (pd_config z) <| pc_bar := [] |> = config_of h loc [] →
  known h loc (z <| pd_next := nx |>) (enlisted (describe loc (config_of h loc a) 0 d) id t n).
Proof. intros <- Hz. by split_and!. Qed.

Lemma probe_device_spec s l rl dl loc Q :
  pci_inv s l rl dl → absent (vendor (hw s) loc) = false →
  (∀ s', (∀ k, ¬ spare (S k) (dalloc (dst s))) → pci_inv s' l rl dl → unmoved s s' → Q (- ENOMEM) s') →
  (∀ p s', pci_inv s' (p :: l) (p :: rl) dl → added s loc p s' →
     (∀ k, spare (S k) (dalloc (dst s)) → spare k (dalloc (dst s'))) → Q 0 s') →
  wp (pci_probe_device loc) Q s.
Proof.
  intros Hinv Hv HQ1 HQ0. unfold pci_probe_device.
  apply wp_bind, read16_spec; [apply (pi_init _ _ _ _ Hinv)|done|done|]. intros s1 Hq1. fold (vendor (hw s) loc). rewrite Hv.
  pose proof (still_inv _ _ _ _ _ Hq1 Hinv) as Hinv1. pose proof (still_unmoved _ _ Hq1) as Hu1.
  destruct (pi_alloc _ _ _ _ Hinv1) as (L & Ha & HL1 & HL2).
  pose proof (still_dst _ _ Hq1) as Hdst.
  apply wp_bind, (create_spec loc L); [done| |].
  { intros a' Hnp Ha'. cbn [Z.eqb]. rewrite Hdst in Hnp. apply wp_ret, HQ1; [done| |].
    - destruct Hinv1 as [I1 I2 I3 I4 I5 I6 I7 I8]. split; try done; [|by exists L].
      eapply registry_same; [exact I5|]. unfold fset. split_and!; cbn; try done; apply core_eq_refl.
    - destruct Hu1 as (U1 & U2 & U3 & U4 & U5). by split_and!. }
  intros p a' Hp0 HpL Ha' Hsp. rewrite Hdst in Hsp. rewrite (proj2 (Z.eqb_neq p 0)) by done.
  assert (pdevs s1 !! p = None ∧ devs (dst s1) !! p = None) as [Hpp Hpd].
  { split; apply not_elem_of_dom; set_solver. }
  set (s2 := s1 <| pdevs := _ |> <| dst := _ |>).
  apply wp_bind, (init_info_spec p (blank_pci loc) blank_dev); [done|apply (pi_init _ _ _ _ Hinv1)|apply lookup_insert_eq..|].
  set (c := config_of _ _ _). set (y := (blank_pci loc) <| pd_config := c |>). set (dd := describe _ _ _ _).
  intros s3 E1 E2 E3 E4.
  apply wp_bind, (probe_bars_any p y); [|by rewrite E1; apply lookup_insert_eq|].
  { destruct (counters_totals _ _ E3) as (_ & _ & -> & _). apply (pi_init _ _ _ _ Hinv1). }
  intros s4 (z & (F1 & F2 & F3 & F4) & Hz).
  assert (∀ loc off n, field (hw s2) loc off n = field (hw s) loc off n) as Hfield by (intros; by apply (still_field s s1)).
  apply (link_device_spec s1 s4 l rl dl p z dd a' L); try done.
  - rewrite F1, E1. unfold s2, fset. cbn. by rewrite !insert_insert_eq.
  - rewrite F2, E2. unfold s2, fset. cbn. by rewrite insert_insert_eq.
  - by rewrite F3, E3.
  - apply class_type_range.
  - intros s' id t n Hinv' P1 P2 P3 P4 P5 P6. destruct Hu1 as (U1 & U2 & U3 & U4 & U5).
    apply (HQ0 p); [done| |by rewrite P6]. eexists _, _. rewrite P1, P2, U1, U2, P3, P4, U3, U4, P5. rewrite U1 in Hpp. rewrite U2 in Hpd.
    split_and!; try done.
    + unfold but_bars in Hz.
      pose proof (f_equal (λ t, t.1.1) Hz) as Hz1. pose proof (f_equal (λ t, t.1.2) Hz) as Hz2. cbn [fst snd] in Hz1, Hz2.
      assert (c = config_of (hw s) loc (replicate 6 0)) as Hc by exact (config_still s s1 loc _ Hq1).
      unfold dd. replace (bar_address y 0) with 0 by done. rewrite Hc. cbn [blank_pci pd_location].
      apply known_described; [done|]. rewrite Hz2. unfold y, fset. cbn [pd_config]. by rewrite Hc.
    + intros b Hb. rewrite <- U5, F4, E4 by done. done.
Qed.

(** ** The scan *)

(** The functions of one slot in the order in which the code looks at them: function 0,
    and functions 1 to 7 when function 0 says that it has them. *)
Definition here (h : H) (loc : pci_location) : list pci_location := if absent (vendor h loc) then [] else [loc].
Definition slot_functions (h : H) (bus device : Z) : list pci_location :=
  let loc := mk_loc bus device 0 in
  if absent (vendor h loc) then []
  else loc :: (if has_bits (field h loc PCI_CONFIG_HEADER_TYPE 1) PCI_HEADER_TYPE_MULTIFUNCTION
               then seqZ 1 7 ≫= (λ f, here h (mk_loc bus device f)) else []).
Definition bus_functions (h : H) (bus : Z) : list pci_location := seqZ 0 32 ≫= slot_functions h bus.
Definition all_functions (h : H) : list pci_location := seqZ 0 256 ≫= bus_functions h.

(** The registers outside all BARs are as before. *)
Definition bars_only (h h' : H) : Prop := ∀ b, (∀ loc, loc_ok loc → not_bar loc b) → reg h' b = reg h b.

(** A header register is no BAR. *)
Lemma header_not_bar loc off : loc_ok loc → 0 ≤ off < 256 → off < 0x10 ∨ 0x28 ≤ off →
  ∀ loc', loc_ok loc' → not_bar loc' (pci_make_address (l_bus loc) (l_device loc) (l_function loc) off).
Proof.
  intros Hl Ho Hoff loc' Hl' i Hi E. destruct (bar_off_ok i Hi) as (Hb & _ & _).
  destruct (proj1 (pci_make_address_injective loc off loc' (bar_off i) Hl Hl' Ho Hb) E) as [_ E']. clear E. unfold bar_off, PCI_CONFIG_BAR0 in E'.
  rewrite Z.div_add in E' by done. change (16 / 4) with 4 in E'. Z.to_euclidean_division_equations. lia.
Qed.

(** The offsets of the header outside the BARs. *)
Definition header_offset (off : Z) : bool := (0 <=? off) && (off <? 256) && ((off <? 0x10) || (0x28 <=? off)).

Lemma bars_only_cfg h h' loc off : bars_only h h' → loc_ok loc → header_offset off = true → cfg h' loc off = cfg h loc off.
Proof.
  unfold header_offset. rewrite !andb_true_iff, orb_true_iff, !Z.leb_le, !Z.ltb_lt. intros Hb Hl [[? ?] ?].
  apply Hb. by apply header_not_bar.
Qed.

Lemma bars_only_field h h' loc off n :
  bars_only h h' → loc_ok loc → header_offset off = true → field h' loc off n = field h loc off n.
Proof. intros. unfold field. by rewrite (bars_only_cfg h h'). Qed.

Lemma bars_only_config h h' loc bar : bars_only h h' → loc_ok loc → config_of h' loc bar = config_of h loc bar.
Proof. intros Hb Hl. unfold config_of. f_equal; by first [apply bars_only_field|apply bars_only_cfg]. Qed.

Lemma known_bars_only h h' loc x d : bars_only h h' → loc_ok loc → known h' loc x d → known h loc x d.
Proof.
  intros Hb Hl (K1 & K2 & K3 & K4 & K5 & K6 & K7 & K8). unfold class, vendor in *.
  rewrite (bars_only_config h h') in K2 by done.
  rewrite (bars_only_field h h') in K4, K5, K6, K7 by done. by split_and!.
Qed.

(** The device at [p], as the driver and the framework see it. *)
Definition device_of s (h : H) (p : Z) (loc : pci_location) : Prop :=
  ∃ x d, pdevs s !! p = Some x ∧ devs (dst s) !! p = Some d ∧ known h loc x d.

(** From [s0] the scan has come to [s] after looking at the functions [locs]: those in [fl]
    have a device, [ps], newest first in front of the lists, and all have when no allocation
    fails. *)
Definition scan_at (s0 : pstate A H) (l rl dl : list Z) (locs : list pci_location) (n : Z) (s : pstate A H)
    (ps : list Z) (fl : list pci_location) : Prop :=
  pci_inv s (ps ++ l) (ps ++ rl) dl ∧ Forall2 (device_of s (hw s0)) ps (reverse fl) ∧
  fl `sublist_of` locs ∧
  (∀ k, spare (length locs + k) (dalloc (dst s0)) → fl = locs ∧ spare k (dalloc (dst s))) ∧ n = u32 (Z.of_nat (length ps)) ∧
  pdevs s0 ⊆ pdevs s ∧ devs (dst s0) ⊆ devs (dst s) ∧
  u32 (ps_total_devices (pm_stats (pm s))) = u32 (ps_total_devices (pm_stats (pm s0)) + Z.of_nat (length ps)) ∧
  u32 (ps_total_functions (pm_stats (pm s))) = u32 (ps_total_functions (pm_stats (pm s0)) + Z.of_nat (length ps)) ∧
  bars_only (hw s0) (hw s).
Definition scanned (s0 : pstate A H) (l rl dl : list Z) (locs : list pci_location) (n : Z) (s : pstate A H) : Prop :=
  ∃ ps fl, scan_at s0 l rl dl locs n s ps fl.

Context `{!ErrnoLaws}.

Lemma bars_only_step h h' h'' loc :
  loc_ok loc → bars_only h h' → (∀ b, not_bar loc b → reg h'' b = reg h' b) → bars_only h h''.
Proof. intros Hl Hb Hs b Hnb. rewrite Hs by auto. by apply Hb. Qed.

Lemma device_of_mono s s' h p loc :
  pdevs s ⊆ pdevs s' → devs (dst s) ⊆ devs (dst s') → device_of s h p loc → device_of s' h p loc.
Proof. intros Hs1 Hs2 (x & d & Hx & Hd & Hk). exists x, d. split_and!; [by eapply lookup_weaken..|done]. Qed.

Lemma unmoved_scanned s0 l rl dl locs new n s s' ps fl :
  scan_at s0 l rl dl locs n s ps fl →
  (∀ k, spare (length new + k) (dalloc (dst s)) → new = [] ∧ spare k (dalloc (dst s'))) →
  pci_inv s' (ps ++ l) (ps ++ rl) dl → unmoved s s' → scanned s0 l rl dl (locs ++ new) n s'.
Proof.
  intros (Hinv & Hps & Hsub & Hpl & Hn & Hp & Hd & T1 & T2 & Hb) Hnew Hi (U1 & U2 & U3 & U4 & U5).
  exists ps, fl. unfold scan_at. rewrite U1, U2, U3, U4. split_and!; try done.
  - eapply Forall2_impl; [exact Hps|]. intros p loc. apply device_of_mono; by rewrite ?U1, ?U2.
  - by apply sublist_inserts_r.
  - intros k. rewrite length_app, <- Nat.add_assoc. intros [-> [-> Hk]%Hnew]%Hpl. by rewrite app_nil_r.
  - intros b Hnb. by rewrite U5, Hb.
Qed.

Lemma same_scanned s0 l rl dl locs n s s' ps fl :
  scan_at s0 l rl dl locs n s ps fl → dalloc (dst s') = dalloc (dst s) →
  pci_inv s' (ps ++ l) (ps ++ rl) dl → unmoved s s' → scanned s0 l rl dl locs n s'.
Proof.
  intros Hs Ha Hi Hu. rewrite <- (app_nil_r locs). eapply unmoved_scanned; [exact Hs| |done|done].
  intros k. by rewrite Ha.
Qed.

Lemma u32_succ a k : u32 (u32 (a + Z.of_nat k) + 1) = u32 (a + Z.of_nat (S k)).
Proof. unfold u32. rewrite Zplus_mod_idemp_l. f_equal. lia. Qed.
Lemma u32_step a b k : u32 a = u32 (b + Z.of_nat k) → u32 (u32 (a + 1)) = u32 (b + Z.of_nat (S k)).
Proof. intros E. rewrite <- u32_succ, <- E. unfold u32. by rewrite Zplus_mod_idemp_l, Z.mod_mod. Qed.

Lemma added_scanned s0 l rl dl locs n s loc p s' ps fl :
  scan_at s0 l rl dl locs n s ps fl → loc_ok loc → added s loc p s' →
  pci_inv s' (p :: ps ++ l) (p :: ps ++ rl) dl →
  (∀ k, spare (S k) (dalloc (dst s)) → spare k (dalloc (dst s'))) →
  scanned s0 l rl dl (locs ++ [loc]) (u32 (n + 1)) s'.
Proof.
  intros (Hinv & Hps & Hsub & Hpl & Hn & Hp & Hd & T1 & T2 & Hb) Hl
    (x & d & A1 & A2 & A3 & A4 & A5 & A6 & A7 & A8) Hi Hsp.
  assert (pdevs s ⊆ pdevs s') as Hs1 by (rewrite A1; by apply insert_subseteq).
  assert (devs (dst s) ⊆ devs (dst s')) as Hs2 by (rewrite A2; by apply insert_subseteq).
  exists (p :: ps), (fl ++ [loc]). unfold scan_at. rewrite reverse_snoc. split_and!.
  - exact Hi.
  - constructor; [|eapply Forall2_impl; [exact Hps|]; intros; by eapply device_of_mono].
    exists x, d. rewrite A1, A2, !lookup_insert_eq. split_and!; [done..|]. by eapply known_bars_only.
  - by apply sublist_app.
  - intros k. rewrite length_app, <- Nat.add_assoc. intros [-> Hk]%Hpl. split; [done|]. by apply Hsp.
  - rewrite Hn. cbn [length]. apply (u32_succ 0).
  - by etrans.
  - by etrans.
  - rewrite A6. by apply u32_step.
  - rewrite A7. by apply u32_step.
  - by eapply bars_only_step.
Qed.

Lemma scan_read_vendor s0 l rl dl locs n loc Q s :
  scanned s0 l rl dl locs n s → loc_ok loc →
  (∀ s', scanned s0 l rl dl locs n s' → Q (vendor (hw s0) loc) s') → wp (pci_config_read16 loc PCI_CONFIG_VENDOR_ID) Q s.
Proof.
  intros (ps & fl & Hs) Hl HQ. pose proof Hs as (Hinv & _ & _ & _ & _ & _ & _ & _ & _ & Hb).
  apply read16_spec; [apply (pi_init _ _ _ _ Hinv)|done|done|]. intros s' Hq. rewrite (bars_only_field (hw s0)) by done.
  apply HQ. eapply same_scanned; [exact Hs|by rewrite (still_dst _ _ Hq)|by eapply still_inv|by apply still_unmoved].
Qed.

Lemma scan_read_header s0 l rl dl locs n loc Q s :
  scanned s0 l rl dl locs n s → loc_ok loc →
  (∀ s', scanned s0 l rl dl locs n s' → Q (field (hw s0) loc PCI_CONFIG_HEADER_TYPE 1) s') →
  wp (pci_config_read8 loc PCI_CONFIG_HEADER_TYPE) Q s.
Proof.
  intros (ps & fl & Hs) Hl HQ. pose proof Hs as (Hinv & _ & _ & _ & _ & _ & _ & _ & _ & Hb).
  apply read8_spec; [apply (pi_init _ _ _ _ Hinv)|done|]. intros s' Hq. rewrite (bars_only_field (hw s0)) by done.
  apply HQ. eapply same_scanned; [exact Hs|by rewrite (still_dst _ _ Hq)|by eapply still_inv|by apply still_unmoved].
Qed.

(** [pci_probe_device] on a function that is there. *)
Lemma scan_probe s0 l rl dl locs n loc Q s :
  scanned s0 l rl dl locs n s → loc_ok loc → absent (vendor (hw s0) loc) = false →
  (∀ n' s', scanned s0 l rl dl (locs ++ [loc]) n' s' → Q n' s') → wp (probe_counted loc n) Q s.
Proof.
  intros (ps & fl & Hs) Hl Hv HQ. pose proof Hs as (Hinv & _ & _ & _ & _ & _ & _ & _ & _ & Hb). apply wp_bind.
  apply (probe_device_spec s (ps ++ l) (ps ++ rl) dl); [done| | |].
  - unfold vendor. by rewrite (bars_only_field (hw s0)).
  - intros s' Hnp Hinv' Hu. apply wp_ret. pose proof ENOMEM_pos. rewrite (proj2 (Z.eqb_neq _ _)) by lia. apply HQ.
    eapply unmoved_scanned; [exact Hs| |done|done]. intros k Hk. by destruct (Hnp k).
  - intros p s' Hinv' Ha Hsp. apply wp_ret. cbn [Z.eqb]. apply HQ. by eapply added_scanned.
Qed.

Lemma scan_function_spec s0 l rl dl locs n bus dev f Q s :
  scanned s0 l rl dl locs n s → loc_ok (mk_loc bus dev f) →
  (∀ n' s', scanned s0 l rl dl (locs ++ here (hw s0) (mk_loc bus dev f)) n' s' → Q n' s') → wp (scan_function bus dev f n) Q s.
Proof.
  intros Hs Hl HQ. unfold scan_function. cbv zeta. apply wp_bind. eapply scan_read_vendor; [exact Hs|done|].
  intros s1 Hs1. unfold here in HQ. destruct (absent _) eqn:Ea.
  - apply wp_ret. rewrite app_nil_r in HQ. by apply HQ.
  - by eapply scan_probe.
Qed.

(** A loop whose body looks at [g i]. *)
Lemma scan_loop s0 l rl dl g body cnt a locs n Q s :
  (∀ i locs n s Q, a ≤ i < a + Z.of_nat cnt → scanned s0 l rl dl locs n s →
     (∀ n' s', scanned s0 l rl dl (locs ++ g i) n' s' → Q n' s') → wp (body i n) Q s) →
  scanned s0 l rl dl locs n s →
  (∀ n' s', scanned s0 l rl dl (locs ++ (seqZ a (Z.of_nat cnt) ≫= g)) n' s' → Q n' s') → wp (for_acc cnt a body n) Q s.
Proof.
  revert a locs n s. induction cnt as [|cnt IH]; intros a locs n s Hb Hs HQ; cbn [for_acc].
  { apply wp_ret, HQ. cbn. by rewrite app_nil_r. }
  apply wp_bind. eapply Hb; [lia|exact Hs|]. intros n1 s1 Hs1. eapply IH; [|exact Hs1|].
  - intros i locs' n' s' Q' Hi. apply Hb. lia.
  - intros n2 s2 Hs2. apply HQ. rewrite seqZ_cons by lia. replace (Z.pred (Z.of_nat (S cnt))) with (Z.of_nat cnt) by lia.
    rewrite bind_cons. by rewrite app_assoc, <- Z.add_1_r.
Qed.

Lemma scan_device_spec s0 l rl dl locs n bus dev Q s :
  scanned s0 l rl dl locs n s → 0 ≤ bus < 256 → 0 ≤ dev < 32 →
  (∀ n' s', scanned s0 l rl dl (locs ++ slot_functions (hw s0) bus dev) n' s' → Q n' s') → wp (scan_device bus dev n) Q s.
Proof.
  intros Hs Hbus Hdev HQ. unfold scan_device. cbv zeta. assert (loc_ok (mk_loc bus dev 0)) as Hl by (split_and!; cbn; lia).
  apply wp_bind. eapply scan_read_vendor; [exact Hs|done|]. intros s1 Hs1. unfold slot_functions in HQ. cbv zeta in HQ.
  destruct (absent _) eqn:Ea; [apply wp_ret; rewrite app_nil_r in HQ; by apply HQ|].
  apply wp_bind. eapply scan_probe; [exact Hs1|done|done|]. intros n2 s2 Hs2.
  apply wp_bind. eapply scan_read_header; [exact Hs2|done|]. intros s3 Hs3. destruct (has_bits _ _).
  - eapply (scan_loop _ _ _ _ (λ f, here (hw s0) (mk_loc bus dev f))); [|exact Hs3|].
    + intros f locs' n' s' Q' Hf Hs' HQ'. eapply scan_function_spec; [exact Hs'|split_and!; cbn; lia|done].
    + intros n4 s4. rewrite <- app_assoc. apply HQ.
  - by apply wp_ret, HQ.
Qed.

(** Updating other statistics and reading the clock. *)
Lemma scan_stats s0 l rl dl locs n f Q s :
  scanned s0 l rl dl locs n s →
  (∀ t, ps_total_devices (f t) = ps_total_devices t ∧ ps_total_functions (f t) = ps_total_functions t) →
  (∀ s', scanned s0 l rl dl locs n s' → Q () s') → wp (upd_pstats f) Q s.
Proof.
  intros (ps & fl & Hs) Hf HQ. apply wp_modify, HQ. destruct (Hf (pm_stats (pm s))) as [Hf1 Hf2].
  eapply same_scanned; [exact Hs|done| |by split_and!]. destruct Hs as ([] & _). by split.
Qed.

Lemma scan_time s0 l rl dl locs n Q s :
  scanned s0 l rl dl locs n s → (∀ t s', scanned s0 l rl dl locs n s' → Q t s') → wp (framework get_system_time_ms) Q s.
Proof.
  intros (ps & fl & Hs) HQ. unfold wp, framework, get_system_time_ms. apply HQ.
  eapply same_scanned; [exact Hs|done| |by split_and!]. destruct Hs as ([I1 I2 I3 I4 I5 I6 I7 I8] & _). split; try done.
  eapply registry_same; [exact I5|]. unfold fset. split_and!; cbn; try done; apply core_eq_refl.
Qed.

Lemma scan_bus_spec s0 l rl dl locs n bus Q s :
  scanned s0 l rl dl locs n s → 0 ≤ bus < 256 →
  (∀ n' s', scanned s0 l rl dl (locs ++ bus_functions (hw s0) bus) n' s' → Q n' s') → wp (scan_bus bus n) Q s.
Proof.
  intros Hs Hbus HQ. apply wp_bind. eapply scan_stats; [exact Hs|done|]. intros s1 Hs1.
  eapply (scan_loop _ _ _ _ (slot_functions (hw s0) bus)); [|exact Hs1|done].
  intros d locs' n' s' Q' Hd Hs' HQ'. eapply scan_device_spec; [exact Hs'|lia|lia|done].
Qed.

Lemma enumerate_spec s l rl dl Q :
  pci_inv s l rl dl → (∀ n s', scanned s l rl dl (all_functions (hw s)) n s' → Q n s') → wp pci_enumerate_devices Q s.
Proof.
  intros Hinv HQ. apply wp_bind, wp_gets. rewrite (pi_init _ _ _ _ Hinv). cbn [negb].
  assert (scanned s l rl dl [] 0 s) as Hs.
  { exists [], []. split_and!; try done; by rewrite Z.add_0_r. }
  apply wp_bind, wp_bind. eapply scan_time; [exact Hs|]. intros t1 s1 Hs1. apply wp_ret.
  apply wp_bind. eapply (scan_loop _ _ _ _ (bus_functions (hw s))); [|exact Hs1|].
  { intros b locs' n' s' Q' Hb Hs' HQ'. eapply scan_bus_spec; [exact Hs'|lia|done]. }
  intros n2 s2 Hs2. apply wp_bind. eapply scan_time; [exact Hs2|]. intros t3 s3 Hs3.
  apply wp_bind. eapply scan_stats; [exact Hs3|done|]. intros s4 Hs4. by apply wp_ret, HQ.
Qed.

(** ** What the scan looks for *)

(** The functions that the bus reports: a vendor other than 0 and 0xFFFF, and for
    functions 1 to 7 a function 0 that is there and has the multifunction bit. *)
Definition present (h : H) (loc : pci_location) : Prop :=
  let loc0 := mk_loc (l_bus loc) (l_device loc) 0 in
  loc_ok loc ∧ absent (vendor h loc) = false ∧
  (l_function loc = 0 ∨ absent (vendor h loc0) = false ∧
     has_bits (field h loc0 PCI_CONFIG_HEADER_TYPE 1) PCI_HEADER_TYPE_MULTIFUNCTION = true).

Lemma elem_of_here h loc loc' : loc ∈ here h loc' ↔ loc = loc' ∧ absent (vendor h loc') = false.
Proof. unfold here. destruct (absent _); set_solver. Qed.

Lemma elem_of_slot h bus dev loc : 
  loc ∈ slot_functions h bus dev ↔ l_bus loc = bus ∧ l_device loc = dev ∧ 0 ≤ l_function loc < 8 ∧
    absent (vendor h loc) = false ∧ (l_function loc = 0 ∨ absent (vendor h (mk_loc bus dev 0)) = false ∧
      has_bits (field h (mk_loc bus dev 0) PCI_CONFIG_HEADER_TYPE 1) PCI_HEADER_TYPE_MULTIFUNCTION = true).
Proof.
  destruct loc as [b d f]. cbn [l_bus l_device l_function]. unfold slot_functions. cbv zeta.
  destruct (absent (vendor h (mk_loc bus dev 0))) eqn:Ea.
  { split; [set_solver|]. intros (-> & -> & ? & Hv & [->|[? _]]); congruence. }
  rewrite elem_of_cons. destruct (has_bits _ _) eqn:Em.
  - rewrite list_elem_of_bind. setoid_rewrite elem_of_here. setoid_rewrite elem_of_seqZ. split.
    + intros [[= -> -> ->]|(f' & [[= -> -> ->] Hv] & Hf)]; split_and!; try done; try lia; auto.
    + intros (-> & -> & Hf & Hv & _). destruct (decide (f = 0)) as [->|]; [by left|right]. exists f. split; [done|lia].
  - split.
    + intros [[= -> -> ->]|[]%elem_of_nil]. split_and!; try done; auto.
    + intros (-> & -> & _ & _ & [->|[_ ?]]); [by left|congruence].
Qed.

Lemma elem_of_all_functions h loc : loc ∈ all_functions h ↔ present h loc.
Proof.
  unfold all_functions, bus_functions, present, loc_ok. cbv zeta. setoid_rewrite list_elem_of_bind. setoid_rewrite list_elem_of_bind.
  setoid_rewrite elem_of_slot. setoid_rewrite elem_of_seqZ. split.
  - intros (b & (d & (<- & <- & Hf & Hv & Hc) & Hd) & Hb). split_and!; try done; lia.
  - intros ((Hb & Hd & Hf) & Hv & Hc). exists (l_bus loc). split; [|lia]. exists (l_device loc). split; [|lia]. split_and!; try done; lia.
Qed.

Lemma NoDup_slot h bus dev : NoDup (slot_functions h bus dev).
Proof.
  unfold slot_functions. cbv zeta. destruct (absent _); [constructor|]. destruct (has_bits _ _); [|apply NoDup_singleton].
  constructor.
  - rewrite list_elem_of_bind. setoid_rewrite elem_of_here. setoid_rewrite elem_of_seqZ.
    intros (f & [[= <-] _] & Hf). lia.
  - apply NoDup_bind; [| |apply NoDup_seqZ].
    + intros f1 f2 loc _ _ [-> _]%elem_of_here [[= ->] _]%elem_of_here. done.
    + intros f _. unfold here. destruct (absent _); [constructor|apply NoDup_singleton].
Qed.

Lemma NoDup_all_functions h : NoDup (all_functions h).
Proof.
  unfold all_functions, bus_functions. apply NoDup_bind; [| |apply NoDup_seqZ].
  - intros b1 b2 loc _ _ (? & Hx1%elem_of_slot & _)%list_elem_of_bind (? & Hx2%elem_of_slot & _)%list_elem_of_bind.
    destruct Hx1, Hx2. congruence.
  - intros b _. apply NoDup_bind; [|intros; apply NoDup_slot|apply NoDup_seqZ].
    intros d1 d2 loc _ _ Hx1%elem_of_slot Hx2%elem_of_slot. naive_solver.
Qed.

Lemma bind_length {X Y} (g : X → list Y) k l : (∀ x, (length (g x) ≤ k)%nat) → (length (l ≫= g) ≤ length l * k)%nat.
Proof. intros Hg. induction l as [|x l IH]; [done|]. rewrite bind_cons, length_app. cbn [length]. specialize (Hg x). lia. Qed.

Lemma all_functions_length h : Z.of_nat (length (all_functions h)) ≤ 65536.
Proof.
  pose proof (bind_length (bus_functions h) 256 (seqZ 0 256)) as Hb. rewrite length_seqZ in Hb.
  replace 65536 with (Z.of_nat (Z.to_nat 256 * 256)) by done. apply inj_le, Hb. intros bus.
  pose proof (bind_length (slot_functions h bus) 8 (seqZ 0 32)) as Hd. rewrite length_seqZ in Hd.
  replace 256%nat with (Z.to_nat 32 * 8)%nat by done. apply Hd. intros dev. unfold slot_functions. cbv zeta.
  destruct (absent _); [cbn; lia|]. destruct (has_bits _ _); [|cbn; lia].
  pose proof (bind_length (λ f, here h (mk_loc bus dev f)) 1 (seqZ 1 7)) as Hf. rewrite length_seqZ in Hf.
  cbn [length]. change (Z.to_nat 7 * 1)%nat with 7%nat in Hf. apply le_n_S, Hf.
  intros f. unfold here. destruct (absent _); cbn; lia.
Qed.

(** C4: enumeration.  From a consistent driver and framework, [pci_enumerate_devices]
    terminates without a fault, whatever the hardware answers; it adds distinct devices for
    functions that are present, each with the header of its function, registered in the
    framework, and for exactly the present functions when as many allocations of a device
    block as there are present functions succeed; it returns the number of devices it added, keeps all devices there were, and writes no register but BARs. *)
Theorem pci_enumerate_correct s l rl dl :
  pci_inv s l rl dl →
  ∃ s' ps fl, pci_enumerate_devices s = Ok (Z.of_nat (length ps), s') ∧
    pci_inv s' (ps ++ l) (ps ++ rl) dl ∧ Forall2 (device_of s' (hw s)) ps fl ∧
    NoDup fl ∧ (∀ loc, loc ∈ fl → present (hw s) loc) ∧ 
    (supplies (replicate (length (all_functions (hw s))) SIZEOF_PCI_DEVICE) (dalloc (dst s)) →
       ∀ loc, present (hw s) loc → loc ∈ fl) ∧
    pdevs s ⊆ pdevs s' ∧ devs (dst s) ⊆ devs (dst s') ∧ bars_only (hw s) (hw s').
Proof.
  intros Hinv. destruct (proj1 (wp_run pci_enumerate_devices (scanned s l rl dl (all_functions (hw s))) s))
    as (n & s' & Hr & ps & fl & I1 & I2 & I3 & I4 & -> & I6 & I7 & _ & _ & I8); [by eapply enumerate_spec; [exact Hinv|]|].
  assert (Z.of_nat (length ps) ≤ 65536) as Hlen.
  { rewrite (Forall2_length _ _ _ I2), length_reverse. etrans; [by apply inj_le, sublist_length|apply all_functions_length]. }
  rewrite u32_small in Hr by lia. exists s', ps, (reverse fl). split_and!; try done.
  - rewrite reverse_Permutation. exact (sublist_NoDup _ _ (NoDup_all_functions (hw s)) I3).
  - intros loc Hloc. rewrite elem_of_reverse in Hloc. apply elem_of_all_functions. exact (elem_of_sublist _ _ _ Hloc I3).
  - intros Hp loc Hloc. destruct (I4 0%nat) as [-> _]; [by rewrite Nat.add_0_r|]. rewrite elem_of_reverse. by apply elem_of_all_functions.
Qed.

(** ** After the driver is shut down *)

(** Freeing the blocks [l], in list order. *)
Lemma free_devices_spec l fuel a L Q s :
  linked pd_next (pdevs s) a l → NoDup l → (length l < fuel)%nat → ka_inv L (dalloc (dst s)) → list_to_set l ⊆ L →
  (∀ s', pm s' = pm s → hw s' = hw s → mgr (dst s') = mgr (dst s) →
     (∀ p, pdevs s' !! p = if decide (p ∈ l) then None else pdevs s !! p) →
     (∀ p, devs (dst s') !! p = if decide (p ∈ l) then None else devs (dst s) !! p) →
     ka_inv (L ∖ list_to_set l) (dalloc (dst s')) → Q () s') →
  wp (free_devices fuel a) Q s.
Proof.
  revert fuel a L s. induction l as [|p l IH]; intros [|fuel] a L s Hl Hnd Hf Ha HL HQ; try (cbn in Hf; lia); cbn [free_devices].
  { cbn in Hl. rewrite Hl. apply wp_ret, HQ; [done..|]. cbn. by rewrite difference_empty_L. }
  destruct Hl as (-> & Hp0 & x & Hx & Hl). apply NoDup_cons in Hnd as [Hp Hnd]. rewrite (proj2 (Z.eqb_neq p 0)) by done.
  apply wp_bind, (wp_ld_pci _ x); [done|]. apply wp_bind. unfold free_pci. apply wp_bind.
  pose proof (ka_free_spec L _ p Ha ltac:(set_solver)) as Hfree. apply wp_run in Hfree as ([] & a' & Hr & Ha').
  unfold wp at 1, framework, lift_dalloc. rewrite Hr. apply wp_modify.
  apply (IH fuel _ (L ∖ {[p]})); unfold fset; cbn; [|done|cbn in Hf; lia|done|set_solver|].
  - by apply lseg_delete_other.
  - intros s' E1 E2 E3 E4 E5 E6. apply HQ; [done..| | |].
    + intros q. rewrite E4. destruct (decide (q = p)) as [->|Hq].
      * rewrite lookup_delete_eq. rewrite (decide_True (P := p ∈ p :: l)) by set_solver. by destruct (decide _).
      * rewrite lookup_delete_ne by done. apply decide_ext. set_solver.
    + intros q. rewrite E5. destruct (decide (q = p)) as [->|Hq].
      * rewrite lookup_delete_eq. rewrite (decide_True (P := p ∈ p :: l)) by set_solver. by destruct (decide _).
      * rewrite lookup_delete_ne by done. apply decide_ext. set_solver.
    + cbn. by replace (L ∖ ({[p]} ∪ list_to_set l)) with (L ∖ {[p]} ∖ list_to_set l) by set_solver.
Qed.

Lemma shutdown_spec s l rl dl Q :
  pci_inv s l rl dl →
  (∀ s', pm_initialized (pm s') = false → hw s' = hw s → mgr (dst s') = mgr (dst s) → pdevs s' = ∅ →
     (∀ p, devs (dst s') !! p = if decide (p ∈ l) then None else devs (dst s) !! p) → Q () s') →
  wp pci_shutdown Q s.
Proof.
  intros [I1 I2 I3 I4 I5 I6 (L & Ha & HL & _) I8] HQ. unfold pci_shutdown. apply wp_bind, wp_get. rewrite I1. cbn [negb].
  assert (length l < pci_fuel s)%nat as Hf.
  { unfold pci_fuel. rewrite <- size_dom, I4, size_list_to_set by done. lia. }
  apply wp_bind, (free_devices_spec l _ _ L); [done|done|done|done|by rewrite <- I4|].
  intros s' E1 E2 E3 E4 E5 _. apply wp_modify, HQ; unfold fset; cbn; try done.
  apply map_eq. intros p. rewrite E4, lookup_empty. destruct (decide (p ∈ l)) as [|Hp]; [done|].
  apply not_elem_of_dom. rewrite I4. set_solver.
Qed.

(** Shutdown leaves dangling devices.  [pci_shutdown] frees every PCI device and never
    unregisters one: the framework still lists them, so when a PCI device is its newest
    device (as after an enumeration) every later lookup by id reads freed memory. *)
Theorem pci_shutdown_dangling s l rl dl :
  pci_inv s l rl dl →
  ∃ s', pci_shutdown s = Ok ((), s') ∧ pm_initialized (pm s') = false ∧ pdevs s' = ∅ ∧
    (∀ p, p ∈ l → devs (dst s') !! p = None) ∧
    (∀ p, (p ∉ l) → devs (dst s') !! p = devs (dst s) !! p) ∧
    dm_device_list (mgr (dst s')) = dm_device_list (mgr (dst s)) ∧
    (∀ p rl', rl = p :: rl' → p ∈ l → ∀ id, device_find_by_id id (dst s') = Fault).
Proof.
  intros Hinv. destruct (proj1 (wp_run pci_shutdown (λ _ s', pm_initialized (pm s') = false ∧ mgr (dst s') = mgr (dst s) ∧
    pdevs s' = ∅ ∧ ∀ p, devs (dst s') !! p = if decide (p ∈ l) then None else devs (dst s) !! p) s))
    as ([] & s' & Hr & E1 & E2 & E3 & E4).
  { eapply shutdown_spec; [exact Hinv|]. intros s' E1 E2 E3 E4 E5. by split_and!. }
  exists s'. split_and!; try done.
  - intros p Hp. by rewrite E4, decide_True.
  - intros p Hp. by rewrite E4, decide_False.
  - by rewrite E2.
  - intros p rl' -> Hp id. unfold device_find_by_id, bind, get. rewrite E2, (pi_mgr _ _ _ _ Hinv). cbn [negb].
    destruct (rg_list _ _ _ (pi_reg _ _ _ _ Hinv)) as (-> & Hp0 & _). unfold dev_fuel. cbn [find_device].
    rewrite (proj2 (Z.eqb_neq p 0)) by done. unfold bind, ld_dev. by rewrite E4, decide_True.
Qed.

(** A machine with one function. *)
Lemma enumerate_single s dl loc :
  spare 1 (dalloc (dst s)) → pci_inv s [] [] dl → all_functions (hw s) = [loc] →
  ∃ s' p, pci_enumerate_devices s = Ok (1, s') ∧ pci_inv s' [p] [p] dl.
Proof.
  intros Hp Hinv Hall. destruct (proj1 (wp_run pci_enumerate_devices (scanned s [] [] dl (all_functions (hw s))) s))
    as (n & s' & Hr & ps & fl & I1 & I2 & _ & I4 & -> & _); [by eapply enumerate_spec; [exact Hinv|]|].
  rewrite Hall in I4. destruct (I4 0%nat Hp) as [-> _]. apply Forall2_cons_inv_r in I2 as (p & ps' & _ & I2%Forall2_nil_inv_r & ->). subst ps'.
  by exists s', p.
Qed.

End probe.
