(* ===== verification/PciSample.v ===== *)
(** * A small machine for the PCI theorems

    One network card on bus 0 behind configuration mechanism 1, an allocator that only
    grows and drivers that do nothing: the theorems of Pci.v, PciBars.v and PciScan.v
    at concrete states. *)
From S2P Require Import Prelude.
From S2P Require Import Heap.
From S2P Require Import SchedState.
From S2P Require Import Device.
From S2P Require Import Pci.
From S2P Require Import PciBars.
From S2P Require Import PciScan.
Local Open Scope Z_scope.

Module PciSample.
Import Device.Sample.

(** ** The allocator: the next address *)
Definition bump_malloc (n : Z) : prog Z Z := λ a, Ok (a, a + n).
Definition bump_free (p : Z) : prog Z () := λ a, Ok ((), a).
Definition bump_inv (L : gset Z) (a : Z) : Prop := 0 < a ∧ ∀ p, p ∈ L → p < a.

Lemma bump_malloc_spec L a n : bump_inv L a → 0 < n →
  wp (bump_malloc n) (λ p a', p ≠ 0 ∧ (p ∉ L) ∧ bump_inv ({[p]} ∪ L) a') a.
Proof.
  intros [Ha HL] Hn. unfold wp, bump_malloc, bump_inv. split_and!; [lia| |lia|].
  - intros Hin. specialize (HL a Hin). lia.
  - intros p [->%elem_of_singleton|Hp]%elem_of_union; [lia|]. specialize (HL p Hp). lia.
Qed.

#[export] Instance bump : KAlloc Z.
Proof.
  refine {| ka_malloc := bump_malloc; ka_free := bump_free; ka_inv := bump_inv |}.
  - intros L a n Ha [Hn _]. eapply wp_mono; [by apply bump_malloc_spec|]. auto.
  - intros L a p [Ha HL] _. split; [done|]. set_solver.
Defined.

#[export] Instance idle : DriverEnv Z :=
  {| call_dev _ _ := ret 0; call_req _ _ _ := ret 0; call_ioctl _ _ _ _ := ret 0; call_irq _ _ _ := ret ();
     call_done _ _ := ret (); call_each _ _ _ := ret (); time_at n := n |}.
#[export] Instance idle_polite : Polite Z.
Proof.
  split; try (intros; apply wp_ret, calm_refl);
    intros ?*; cbv [call_dev call_req call_ioctl call_irq call_done call_each idle ret]; intros [= _ <-]; apply calm_refl.
Qed.

(** ** The machine *)
Record machine := mk_machine { m_latch : Z; m_regs : gmap Z Z }.

Definition net : pci_location := mk_loc 0 3 0.
Definition net_layout : list region := [Mem32 17 0xFEB80000 false; IoRegion 6 0xC000; NoRegion; NoRegion; NoRegion; NoRegion].

(** Only the address bits of the two BARs of the card can be written, the other BARs are 0. *)
Definition m_settle (a old v : Z) : Z :=
  if decide (a = bar_addr net 0) then u32 (v - v mod 2 ^ 17)
  else if decide (a = bar_addr net 1) then u32 (v - v mod 2 ^ 6 + 1)
  else if decide (a ∈ [bar_addr net 2; bar_addr net 3; bar_addr net 4; bar_addr net 5]) then 0
  else old.
Definition m_reg (h : machine) (a : Z) : Z := u32 (default 0xFFFFFFFF (m_regs h !! a)).

Definition m_outl (port v : Z) (h : machine) : machine :=
  if port =? PCI_CONFIG_ADDRESS then mk_machine v (m_regs h)
  else if port =? PCI_CONFIG_DATA
  then mk_machine (m_latch h) (<[m_latch h := m_settle (m_latch h) (m_reg h (m_latch h)) v]> (m_regs h))
  else h.
Definition m_lane (n port : Z) (h : machine) : Z * machine :=
  (Z.shiftr (m_reg h (m_latch h)) (8 * (port - PCI_CONFIG_DATA)) mod 2 ^ (8 * n), h).

#[export] Instance ports : Ports machine :=
  {| outl := m_outl; outw _ _ h := h; outb _ _ h := h; inl := m_lane 4; inw := m_lane 2; inb := m_lane 1 |}.

Lemma m_reg_range h a : 0 ≤ m_reg h a < 2 ^ 32.
Proof. apply u32_range. Qed.
Lemma m_settle_range a old v : 0 ≤ old < 2 ^ 32 → 0 ≤ m_settle a old v < 2 ^ 32.
Proof. intros Ho. unfold m_settle. repeat case_decide; [apply u32_range..|lia|done]. Qed.

#[export] Instance mechanism : ConfigMechanism machine.
Proof.
  refine {| latch := m_latch; reg := m_reg; settle := m_settle |}; try done.
  - apply m_reg_range.
  - intros h. cbn -[m_reg]. split; [|done]. rewrite Z.shiftr_0_r, Z.mod_small; [done|apply m_reg_range].
  - intros k h Hk. cbn -[m_reg Z.sub]. split; [|done]. by destruct Hk as [-> | ->].
  - intros k h Hk. cbn -[m_reg Z.sub]. split; [|done]. unfold u8. do 3 f_equal. lia.
  - intros v h b. cbn -[m_reg m_settle]. unfold m_reg at 1. cbn [m_regs]. destruct (decide (b = m_latch h)) as [->|Hne].
    + rewrite lookup_insert_eq. cbn [default]. apply u32_small, m_settle_range, m_reg_range.
    + by rewrite lookup_insert_ne by done.
Defined.
Definition net_addr (off : Z) : Z := pci_make_address 0 3 0 off.

(** An Intel 82540EM: 8086:100E, class 2, interrupt line 11. *)
Definition card : machine := mk_machine 0
  (list_to_map [(net_addr 0x00, 0x100E8086); (net_addr 0x04, 0x02300003); (net_addr 0x08, 0x02000003);
                (net_addr 0x0C, 0); (net_addr 0x10, 0xFEB80000); (net_addr 0x14, 0xC001); (net_addr 0x18, 0);
                (net_addr 0x1C, 0); (net_addr 0x20, 0); (net_addr 0x24, 0); (net_addr 0x28, 0);
                (net_addr 0x2C, 0x11001AF4); (net_addr 0x30, 0); (net_addr 0x34, 0); (net_addr 0x3C, 0x0000010B)]).

(** The driver initialized over an initialized, empty framework. *)
Definition idle_framework : dstate Z := mk_dstate (zero_manager <| dm_initialized := true |>) ∅ ∅ ∅ 0 0x1000.
Definition ready : pstate Z machine := mk_pstate (zero_pm <| pm_initialized := true |>) ∅ idle_framework card.

(** Initializing a cold framework only sets the flag. *)
Lemma registry_start (ds : dstate Z) : cold ds → registry (ds <| mgr := (mgr ds) <| dm_initialized := true |> |>) [] [].
Proof. intros Hc. destruct (cold_registry ds Hc) as [[] _]. by split. Qed.

Lemma ready_inv : pci_inv ready [] [] [].
Proof.
  split; [done|done|apply NoDup_nil_2|apply dom_empty_L| |done| |done].
  - apply (registry_start (mk_dstate zero_manager ∅ ∅ ∅ 0 0x1000)).
    split_and!; [done|split|]; cbn; intros ? ?; by rewrite lookup_empty.
  - exists ∅. cbn. split_and!; [|set_solver|set_solver]. split; [done|set_solver].
Qed.

(** ** The theorems at these states *)
Lemma config_read_witness :
  ∃ s', pci_config_read net 0x0A 2 ready = Ok (0x0200, s') ∧ quiet (λ _, True) ready s' ∧
    ps_config_reads (pm_stats (pm s')) = 1.
Proof.
  destruct (proj1 (pci_config_read_correct ready net 0x0A 2 ltac:(done)) ltac:(done) ltac:(right; by left)) as (s' & Hr & Hq & Hc).
  exists s'. split_and!; [exact Hr|exact Hq|exact Hc].
Defined.

(** The card's block between [pci_init_device_info] and [pci_probe_bars]. *)
Definition probing : pstate Z machine := ready <| pdevs := {[0x1000 := blank_pci net]} |>.

Lemma card_layout : layout_at card net 0 net_layout.
Proof.
  assert (∀ i, (2 ≤ i < 6)%nat → implements card net i NoRegion) as Hno.
  { intros i Hi. split_and!; [done| |].
    - intros [|j] v [= <-]. assert (i = 2 ∨ i = 3 ∨ i = 4 ∨ i = 5)%nat as [->|[->|[->| ->]]] by lia; by vm_compute.
    - intros old v Hv. cbn [low_bits flags]. rewrite Z.mod_small by done. rewrite Z.sub_diag.
      assert (i = 2 ∨ i = 3 ∨ i = 4 ∨ i = 5)%nat as [->|[->|[->| ->]]] by lia; by vm_compute. }
  split; [|split]; [split; [|split]..|]; try done.
  - intros [|j] v [= <-]. by vm_compute.
  - intros old v Hv. unfold settle, mechanism, m_settle. rewrite decide_True by done. cbn [low_bits flags].
    rewrite Z.add_0_r. apply u32_small. Z.to_euclidean_division_equations. lia.
  - intros [|j] v [= <-]. by vm_compute.
  - intros old v Hv. unfold settle, mechanism, m_settle. rewrite decide_False, decide_True by done. cbn [low_bits flags].
    apply u32_small. Z.to_euclidean_division_equations. lia.
  - cbn [layout_at slots Nat.add]. split_and!; try done; apply Hno; lia.
Qed.

Lemma probe_bars_witness :
  ∃ s', pci_probe_bars 0x1000 probing = Ok ((), s') ∧
    probed (λ _, True) 0x1000 (recorded (blank_pci net) net_layout) probing s' ∧
    bar_address (recorded (blank_pci net) net_layout) 1 = 0xC000.
Proof.
  destruct (pci_probe_bars_correct probing 0x1000 (blank_pci net) net_layout) as (s' & Hr & Hp & Ha);
    [done|done|done|exact card_layout|].
  exists s'. split_and!; [done|done|]. exact (Ha [Mem32 17 0xFEB80000 false] (IoRegion 6 0xC000) (replicate 4 NoRegion) eq_refl).
Defined.

Lemma card_functions : all_functions (hw ready) = [net].
Proof. by vm_compute. Qed.
Lemma card_present : present (hw ready) net.
Proof. apply elem_of_all_functions. rewrite card_functions. by left. Qed.

Lemma enumerate_witness :
  ∃ n s' p, pci_enumerate_devices ready = Ok (n, s') ∧ 0 < n ∧ device_of s' (hw ready) p net.
Proof.
  destruct (pci_enumerate_correct ready [] [] [] ready_inv) as (s' & ps & fl & Hr & _ & Hps & _ & _ & Hin & _).
  specialize (Hin ltac:(rewrite card_functions; vm_compute; exact I) net card_present). apply list_elem_of_lookup in Hin as [i Hi].
  destruct (Forall2_lookup_r _ _ _ _ _ Hps Hi) as (p & Hp & Hd). exists (Z.of_nat (length ps)), s', p.
  split_and!; [done| |done]. apply lookup_lt_Some in Hp. lia.
Defined.

(** The state after the enumeration. *)
Lemma enumerated : ∃ s p, pci_enumerate_devices ready = Ok (1, s) ∧ pci_inv s [p] [p] [].
Proof. exact (enumerate_single ready [] net ltac:(vm_compute; exact I) ready_inv card_functions). Qed.

Lemma shutdown_witness :
  ∃ s s', pci_enumerate_devices ready = Ok (1, s) ∧ pci_shutdown s = Ok ((), s') ∧ device_find_by_id 1 (dst s') = Fault.
Proof.
  destruct enumerated as (s & p & Hr & Hinv).
  destruct (pci_shutdown_dangling s [p] [p] [] Hinv) as (s' & Hs & _ & _ & _ & _ & _ & Hf).
  exists s, s'. split_and!; [done|done|]. by apply (Hf p []); [|left].
Defined.

End PciSample.
