(* ===== verification/Hal.v ===== *)
(** * Hardware abstraction layer (hal/hal.c, hal/x86_64_hal.c)

    The status, the system information that detection fills in, the statistics and the
    simulated clock, which advances by one millisecond at every reading.  The dump
    functions only print and have no definition here. *)
From S2P Require Import Prelude.
Local Open Scope Z_scope.

(** ** Data of hal.h *)
Inductive hal_platform :=
  | HAL_PLATFORM_UNKNOWN | HAL_PLATFORM_X86_64 | HAL_PLATFORM_X86_32 | HAL_PLATFORM_ARM64
  | HAL_PLATFORM_ARM32 | HAL_PLATFORM_RISCV64 | HAL_PLATFORM_RISCV32.
#[export] Instance hal_platform_eq_dec : EqDecision hal_platform.
Proof. solve_decision. Defined.

Definition HAL_FEATURE_MMU : Z := Z.shiftl 1 0.
Definition HAL_FEATURE_FPU : Z := Z.shiftl 1 1.
Definition HAL_FEATURE_SIMD : Z := Z.shiftl 1 2.
Definition HAL_FEATURE_MULTICORE : Z := Z.shiftl 1 3.
Definition HAL_FEATURE_VIRTUALIZATION : Z := Z.shiftl 1 4.
Definition HAL_FEATURE_ATOMIC : Z := Z.shiftl 1 5.
Definition HAL_FEATURE_CACHE : Z := Z.shiftl 1 6.
Definition HAL_FEATURE_DMA : Z := Z.shiftl 1 7.
Definition HAL_FEATURE_IOMMU : Z := Z.shiftl 1 8.
Definition HAL_FEATURE_SECURE_BOOT : Z := Z.shiftl 1 9.

Inductive hal_status :=
  | HAL_STATUS_UNINITIALIZED | HAL_STATUS_INITIALIZING | HAL_STATUS_READY | HAL_STATUS_ERROR
  | HAL_STATUS_DEGRADED | HAL_STATUS_SHUTDOWN.
#[export] Instance hal_status_eq_dec : EqDecision hal_status.
Proof. solve_decision. Defined.

Record hal_cpu_info := mk_cpu_info {
  cpu_vendor_id : list Z; cpu_brand_string : list Z; cpu_family : Z; cpu_model : Z; cpu_stepping : Z;
  cpu_cache_line_size : Z; cpu_l1_cache_size : Z; cpu_l2_cache_size : Z; cpu_l3_cache_size : Z;
  cpu_core_count : Z; cpu_thread_count : Z; cpu_frequency_mhz : Z; cpu_features : Z
}.
Record hal_map_entry := mk_entry { e_base : Z; e_length : Z; e_type : Z; e_attributes : Z }.
Record hal_memory_info := mk_memory_info {
  hm_total_physical : Z; hm_available_physical : Z; hm_total_virtual : Z; hm_kernel_reserved : Z;
  hm_page_size : Z; hm_large_page_size : Z; hm_memory_type_count : Z; hm_memory_map : list hal_map_entry
}.
Record hal_timer_info := mk_timer_info {
  ti_frequency_hz : Z; ti_resolution_ns : Z; ti_capabilities : Z; ti_high_precision : bool; ti_monotonic : bool;
  ti_real_time : bool
}.
Record hal_interrupt_info := mk_interrupt_info {
  ii_max_vectors : Z; ii_active_vectors : Z; ii_controller_type : Z; ii_msi_support : bool;
  ii_msix_support : bool; ii_level_triggered : bool; ii_edge_triggered : bool
}.
Record hal_system_info := mk_system_info {
  si_platform : hal_platform; si_features : Z; si_cpu : hal_cpu_info; si_memory : hal_memory_info;
  si_timer : hal_timer_info; si_interrupt : hal_interrupt_info; si_uptime_ms : Z; si_boot_time : Z
}.
#[export] Instance eta_system_info : Eta hal_system_info := λ r,
  {| si_platform := si_platform r; si_features := si_features r; si_cpu := si_cpu r; si_memory := si_memory r;
     si_timer := si_timer r; si_interrupt := si_interrupt r; si_uptime_ms := si_uptime_ms r;
     si_boot_time := si_boot_time r |}.
Record hal_performance_counters := mk_perf {
  hp_cpu_cycles : Z; hp_instructions : Z; hp_cache_hits : Z; hp_cache_misses : Z; hp_tlb_hits : Z; hp_tlb_misses : Z;
  hp_context_switches : Z; hp_page_faults : Z; hp_interrupts : Z; hp_system_calls : Z
}.
Record hal_statistics := mk_hal_stats {
  hs_initialization_time_us : Z; hs_api_calls_total : Z; hs_api_calls_per_second : Z; hs_memory_allocations : Z;
  hs_io_operations : Z; hs_dma_transfers : Z; hs_cache_operations : Z; hs_atomic_operations : Z;
  hs_error_count : Z; hs_warning_count : Z
}.
#[export] Instance eta_hal_stats : Eta hal_statistics := λ r,
  {| hs_initialization_time_us := hs_initialization_time_us r; hs_api_calls_total := hs_api_calls_total r;
     hs_api_calls_per_second := hs_api_calls_per_second r; hs_memory_allocations := hs_memory_allocations r;
     hs_io_operations := hs_io_operations r; hs_dma_transfers := hs_dma_transfers r;
     hs_cache_operations := hs_cache_operations r; hs_atomic_operations := hs_atomic_operations r;
     hs_error_count := hs_error_count r; hs_warning_count := hs_warning_count r |}.

Definition zero_perf : hal_performance_counters := mk_perf 0 0 0 0 0 0 0 0 0 0.
Definition zero_hal_stats : hal_statistics := mk_hal_stats 0 0 0 0 0 0 0 0 0 0.
Definition zero_entry : hal_map_entry := mk_entry 0 0 0 0.
Definition zero_timer_info : hal_timer_info := mk_timer_info 0 0 0 false false false.
Definition zero_interrupt_info : hal_interrupt_info := mk_interrupt_info 0 0 0 false false false false.
Definition zero_system_info : hal_system_info :=
  mk_system_info HAL_PLATFORM_UNKNOWN 0
    (mk_cpu_info (replicate 16 0) (replicate 64 0) 0 0 0 0 0 0 0 0 0 0 0)
    (mk_memory_info 0 0 0 0 0 0 0 (replicate 64 zero_entry)) zero_timer_info zero_interrupt_info 0 0.

(** The globals and statics of hal.c; [simulated_time] is the static of [hal_get_timestamp_us]. *)
Record hal := mk_hal {
  h_status : hal_status; h_system_info : hal_system_info; h_statistics : hal_statistics;
  h_performance : hal_performance_counters; h_init_start_time : Z; h_uptime_start : Z;
  detected_platform : hal_platform; supported_features : Z; simulated_time : Z
}.
#[export] Instance eta_hal : Eta hal := λ r,
  {| h_status := h_status r; h_system_info := h_system_info r; h_statistics := h_statistics r;
     h_performance := h_performance r; h_init_start_time := h_init_start_time r; h_uptime_start := h_uptime_start r;
     detected_platform := detected_platform r; supported_features := supported_features r;
     simulated_time := simulated_time r |}.
Definition hal_boot : hal :=
  mk_hal HAL_STATUS_UNINITIALIZED zero_system_info zero_hal_stats zero_perf 0 0 HAL_PLATFORM_UNKNOWN 0 0.

(** [strncpy] of a string constant into a character array. *)
Definition copy_chars (src : string) (n : nat) (dest : list Z) : list Z :=
  let l := map (λ a, Z.of_N (Ascii.N_of_ascii a)) (String.list_ascii_of_string src) in
  take n (l ++ replicate n 0) ++ drop n dest.

(** ** Operations *)
#[local] Abbreviation M := (prog hal).
Definition upd_info (f : hal_system_info → hal_system_info) : M () := modify (λ s, s <| h_system_info := f (h_system_info s) |>).
Definition upd_hal_stats (f : hal_statistics → hal_statistics) : M () := modify (λ s, s <| h_statistics := f (h_statistics s) |>).
Definition count_call : M () :=
  upd_hal_stats (λ t, t <| hs_api_calls_total := u64 (hs_api_calls_total t + 1) |>).

Definition hal_get_timestamp_us : M Z := λ s,
  let t := u64 (simulated_time s + 1000) in Ok (t, s <| simulated_time := t |>).
Definition hal_update_uptime : M () :=
  current_time <- hal_get_timestamp_us ;;
  start <- gets h_uptime_start ;;
  upd_info (λ i, i <| si_uptime_ms := u64 (current_time - start) / 1000 |>).

Definition hal_platform_init : M Z := ret 0.
Definition hal_platform_shutdown : M () := ret ().
(** [None] for a NULL pointer; the platform stored otherwise. *)
Definition hal_platform_detect (platform : option hal_platform) : M (Z * option hal_platform) :=
  match platform with None => ret (-1, None) | Some _ => ret (0, Some HAL_PLATFORM_X86_64) end.

Definition cpu_info (old : hal_cpu_info) : hal_cpu_info :=
  mk_cpu_info (copy_chars "GenuineIntel" 15 (cpu_vendor_id old))
    (copy_chars "Intel(R) x86_64 Processor" 63 (cpu_brand_string old)) 6 142 12 64 32 256 8192 4 8 2400 0x12345678.
Definition memory_info (old : hal_memory_info) : hal_memory_info :=
  mk_memory_info (8 * 1024 * 1024 * 1024) (6 * 1024 * 1024 * 1024) (256 * 1024 * 1024 * 1024) (512 * 1024 * 1024) 4096
    (2 * 1024 * 1024) 3
    (<[2%nat := mk_entry 0xFFE00000 0x200000 2 0]>
      (<[1%nat := mk_entry 0x100000 0x1FF000000 1 0]>
        (<[0%nat := mk_entry 0 0xA0000 1 0]> (hm_memory_map old)))).

Definition hal_detect_platform : M Z := modify (λ s, s <| detected_platform := HAL_PLATFORM_X86_64 |>) ;;; ret 0.
Definition hal_detect_cpu_info : M Z := upd_info (λ i, i <| si_cpu := cpu_info (si_cpu i) |>) ;;; ret 0.
Definition hal_detect_memory_info : M Z := upd_info (λ i, i <| si_memory := memory_info (si_memory i) |>) ;;; ret 0.
Definition hal_detect_timer_info : M Z :=
  upd_info (λ i, i <| si_timer := mk_timer_info 1000000000 1 0x0F true true true |>) ;;; ret 0.
Definition hal_detect_interrupt_info : M Z :=
  upd_info (λ i, i <| si_interrupt := mk_interrupt_info 256 32 1 true true true true |>) ;;; ret 0.

Definition x86_features : Z :=
  Z.lor (Z.lor (Z.lor (Z.lor (Z.lor (Z.lor (Z.lor 0 HAL_FEATURE_MMU) HAL_FEATURE_FPU) HAL_FEATURE_CACHE)
    HAL_FEATURE_ATOMIC) HAL_FEATURE_DMA) HAL_FEATURE_SIMD) HAL_FEATURE_MULTICORE.

Definition hal_detect_hardware : M Z :=
  upd_info (λ i, i <| si_cpu := cpu_info (si_cpu i) |>) ;;;
  upd_info (λ i, i <| si_memory := memory_info (si_memory i) |>) ;;;
  modify (λ s, s <| supported_features := if decide (detected_platform s = HAL_PLATFORM_X86_64) then x86_features else 0 |>) ;;;
  s <- get ;;
  upd_info (λ i, i <| si_platform := detected_platform s |> <| si_features := supported_features s |>
                   <| si_boot_time := 0 |> <| si_uptime_ms := 5000 |>) ;;;
  ret 0.

Definition hal_initialize : M Z :=
  modify (λ s, s <| h_init_start_time := 0 |>) ;;;
  modify (λ s, s <| h_uptime_start := h_init_start_time s |>) ;;;
  modify (λ s, s <| h_status := HAL_STATUS_INITIALIZING |>) ;;;
  modify (λ s, s <| h_statistics := zero_hal_stats |> <| h_performance := zero_perf |>) ;;;
  modify (λ s, s <| detected_platform := HAL_PLATFORM_X86_64 |>) ;;;
  result <- hal_platform_init ;;
  if negb (result =? 0) then modify (λ s, s <| h_status := HAL_STATUS_ERROR |>) ;;; ret result
  else
    result <- hal_detect_hardware ;;
    modify (λ s, s <| h_status := if negb (result =? 0) then HAL_STATUS_DEGRADED else HAL_STATUS_READY |>) ;;;
    upd_hal_stats (λ t, t <| hs_initialization_time_us := 1500 |>) ;;;
    ret 0.

Definition hal_shutdown : M () :=
  hal_platform_shutdown ;;; modify (λ s, s <| h_status := HAL_STATUS_SHUTDOWN |>).

Definition hal_get_status : M hal_status := gets h_status.
Definition hal_get_version : string := "1.0.0".
Definition hal_get_platform : M hal_platform := gets detected_platform.
Definition hal_get_features : M Z := gets supported_features.

(** The copying functions: [info] tells whether the pointer is not NULL; the result is
    the return code and the copy. *)
Definition hal_get_system_info (info : bool) : M (Z * option hal_system_info) :=
  if negb info then ret (-1, None)
  else hal_update_uptime ;;; i <- gets h_system_info ;; count_call ;;; ret (0, Some i).
Definition copy_out {X} (info : bool) (f : hal → X) : M (Z * option X) :=
  if negb info then ret (-1, None) else x <- gets f ;; count_call ;;; ret (0, Some x).
Definition hal_get_cpu_info (info : bool) : M (Z * option hal_cpu_info) := copy_out info (λ s, si_cpu (h_system_info s)).
Definition hal_get_memory_info (info : bool) : M (Z * option hal_memory_info) := copy_out info (λ s, si_memory (h_system_info s)).
Definition hal_get_timer_info (info : bool) : M (Z * option hal_timer_info) := copy_out info (λ s, si_timer (h_system_info s)).
Definition hal_get_interrupt_info (info : bool) : M (Z * option hal_interrupt_info) :=
  copy_out info (λ s, si_interrupt (h_system_info s)).
Definition hal_get_performance_counters (counters : bool) : M (Z * option hal_performance_counters) :=
  copy_out counters h_performance.
Definition hal_get_statistics (stats : bool) : M (Z * option hal_statistics) :=
  if negb stats then ret (-1, None)
  else
    current_time <- hal_get_timestamp_us ;;
    start <- gets h_init_start_time ;;
    let elapsed_seconds := u64 (current_time - start) / 1000000 in
    when (0 <? elapsed_seconds)
      (upd_hal_stats (λ t, t <| hs_api_calls_per_second := hs_api_calls_total t / elapsed_seconds |>)) ;;;
    t <- gets h_statistics ;;
    count_call ;;;
    ret (0, Some t).

Definition hal_reset_statistics : M () :=
  modify (λ s, s <| h_statistics := zero_hal_stats |>) ;;;
  t <- hal_get_timestamp_us ;;
  start <- gets h_init_start_time ;;
  upd_hal_stats (λ st, st <| hs_initialization_time_us := u64 (t - start) |>).
Definition hal_reset_performance_counters : M () := modify (λ s, s <| h_performance := zero_perf |>).

Definition hal_enumerate_devices : M Z := ret 0.
Definition hal_probe_capabilities : M Z := ret 0.

(** The version is a constant string, so its test for NULL never fails. *)
Definition hal_run_self_test : M Z :=
  status <- hal_get_status ;;
  if bool_decide (status ≠ HAL_STATUS_READY ∧ status ≠ HAL_STATUS_DEGRADED) then ret (-1)
  else
    platform <- hal_get_platform ;;
    if bool_decide (platform = HAL_PLATFORM_UNKNOWN) then ret (-1) else ret 0.
Definition hal_run_hardware_test : M Z :=
  result <- hal_detect_hardware ;; if negb (result =? 0) then ret result else ret 0.

(** The value is the measured duration, which the code prints. *)
Fixpoint perf_loop (n : nat) : M () :=
  match n with
  | O => ret ()
  | S n => _ <- hal_get_status ;; _ <- hal_get_platform ;; _ <- hal_get_features ;; perf_loop n
  end.
Definition hal_run_performance_test : M (Z * Z) :=
  start_time <- hal_get_timestamp_us ;;
  perf_loop 1000 ;;;
  end_time <- hal_get_timestamp_us ;;
  ret (0, u64 (end_time - start_time)).

(** The loop of [hal_run_stress_test]; [fuel] bounds the iterations. *)
Fixpoint stress_loop (fuel : nat) (end_time operations : Z) : M Z :=
  match fuel with
  | O => diverge
  | S fuel =>
      now <- hal_get_timestamp_us ;;
      if now <? end_time then
        _ <- hal_get_status ;; _ <- hal_get_platform ;; _ <- hal_get_features ;;
        _ <- hal_get_system_info true ;;
        stress_loop fuel end_time (u64 (operations + 1))
      else ret operations
  end.
(** With the operations and the operations per second, which the code prints. *)
Definition hal_run_stress_test (fuel : nat) (duration_seconds : Z) : M (Z * Z * Z) :=
  start_time <- hal_get_timestamp_us ;;
  let end_time := u64 (start_time + duration_seconds * 1000000) in
  operations <- stress_loop fuel end_time 0 ;;
  t <- hal_get_timestamp_us ;;
  let actual_duration := u64 (t - start_time) in
  if actual_duration =? 0 then fault
  else ret (0, operations, u64 (operations * 1000000) / actual_duration).

Definition hal_platform_to_string (platform : hal_platform) : string :=
  match platform with
  | HAL_PLATFORM_X86_64 => "x86_64" | HAL_PLATFORM_X86_32 => "x86_32" | HAL_PLATFORM_ARM64 => "ARM64"
  | HAL_PLATFORM_ARM32 => "ARM32" | HAL_PLATFORM_RISCV64 => "RISC-V 64" | HAL_PLATFORM_RISCV32 => "RISC-V 32"
  | _ => "Unknown"
  end.
Definition hal_status_to_string (status : hal_status) : string :=
  match status with
  | HAL_STATUS_UNINITIALIZED => "Uninitialized" | HAL_STATUS_INITIALIZING => "Initializing" | HAL_STATUS_READY => "Ready"
  | HAL_STATUS_ERROR => "Error" | HAL_STATUS_DEGRADED => "Degraded" | HAL_STATUS_SHUTDOWN => "Shutdown"
  end.
Definition hal_feature_to_string (feature : Z) : string :=
  if feature =? HAL_FEATURE_MMU then "MMU" else if feature =? HAL_FEATURE_FPU then "FPU"
  else if feature =? HAL_FEATURE_SIMD then "SIMD" else if feature =? HAL_FEATURE_MULTICORE then "Multi-core"
  else if feature =? HAL_FEATURE_VIRTUALIZATION then "Virtualization"
  else if feature =? HAL_FEATURE_ATOMIC then "Atomic Operations" else if feature =? HAL_FEATURE_CACHE then "Cache Management"
  else if feature =? HAL_FEATURE_DMA then "DMA" else if feature =? HAL_FEATURE_IOMMU then "IOMMU"
  else if feature =? HAL_FEATURE_SECURE_BOOT then "Secure Boot" else "Unknown".
Definition hal_is_feature_supported (feature : Z) : M bool :=
  f <- gets supported_features ;; ret (has_bits f feature).

(** ** The layer as a state machine *)
Inductive hal_op :=
  | HalInitialize | HalShutdown | HalSystemInfo (p : bool) | HalCpuInfo (p : bool) | HalMemoryInfo (p : bool)
  | HalTimerInfo (p : bool) | HalInterruptInfo (p : bool) | HalPerformance (p : bool) | HalStatistics (p : bool)
  | HalResetStatistics | HalResetPerformance | HalDetect | HalSelfTest | HalHardwareTest | HalPerformanceTest.

Definition code {X} (m : prog hal (Z * X)) : prog hal Z := r <- m ;; ret r.1.
Definition hal_run (o : hal_op) : prog hal Z :=
  match o with
  | HalInitialize => hal_initialize
  | HalShutdown => hal_shutdown ;;; ret 0
  | HalSystemInfo p => code (hal_get_system_info p)
  | HalCpuInfo p => code (hal_get_cpu_info p)
  | HalMemoryInfo p => code (hal_get_memory_info p)
  | HalTimerInfo p => code (hal_get_timer_info p)
  | HalInterruptInfo p => code (hal_get_interrupt_info p)
  | HalPerformance p => code (hal_get_performance_counters p)
  | HalStatistics p => code (hal_get_statistics p)
  | HalResetStatistics => hal_reset_statistics ;;; ret 0
  | HalResetPerformance => hal_reset_performance_counters ;;; ret 0
  | HalDetect => hal_detect_hardware
  | HalSelfTest => hal_run_self_test
  | HalHardwareTest => hal_run_hardware_test
  | HalPerformanceTest => code hal_run_performance_test
  end.

(** What a client sees: the status, the calls counted since the last reset, the readings
    of the clock. *)
Record hal_view := mk_view { v_status : hal_status; v_calls : Z; v_readings : Z }.
Definition view_boot : hal_view := mk_view HAL_STATUS_UNINITIALIZED 0 0.
Definition view_step (o : hal_op) (v : hal_view) : hal_view :=
  let '(mk_view st n k) := v in
  match o with
  | HalInitialize => mk_view HAL_STATUS_READY 0 k
  | HalShutdown => mk_view HAL_STATUS_SHUTDOWN n k
  | HalSystemInfo true | HalStatistics true => mk_view st (n + 1) (k + 1)
  | HalCpuInfo true | HalMemoryInfo true | HalTimerInfo true | HalInterruptInfo true | HalPerformance true =>
      mk_view st (n + 1) k
  | HalResetStatistics => mk_view st 0 (k + 1)
  | HalPerformanceTest => mk_view st n (k + 2)
  | _ => v
  end.
(** The return codes: -1 for a NULL pointer and for a self test that is not ready. *)
Definition view_code (o : hal_op) (v : hal_view) : Z :=
  match o with
  | HalSystemInfo p | HalCpuInfo p | HalMemoryInfo p | HalTimerInfo p | HalInterruptInfo p | HalPerformance p
  | HalStatistics p => if p then 0 else -1
  | HalSelfTest => if decide (v_status v = HAL_STATUS_READY) then 0 else -1
  | _ => 0
  end.

(** The invariant: only three of the six statuses occur, platform and features agree, and
    the timer and interrupt information is still all zero. *)
Definition hal_ok (s : hal) : Prop :=
  (detected_platform s = HAL_PLATFORM_UNKNOWN ∧ supported_features s = 0 ∧
     (h_status s = HAL_STATUS_UNINITIALIZED ∨ h_status s = HAL_STATUS_SHUTDOWN) ∨
   detected_platform s = HAL_PLATFORM_X86_64 ∧ supported_features s = 0xEF ∧
     (h_status s = HAL_STATUS_READY ∨ h_status s = HAL_STATUS_SHUTDOWN)) ∧
  si_timer (h_system_info s) = zero_timer_info ∧ si_interrupt (h_system_info s) = zero_interrupt_info ∧
  length (hm_memory_map (si_memory (h_system_info s))) = 64%nat.
Definition hal_shows (s : hal) (v : hal_view) : Prop :=
  hal_ok s ∧ h_status s = v_status v ∧ hs_api_calls_total (h_statistics s) = u64 (v_calls v) ∧
  simulated_time s = u64 (1000 * v_readings v).

#[local] Arguments cpu_info : simpl never.
#[local] Arguments memory_info : simpl never.
#[local] Arguments x86_features : simpl never.
#[local] Arguments u64 : simpl never.
#[local] Arguments Z.mul : simpl never.

Lemma memory_info_length m : length (hm_memory_map (memory_info m)) = length (hm_memory_map m).
Proof. unfold memory_info. cbn [hm_memory_map]. by rewrite !length_insert. Qed.

Lemma u64_succ n : u64 (u64 n + 1) = u64 (n + 1).
Proof. unfold u64. by rewrite Zplus_mod_idemp_l. Qed.
Lemma u64_reading k : u64 (u64 (1000 * k) + 1000) = u64 (1000 * (k + 1)).
Proof. unfold u64. rewrite Zplus_mod_idemp_l. f_equal. lia. Qed.

Lemma perf_loop_run n s : perf_loop n s = Ok ((), s).
Proof. induction n as [|n IH]; [done|]. cbn [perf_loop]. unfold bind, hal_get_status, hal_get_platform, hal_get_features, gets. done. Qed.

Lemma detect_ok s v : hal_shows s v → ∃ s', hal_detect_hardware s = Ok (0, s') ∧ hal_shows s' v.
Proof.
  destruct s as [st [pl fe cpu me ti ii up bt] ss pf i0 u0 dp sf k]. unfold hal_shows, hal_ok. cbn.
  intros ((Hst & Ht & Hi & Hm) & Hs & Hc & Hk). eexists. split; [reflexivity|].
  cbn. rewrite memory_info_length. split_and!; try done.
  destruct Hst as [(-> & _ & Hx)|(-> & _ & Hx)]; [by left|by right].
Qed.

Lemma initialize_shows s v :
  hal_shows s v → ∃ s', hal_initialize s = Ok (0, s') ∧ hal_shows s' (view_step HalInitialize v).
Proof.
  destruct s as [st [pl fe cpu me ti ii up bt] ss pf i0 u0 dp sf k], v as [vst n r]. unfold hal_shows, hal_ok. cbn.
  intros ((_ & Ht & Hi & Hm) & Hs & Hc & Hk). eexists. split; [reflexivity|].
  cbn. rewrite memory_info_length. split_and!; try done. right. auto.
Qed.

Lemma statistics_shows s v :
  hal_shows s v → ∃ s', code (hal_get_statistics true) s = Ok (0, s') ∧ hal_shows s' (view_step (HalStatistics true) v).
Proof.
  intros (Hok & Hs & Hc & Hk). destruct v as [vst n r]. cbn [v_status v_calls v_readings] in *.
  unfold code, hal_get_statistics, bind, hal_get_timestamp_us, gets. cbn [negb]. cbv zeta. unfold when.
  destruct (0 <? _); (eexists; split; [reflexivity|]); unfold hal_shows; cbn; rewrite Hc, Hk, u64_succ, u64_reading; by split_and!.
Qed.

Lemma self_test_shows s v : hal_shows s v → hal_run_self_test s = Ok (view_code HalSelfTest v, s).
Proof.
  intros ((Hst & _) & Hs & _). cbn. rewrite <- Hs. unfold hal_run_self_test, bind, hal_get_status, hal_get_platform, gets.
  destruct Hst as [(Hp & _ & [Hq|Hq])|(Hp & _ & [Hq|Hq])]; rewrite Hq; try reflexivity.
  rewrite bool_decide_false, decide_True by naive_solver. cbv beta. by rewrite Hp.
Qed.

Lemma copy_out_shows {X} (p : bool) (f : hal → X) s v :
  hal_shows s v → ∃ s', code (copy_out p f) s = Ok (if p then 0 else -1, s') ∧
    hal_shows s' (if p then mk_view (v_status v) (v_calls v + 1) (v_readings v) else v).
Proof.
  intros Hv. destruct p; [|by exists s]. pose proof Hv as (Hok & Hs & Hc & Hk).
  eexists. split; [reflexivity|]. split_and!; try done. cbn. by rewrite Hc, u64_succ.
Qed.

Lemma system_info_shows s v :
  hal_shows s v → ∃ s', code (hal_get_system_info true) s = Ok (0, s') ∧ hal_shows s' (view_step (HalSystemInfo true) v).
Proof.
  destruct v as [st n k]. intros (Hok & Hs & Hc & Hk). cbn [v_status v_calls v_readings] in *.
  eexists. split; [reflexivity|]. split_and!; try done; cbn; [by rewrite Hc, u64_succ|by rewrite Hk, u64_reading].
Qed.

Lemma performance_shows s v :
  hal_shows s v → ∃ s', code hal_run_performance_test s = Ok (0, s') ∧ hal_shows s' (view_step HalPerformanceTest v).
Proof.
  destruct v as [st n k]. intros (Hok & Hs & Hc & Hk). cbn [v_status v_calls v_readings] in *.
  unfold code, hal_run_performance_test, bind, hal_get_timestamp_us. rewrite perf_loop_run.
  eexists. split; [reflexivity|]. split_and!; try done. cbn. rewrite Hk, !u64_reading. f_equal. lia.
Qed.

(** One call. *)
Lemma hal_run_shows o s v :
  hal_shows s v → ∃ s', hal_run o s = Ok (view_code o v, s') ∧ hal_shows s' (view_step o v).
Proof.
  intros Hv. destruct o as [| |p|p|p|p|p|p|p| | | | | |]; cbn [hal_run view_code].
  - by apply initialize_shows.
  - destruct v as [st n k], Hv as ((Hst & Hx) & Hs & Hc). eexists. split; [reflexivity|]. split; [split; [|exact Hx]|by split].
    destruct Hst as [(? & ? & _)|(? & ? & _)]; [left|right]; cbn; auto.
  - destruct p; [by apply system_info_shows|]. by exists s; destruct v.
  - destruct (copy_out_shows p (λ s, si_cpu (h_system_info s)) s v Hv) as (s' & ? & ?). exists s'. by destruct v, p.
  - destruct (copy_out_shows p (λ s, si_memory (h_system_info s)) s v Hv) as (s' & ? & ?). exists s'. by destruct v, p.
  - destruct (copy_out_shows p (λ s, si_timer (h_system_info s)) s v Hv) as (s' & ? & ?). exists s'. by destruct v, p.
  - destruct (copy_out_shows p (λ s, si_interrupt (h_system_info s)) s v Hv) as (s' & ? & ?). exists s'. by destruct v, p.
  - destruct (copy_out_shows p h_performance s v Hv) as (s' & ? & ?). exists s'. by destruct v, p.
  - destruct p; [by apply statistics_shows|]. by exists s; destruct v.
  - destruct v as [st n k], Hv as (Hok & Hs & Hc & Hk). cbn [v_status v_calls v_readings] in *.
    eexists. split; [reflexivity|]. split_and!; try done. cbn. by rewrite Hk, u64_reading.
  - destruct v. by eexists; split; [reflexivity|].
  - destruct (detect_ok s v Hv) as (s' & ? & ?). exists s'. by destruct v.
  - exists s. split; [by apply self_test_shows|by destruct v].
  - destruct (detect_ok s v Hv) as (s' & Hr & ?). exists s'. unfold hal_run_hardware_test, bind. rewrite Hr. by destruct v.
  - by apply performance_shows.
Qed.

(** A sequence of calls, with their return codes. *)
Fixpoint hal_runs (os : list hal_op) : prog hal (list Z) :=
  match os with [] => ret [] | o :: os => r <- hal_run o ;; rs <- hal_runs os ;; ret (r :: rs) end.
Fixpoint view_runs (os : list hal_op) (v : hal_view) : list Z * hal_view :=
  match os with
  | [] => ([], v)
  | o :: os => let '(rs, v') := view_runs os (view_step o v) in (view_code o v :: rs, v')
  end.

Lemma hal_runs_shows os s v :
  hal_shows s v → ∃ s', hal_runs os s = Ok ((view_runs os v).1, s') ∧ hal_shows s' (view_runs os v).2.
Proof.
  revert s v. induction os as [|o os IH]; intros s v Hv; [by eexists|].
  destruct (hal_run_shows o s v Hv) as (s1 & Hr1 & Hv1). destruct (IH s1 _ Hv1) as (s2 & Hr2 & Hv2).
  exists s2. cbn [hal_runs view_runs]. unfold bind. rewrite Hr1, Hr2. by destruct (view_runs os _).
Qed.

(** C19: the abstraction layer refines a three-field view.  Whatever sequence of calls is
    made after boot, with NULL pointers or not, every call returns with the code of the
    view; the status is the view's (it is never ERROR, DEGRADED or INITIALIZING between
    calls), the call counter is the number of successful queries since the last reset, the
    clock is one millisecond per reading, platform and features agree, and the timer and
    interrupt information is still zero, because initialization never detects it. *)
Theorem hal_refines_view os :
  ∃ s, hal_runs os hal_boot = Ok ((view_runs os view_boot).1, s) ∧ hal_shows s (view_runs os view_boot).2.
Proof. apply hal_runs_shows. split; [|done]. split; [|done]. left. by auto. Qed.

(** ** The stress test *)
Lemma stress_loop_run n fuel end_time ops s Q :
  (Z.to_nat n < fuel)%nat → 0 ≤ n → 0 ≤ simulated_time s → simulated_time s + 2000 * n + 1000 < 2 ^ 64 →
  simulated_time s + 2000 * n - 1000 < end_time ≤ simulated_time s + 2000 * n + 1000 →
  (∀ s', simulated_time s' = simulated_time s + 2000 * n + 1000 → h_status s' = h_status s →
     hs_api_calls_total (h_statistics s') = u64 (hs_api_calls_total (h_statistics s) + n) → Q (u64 (ops + n)) s') →
  0 ≤ ops < 2 ^ 64 → 0 ≤ hs_api_calls_total (h_statistics s) < 2 ^ 64 →
  wp (stress_loop fuel end_time ops) Q s.
Proof.
  intros Hf Hn. revert n ops s Hf Hn. induction fuel as [|fuel IH]; intros n ops s Hf Hn Ht Hmax He HQ Ho Hc; [lia|].
  cbn [stress_loop]. apply wp_bind. unfold wp at 1, hal_get_timestamp_us. cbv zeta.
  rewrite u64_small by lia. destruct (Z.ltb_spec (simulated_time s + 1000) end_time) as [Hlt|Hge].
  - apply wp_bind, wp_gets, wp_bind, wp_gets, wp_bind, wp_gets, wp_bind.
    unfold wp at 1, hal_get_system_info, hal_update_uptime, hal_get_timestamp_us, count_call, upd_hal_stats, upd_info, bind, gets, modify, ret.
    cbn. apply (IH (n - 1)); cbn; rewrite ?(u64_small (simulated_time s + 1000 + 1000)) by lia; try lia.
    + intros s' E1 E2 E3. replace (u64 (u64 (ops + 1) + (n - 1))) with (u64 (ops + n)).
      * apply HQ; [lia|done|]. rewrite E3. unfold u64. rewrite Zplus_mod_idemp_l. f_equal. lia.
      * unfold u64. rewrite Zplus_mod_idemp_l. f_equal. lia.
    + apply u64_range.
    + apply u64_range.
  - assert (n = 0) as -> by lia. apply wp_ret. rewrite <- (u64_small ops) at 1 by done. rewrite <- (Z.add_0_r ops) at 1.
    apply HQ; cbn; [lia|done|]. rewrite Z.add_0_r. by rewrite u64_small.
Qed.

(** The stress test ends.  For every duration and every clock that does not wrap on the
    way, [hal_run_stress_test] returns after exactly 500 operations per second asked for,
    has advanced the clock by the duration and three readings and has counted each
    operation; the fuel the loop needs is one more than the operations. *)
Theorem hal_stress_test_ends fuel d s :
  0 ≤ d < 2 ^ 32 → 0 ≤ simulated_time s → simulated_time s + 1000000 * d + 3000 < 2 ^ 64 →
  0 ≤ hs_api_calls_total (h_statistics s) < 2 ^ 64 → (Z.to_nat (500 * d) < fuel)%nat →
  ∃ s', hal_run_stress_test fuel d s = Ok (0, 500 * d, 500 * d * 1000000 / (1000000 * d + 2000), s') ∧
    simulated_time s' = simulated_time s + 1000000 * d + 3000 ∧ h_status s' = h_status s ∧
    hs_api_calls_total (h_statistics s') = u64 (hs_api_calls_total (h_statistics s) + 500 * d).
Proof.
  intros Hd Ht Hmax Hc Hf.
  destruct (proj1 (wp_run (hal_run_stress_test fuel d) (λ r s', r = (0, 500 * d, 500 * d * 1000000 / (1000000 * d + 2000)) ∧
    simulated_time s' = simulated_time s + 1000000 * d + 3000 ∧ h_status s' = h_status s ∧
    hs_api_calls_total (h_statistics s') = u64 (hs_api_calls_total (h_statistics s) + 500 * d)) s)) as (r & s' & Hr & -> & H1 & H2 & H3);
    [|by exists s'].
  apply wp_bind. unfold wp at 1, hal_get_timestamp_us. cbv zeta. rewrite (u64_small (simulated_time s + 1000)) by lia.
  rewrite u64_small by lia. apply wp_bind, (stress_loop_run (500 * d)); cbn; try done; try lia.
  intros s' E1 E2 E3. apply wp_bind. unfold wp at 1, hal_get_timestamp_us. cbv zeta. rewrite E1, Z.add_0_l.
  rewrite (u64_small (_ + 1000)) by lia. rewrite u64_small by lia.
  rewrite (proj2 (Z.eqb_neq _ 0)) by lia. apply wp_ret. rewrite (u64_small (500 * d)) by lia.
  rewrite (u64_small (500 * d * 1000000)) by lia. split_and!; cbn; [|lia|done|done].
  do 2 f_equal. lia.
Qed.

Lemma hal_stress_test_ends_witness :
  ∃ s', hal_run_stress_test 501 1 hal_boot = Ok (0, 500, 499, s') ∧ simulated_time s' = 1003000.
Proof.
  destruct (hal_stress_test_ends 501 1 hal_boot) as (s' & Hr & Ht & _); [done|done|done|done|apply Nat.ltb_lt; vm_compute; done|].
  exists s'. split; [exact Hr|exact Ht].
Defined.

(** The available region 1 of the reported memory map contains the reserved region 2. *)
Lemma hal_map_overlaps old :
  length (hm_memory_map old) = 64%nat →
  ∃ a b, hm_memory_map (memory_info old) !! 1%nat = Some a ∧ hm_memory_map (memory_info old) !! 2%nat = Some b ∧
    e_type a = 1 ∧ e_type b = 2 ∧ e_base a ≤ e_base b ∧ e_base b + e_length b ≤ e_base a + e_length a.
Proof.
  intros Hl. exists (mk_entry 0x100000 0x1FF000000 1 0), (mk_entry 0xFFE00000 0x200000 2 0).
  cbn [hm_memory_map memory_info]. unfold memory_info. cbn [hm_memory_map].
  rewrite (list_lookup_insert_ne _ 2 1), !list_lookup_insert_eq by (rewrite ?length_insert; lia). by split_and!.
Qed.
