(* ===== verification/Kernel.v ===== *)
(** * Boot, main loop and panic (src/main.c, src/boot.c, src/panic.c)

    The whole kernel as one state: the memory managers over one physical memory, the
    interrupt system with the scheduler and the heap inside it, the device framework and
    the abstraction layer; [init_subsystems] and [kernel_main] compose the operations of
    the other files in the order of the code.  The output functions change no state. *)
From S2P Require Import Prelude.
From S2P Require Import Memory.
Import MemoryUtils.
From S2P Require Import Pmm.
From S2P Require Import Vmm.
From S2P Require Import Heap.
From S2P Require Import SchedState.
From S2P Require Import Process.
From S2P Require Import Thread.
From S2P Require Import Scheduler.
From S2P Require Import Idt.
From S2P Require Import Interrupt.
From S2P Require Import Device.
From S2P Require Import Hal.
Local Open Scope Z_scope.

Definition KERNEL_HEAP_START : Z := 0xFFFFFFFF90000000.
Definition MULTIBOOT2_MAGIC : Z := 0x36D76289.

(** ** State *)

(** [struct panic_config] and the statics of panic.c. *)
Record panic_config := mk_panic_config {
  enable_stack_trace : bool; enable_register_dump : bool; enable_memory_dump : bool; enable_crash_dump : bool;
  reboot_on_panic : bool; panic_timeout : Z
}.
Record panic_state := mk_panic { p_config : panic_config; in_panic : bool; panic_count : Z }.
#[export] Instance eta_panic : Eta panic_state := λ r,
  {| p_config := p_config r; in_panic := in_panic r; panic_count := panic_count r |}.
Definition panic_boot : panic_state := mk_panic (mk_panic_config true true false false false 10) false 0.

Record kernel := mk_kernel {
  k_vm : vmm pmm; k_irq : irqs heap; k_dev : dstate heap; k_hal : hal; k_panic : panic_state;
  g_boot_info : Z; kernel_initialized : bool
}.
#[export] Instance eta_kernel : Eta kernel := λ r,
  {| k_vm := k_vm r; k_irq := k_irq r; k_dev := k_dev r; k_hal := k_hal r; k_panic := k_panic r;
     g_boot_info := g_boot_info r; kernel_initialized := kernel_initialized r |}.

Section kernel.
Context `{!Errno} `{!DriverEnv heap}.
(** [scheduler_is_enabled] is declared nowhere in the sources; the addresses of the entry
    stubs and the names are the linker's; [arrivals n] says after which polls of the [n]-th
    sleep the timer fires; [kbd n] is the [n]-th status of the keyboard controller. *)
Context (scheduler_is_enabled : ks heap → bool) (default_exception_addr default_interrupt_addr idt_addr : Z)
  (region_name_1 region_name_2 test_thread_entry : Z) (arrivals : nat → list bool) (kbd : nat → Z).
#[local] Abbreviation M := (prog kernel).

(** ** Running a component *)
Definition on_vm {X} (f : vmm pmm → X * vmm pmm) : M X := λ k, let '(x, v) := f (k_vm k) in Ok (x, k <| k_vm := v |>).
Definition on_pmm {X} (f : pmm → X * pmm) : M X := on_vm (λ v, let '(x, p) := f (vm_pa v) in (x, v <| vm_pa := p |>)).
Definition on_irq {X} (m : prog (irqs heap) X) : M X := λ k,
  match m (k_irq k) with
  | Ok (x, i) => Ok (x, k <| k_irq := i |>)
  | Fault => Fault
  | Halted => Halted
  | Diverge => Diverge
  end.
Definition on_sched {X} (m : prog (ks heap) X) : M X := on_irq (lift_sched m).
Definition on_heap {X} (f : heap → X * heap) : M X := on_sched (lift_alloc (λ h, Ok (f h))).
(** The framework allocates from the same heap as the scheduler. *)
Definition on_dev {X} (m : prog (dstate heap) X) : M X := λ k,
  match m ((k_dev k) <| dalloc := alloc (sched (k_irq k)) |>) with
  | Ok (x, d) => Ok (x, k <| k_dev := d |> <| k_irq := (k_irq k) <| sched := (sched (k_irq k)) <| alloc := dalloc d |> |> |>)
  | Fault => Fault
  | Halted => Halted
  | Diverge => Diverge
  end.
Definition on_hal {X} (m : prog hal X) : M X := λ k,
  match m (k_hal k) with
  | Ok (x, h) => Ok (x, k <| k_hal := h |>)
  | Fault => Fault
  | Halted => Halted
  | Diverge => Diverge
  end.
Definition upd_panic (f : panic_state → panic_state) : M () := modify (λ k, k <| k_panic := f (k_panic k) |>).

(** ** panic.c *)
Definition cli : M () := on_irq (modify (λ s, s <| cpu_rflags := Z.ldiff (cpu_rflags s) 0x200 |>)).
Definition emergency_halt {X} : M X := cli ;;; halt.
(** The wait for the keyboard controller; [fuel] bounds the readings. *)
Fixpoint wait_keyboard (fuel n : nat) : M () :=
  match fuel with
  | O => diverge
  | S fuel => if has_bits (kbd n) 0x02 then wait_keyboard fuel (S n) else ret ()
  end.
(** The reset command is an [outb] instruction, logged with the kernel's other port writes; if
    the machine goes on, it halts. *)
Definition emergency_reboot {X} (fuel : nat) : M X :=
  cli ;;; wait_keyboard fuel 0 ;;; on_irq (outb 0x64 0xFE) ;;; emergency_halt.
Definition emergency_shutdown {X} : M X := emergency_halt.

(** Up to "Disable interrupts immediately"; [false] when a panic is under way. *)
Definition panic_enter : M bool :=
  p <- gets k_panic ;;
  if in_panic p then ret false
  else upd_panic (λ p, p <| in_panic := true |> <| panic_count := u32 (panic_count p + 1) |>) ;;; cli ;;; ret true.
(** [panic]; the delay loop before the reboot only waits. *)
Definition panic_now {X} (fuel : nat) : M X :=
  first <- panic_enter ;;
  if negb first then emergency_halt
  else
    p <- gets k_panic ;;
    if reboot_on_panic (p_config p) then emergency_reboot fuel else emergency_halt.
Definition panic_with_info {X} (fuel : nat) (type line error_code : Z) : M X := panic_now fuel.
Definition panic_assertion {X} (fuel : nat) (line : Z) : M X := panic_with_info fuel 6 line 0.
Definition set_panic_config (config : option panic_config) : M () :=
  match config with None => ret () | Some c => upd_panic (λ p, p <| p_config := c |>) end.
(** [config] tells whether the pointer is not NULL. *)
Definition get_panic_config (config : bool) : M (option panic_config) :=
  if negb config then ret None else p <- gets k_panic ;; ret (Some (p_config p)).
Definition panic_init : M () := upd_panic (λ _, panic_boot).
Definition try_recover_from_error (type error_code : Z) : M Z := ret (-1).
Definition get_panic_type_name (type : Z) : string :=
  nth (Z.to_nat type) ["General"; "Memory"; "Hardware"; "Filesystem"; "Network"; "Security"; "Assertion";
    "Stack Overflow"; "Deadlock"; "Corruption"]%string "Unknown".

(** ** boot.c *)
Definition parse_boot_info (magic info : Z) : Z := if negb (magic =? MULTIBOOT2_MAGIC) then -1 else 0.

(** ** main.c *)
Definition test_regions : list memory_region :=
  [mk_region 0x100000 0x1100000 0x1000000 MEMORY_TYPE_AVAILABLE 0 region_name_1;
   mk_region 0x2000000 0x4000000 0x2000000 MEMORY_TYPE_AVAILABLE 0 region_name_2].

Definition init_subsystems : M Z :=
  r <- on_pmm (λ p, pmm_init p (Some test_regions) 2) ;;
  if negb (r =? 0) then ret KERN_ERROR else
  r <- on_vm vmm_init ;;
  if negb (r =? 0) then ret KERN_ERROR else
  r <- on_heap (λ h, heap_init h KERNEL_HEAP_START 0x1000000) ;;
  if negb (r =? 0) then ret KERN_ERROR else
  r <- on_sched process_init ;;
  if negb (r =? KERN_SUCCESS) then ret KERN_ERROR else
  r <- on_sched thread_init ;;
  if negb (r =? KERN_SUCCESS) then ret KERN_ERROR else
  r <- on_sched scheduler_init ;;
  if negb (r =? KERN_SUCCESS) then ret KERN_ERROR else
  r <- on_irq (interrupt_init default_exception_addr default_interrupt_addr idt_addr) ;;
  if negb (r =? 0) then ret KERN_ERROR else
  r <- on_dev device_init ;;
  if negb (r =? 0) then ret KERN_ERROR else
  r <- on_hal hal_initialize ;;
  if negb (r =? 0) then ret KERN_ERROR else
  ret KERN_SUCCESS.

Definition kernel_early_init (boot_info : Z) : M Z :=
  modify (λ k, k <| g_boot_info := boot_info |>) ;;;
  if boot_info =? 0 then ret KERN_INVALID else ret KERN_SUCCESS.
Definition kernel_init : M Z :=
  result <- init_subsystems ;;
  if negb (result =? KERN_SUCCESS) then ret result
  else modify (λ k, k <| kernel_initialized := true |>) ;;; ret KERN_SUCCESS.
Definition kernel_shutdown : M () := modify (λ k, k <| kernel_initialized := false |>).

(** [timer_sleep_ms]: the timer fires only while interrupts are enabled. *)
Definition sleep_ms (n : nat) (ms : Z) : M () :=
  enabled <- on_irq interrupts_enabled ;;
  finished <- on_irq (timer_sleep_ms scheduler_is_enabled (if enabled : bool then arrivals n else map (λ _, false) (arrivals n)) ms) ;;
  if finished : bool then ret () else diverge.

(** The loop "Working... iteration", from the [n]-th sleep on. *)
Fixpoint work_loop (count n : nat) : M () :=
  match count with
  | O => ret ()
  | S count => sleep_ms n 100 ;;; _ <- on_irq timer_get_ticks ;; _ <- on_irq timer_get_uptime_ms ;; work_loop count (S n)
  end.

(** "timer_test". *)
Definition timer_test : list Z := [116; 105; 109; 101; 114; 95; 116; 101; 115; 116].

Definition kernel_main : M () :=
  on_irq interrupts_enable ;;;
  _ <- on_irq timer_get_ticks ;;
  _ <- on_irq timer_get_uptime_ms ;;
  work_loop 5 0 ;;;
  saved_state <- on_irq critical_section_enter ;;
  sleep_ms 5 50 ;;;
  on_irq (critical_section_exit saved_state) ;;;
  on_sched (scheduler_enable true) ;;;
  test_proc <- on_sched (create_process (Some timer_test) 0) ;;
  when (negb (test_proc =? 0))
    (x <- on_sched (ld_proc test_proc) ;;
     test_thread <- on_sched (create_thread (p_pid x) test_thread_entry 42) ;;
     when (negb (test_thread =? 0)) (on_sched (scheduler_add_thread test_thread) ;;; sleep_ms 6 500)) ;;;
  halt.

Definition kernel_start {X} (fuel : nat) (boot_info : Z) : M X :=
  result <- kernel_early_init boot_info ;;
  if negb (result =? KERN_SUCCESS) then panic_now fuel
  else
    result <- kernel_init ;;
    if negb (result =? KERN_SUCCESS) then panic_now fuel else kernel_main ;;; panic_now fuel.
End kernel.

(** ** The first allocations of the boot *)

(** [pmm_init] puts the bitmap at 1 MB, which is the first page of [test_regions]. *)
Definition boot_pmm (s : pmm) : Prop :=
  page_bitmap s = 0x100000 ∧ total_pages s = 12288 ∧ free_pages s = Z.of_nat (size (free_set s)) ∧
  ∀ p, p ∈ free_set s ↔ 256 ≤ p < 4352 ∨ 8192 ≤ p < 12288.

Lemma test_regions_has n1 n2 p :
  Exists (λ r, region_has r p) (take 32 (test_regions n1 n2)) ↔ 256 ≤ p < 4352 ∨ 8192 ≤ p < 16384.
Proof.
  unfold test_regions. simpl take. rewrite !Exists_cons, Exists_nil. split.
  - intros [[_ H]|[[_ H]|[]]]; [left; change (256 ≤ p < 256 + 4096) in H|right; change (8192 ≤ p < 8192 + 8192) in H]; lia.
  - intros [H|H]; [left|right; left]; (split; [done|]);
      [change (256 ≤ p < 256 + 4096)|change (8192 ≤ p < 8192 + 8192)]; lia.
Qed.

Lemma boot_pmm_init m n1 n2 : ∃ s, pmm_init (pmm_boot m) (Some (test_regions n1 n2)) 2 = (0, s) ∧ boot_pmm s.
Proof.
  assert (Forall region_valid (take 32 (test_regions n1 n2))) as Hv by (repeat constructor; unfold region_valid; cbn; lia).
  pose proof (pmm_init_counts (pmm_boot m) (test_regions n1 n2) ltac:(cbn; lia) ltac:(done) Hv ltac:(done)) as H.
  change (Z.of_nat (length (test_regions n1 n2))) with 2 in H.
  destruct (pmm_init _ _ _) as [r s]. destruct H as (-> & Hb & Ht & Hset & _ & _ & _ & Hc).
  change (avail_total (take 32 (test_regions n1 n2)) / PAGE_SIZE) with 12288 in Ht.
  exists s. unfold boot_pmm. split_and!; try done. intros p. rewrite Hset, Ht, test_regions_has. lia.
Qed.

(** The first page handed out is the bitmap itself, and it is cleared. *)
Lemma alloc_takes_bitmap s :
  boot_pmm s → ∃ s', pmm_alloc_page s = (0x100000, s') ∧ page_bitmap s' = 0x100000 ∧ total_pages s' = 12288 ∧
    free_pages s' ≠ 0 ∧ ∀ a, 0x100000 ≤ a < 0x101000 → rd8 (pmm_mem s') a = 0.
Proof.
  intros (Hb & Ht & Hf & Hset). assert (256 ∈ free_set s ∧ 257 ∈ free_set s) as [H256 H257] by (split; apply Hset; lia).
  assert (2 ≤ size (free_set s))%nat as Hsz.
  { pose proof (subseteq_size {[256; 257]} (free_set s) ltac:(set_solver)) as Hle.
    rewrite size_union, !size_singleton in Hle by set_solver. done. }
  pose proof (size_free_set_le s ltac:(lia)) as Hle.
  unfold pmm_alloc_page. rewrite (proj2 (Z.eqb_neq _ 0)) by lia.
  destruct (find_up _ 0 (pmm_is_page_free s)) as [j|] eqn:Hj.
  2:{ rewrite find_up_None in Hj. apply elem_of_free_set in H256 as [_ H256]. rewrite Hj in H256 by lia. done. }
  apply find_up_Some in Hj as (Hr & Hfree & Hleast).
  assert (j = 256) as ->.
  { apply elem_of_free_set in H256 as [_ H256]. assert (j ∈ free_set s) as Hin by (apply elem_of_free_set; split; [lia|done]).
    apply Hset in Hin. destruct (decide (j = 256)); [done|]. rewrite Hleast in H256 by lia. done. }
  destruct (pmm_mark_used_counters s 256 H256) as [Hcnt _]. pose proof (pmm_mark_geometry_used s 256 ltac:(lia)) as Hg.
  eexists. split; [reflexivity|]. change (u64 (256 * PAGE_SIZE)) with 0x100000.
  split_and!; unfold count_allocation, fset; cbn [page_bitmap total_pages free_pages pmm_mem].
  - by rewrite (sg_bitmap _ _ Hg).
  - by rewrite (sg_total _ _ Hg).
  - rewrite Hcnt, Hf, u64_small by lia. lia.
  - intros a Ha. rewrite rd8_memory_set by done. by rewrite decide_True by (rewrite PAGE_SIZE_eq; lia).
Qed.

(** After that every page looks free and page 0, which reads as a failure, comes first. *)
Lemma alloc_page_zero s :
  page_bitmap s = 0x100000 → total_pages s = 12288 → free_pages s ≠ 0 → rd8 (pmm_mem s) 0x100000 = 0 →
  (pmm_alloc_page s).1 = 0.
Proof.
  intros Hb Ht Hf Hz. unfold pmm_alloc_page. rewrite (proj2 (Z.eqb_neq _ 0)) by done.
  replace (Z.to_nat (total_pages s)) with (S (Z.to_nat 12287)) by lia. cbn [find_up].
  assert (pmm_is_page_free s 0 = true) as ->; [|done].
  unfold pmm_is_page_free. rewrite Ht, Hb. cbn [Z.leb Z.compare]. change (0x100000 + 0 / 8) with 0x100000. by rewrite Hz.
Qed.

Lemma for_try_fails {St} n i step (body : Z → St → Z * St) s :
  (0 < n)%nat → (body i s).1 ≠ 0 → (for_try n i step body s).1 = (body i s).1.
Proof.
  intros Hn Hr. destruct n as [|n]; [lia|]. cbn [for_try]. destruct (body i s) as [r s'].
  cbn in Hr. by rewrite (proj2 (Z.eqb_neq r 0)) by done.
Qed.

Lemma map_page_fails (s : vmm pmm) va pa flags :
  rd64 (pmm_mem (vm_pa s)) (kernel_pml4 s + 8 * pt_index 39 va) = 0 → (pmm_alloc_page (vm_pa s)).1 = 0 →
  (vmm_map_page s va pa flags).1 = -1.
Proof.
  intros Hz Ha. unfold vmm_map_page, ensure_table. cbv zeta. change (vm_mem s) with (pmm_mem (vm_pa s)). rewrite Hz.
  change (negb (has_bits 0 PTE_PRESENT)) with true. change (pa_alloc (vm_pa s)) with (pmm_alloc_page (vm_pa s)).
  destruct (pmm_alloc_page (vm_pa s)) as [r a]. cbn in Ha. by subst r.
Qed.

Lemma rd64_zero m a : (∀ b, a ≤ b < a + 8 → rd8 m b = 0) → rd64 m a = 0.
Proof.
  intros H. transitivity (rd64 (∅ : mem) a); [|done]. apply rd64_ext. intros b Hb. rewrite H by done. done.
Qed.

Lemma vmm_init_fails (s : vmm pmm) : boot_pmm (vm_pa s) → (vmm_init s).1 = -1.
Proof.
  intros Hs. destruct (alloc_takes_bitmap _ Hs) as (p & Ha & Hb & Ht & Hf & Hz). unfold vmm_init.
  change (pa_alloc (vm_pa s)) with (pmm_alloc_page (vm_pa s)). rewrite Ha. cbn [Z.eqb Pos.eqb]. cbv zeta.
  set (s2 := vm_set_mem _ _).
  assert (∀ b, 0x100000 ≤ b < 0x101000 → rd8 (pmm_mem (vm_pa s2)) b = 0) as Hz2.
  { intros b Hb'. change (pmm_mem (vm_pa s2)) with (memory_set (pmm_mem p) 0x100000 0 PAGE_SIZE).
    rewrite rd8_memory_set by done. by rewrite decide_True by (rewrite PAGE_SIZE_eq; lia). }
  match goal with |- context [for_try ?n 0 PAGE_SIZE ?b s2] => set (body := b) end.
  assert ((body 0 s2).1 = -1) as Hbody.
  { unfold body. assert ((vmm_map_page s2 0 0 (Z.lor PTE_PRESENT PTE_WRITABLE)).1 = -1) as Hm.
    { apply map_page_fails.
      - change (kernel_pml4 s2 + 8 * pt_index 39 0) with 0x100000. apply rd64_zero. intros b Hb'. apply Hz2. lia.
      - apply alloc_page_zero; [done|done|done|]. by apply Hz2. }
    destruct (vmm_map_page s2 0 0 _) as [r s3]. cbn in Hm. by subst r. }
  pose proof (for_try_fails (Z.to_nat (0x100000000 / PAGE_SIZE)) 0 PAGE_SIZE body s2) as Hfail.
  destruct (for_try _ 0 PAGE_SIZE body s2) as [r s3]. cbn [fst] in Hfail. rewrite Hbody in Hfail.
  rewrite Hfail; [done|change (0x100000000 / PAGE_SIZE) with (2 ^ 20); lia|done].
Qed.

(** ** Theorems *)
Section theorems.
Context `{!Errno} `{!DriverEnv heap}.
Context (scheduler_is_enabled : ks heap → bool) (default_exception_addr default_interrupt_addr idt_addr : Z)
  (region_name_1 region_name_2 test_thread_entry : Z) (arrivals : nat → list bool) (kbd : nat → Z).
#[local] Abbreviation subsystems := (init_subsystems default_exception_addr default_interrupt_addr idt_addr region_name_1 region_name_2).
#[local] Abbreviation start_kernel := (kernel_init default_exception_addr default_interrupt_addr idt_addr region_name_1 region_name_2).
#[local] Abbreviation main_loop := (kernel_main scheduler_is_enabled test_thread_entry arrivals).
#[local] Abbreviation entry := (kernel_start (X := ()) scheduler_is_enabled default_exception_addr default_interrupt_addr idt_addr
  region_name_1 region_name_2 test_thread_entry arrivals kbd).

(** What stays as it was when the boot stops in the memory managers. *)
Definition outside_memory (k : kernel) : irqs heap * dstate heap * hal * panic_state * bool :=
  (k_irq k, k_dev k, k_hal k, k_panic k, kernel_initialized k).

Lemma init_subsystems_fails k m :
  vm_pa (k_vm k) = pmm_boot m → ∃ k', subsystems k = Ok (KERN_ERROR, k') ∧ outside_memory k' = outside_memory k.
Proof.
  intros Hm. destruct (boot_pmm_init m region_name_1 region_name_2) as (p & Hp & Hboot).
  pose proof (vmm_init_fails ((k_vm k) <| vm_pa := p |>) Hboot) as Hv.
  destruct (vmm_init ((k_vm k) <| vm_pa := p |>)) as [r v] eqn:Ev. cbn in Hv. subst r.
  exists (k <| k_vm := (k_vm k) <| vm_pa := p |> |> <| k_vm := v |>). split; [|done].
  unfold init_subsystems, bind, on_pmm, on_vm. rewrite Hm, Hp. cbn [negb Z.eqb k_vm fset].
  unfold fset at 2. cbn [k_vm]. rewrite Ev. done.
Qed.

Lemma bind_ok {St X Y} (m : prog St X) (f : X → prog St Y) s x s' : m s = Ok (x, s') → bind m f s = f x s'.
Proof. intros Hm. unfold bind. by rewrite Hm. Qed.

Lemma panic_halts {X} fuel k :
  reboot_on_panic (p_config (k_panic k)) = false → panic_now (X := X) kbd fuel k = Halted.
Proof.
  intros Hr. unfold panic_now, panic_enter, emergency_halt, cli, on_irq, upd_panic, bind, gets, modify, halt, ret.
  destruct (in_panic (k_panic k)); [done|]. cbn. by rewrite Hr.
Qed.

(** C5: the kernel does not boot.  Whatever the memory holds at power-on and with the memory
    map that [init_subsystems] itself passes, the first page the physical allocator hands out
    is the page of its own bitmap; clearing it makes page 0 the next one, [vmm_init] takes
    that for exhaustion, [kernel_init] returns [KERN_ERROR] with no later subsystem touched,
    and [kernel_start] panics and halts. *)
Theorem kernel_boot_fails k m boot_info fuel :
  vm_pa (k_vm k) = pmm_boot m → boot_info ≠ 0 → reboot_on_panic (p_config (k_panic k)) = false →
  (∃ k', start_kernel k = Ok (KERN_ERROR, k') ∧ outside_memory k' = outside_memory k) ∧
  entry fuel boot_info k = Halted.
Proof.
  intros Hm Hb Hr.
  assert (∀ k, vm_pa (k_vm k) = pmm_boot m → ∃ k', start_kernel k = Ok (KERN_ERROR, k') ∧ outside_memory k' = outside_memory k)
    as Hinit.
  { intros k1 Hk1. destruct (init_subsystems_fails k1 m Hk1) as (k' & Hk' & Ho). exists k'.
    unfold kernel_init, bind. by rewrite Hk'. }
  split; [by apply Hinit|].
  set (k1 := k <| g_boot_info := boot_info |>). destruct (Hinit k1 Hm) as (k' & Hk' & Ho).
  assert (kernel_early_init boot_info k = Ok (KERN_SUCCESS, k1)) as He.
  { unfold kernel_early_init, bind, modify. by rewrite (proj2 (Z.eqb_neq _ 0)). }
  unfold kernel_start. rewrite (bind_ok _ _ _ _ _ He). cbv beta. change (negb (KERN_SUCCESS =? KERN_SUCCESS)) with false. cbv iota.
  etransitivity; [exact (bind_ok _ _ _ _ _ Hk')|]. apply panic_halts.
  by injection Ho as _ _ _ -> _.
Qed.
(** C18: the heap is not mapped.  Even when there are pages enough, [vmm_init] maps 256 MB at
    [KERNEL_VIRTUAL_BASE], and [KERNEL_HEAP_START] is the first byte after them: no address
    of the 16 MB that [init_subsystems] gives to [heap_init] has a translation. *)
Theorem kernel_heap_unmapped {A} `{PageAllocator A} D (s : vmm A) va :
  pa_inv D (vm_pa s) → (2184 ≤ pa_avail (vm_pa s))%nat →
  KERNEL_HEAP_START ≤ va < KERNEL_HEAP_START + 0x1000000 →
  (vmm_init s).1 = 0 ∧ vmm_get_physical (vmm_init s).2 va = 0.
Proof.
  intros Hpa Hav Hva. pose proof (vmm_init_spec D s Hpa Hav) as Hi. destruct (vmm_init s) as [r s'].
  destruct Hi as (-> & T & _ & _ & Hpte). split; [done|]. cbn [snd]. specialize (Hpte va).
  assert (0xFFFF80000 + 2 ^ 16 ≤ vpn va) as Hv.
  { unfold vpn. rewrite PAGE_SIZE_eq. unfold KERNEL_HEAP_START in Hva. Z.to_euclidean_division_equations. lia. }
  unfold init_entry in Hpte. rewrite !decide_False in Hpte by lia.
  rewrite (translate_entry s' va 0 0) by done. done.
Qed.

(** ** The demonstration in [kernel_main] *)

(** [m] does not end, or returns in a state that satisfies [P]. *)
Definition may {X} (m : prog kernel X) (P : kernel → Prop) (k : kernel) : Prop :=
  m k = Diverge ∨ ∃ x k', m k = Ok (x, k') ∧ P k'.

Lemma may_bind {X Y} (m : prog kernel X) (f : X → prog kernel Y) P k :
  may m P k → (∀ x k', P k' → f x k' = Diverge) → bind m f k = Diverge.
Proof. intros [Hd|(x & k' & Hm & Hp)] Hf; unfold bind; [by rewrite Hd|rewrite Hm; by apply Hf]. Qed.

(** The timer runs and the scheduler does not. *)
Definition ticking (k : kernel) : Prop :=
  frequency (g_timer_manager (k_irq k)) ≠ 0 ∧ scheduler_is_enabled (sched (k_irq k)) = false.

Lemma timer_wait_frame l start ms (s : irqs heap) :
  frequency (g_timer_manager s) ≠ 0 → scheduler_is_enabled (sched s) = false →
  wp (timer_wait scheduler_is_enabled l start ms)
    (λ _ s', frequency (g_timer_manager s') ≠ 0 ∧ scheduler_is_enabled (sched s') = false) s.
Proof.
  revert s. induction l as [|b l IH]; intros s Hf Hs; cbn [timer_wait]; apply wp_bind, wp_gets; case_if; try by apply wp_ret.
  apply wp_bind. destruct b; cbn [when]; [|by apply wp_ret, IH].
  apply timer_handler_spec; [done..|]. cbv zeta. intros s' Ht Hs'. apply IH; [by rewrite Ht|by rewrite Hs'].
Qed.

(** The polls of the [n]-th sleep in [k]. *)
Definition polls (n : nat) (k : kernel) : list bool :=
  if has_bits (cpu_rflags (k_irq k)) 0x200 then arrivals n else map (λ _, false) (arrivals n).

Lemma sleep_run n ms k b i :
  timer_wait scheduler_is_enabled (polls n k) (milliseconds (g_timer_manager (k_irq k))) ms (k_irq k) = Ok (b, i) →
  sleep_ms scheduler_is_enabled arrivals n ms k = if b then Ok ((), k <| k_irq := i |>) else Diverge.
Proof.
  destruct k as [v s d h p g ki]. unfold polls. cbn [k_irq]. intros Hw.
  unfold sleep_ms. erewrite bind_ok by reflexivity.
  assert (on_irq (timer_sleep_ms scheduler_is_enabled (if has_bits (cpu_rflags s) 0x200 then arrivals n else map (λ _, false) (arrivals n)) ms)
    (mk_kernel v s d h p g ki) = Ok (b, mk_kernel v i d h p g ki)) as Hr.
  { unfold on_irq. cbn [k_irq]. unfold timer_sleep_ms, timer_get_uptime_ms. erewrite bind_ok by reflexivity. by rewrite Hw. }
  etransitivity; [exact (bind_ok _ _ _ _ _ Hr)|]. by destruct b.
Qed.

Lemma sleep_may n ms k : ticking k → may (sleep_ms scheduler_is_enabled arrivals n ms) ticking k.
Proof.
  intros [Hf Hs]. pose proof (timer_wait_frame (polls n k) (milliseconds (g_timer_manager (k_irq k))) ms (k_irq k) Hf Hs) as Hw.
  apply wp_run in Hw as (b & s' & Hw & Hf' & Hs'). unfold may. rewrite (sleep_run n ms k b s' Hw).
  destruct b; [right; eexists _, _; split; [reflexivity|by split]|by left].
Qed.

Lemma work_loop_may count n k : ticking k → may (work_loop scheduler_is_enabled arrivals count n) ticking k.
Proof.
  revert n k. induction count as [|count IH]; intros n k Hk; [by right; eexists _, _|]. cbn [work_loop].
  destruct (sleep_may n 100 k Hk) as [Hd|(x & k1 & Hm & Hk1)].
  - left. unfold bind at 1. by rewrite Hd.
  - destruct (IH (S n) k1 Hk1) as [Hd|(y & k2 & Hm2 & Hk2)].
    + left. rewrite (bind_ok _ _ _ _ _ Hm). destruct k1. exact Hd.
    + right. exists y, k2. split; [|done]. rewrite (bind_ok _ _ _ _ _ Hm). destruct k1. exact Hm2.
Qed.

(** With interrupts off the clock stands still. *)
Lemma wait_masked (l : list bool) start ms (s : irqs heap) :
  u64 (milliseconds (g_timer_manager s) - start) < ms →
  timer_wait scheduler_is_enabled (map (λ _, false) l) start ms s = Ok (false, s).
Proof.
  intros Hms. induction l as [|b l IH]; cbn [map timer_wait]; unfold bind, timer_get_uptime_ms, gets;
    rewrite (proj2 (Z.ltb_lt _ _) Hms); done.
Qed.

Lemma sleep_masked n ms k :
  has_bits (cpu_rflags (k_irq k)) 0x200 = false → 0 < ms → sleep_ms scheduler_is_enabled arrivals n ms k = Diverge.
Proof.
  intros Hi Hms. rewrite (sleep_run n ms k false (k_irq k)); [done|]. unfold polls. rewrite Hi.
  apply wait_masked. by rewrite Z.sub_diag.
Qed.

Lemma ldiff_if x : has_bits (Z.ldiff x 0x200) 0x200 = false.
Proof.
  unfold has_bits. replace (Z.land (Z.ldiff x 0x200) 0x200) with 0; [done|]. symmetry.
  apply Z.bits_inj'. intros i Hi. rewrite Z.land_spec, Z.ldiff_spec, Z.bits_0. by destruct (Z.testbit x i), (Z.testbit 0x200 i).
Qed.

(** C15: [kernel_main] hangs.  Once the timer is set up and while the scheduler is off, whatever
    timer interrupts arrive, the main loop never reaches the scheduler demonstration or its
    idle loop: it sleeps 50 ms inside a critical section, where interrupts are disabled and
    the clock that [timer_sleep_ms] polls does not advance. *)
Theorem kernel_main_hangs k : ticking k → main_loop k = Diverge.
Proof.
  intros Hk. unfold kernel_main.
  apply (may_bind _ _ ticking).
  { right. unfold on_irq, interrupts_enable, bind, get, when, modify, ret.
    destruct (0 <? disabled_count (k_irq k)); cbn; (destruct (_ =? 0); eexists _, _; (split; [reflexivity|]; exact Hk)). }
  intros _ k1 Hk1. apply (may_bind _ _ ticking); [by right; eexists _, _|]. intros _ k2 Hk2.
  apply (may_bind _ _ ticking); [by right; eexists _, _|]. intros _ k3 Hk3.
  apply (may_bind _ _ ticking); [by apply work_loop_may|]. intros _ k4 Hk4.
  apply (may_bind _ _ (λ k, has_bits (cpu_rflags (k_irq k)) 0x200 = false)).
  { right. eexists _, _. split; [reflexivity|]. apply ldiff_if. }
  intros st k5 Hk5. unfold bind at 1. by rewrite sleep_masked.
Qed.
End theorems.

(** ** Witnesses *)
Module Sample.
(** A scheduler that is off, polls that all see the timer, and no keyboard. *)
Definition off (k : ks heap) : bool := false.
Definition busy (n : nat) : list bool := replicate 200 true.
Definition power_on : kernel :=
  mk_kernel (mk_vmm 0 0 0 0 (pmm_boot ∅)) (irqs_boot 0x202 (ks_boot (heap_boot ∅)))
    (mk_dstate zero_manager ∅ ∅ ∅ 0 (heap_boot ∅)) hal_boot panic_boot 0 false.
Definition timer_on : kernel :=
  power_on <| k_irq := (k_irq power_on) <| g_timer_manager := mk_timer 0 0 0 1000 true 0 0 |> |>.

Lemma kernel_boot_fails_witness : kernel_start (X := ()) off 0 0 0 0 0 1 busy (λ _, 0) 1 0x9000 power_on = Halted.
Proof. exact (proj2 (kernel_boot_fails off 0 0 0 0 0 1 busy (λ _, 0) power_on ∅ 0x9000 1 eq_refl ltac:(done) eq_refl)). Defined.

Lemma kernel_main_hangs_witness : kernel_main off 1 busy timer_on = Diverge.
Proof. apply (kernel_main_hangs off 1 busy timer_on). by split. Defined.

Lemma kernel_heap_unmapped_witness : vmm_get_physical (vmm_init sample_vmm).2 KERNEL_HEAP_START = 0.
Proof.
  destruct sample_vmm_avail as [Hpa Hav].
  exact (proj2 (kernel_heap_unmapped ∅ sample_vmm KERNEL_HEAP_START Hpa Hav ltac:(done))).
Defined.
End Sample.
